(** * Connection builders of the NEST kernel

    A shallow embedding of [nestkernel/conn_builder.cpp]: the builder base
    class [ConnBuilder], the constructors of the rule classes, the four
    workers of the one-to-one rule and the [connect_] workers of the
    fixed-indegree and symmetric Bernoulli rules.  The workers of the other
    rules are not embedded; what is proved about those rules concerns their
    constructors.

    Conventions of the embedding.
    - C++ [long] and [size_t] values are [Z]; where the source multiplies two
      sizes the 64-bit wrap-around is written out ([wrap_size_t], [to_long]).
    - C++ [double] values are idealised as rationals [Q]: comparisons and
      [std::round] are exact, NaN and infinities are not represented.
    - A C++ call either returns, throws, or leaves defined behaviour
      (assertion failure, division by zero, out-of-bounds write); loops whose
      termination depends on random draws carry fuel.  An [outcome] records
      which of these happened.
    - The worker threads of an [omp parallel] region only touch state that is
      indexed by their own thread id, so the region is run one thread after
      the other, in order of thread id.
    - The kernel singletons ([kernel().node_manager], [model_manager],
      [vp_manager], the random number generators) are not part of
      [conn_builder.cpp]; they are gathered in the record [Kernel]. *)

From Stdlib Require Import List ZArith QArith Qround String Ascii Bool Lia Arith.
Import ListNotations.
Local Close Scope Q_scope.

(** ** Exceptions and outcomes *)

Inductive exception : Type :=
| BadProperty (msg : string)
| NotImplemented (msg : string)
| KernelException (msg : string)
| IllegalConnection (msg : string)
| DimensionMismatch (msg : string)
| UnknownSynapseType (name : string)
| UndefinedName (name : string)
| TypeMismatch
| out_of_range (msg : string)
| WrappedThreadException (err : exception).

Inductive outcome (A : Type) : Type :=
| Ok (a : A)
| Throw (e : exception)
| Crash (why : string)
| OutOfFuel.

Arguments Ok {A} a.
Arguments Throw {A} e.
Arguments Crash {A} why.
Arguments OutOfFuel {A}.

Definition bind_outcome {A B} (r : outcome A) (f : A -> outcome B) : outcome B :=
  match r with
  | Ok a => f a
  | Throw e => Throw e
  | Crash why => Crash why
  | OutOfFuel => OutOfFuel
  end.

Declare Scope outcome_scope.
Delimit Scope outcome_scope with outcome.
Notation "x <- r ;; k" :=
  (bind_outcome r (fun x => k))
  (at level 61, r at next level, right associativity) : outcome_scope.
Notation "' pat <- r ;; k" :=
  (bind_outcome r (fun x => match x with pat => k end))
  (at level 61, pat pattern, r at next level, right associativity) : outcome_scope.

Definition is_BadProperty {A} (r : outcome A) : bool :=
  match r with
  | Throw (BadProperty _) => true
  | _ => false
  end.

Definition is_NotImplemented {A} (r : outcome A) : bool :=
  match r with
  | Throw (NotImplemented _) => true
  | _ => false
  end.

Definition is_Ok {A} (r : outcome A) : bool :=
  match r with
  | Ok _ => true
  | _ => false
  end.

(** ** Machine integers *)

Definition two64 : Z := 2 ^ 64.
Definition two63 : Z := 2 ^ 63.

(** Arithmetic on [size_t] is modulo [2^64]. *)
Definition wrap_size_t (z : Z) : Z := z mod two64.

(** [static_cast< long >] of a [size_t]. *)
Definition to_long (z : Z) : Z :=
  if (wrap_size_t z <? two63)%Z then wrap_size_t z else (wrap_size_t z - two64)%Z.

(** Conversion of a [long] to [size_t] (usual arithmetic conversions). *)
Definition to_size_t (z : Z) : Z := wrap_size_t z.

(** ** Doubles *)

Definition double := Q.
Bind Scope Q_scope with double.

Definition Qltb (x y : Q) : bool := negb (Qle_bool y x).

(** [std::round]: nearest integer, halfway cases away from zero. *)
Definition std_round (x : Q) : Z :=
  if Qle_bool 0 x then Qfloor (x + (1 # 2)) else (- Qfloor ((- x) + (1 # 2)))%Z.

(** ** Random number generators

    [RngPtr] names the stream a generator handle draws from.  The kernel
    supplies the raw numbers of every stream; a run records each draw. *)

Inductive RngPtr : Type :=
| rank_synced_rng
| vp_synced_rng (tid : nat)
| vp_specific_rng (tid : nat).

Definition get_rank_synced_rng : RngPtr := rank_synced_rng.
Definition get_vp_synced_rng (tid : nat) : RngPtr := vp_synced_rng tid.
Definition get_vp_specific_rng (tid : nat) : RngPtr := vp_specific_rng tid.

Definition RngPtr_eqb (a b : RngPtr) : bool :=
  match a, b with
  | rank_synced_rng, rank_synced_rng => true
  | vp_synced_rng i, vp_synced_rng j => Nat.eqb i j
  | vp_specific_rng i, vp_specific_rng j => Nat.eqb i j
  | _, _ => false
  end.

(** A generator that produces the same sequence on every virtual process,
    and hence on every rank. *)
Definition is_synced (r : RngPtr) : bool :=
  match r with
  | rank_synced_rng | vp_synced_rng _ => true
  | vp_specific_rng _ => false
  end.

Inductive DrawKind : Type :=
| draw_binomial      (* binomial_distribution::operator() *)
| draw_ulrand        (* rng->ulrand( n ) *)
| draw_drand         (* rng->drand() *)
| draw_parameter.    (* a distribution-backed parameter evaluated with the rng *)

Record Draw : Type := mkDraw { draw_rng : RngPtr; draw_kind : DrawKind }.

(** ** Parameters ([nest::Parameter], here [NestParameter]) *)

Inductive NestParameter : Type :=
| ConstantParameter (value : double)
| UniformParameter (min max : double).

(** ** SLI data *)

Inductive Datum : Type :=
| BoolDatum (b : bool)
| IntegerDatum (i : Z)
| DoubleDatum (d : double)
| StringDatum (s : string)
| IntVectorDatum (v : list Z)
| DoubleVectorDatum (v : list double)
| ParameterDatum (p : NestParameter).

Definition Dictionary := list (string * Datum).

Fixpoint dict_find (d : Dictionary) (n : string) : option Datum :=
  match d with
  | [] => None
  | (k, v) :: d' => if String.eqb k n then Some v else dict_find d' n
  end.

Definition known (d : Dictionary) (n : string) : bool :=
  match dict_find d n with Some _ => true | None => false end.

(** [( *d )[ n ]] on a constant dictionary. *)
Definition dict_get (d : Dictionary) (n : string) : outcome Datum :=
  match dict_find d n with
  | Some v => Ok v
  | None => Throw (UndefinedName n)
  end.

(** [( *d )[ n ] = v]: replaces the entry or appends it. *)
Fixpoint dict_set (d : Dictionary) (n : string) (v : Datum) : Dictionary :=
  match d with
  | [] => [(n, v)]
  | (k, w) :: d' => if String.eqb k n then (k, v) :: d' else (k, w) :: dict_set d' n v
  end.

Definition getValue_bool (t : Datum) : outcome bool :=
  match t with BoolDatum b => Ok b | _ => Throw TypeMismatch end.
Definition getValue_long (t : Datum) : outcome Z :=
  match t with IntegerDatum i => Ok i | _ => Throw TypeMismatch end.
Definition getValue_double (t : Datum) : outcome double :=
  match t with DoubleDatum x => Ok x | _ => Throw TypeMismatch end.
Definition getValue_string (t : Datum) : outcome string :=
  match t with StringDatum s => Ok s | _ => Throw TypeMismatch end.

(** [updateValue< T >( d, n, x )]: when [n] is known, [x] takes its value;
    the result tells whether it was. *)
Definition updateValue {T} (get : Datum -> outcome T) (d : Dictionary) (n : string)
    (x : T) : outcome (T * bool) :=
  match dict_find d n with
  | Some t => bind_outcome (get t) (fun v => Ok (v, true))
  | None => Ok (x, false)
  end.

Module names.
Definition allow_autapses : string := "allow_autapses".
Definition allow_multapses : string := "allow_multapses".
Definition make_symmetric : string := "make_symmetric".
Definition weight : string := "weight".
Definition delay : string := "delay".
Definition min_delay : string := "min_delay".
Definition max_delay : string := "max_delay".
Definition num_connections : string := "num_connections".
Definition synapse_model : string := "synapse_model".
Definition pre_synaptic_element : string := "pre_synaptic_element".
Definition post_synaptic_element : string := "post_synaptic_element".
Definition indegree : string := "indegree".
Definition outdegree : string := "outdegree".
Definition N : string := "N".
Definition p : string := "p".
Definition p_primary : string := "p_primary".
Definition p_third_if_primary : string := "p_third_if_primary".
Definition pool_size : string := "pool_size".
Definition pool_type : string := "pool_type".
Definition primary : string := "primary".
Definition third_in : string := "third_in".
Definition third_out : string := "third_out".
End names.

(** ** Node collections *)

Record NodeCollection : Type := mkNodeCollection {
  node_ids : list Z;      (* the node ids, in collection order *)
  is_range : bool;        (* a contiguous primitive collection *)
  valid : bool            (* created under the current kernel state *)
}.

Definition nc_size (c : NodeCollection) : Z := Z.of_nat (List.length (node_ids c)).

(** [( *c )[ idx ]]; an index outside the collection raises
    [std::out_of_range]. *)
Definition nc_at (c : NodeCollection) (idx : Z) : outcome Z :=
  if (idx <? 0)%Z then Throw (out_of_range "pos points outside of the NodeCollection")
  else match nth_error (node_ids c) (Z.to_nat idx) with
       | Some id => Ok id
       | None => Throw (out_of_range "pos points outside of the NodeCollection")
       end.

Fixpoint find_lid (ids : list Z) (id : Z) (pos : Z) : Z :=
  match ids with
  | [] => (-1)%Z
  | x :: ids' => if (x =? id)%Z then pos else find_lid ids' id (pos + 1)%Z
  end.

(** [c->get_lid( id )]: the position of [id] in the collection, or [-1]. *)
Definition get_lid (c : NodeCollection) (id : Z) : Z := find_lid (node_ids c) id 0%Z.

(** ** Nodes *)

Record Node : Type := mkNode {
  get_node_id : Z;
  get_thread : nat;
  is_proxy : bool;
  has_proxies : bool
}.

(** ** The kernel, as far as the builders use it *)

Record Kernel : Type := mkKernel {
  get_num_threads : nat;                                   (* vp_manager *)
  node_manager_size : Z;                                   (* node_manager.size() *)
  get_node_or_proxy : Z -> nat -> Node;                    (* node_manager *)
  get_local_nodes : nat -> list Node;                      (* node_manager *)
  is_local_node_id : Z -> bool;                            (* node_manager *)
  get_synapse_model_id : string -> option nat;             (* model_manager *)
  get_connector_defaults : nat -> Dictionary;              (* model_manager *)
  check_synapse_params : nat -> Dictionary -> option exception;
  requires_symmetric : nat -> bool;                        (* REQUIRES_SYMMETRIC *)
  connection_refused : Z -> Node -> nat -> option exception; (* connection_manager.connect *)
  rng_stream : RngPtr -> nat -> Z                          (* raw numbers of a stream *)
}.

(** ** Vectors *)

(** [v[ i ] = x] for [i] inside the vector. *)
Fixpoint vector_set {A} (v : list A) (i : nat) (x : A) : list A :=
  match v, i with
  | [], _ => []
  | _ :: v', O => x :: v'
  | y :: v', S i' => y :: vector_set v' i' x
  end.

(** Reading [v[ i ]]; outside the vector the behaviour is undefined. *)
Definition vector_get {A} (v : list A) (i : nat) (what : string) : outcome A :=
  match nth_error v i with
  | Some x => Ok x
  | None => Crash what
  end.

(** ** Connection parameters

    Modelled from the spec: [ConnParameter] and its subclasses are declared in
    [conn_parameter.h], which is not among the sources.  A parameter is a
    constant scalar, an array with one cursor per thread that advances on
    every [value] or [skip], or a wrapper around a [NestParameter] that is
    sampled with the generator it is given. *)

Inductive ConnParameter : Type :=
| ScalarDoubleParameter (value : double)
| ScalarIntegerParameter (value : Z)
| ArrayDoubleParameter (values : list double) (next_ : list nat)
| ArrayIntegerParameter (values : list Z) (next_ : list nat)
| ParameterConnParameterWrapper (parameter : NestParameter).

Definition ConnParameterMap := list (string * ConnParameter).

Definition ConnParameter_create (t : Datum) (nthreads : nat) : outcome ConnParameter :=
  match t with
  | DoubleDatum d => Ok (ScalarDoubleParameter d)
  | IntegerDatum i => Ok (ScalarIntegerParameter i)
  | DoubleVectorDatum v => Ok (ArrayDoubleParameter v (repeat 0 nthreads))
  | IntVectorDatum v => Ok (ArrayIntegerParameter v (repeat 0 nthreads))
  | ParameterDatum p => Ok (ParameterConnParameterWrapper p)
  | _ => Throw (BadProperty "Cannot handle parameter type.")
  end.

Definition is_scalar (p : ConnParameter) : bool :=
  match p with
  | ScalarDoubleParameter _ | ScalarIntegerParameter _ => true
  | _ => false
  end.

Definition is_array (p : ConnParameter) : bool :=
  match p with
  | ArrayDoubleParameter _ _ | ArrayIntegerParameter _ _ => true
  | _ => false
  end.

Definition provides_long (p : ConnParameter) : bool :=
  match p with
  | ScalarIntegerParameter _ | ArrayIntegerParameter _ _ => true
  | _ => false
  end.

(** [p->reset()]: array cursors return to the start; a parameter that is
    sampled cannot be replayed and refuses. *)
Definition ConnParameter_reset (p : ConnParameter) : outcome ConnParameter :=
  match p with
  | ScalarDoubleParameter v => Ok (ScalarDoubleParameter v)
  | ScalarIntegerParameter v => Ok (ScalarIntegerParameter v)
  | ArrayDoubleParameter vs next => Ok (ArrayDoubleParameter vs (map (fun _ => 0) next))
  | ArrayIntegerParameter vs next => Ok (ArrayIntegerParameter vs (map (fun _ => 0) next))
  | ParameterConnParameterWrapper _ =>
      Throw (NotImplemented
        "Symmetric connections are only possible with constant weights, delays and parameters.")
  end.

(** [p->skip( tid, n_skip )]. *)
Definition ConnParameter_skip (p : ConnParameter) (tid : nat) (n_skip : Z) : ConnParameter :=
  let advance next :=
    match nth_error next tid with
    | Some pos => vector_set next tid (pos + Z.to_nat n_skip)
    | None => next
    end in
  match p with
  | ArrayDoubleParameter vs next => ArrayDoubleParameter vs (advance next)
  | ArrayIntegerParameter vs next => ArrayIntegerParameter vs (advance next)
  | _ => p
  end.

(** References to the parameters a builder owns: the entries of
    [parameters_requiring_skipping_] point into [weights_], [delays_] and
    [synapse_params_]. *)
Inductive ParamRef : Type :=
| weight_ref (synapse_indx : nat)
| delay_ref (synapse_indx : nat)
| synapse_param_ref (synapse_indx : nat) (name : string).

(** ** The builder base class *)

Record ConnBuilder : Type := mkConnBuilder {
  sources_ : NodeCollection;
  targets_ : NodeCollection;
  allow_autapses_ : bool;
  allow_multapses_ : bool;
  make_symmetric_ : bool;
  creates_symmetric_connections_ : bool;
  exceptions_raised_ : list (option exception);
  synapse_model_id_ : list nat;
  param_dicts_ : list (list Dictionary);
  use_structural_plasticity_ : bool;
  pre_synaptic_element_name_ : string;
  post_synaptic_element_name_ : string;
  default_weight_and_delay_ : list bool;
  default_weight_ : list bool;
  default_delay_ : list bool;
  weights_ : list (option ConnParameter);
  delays_ : list (option ConnParameter);
  synapse_params_ : list ConnParameterMap;
  parameters_requiring_skipping_ : list ParamRef
}.

Definition set_sources_ (x : NodeCollection) (b : ConnBuilder) : ConnBuilder :=
  match b with mkConnBuilder _ f1 f2 f3 f4 f5 f6 f7 f8 f9 f10 f11 f12 f13 f14 f15 f16 f17 f18 =>
    mkConnBuilder x f1 f2 f3 f4 f5 f6 f7 f8 f9 f10 f11 f12 f13 f14 f15 f16 f17 f18 end.

Definition set_targets_ (x : NodeCollection) (b : ConnBuilder) : ConnBuilder :=
  match b with mkConnBuilder f0 _ f2 f3 f4 f5 f6 f7 f8 f9 f10 f11 f12 f13 f14 f15 f16 f17 f18 =>
    mkConnBuilder f0 x f2 f3 f4 f5 f6 f7 f8 f9 f10 f11 f12 f13 f14 f15 f16 f17 f18 end.

Definition set_allow_autapses_ (x : bool) (b : ConnBuilder) : ConnBuilder :=
  match b with mkConnBuilder f0 f1 _ f3 f4 f5 f6 f7 f8 f9 f10 f11 f12 f13 f14 f15 f16 f17 f18 =>
    mkConnBuilder f0 f1 x f3 f4 f5 f6 f7 f8 f9 f10 f11 f12 f13 f14 f15 f16 f17 f18 end.

Definition set_allow_multapses_ (x : bool) (b : ConnBuilder) : ConnBuilder :=
  match b with mkConnBuilder f0 f1 f2 _ f4 f5 f6 f7 f8 f9 f10 f11 f12 f13 f14 f15 f16 f17 f18 =>
    mkConnBuilder f0 f1 f2 x f4 f5 f6 f7 f8 f9 f10 f11 f12 f13 f14 f15 f16 f17 f18 end.

Definition set_make_symmetric_ (x : bool) (b : ConnBuilder) : ConnBuilder :=
  match b with mkConnBuilder f0 f1 f2 f3 _ f5 f6 f7 f8 f9 f10 f11 f12 f13 f14 f15 f16 f17 f18 =>
    mkConnBuilder f0 f1 f2 f3 x f5 f6 f7 f8 f9 f10 f11 f12 f13 f14 f15 f16 f17 f18 end.

Definition set_creates_symmetric_connections_ (x : bool) (b : ConnBuilder) : ConnBuilder :=
  match b with mkConnBuilder f0 f1 f2 f3 f4 _ f6 f7 f8 f9 f10 f11 f12 f13 f14 f15 f16 f17 f18 =>
    mkConnBuilder f0 f1 f2 f3 f4 x f6 f7 f8 f9 f10 f11 f12 f13 f14 f15 f16 f17 f18 end.

Definition set_exceptions_raised_ (x : list (option exception)) (b : ConnBuilder) : ConnBuilder :=
  match b with mkConnBuilder f0 f1 f2 f3 f4 f5 _ f7 f8 f9 f10 f11 f12 f13 f14 f15 f16 f17 f18 =>
    mkConnBuilder f0 f1 f2 f3 f4 f5 x f7 f8 f9 f10 f11 f12 f13 f14 f15 f16 f17 f18 end.

Definition set_synapse_model_id_ (x : list nat) (b : ConnBuilder) : ConnBuilder :=
  match b with mkConnBuilder f0 f1 f2 f3 f4 f5 f6 _ f8 f9 f10 f11 f12 f13 f14 f15 f16 f17 f18 =>
    mkConnBuilder f0 f1 f2 f3 f4 f5 f6 x f8 f9 f10 f11 f12 f13 f14 f15 f16 f17 f18 end.

Definition set_param_dicts_ (x : list (list Dictionary)) (b : ConnBuilder) : ConnBuilder :=
  match b with mkConnBuilder f0 f1 f2 f3 f4 f5 f6 f7 _ f9 f10 f11 f12 f13 f14 f15 f16 f17 f18 =>
    mkConnBuilder f0 f1 f2 f3 f4 f5 f6 f7 x f9 f10 f11 f12 f13 f14 f15 f16 f17 f18 end.

Definition set_use_structural_plasticity_ (x : bool) (b : ConnBuilder) : ConnBuilder :=
  match b with mkConnBuilder f0 f1 f2 f3 f4 f5 f6 f7 f8 _ f10 f11 f12 f13 f14 f15 f16 f17 f18 =>
    mkConnBuilder f0 f1 f2 f3 f4 f5 f6 f7 f8 x f10 f11 f12 f13 f14 f15 f16 f17 f18 end.

Definition set_pre_synaptic_element_name_ (x : string) (b : ConnBuilder) : ConnBuilder :=
  match b with mkConnBuilder f0 f1 f2 f3 f4 f5 f6 f7 f8 f9 _ f11 f12 f13 f14 f15 f16 f17 f18 =>
    mkConnBuilder f0 f1 f2 f3 f4 f5 f6 f7 f8 f9 x f11 f12 f13 f14 f15 f16 f17 f18 end.

Definition set_post_synaptic_element_name_ (x : string) (b : ConnBuilder) : ConnBuilder :=
  match b with mkConnBuilder f0 f1 f2 f3 f4 f5 f6 f7 f8 f9 f10 _ f12 f13 f14 f15 f16 f17 f18 =>
    mkConnBuilder f0 f1 f2 f3 f4 f5 f6 f7 f8 f9 f10 x f12 f13 f14 f15 f16 f17 f18 end.

Definition set_default_weight_and_delay_ (x : list bool) (b : ConnBuilder) : ConnBuilder :=
  match b with mkConnBuilder f0 f1 f2 f3 f4 f5 f6 f7 f8 f9 f10 f11 _ f13 f14 f15 f16 f17 f18 =>
    mkConnBuilder f0 f1 f2 f3 f4 f5 f6 f7 f8 f9 f10 f11 x f13 f14 f15 f16 f17 f18 end.

Definition set_default_weight_ (x : list bool) (b : ConnBuilder) : ConnBuilder :=
  match b with mkConnBuilder f0 f1 f2 f3 f4 f5 f6 f7 f8 f9 f10 f11 f12 _ f14 f15 f16 f17 f18 =>
    mkConnBuilder f0 f1 f2 f3 f4 f5 f6 f7 f8 f9 f10 f11 f12 x f14 f15 f16 f17 f18 end.

Definition set_default_delay_ (x : list bool) (b : ConnBuilder) : ConnBuilder :=
  match b with mkConnBuilder f0 f1 f2 f3 f4 f5 f6 f7 f8 f9 f10 f11 f12 f13 _ f15 f16 f17 f18 =>
    mkConnBuilder f0 f1 f2 f3 f4 f5 f6 f7 f8 f9 f10 f11 f12 f13 x f15 f16 f17 f18 end.

Definition set_weights_ (x : list (option ConnParameter)) (b : ConnBuilder) : ConnBuilder :=
  match b with mkConnBuilder f0 f1 f2 f3 f4 f5 f6 f7 f8 f9 f10 f11 f12 f13 f14 _ f16 f17 f18 =>
    mkConnBuilder f0 f1 f2 f3 f4 f5 f6 f7 f8 f9 f10 f11 f12 f13 f14 x f16 f17 f18 end.

Definition set_delays_ (x : list (option ConnParameter)) (b : ConnBuilder) : ConnBuilder :=
  match b with mkConnBuilder f0 f1 f2 f3 f4 f5 f6 f7 f8 f9 f10 f11 f12 f13 f14 f15 _ f17 f18 =>
    mkConnBuilder f0 f1 f2 f3 f4 f5 f6 f7 f8 f9 f10 f11 f12 f13 f14 f15 x f17 f18 end.

Definition set_synapse_params_ (x : list ConnParameterMap) (b : ConnBuilder) : ConnBuilder :=
  match b with mkConnBuilder f0 f1 f2 f3 f4 f5 f6 f7 f8 f9 f10 f11 f12 f13 f14 f15 f16 _ f18 =>
    mkConnBuilder f0 f1 f2 f3 f4 f5 f6 f7 f8 f9 f10 f11 f12 f13 f14 f15 f16 x f18 end.

Definition set_parameters_requiring_skipping_ (x : list ParamRef) (b : ConnBuilder) : ConnBuilder :=
  match b with mkConnBuilder f0 f1 f2 f3 f4 f5 f6 f7 f8 f9 f10 f11 f12 f13 f14 f15 f16 f17 _ =>
    mkConnBuilder f0 f1 f2 f3 f4 f5 f6 f7 f8 f9 f10 f11 f12 f13 f14 f15 f16 f17 x end.

(** ** Construction of the base class *)

Section Construction.

Variable K : Kernel.

Local Open Scope outcome_scope.

(** Synapse parameters that are not set through [synapse_params_]. *)
Definition skip_syn_params_ : list string :=
  [ names.weight; names.delay; names.min_delay; names.max_delay;
    names.num_connections; names.synapse_model ].

(** Modelled from the spec: [register_parameters_requiring_skipping_] is
    defined in [conn_builder.h]; array-indexed parameters are the ones
    registered as requiring skipping. *)
Definition register_parameters_requiring_skipping_ (r : ParamRef) (param : ConnParameter)
    (b : ConnBuilder) : ConnBuilder :=
  if is_array param
  then set_parameters_requiring_skipping_ (parameters_requiring_skipping_ b ++ [r]) b
  else b.

(** [kernel().model_manager.get_synapse_model_id( name )]. *)
Definition synapse_model_id_of (name : string) : outcome nat :=
  match get_synapse_model_id K name with
  | Some id => Ok id
  | None => Throw (UnknownSynapseType name)
  end.

Definition set_synapse_model_ (syn_params : Dictionary) (synapse_indx : nat)
    (b : ConnBuilder) : outcome ConnBuilder :=
  if negb (known syn_params names.synapse_model)
  then Throw (BadProperty "Synapse spec must contain synapse model.")
  else
    t <- dict_get syn_params names.synapse_model ;;
    syn_name <- getValue_string t ;;
    synapse_model_id <- synapse_model_id_of syn_name ;;
    let b := set_synapse_model_id_
               (vector_set (synapse_model_id_ b) synapse_indx synapse_model_id) b in
    match check_synapse_params K synapse_model_id syn_params with
    | Some e => Throw e
    | None => Ok b
    end.

(** [syn_params->known( n ) ? create( syn_params[ n ] ) : create( syn_defaults[ n ] )]. *)
Definition create_from_spec_or_default (syn_params syn_defaults : Dictionary) (n : string)
    : outcome ConnParameter :=
  t <- (if known syn_params n then dict_get syn_params n else dict_get syn_defaults n) ;;
  ConnParameter_create t (get_num_threads K).

Definition set_default_weight_or_delay_ (syn_params : Dictionary) (synapse_indx : nat)
    (b : ConnBuilder) : outcome ConnBuilder :=
  id <- vector_get (synapse_model_id_ b) synapse_indx "synapse_model_id_[ synapse_indx ]" ;;
  let syn_defaults := get_connector_defaults K id in
  let dw := negb (known syn_params names.weight) in
  let dd := negb (known syn_params names.delay) in
  let dwd := dw && dd in
  let b := set_default_weight_ (vector_set (default_weight_ b) synapse_indx dw) b in
  let b := set_default_delay_ (vector_set (default_delay_ b) synapse_indx dd) b in
  let b := set_default_weight_and_delay_
             (vector_set (default_weight_and_delay_ b) synapse_indx dwd) b in
  b <- (if negb dwd then
          w <- create_from_spec_or_default syn_params syn_defaults names.weight ;;
          let b := set_weights_ (vector_set (weights_ b) synapse_indx (Some w)) b in
          let b := register_parameters_requiring_skipping_ (weight_ref synapse_indx) w b in
          d <- create_from_spec_or_default syn_params syn_defaults names.delay ;;
          Ok (set_delays_ (vector_set (delays_ b) synapse_indx (Some d)) b)
        else if dw then
          d <- create_from_spec_or_default syn_params syn_defaults names.delay ;;
          Ok (set_delays_ (vector_set (delays_ b) synapse_indx (Some d)) b)
        else Ok b) ;;
  d <- vector_get (delays_ b) synapse_indx "delays_[ synapse_indx ]" ;;
  match d with
  | Some d => Ok (register_parameters_requiring_skipping_ (delay_ref synapse_indx) d b)
  | None => Crash "*delays_[ synapse_indx ]"
  end.

(** [m[ n ] = p] on a [ConnParameterMap]. *)
Fixpoint params_set (m : ConnParameterMap) (n : string) (p : ConnParameter)
    : ConnParameterMap :=
  match m with
  | [] => [(n, p)]
  | (k, q) :: m' => if String.eqb k n then (k, p) :: m' else (k, q) :: params_set m' n p
  end.

(** The first loop of [set_synapse_params], over the entries of the defaults. *)
Fixpoint set_synapse_params_entries (entries syn_params : Dictionary) (synapse_indx : nat)
    (b : ConnBuilder) : outcome ConnBuilder :=
  match entries with
  | [] => Ok b
  | (param_name, _) :: rest =>
      if existsb (String.eqb param_name) skip_syn_params_
      then set_synapse_params_entries rest syn_params synapse_indx b
      else if known syn_params param_name then
        t <- dict_get syn_params param_name ;;
        p <- ConnParameter_create t (get_num_threads K) ;;
        m <- vector_get (synapse_params_ b) synapse_indx "synapse_params_[ synapse_indx ]" ;;
        let b := set_synapse_params_
                   (vector_set (synapse_params_ b) synapse_indx (params_set m param_name p)) b in
        let b := register_parameters_requiring_skipping_
                   (synapse_param_ref synapse_indx param_name) p b in
        set_synapse_params_entries rest syn_params synapse_indx b
      else set_synapse_params_entries rest syn_params synapse_indx b
  end.

(** The dictionary with dummy values created once per thread. *)
Definition dummy_param_dict (params : ConnParameterMap) : Dictionary :=
  fold_left
    (fun d (np : string * ConnParameter) =>
       dict_set d (fst np) (if provides_long (snd np) then IntegerDatum 0 else DoubleDatum 0))
    params [].

Definition set_synapse_params (syn_defaults syn_params : Dictionary) (synapse_indx : nat)
    (b : ConnBuilder) : outcome ConnBuilder :=
  b <- set_synapse_params_entries syn_defaults syn_params synapse_indx b ;;
  m <- vector_get (synapse_params_ b) synapse_indx "synapse_params_[ synapse_indx ]" ;;
  ds <- vector_get (param_dicts_ b) synapse_indx "param_dicts_[ synapse_indx ]" ;;
  Ok (set_param_dicts_
        (vector_set (param_dicts_ b) synapse_indx
           (ds ++ repeat (dummy_param_dict m) (get_num_threads K))) b).

Definition getValue_string_from (d : Dictionary) (n : string) : outcome string :=
  t <- dict_get d n ;; getValue_string t.

Definition set_structural_plasticity_parameters (syn_specs : list Dictionary)
    (b : ConnBuilder) : outcome ConnBuilder :=
  let have_structural_plasticity_parameters :=
    existsb (fun syn_spec => known syn_spec names.pre_synaptic_element
                             || known syn_spec names.post_synaptic_element) syn_specs in
  if negb have_structural_plasticity_parameters then Ok b
  else if (1 <? List.length syn_specs)%nat
  then Throw (KernelException "Structural plasticity can only be used with a single syn_spec.")
  else match syn_specs with
       | [] => Crash "syn_specs[ 0 ]"
       | syn_spec :: _ =>
           if xorb (known syn_spec names.pre_synaptic_element)
                   (known syn_spec names.post_synaptic_element)
           then Throw (BadProperty
                  "Structural plasticity requires both a pre- and postsynaptic element.")
           else
             pre <- getValue_string_from syn_spec names.pre_synaptic_element ;;
             post <- getValue_string_from syn_spec names.post_synaptic_element ;;
             Ok (set_use_structural_plasticity_ true
                   (set_post_synaptic_element_name_ post
                      (set_pre_synaptic_element_name_ pre b)))
       end.

(** Resetting a vector of optional parameters ([if ( weight ) weight->reset()]). *)
Fixpoint reset_optional (ps : list (option ConnParameter))
    : outcome (list (option ConnParameter)) :=
  match ps with
  | [] => Ok []
  | None :: ps' => ps'' <- reset_optional ps' ;; Ok (None :: ps'')
  | Some p :: ps' =>
      p' <- ConnParameter_reset p ;;
      ps'' <- reset_optional ps' ;;
      Ok (Some p' :: ps'')
  end.

Definition reset_weights_ (b : ConnBuilder) : outcome ConnBuilder :=
  ws <- reset_optional (weights_ b) ;; Ok (set_weights_ ws b).

Definition reset_delays_ (b : ConnBuilder) : outcome ConnBuilder :=
  ds <- reset_optional (delays_ b) ;; Ok (set_delays_ ds b).

Fixpoint reset_map (m : ConnParameterMap) : outcome ConnParameterMap :=
  match m with
  | [] => Ok []
  | (n, p) :: m' =>
      p' <- ConnParameter_reset p ;;
      m'' <- reset_map m' ;;
      Ok ((n, p') :: m'')
  end.

Fixpoint reset_maps (ms : list ConnParameterMap) : outcome (list ConnParameterMap) :=
  match ms with
  | [] => Ok []
  | m :: ms' =>
      m' <- reset_map m ;;
      ms'' <- reset_maps ms' ;;
      Ok (m' :: ms'')
  end.

(** The loop [for ( auto params : synapse_params_ ) ... ->reset()]. *)
Definition reset_synapse_params (b : ConnBuilder) : outcome ConnBuilder :=
  ms <- reset_maps (synapse_params_ b) ;; Ok (set_synapse_params_ ms b).

(** "call reset on all parameters": weights, delays, synapse parameters. *)
Definition reset_all_parameters (b : ConnBuilder) : outcome ConnBuilder :=
  b <- reset_weights_ b ;;
  b <- reset_delays_ b ;;
  reset_synapse_params b.

(** The loop of the constructor over the synapse specifications. *)
Fixpoint set_synapse_specs (syn_specs : list Dictionary) (synapse_indx : nat)
    (b : ConnBuilder) : outcome ConnBuilder :=
  match syn_specs with
  | [] => Ok b
  | syn_params :: rest =>
      b <- set_synapse_model_ syn_params synapse_indx b ;;
      b <- set_default_weight_or_delay_ syn_params synapse_indx b ;;
      id <- vector_get (synapse_model_id_ b) synapse_indx "synapse_model_id_[ synapse_indx ]" ;;
      let syn_defaults := get_connector_defaults K id in
      b <- set_synapse_params syn_defaults syn_params synapse_indx b ;;
      set_synapse_specs rest (S synapse_indx) b
  end.

(** The member initialisers of [ConnBuilder::ConnBuilder]. *)
Definition ConnBuilder_init (sources targets : NodeCollection) : ConnBuilder :=
  {| sources_ := sources;
     targets_ := targets;
     allow_autapses_ := true;
     allow_multapses_ := true;
     make_symmetric_ := false;
     creates_symmetric_connections_ := false;
     exceptions_raised_ := repeat None (get_num_threads K);
     synapse_model_id_ := [];
     param_dicts_ := [];
     use_structural_plasticity_ := false;
     pre_synaptic_element_name_ := "";
     post_synaptic_element_name_ := "";
     default_weight_and_delay_ := [];
     default_weight_ := [];
     default_delay_ := [];
     weights_ := [];
     delays_ := [];
     synapse_params_ := [];
     parameters_requiring_skipping_ := [] |}.

(** [ConnBuilder::ConnBuilder( sources, targets, conn_spec, syn_specs )]. *)
Definition ConnBuilder_ctor (sources targets : NodeCollection) (conn_spec : Dictionary)
    (syn_specs : list Dictionary) : outcome ConnBuilder :=
  let b := ConnBuilder_init sources targets in
  ' (aa, _) <- updateValue getValue_bool conn_spec names.allow_autapses (allow_autapses_ b) ;;
  let b := set_allow_autapses_ aa b in
  ' (am, _) <- updateValue getValue_bool conn_spec names.allow_multapses (allow_multapses_ b) ;;
  let b := set_allow_multapses_ am b in
  ' (ms, _) <- updateValue getValue_bool conn_spec names.make_symmetric (make_symmetric_ b) ;;
  let b := set_make_symmetric_ ms b in
  let n := List.length syn_specs in
  let b := set_default_weight_ (repeat false n) b in
  let b := set_default_delay_ (repeat false n) b in
  let b := set_default_weight_and_delay_ (repeat false n) b in
  let b := set_weights_ (repeat None n) b in
  let b := set_delays_ (repeat None n) b in
  let b := set_synapse_params_ (repeat [] n) b in
  let b := set_synapse_model_id_ (repeat 0 n) b in
  static_id <- synapse_model_id_of "static_synapse" ;;
  b <- match n with
       | O => Crash "synapse_model_id_[ 0 ]"
       | S _ => Ok (set_synapse_model_id_ (vector_set (synapse_model_id_ b) 0 static_id) b)
       end ;;
  let b := set_param_dicts_ (repeat [] n) b in
  b <- set_synapse_specs syn_specs 0 b ;;
  b <- set_structural_plasticity_parameters syn_specs b ;;
  b <- (if make_symmetric_ b then reset_all_parameters b else Ok b) ;;
  if negb (valid (sources_ b) && valid (targets_ b))
  then Throw (KernelException
         "InvalidNodeCollection: sources and targets must be valid NodeCollections.")
  else Ok b.

End Construction.

(** ** Construction of the rule classes *)

(** Messages passed to [LOG]. *)
Inductive severity_t : Type := M_WARNING.

Record LogEntry : Type := mkLogEntry {
  log_severity : severity_t;
  log_function : string;
  log_message : string
}.

Record OneToOneBuilder : Type := mkOneToOneBuilder {
  one_to_one_base : ConnBuilder
}.

Record FixedInDegreeBuilder : Type := mkFixedInDegreeBuilder {
  fixed_indegree_base : ConnBuilder;
  indegree_ : NestParameter
}.

Record FixedOutDegreeBuilder : Type := mkFixedOutDegreeBuilder {
  fixed_outdegree_base : ConnBuilder;
  outdegree_ : NestParameter
}.

Record FixedTotalNumberBuilder : Type := mkFixedTotalNumberBuilder {
  fixed_total_number_base : ConnBuilder;
  N_ : Z
}.

Record BernoulliBuilder : Type := mkBernoulliBuilder {
  bernoulli_base : ConnBuilder;
  bernoulli_p_ : NestParameter
}.

Record SymmetricBernoulliBuilder : Type := mkSymmetricBernoulliBuilder {
  symmetric_bernoulli_base : ConnBuilder;
  symmetric_bernoulli_p_ : double
}.

Record AuxiliaryBuilder : Type := mkAuxiliaryBuilder {
  auxiliary_base : ConnBuilder
}.

Record TripartiteBernoulliWithPoolBuilder : Type := mkTripartiteBernoulliWithPoolBuilder {
  tripartite_base : ConnBuilder;
  third_ : NodeCollection;
  third_in_builder_ : AuxiliaryBuilder;
  third_out_builder_ : AuxiliaryBuilder;
  p_primary_ : double;
  p_third_if_primary_ : double;
  random_pool_ : bool;
  pool_size_ : Z;
  targets_per_third_ : Z
}.

Record SPBuilder : Type := mkSPBuilder {
  sp_base : ConnBuilder
}.

Section RuleConstruction.

Variable K : Kernel.

Local Open Scope outcome_scope.
Local Open Scope Z_scope.

Definition OneToOneBuilder_ctor (sources targets : NodeCollection) (conn_spec : Dictionary)
    (syn_specs : list Dictionary) : outcome OneToOneBuilder :=
  b <- ConnBuilder_ctor K sources targets conn_spec syn_specs ;;
  if negb (nc_size (sources_ b) =? nc_size (targets_ b))
  then Throw (DimensionMismatch "Source and Target population must be of the same size.")
  else Ok (mkOneToOneBuilder b).

Definition indegree_warning_infinite_loop : LogEntry :=
  mkLogEntry M_WARNING "FixedInDegreeBuilder::connect"
    "Multapses and autapses prohibited. When the sources and the targets have a non-empty intersection, the connect algorithm will enter an infinite loop.".

Definition indegree_warning_long_times : LogEntry :=
  mkLogEntry M_WARNING "FixedInDegreeBuilder::connect"
    "Multapses are prohibited and you request more than 90% connectivity. Expect long connecting times!".

(** The constructor returns its outcome together with the messages it logged. *)
Definition FixedInDegreeBuilder_ctor (sources targets : NodeCollection)
    (conn_spec : Dictionary) (syn_specs : list Dictionary)
    : outcome FixedInDegreeBuilder * list LogEntry :=
  match ConnBuilder_ctor K sources targets conn_spec syn_specs with
  | Ok b =>
      let n_sources := to_long (nc_size (sources_ b)) in
      if n_sources =? 0
      then (Throw (BadProperty "Source array must not be empty."), [])
      else
        match dict_get conn_spec names.indegree with
        | Ok (ParameterDatum pd) =>
            (* TODO: Checks of parameter range *)
            (Ok (mkFixedInDegreeBuilder b pd), [])
        | Ok t =>
            (* Assume indegree is a scalar *)
            match getValue_long t with
            | Ok value =>
                let built := mkFixedInDegreeBuilder b (ConstantParameter (inject_Z value)) in
                if negb (allow_multapses_ b) then
                  if value >? n_sources
                  then (Throw (BadProperty "Indegree cannot be larger than population size."), [])
                  else if (value =? n_sources) && negb (allow_autapses_ b)
                  then (Ok built, [indegree_warning_infinite_loop])        (* return; *)
                  else
                    let logged :=
                      if Qltb ((9 # 10) * inject_Z n_sources) (inject_Z value)
                      then [indegree_warning_long_times] else [] in
                    if value <? 0
                    then (Throw (BadProperty "Indegree cannot be less than zero."), logged)
                    else (Ok built, logged)
                else
                  if value <? 0
                  then (Throw (BadProperty "Indegree cannot be less than zero."), [])
                  else (Ok built, [])
            | Throw e => (Throw e, [])
            | Crash why => (Crash why, [])
            | OutOfFuel => (OutOfFuel, [])
            end
        | Throw e => (Throw e, [])
        | Crash why => (Crash why, [])
        | OutOfFuel => (OutOfFuel, [])
        end
  | Throw e => (Throw e, [])
  | Crash why => (Crash why, [])
  | OutOfFuel => (OutOfFuel, [])
  end.

Definition outdegree_warning_infinite_loop : LogEntry :=
  mkLogEntry M_WARNING "FixedOutDegreeBuilder::connect"
    "Multapses and autapses prohibited. When the sources and the targets have a non-empty intersection, the connect algorithm will enter an infinite loop.".

Definition outdegree_warning_long_times : LogEntry :=
  mkLogEntry M_WARNING "FixedOutDegreeBuilder::connect"
    "Multapses are prohibited and you request more than 90% connectivity. Expect long connecting times!".

Definition FixedOutDegreeBuilder_ctor (sources targets : NodeCollection)
    (conn_spec : Dictionary) (syn_specs : list Dictionary)
    : outcome FixedOutDegreeBuilder * list LogEntry :=
  match ConnBuilder_ctor K sources targets conn_spec syn_specs with
  | Ok b =>
      let n_targets := to_long (nc_size (targets_ b)) in
      if n_targets =? 0
      then (Throw (BadProperty "Target array must not be empty."), [])
      else
        match dict_get conn_spec names.outdegree with
        | Ok (ParameterDatum pd) =>
            (* TODO: Checks of parameter range *)
            (Ok (mkFixedOutDegreeBuilder b pd), [])
        | Ok t =>
            (* Assume outdegree is a scalar *)
            match getValue_long t with
            | Ok value =>
                let built := mkFixedOutDegreeBuilder b (ConstantParameter (inject_Z value)) in
                if negb (allow_multapses_ b) then
                  if value >? n_targets
                  then (Throw (BadProperty "Outdegree cannot be larger than population size."), [])
                  else if (value =? n_targets) && negb (allow_autapses_ b)
                  then (Ok built, [outdegree_warning_infinite_loop])       (* return; *)
                  else
                    let logged :=
                      if Qltb ((9 # 10) * inject_Z n_targets) (inject_Z value)
                      then [outdegree_warning_long_times] else [] in
                    if value <? 0
                    then (Throw (BadProperty "Outdegree cannot be less than zero."), logged)
                    else (Ok built, logged)
                else
                  if value <? 0
                  then (Throw (BadProperty "Outdegree cannot be less than zero."), [])
                  else (Ok built, [])
            | Throw e => (Throw e, [])
            | Crash why => (Crash why, [])
            | OutOfFuel => (OutOfFuel, [])
            end
        | Throw e => (Throw e, [])
        | Crash why => (Crash why, [])
        | OutOfFuel => (OutOfFuel, [])
        end
  | Throw e => (Throw e, [])
  | Crash why => (Crash why, [])
  | OutOfFuel => (OutOfFuel, [])
  end.

Definition FixedTotalNumberBuilder_ctor (sources targets : NodeCollection)
    (conn_spec : Dictionary) (syn_specs : list Dictionary)
    : outcome FixedTotalNumberBuilder :=
  b <- ConnBuilder_ctor K sources targets conn_spec syn_specs ;;
  t <- dict_get conn_spec names.N ;;
  N <- getValue_long t ;;
  (* verify that total number of connections is not larger than
     N_sources*N_targets *)
  if negb (allow_multapses_ b)
     && (N >? to_long (wrap_size_t (nc_size (sources_ b) * nc_size (targets_ b))))
  then Throw (BadProperty
         "Total number of connections cannot exceed product of source and target population sizes.")
  else if N <? 0
  then Throw (BadProperty "Total number of connections cannot be negative.")
  (* for now multapses cannot be forbidden *)
  else if negb (allow_multapses_ b)
  then Throw (NotImplemented
         "Connect doesn't support the suppression of multapses in the FixedTotalNumber connector.")
  else Ok (mkFixedTotalNumberBuilder b N).

Definition BernoulliBuilder_ctor (sources targets : NodeCollection) (conn_spec : Dictionary)
    (syn_specs : list Dictionary) : outcome BernoulliBuilder :=
  b <- ConnBuilder_ctor K sources targets conn_spec syn_specs ;;
  t <- dict_get conn_spec names.p ;;
  match t with
  | ParameterDatum pd =>
      (* TODO: Checks of parameter range *)
      Ok (mkBernoulliBuilder b pd)
  | _ =>
      (* Assume p is a scalar *)
      value <- getValue_double t ;;
      if Qltb value 0 || Qltb 1 value
      then Throw (BadProperty "Connection probability 0 <= p <= 1 required.")
      else Ok (mkBernoulliBuilder b (ConstantParameter value))
  end.

Definition AuxiliaryBuilder_ctor (sources targets : NodeCollection) (conn_spec : Dictionary)
    (syn_spec : list Dictionary) : outcome AuxiliaryBuilder :=
  b <- ConnBuilder_ctor K sources targets conn_spec syn_spec ;;
  Ok (mkAuxiliaryBuilder b).

(** [syn_specs[ name ]] on the map from edge stream to synapse specifications;
    an absent key yields the empty vector. *)
Fixpoint syn_specs_at (syn_specs : list (string * list Dictionary)) (name : string)
    : list Dictionary :=
  match syn_specs with
  | [] => []
  | (k, v) :: rest => if String.eqb k name then v else syn_specs_at rest name
  end.

Definition TripartiteBernoulliWithPoolBuilder_ctor (sources targets third : NodeCollection)
    (conn_spec : Dictionary) (syn_specs : list (string * list Dictionary))
    : outcome TripartiteBernoulliWithPoolBuilder :=
  b <- ConnBuilder_ctor K sources targets conn_spec (syn_specs_at syn_specs names.primary) ;;
  third_in <- AuxiliaryBuilder_ctor sources third conn_spec
                (syn_specs_at syn_specs names.third_in) ;;
  third_out <- AuxiliaryBuilder_ctor third targets conn_spec
                 (syn_specs_at syn_specs names.third_out) ;;
  let p_primary := 1%Q in
  let p_third_if_primary := 1%Q in
  let random_pool := true in
  (* pool_size_ is assigned through updateValue< long > and is kept as a long here;
     declared as a size_t, the two range comparisons below reject the same values. *)
  let pool_size := to_long (nc_size third) in
  targets_per_third <-
    (if nc_size third =? 0
     then Crash "targets->size() / third->size(): division by zero"
     else Ok (nc_size targets / nc_size third)) ;;
  ' (p_primary, _) <- updateValue getValue_double conn_spec names.p_primary p_primary ;;
  ' (p_third_if_primary, _) <-
      updateValue getValue_double conn_spec names.p_third_if_primary p_third_if_primary ;;
  ' (pool_size, _) <- updateValue getValue_long conn_spec names.pool_size pool_size ;;
  ' (pool_type, given) <- updateValue getValue_string conn_spec names.pool_type EmptyString ;;
  random_pool <-
    (if given then
       if String.eqb pool_type "random" then Ok true
       else if String.eqb pool_type "block" then Ok false
       else Throw (BadProperty "pool_type must be 'random' or 'block'")
     else Ok random_pool) ;;
  if Qltb p_primary 0 || Qltb 1 p_primary
  then Throw (BadProperty "Probability of primary connection 0 ≤ p_primary ≤ 1 required")
  else if Qltb p_third_if_primary 0 || Qltb 1 p_third_if_primary
  then Throw (BadProperty
         "Conditional probability of third-factor connection 0 ≤ p_third_if_primary ≤ 1 required")
  else if (pool_size <? 1) || (nc_size third <? to_size_t pool_size)
  then Throw (BadProperty "Pool size 1 ≤ pool_size ≤ size of third-factor population required")
  else if negb (random_pool
                || (wrap_size_t (nc_size targets * to_size_t pool_size) =? nc_size third)
                || ((pool_size =? 1) && (nc_size targets mod nc_size third =? 0)))
  then Throw (BadProperty
         "The sizes of target and third-factor populations and the chosen pool size do not fit. If pool_size == 1, the target population size must be a multiple of the third-factor population size. For pool_size > 1, size(targets) * pool_size == size(third factor) is required. For all other cases, use random pools.")
  else Ok {| tripartite_base := b;
             third_ := third;
             third_in_builder_ := third_in;
             third_out_builder_ := third_out;
             p_primary_ := p_primary;
             p_third_if_primary_ := p_third_if_primary;
             random_pool_ := random_pool;
             pool_size_ := pool_size;
             targets_per_third_ := targets_per_third |}.

Definition SymmetricBernoulliBuilder_ctor (sources targets : NodeCollection)
    (conn_spec : Dictionary) (syn_specs : list Dictionary)
    : outcome SymmetricBernoulliBuilder :=
  b <- ConnBuilder_ctor K sources targets conn_spec syn_specs ;;
  t <- dict_get conn_spec names.p ;;
  p <- getValue_double t ;;
  (* This connector takes care of symmetric connections on its own *)
  let b := set_creates_symmetric_connections_ true b in
  if Qltb p 0 || Qle_bool 1 p
  then Throw (BadProperty "Connection probability 0 <= p < 1 required.")
  else if negb (allow_multapses_ b)
  then Throw (BadProperty "Multapses must be enabled.")
  else if allow_autapses_ b
  then Throw (BadProperty "Autapses must be disabled.")
  else if negb (make_symmetric_ b)
  then Throw (BadProperty "Symmetric connections must be enabled.")
  else Ok (mkSymmetricBernoulliBuilder b p).

Definition SPBuilder_ctor (sources targets : NodeCollection) (conn_spec : Dictionary)
    (syn_specs : list Dictionary) : outcome SPBuilder :=
  b <- ConnBuilder_ctor K sources targets conn_spec syn_specs ;;
  (* Check that both pre and postsynaptic element are provided *)
  if negb (use_structural_plasticity_ b)
  then Throw (BadProperty "pre_synaptic_element and/or post_synaptic_elements is missing.")
  else Ok (mkSPBuilder b).

End RuleConstruction.

(** ** The state a build acts on *)

(** A call of [kernel().connection_manager.connect( snode_id, &target,
    target_thread, syn_id, params, delay, weight )].  The overloads without
    delay or weight pass the NaN sentinel, here [None]. *)
Record Connection : Type := mkConnection {
  conn_source : Z;
  conn_target : Z;
  conn_thread : nat;
  conn_synapse_model : nat;
  conn_params : Dictionary;
  conn_delay : option double;
  conn_weight : option double
}.

(** A call of [kernel().sp_manager.disconnect]. *)
Record Disconnection : Type := mkDisconnection {
  disc_source : Z;
  disc_target : Z;
  disc_thread : nat
}.

(** A call of [node->connect_synaptic_element( name, update )]. *)
Record ElementUpdate : Type := mkElementUpdate {
  elem_node : Z;
  elem_name : string;
  elem_update : Z
}.

(** The builder object together with what the kernel has recorded: the
    calls handed to the connection storage and the draws taken from the
    random number generators, most recent first. *)
Record World : Type := mkWorld {
  builder : ConnBuilder;
  connections : list Connection;
  disconnections : list Disconnection;
  synaptic_elements : list ElementUpdate;
  rng_draws : list Draw
}.

Definition set_builder (x : ConnBuilder) (w : World) : World :=
  mkWorld x (connections w) (disconnections w) (synaptic_elements w) (rng_draws w).
Definition set_connections (x : list Connection) (w : World) : World :=
  mkWorld (builder w) x (disconnections w) (synaptic_elements w) (rng_draws w).
Definition set_disconnections (x : list Disconnection) (w : World) : World :=
  mkWorld (builder w) (connections w) x (synaptic_elements w) (rng_draws w).
Definition set_synaptic_elements (x : list ElementUpdate) (w : World) : World :=
  mkWorld (builder w) (connections w) (disconnections w) x (rng_draws w).
Definition set_rng_draws (x : list Draw) (w : World) : World :=
  mkWorld (builder w) (connections w) (disconnections w) (synaptic_elements w) x.

(** Member functions run in a state-and-outcome monad: the state survives a
    throw, so what was emitted before a failure stays emitted. *)
Definition M (A : Type) : Type := World -> outcome A * World.

Definition ret {A} (a : A) : M A := fun w => (Ok a, w).

Definition bind {A B} (m : M A) (f : A -> M B) : M B :=
  fun w =>
    match m w with
    | (Ok a, w') => f a w'
    | (Throw e, w') => (Throw e, w')
    | (Crash why, w') => (Crash why, w')
    | (OutOfFuel, w') => (OutOfFuel, w')
    end.

Definition throw {A} (e : exception) : M A := fun w => (Throw e, w).
Definition crash {A} (why : string) : M A := fun w => (Crash why, w).
Definition out_of_fuel {A} : M A := fun w => (OutOfFuel, w).

(** Lifting of a step that cannot change the state. *)
Definition lift {A} (r : outcome A) : M A := fun w => (r, w).

Definition get_builder : M ConnBuilder := fun w => (Ok (builder w), w).
Definition put_builder (b : ConnBuilder) : M unit := fun w => (Ok tt, set_builder b w).

(** A fallible update of the builder object. *)
Definition update_builder (f : ConnBuilder -> outcome ConnBuilder) : M unit :=
  fun w =>
    match f (builder w) with
    | Ok b => (Ok tt, set_builder b w)
    | Throw e => (Throw e, w)
    | Crash why => (Crash why, w)
    | OutOfFuel => (OutOfFuel, w)
    end.

Declare Scope M_scope.
Delimit Scope M_scope with M.
Notation "x <- m ;; k" :=
  (bind m (fun x => k))
  (at level 61, m at next level, right associativity) : M_scope.
Notation "' pat <- m ;; k" :=
  (bind m (fun x => match x with pat => k end))
  (at level 61, pat pattern, m at next level, right associativity) : M_scope.
Notation "m ;;; k" :=
  (bind m (fun _ => k))
  (at level 61, right associativity) : M_scope.

(** [for ( x : xs ) body( x )]. *)
Fixpoint for_each {A} (xs : list A) (body : A -> M unit) : M unit :=
  match xs with
  | [] => ret tt
  | x :: xs' => bind (body x) (fun _ => for_each xs' body)
  end.

(** ** Helpers of the builder base class *)

Section Helpers.

Variable K : Kernel.

Local Open Scope M_scope.

(** *** Random draws *)

(** The number of draws already taken from a stream. *)
Definition rng_position (rng : RngPtr) (draws : list Draw) : nat :=
  List.length (filter (fun d => RngPtr_eqb (draw_rng d) rng) draws).

(** The next raw number of the stream behind [rng]; the draw is recorded. *)
Definition draw_raw (rng : RngPtr) (kind : DrawKind) : M Z :=
  fun w =>
    (Ok (rng_stream K rng (rng_position rng (rng_draws w))),
     set_rng_draws (mkDraw rng kind :: rng_draws w) w).

(** [rng->ulrand( n )]: an integer in [[0, n)]. *)
Definition ulrand (rng : RngPtr) (n : Z) : M Z :=
  x <- draw_raw rng draw_ulrand ;; ret (x mod n)%Z.

(** [rng->drand()]: a double in [[0, 1)]. *)
Definition drand (rng : RngPtr) : M double :=
  x <- draw_raw rng draw_drand ;; ret (Qmake (x mod 2 ^ 53)%Z (2 ^ 53)%positive).

(** [bino_dist( rng, param_type( n, p ) )]: an integer in [[0, n]].  Which
    one is the stream's choice; the shape of the distribution is not
    modelled. *)
Definition binomial_distribution (rng : RngPtr) (n : Z) (p : double) : M Z :=
  x <- draw_raw rng draw_binomial ;; ret (x mod (n + 1))%Z.

(** [parameter->value( rng, node )]. *)
Definition NestParameter_value (p : NestParameter) (rng : RngPtr) : M double :=
  match p with
  | ConstantParameter v => ret v
  | UniformParameter lo hi =>
      x <- draw_raw rng draw_parameter ;;
      ret (lo + Qmake (x mod 2 ^ 53)%Z (2 ^ 53)%positive * (hi - lo))%Q
  end.

(** *** Values of connection parameters

    [p->value_double( tid, rng, snode_id, &target )] and [value_int]; the
    parameter comes back with the cursor of thread [tid] advanced. *)

Definition false_return_type : exception :=
  KernelException "ConnParameter calls value function with false return type.".

Definition values_exhausted : exception :=
  KernelException "Parameter values exhausted.".

Definition next_value {A} (values : list A) (next : list nat) (tid : nat)
    : M (A * list nat) :=
  match nth_error next tid with
  | None => crash "next_[ tid ]"
  | Some pos =>
      match nth_error values pos with
      | Some v => ret (v, vector_set next tid (S pos))
      | None => throw values_exhausted
      end
  end.

Definition ConnParameter_value_double (p : ConnParameter) (tid : nat) (rng : RngPtr)
    : M (double * ConnParameter) :=
  match p with
  | ScalarDoubleParameter v => ret (v, p)
  | ScalarIntegerParameter v => ret (inject_Z v, p)
  | ArrayDoubleParameter vs next =>
      ' (v, next') <- next_value vs next tid ;; ret (v, ArrayDoubleParameter vs next')
  | ArrayIntegerParameter vs next =>
      ' (v, next') <- next_value vs next tid ;; ret (inject_Z v, ArrayIntegerParameter vs next')
  | ParameterConnParameterWrapper prm =>
      v <- NestParameter_value prm rng ;; ret (v, p)
  end.

Definition ConnParameter_value_int (p : ConnParameter) (tid : nat) (rng : RngPtr)
    : M (Z * ConnParameter) :=
  match p with
  | ScalarDoubleParameter _ => throw false_return_type
  | ScalarIntegerParameter v => ret (v, p)
  | ArrayDoubleParameter _ _ => throw false_return_type
  | ArrayIntegerParameter vs next =>
      ' (v, next') <- next_value vs next tid ;; ret (v, ArrayIntegerParameter vs next')
  | ParameterConnParameterWrapper prm =>
      v <- NestParameter_value prm rng ;; ret (Z.quot (Qnum v) (Zpos (Qden v)), p)
  end.

(** *** Writing back into the builder *)

Definition store_synapse_param (synapse_indx : nat) (name : string) (p : ConnParameter)
    : M unit :=
  update_builder (fun b =>
    bind_outcome
      (vector_get (synapse_params_ b) synapse_indx "synapse_params_[ synapse_indx ]")
      (fun m => Ok (set_synapse_params_
                      (vector_set (synapse_params_ b) synapse_indx (params_set m name p)) b))).

Definition store_param_dict_entry (synapse_indx target_thread : nat) (name : string)
    (v : Datum) : M unit :=
  update_builder (fun b =>
    bind_outcome
      (vector_get (param_dicts_ b) synapse_indx "param_dicts_[ synapse_indx ]")
      (fun ds =>
         bind_outcome
           (vector_get ds target_thread "param_dicts_[ synapse_indx ][ target_thread ]")
           (fun d => Ok (set_param_dicts_
                           (vector_set (param_dicts_ b) synapse_indx
                              (vector_set ds target_thread (dict_set d name v))) b)))).

(** The loop of [update_param_dict_] over [synapse_params_[ synapse_indx ]]. *)
Fixpoint update_param_dict_entries (entries : ConnParameterMap) (target_thread : nat)
    (rng : RngPtr) (synapse_indx : nat) : M unit :=
  match entries with
  | [] => ret tt
  | (name, p) :: rest =>
      (if provides_long p then
         (* change value of dictionary entry without allocating new datum *)
         ' (v, p') <- ConnParameter_value_int p target_thread rng ;;
         store_synapse_param synapse_indx name p' ;;;
         store_param_dict_entry synapse_indx target_thread name (IntegerDatum v)
       else
         ' (v, p') <- ConnParameter_value_double p target_thread rng ;;
         store_synapse_param synapse_indx name p' ;;;
         store_param_dict_entry synapse_indx target_thread name (DoubleDatum v)) ;;;
      update_param_dict_entries rest target_thread rng synapse_indx
  end.

Definition update_param_dict_ (snode_id : Z) (target : Node) (target_thread : nat)
    (rng : RngPtr) (synapse_indx : nat) : M unit :=
  b <- get_builder ;;
  ds <- lift (vector_get (param_dicts_ b) synapse_indx "param_dicts_[ synapse_indx ]") ;;
  if negb (Nat.eqb (get_num_threads K) (List.length ds))
  then crash "assert( get_num_threads() == param_dicts_[ synapse_indx ].size() )"
  else
    m <- lift (vector_get (synapse_params_ b) synapse_indx "synapse_params_[ synapse_indx ]") ;;
    update_param_dict_entries m target_thread rng synapse_indx.

(** [delays_[ synapse_indx ]->value_double( ... )]. *)
Definition delay_value (synapse_indx target_thread : nat) (rng : RngPtr) : M double :=
  b <- get_builder ;;
  d <- lift (vector_get (delays_ b) synapse_indx "delays_[ synapse_indx ]") ;;
  match d with
  | None => crash "delays_[ synapse_indx ]->value_double"
  | Some p =>
      ' (v, p') <- ConnParameter_value_double p target_thread rng ;;
      update_builder (fun b =>
        Ok (set_delays_ (vector_set (delays_ b) synapse_indx (Some p')) b)) ;;;
      ret v
  end.

(** [weights_[ synapse_indx ]->value_double( ... )]. *)
Definition weight_value (synapse_indx target_thread : nat) (rng : RngPtr) : M double :=
  b <- get_builder ;;
  d <- lift (vector_get (weights_ b) synapse_indx "weights_[ synapse_indx ]") ;;
  match d with
  | None => crash "weights_[ synapse_indx ]->value_double"
  | Some p =>
      ' (v, p') <- ConnParameter_value_double p target_thread rng ;;
      update_builder (fun b =>
        Ok (set_weights_ (vector_set (weights_ b) synapse_indx (Some p')) b)) ;;;
      ret v
  end.

(** [kernel().connection_manager.connect( ... )]: the storage either refuses
    the connection with an exception or records it. *)
Definition connection_manager_connect (snode_id : Z) (target : Node) (target_thread : nat)
    (syn_id : nat) (params : Dictionary) (delay weight : option double) : M unit :=
  match connection_refused K snode_id target syn_id with
  | Some e => throw e
  | None =>
      fun w =>
        (Ok tt,
         set_connections
           (mkConnection snode_id (get_node_id target) target_thread syn_id params delay weight
              :: connections w) w)
  end.

(** The body of the loop of [single_connect_] over the synapse types. *)
Definition single_connect_synapse (snode_id : Z) (target : Node) (target_thread : nat)
    (rng : RngPtr) (synapse_indx : nat) : M unit :=
  update_param_dict_ snode_id target target_thread rng synapse_indx ;;;
  b <- get_builder ;;
  dwd <- lift (vector_get (default_weight_and_delay_ b) synapse_indx
                 "default_weight_and_delay_[ synapse_indx ]") ;;
  dw <- lift (vector_get (default_weight_ b) synapse_indx "default_weight_[ synapse_indx ]") ;;
  dd <- lift (vector_get (default_delay_ b) synapse_indx "default_delay_[ synapse_indx ]") ;;
  syn_id <- lift (vector_get (synapse_model_id_ b) synapse_indx
                    "synapse_model_id_[ synapse_indx ]") ;;
  ds <- lift (vector_get (param_dicts_ b) synapse_indx "param_dicts_[ synapse_indx ]") ;;
  params <- lift (vector_get ds target_thread
                    "param_dicts_[ synapse_indx ][ target_thread ]") ;;
  if (dwd : bool) then
    connection_manager_connect snode_id target target_thread syn_id params None None
  else if (dw : bool) then
    delay <- delay_value synapse_indx target_thread rng ;;
    connection_manager_connect snode_id target target_thread syn_id params (Some delay) None
  else if (dd : bool) then
    weight <- weight_value synapse_indx target_thread rng ;;
    connection_manager_connect snode_id target target_thread syn_id params None (Some weight)
  else
    delay <- delay_value synapse_indx target_thread rng ;;
    weight <- weight_value synapse_indx target_thread rng ;;
    connection_manager_connect snode_id target target_thread syn_id params
      (Some delay) (Some weight).

(** [ConnBuilder::single_connect_]; [requires_proxies] is the virtual
    [this->requires_proxies()] of the rule. *)
Definition single_connect_ (requires_proxies : bool) (snode_id : Z) (target : Node)
    (target_thread : nat) (rng : RngPtr) : M unit :=
  if requires_proxies && negb (has_proxies target)
  then throw (IllegalConnection
         "Cannot use this rule to connect to nodes without proxies (usually devices).")
  else
    b <- get_builder ;;
    for_each (seq 0 (List.length (synapse_params_ b)))
      (single_connect_synapse snode_id target target_thread rng).

End Helpers.

(** ** The public operations of the builder base class *)

(** The virtual member functions a rule class supplies. *)
Record RuleMethods : Type := mkRuleMethods {
  connect_ : M unit;
  sp_connect_ : M unit;
  disconnect_ : M unit;
  sp_disconnect_ : M unit;
  supports_symmetric : bool;
  is_symmetric : ConnBuilder -> bool;
  requires_proxies : bool
}.

Section Operations.

Variable K : Kernel.

Local Open Scope M_scope.

(** [std::swap( sources_, targets_ )]. *)
Definition swap_sources_targets (b : ConnBuilder) : ConnBuilder :=
  set_targets_ (sources_ b) (set_sources_ (targets_ b) b).

(** The message of the [BadProperty] raised for a synapse model that
    requires symmetric connections; it contains quotation marks. *)
Definition requires_symmetric_message : string :=
  let quote := String (ascii_of_nat 34) EmptyString in
  String.append "Connections with this synapse model can only be created as one-to-one connections with "
    (String.append quote
       (String.append "make_symmetric"
          (String.append quote
             " set to true or as all-to-all connections with equal source and target populations and default or scalar parameters."))).

(** The first loop of [connect()], over [synapse_model_id_]. *)
Fixpoint check_requires_symmetric (rule : RuleMethods) (b : ConnBuilder) (ids : list nat)
    : outcome unit :=
  match ids with
  | [] => Ok tt
  | synapse_model_id :: rest =>
      if requires_symmetric K synapse_model_id
         && negb (is_symmetric rule b || make_symmetric_ b)
      then Throw (BadProperty requires_symmetric_message)
      else check_requires_symmetric rule b rest
  end.

(** The loop "check if any exceptions have been raised": the slots are
    visited from thread 0 upwards.  A filled slot holds a
    [WrappedThreadException]; [throw WrappedThreadException( *slot )] throws
    a copy of it. *)
Fixpoint rethrow_from (slots : list (option exception)) (tid remaining : nat)
    : outcome unit :=
  match remaining with
  | O => Ok tt
  | S remaining' =>
      match nth_error slots tid with
      | None => Throw (out_of_range "vector::at")
      | Some (Some e) => Throw e
      | Some None => rethrow_from slots (S tid) remaining'
      end
  end.

Definition check_exceptions_raised : M unit :=
  fun w => (rethrow_from (exceptions_raised_ (builder w)) 0 (get_num_threads K), w).

(** [ConnBuilder::connect()] up to the comment "check if any exceptions have
    been raised": the tests and the dispatch to the rule. *)
Definition ConnBuilder_connect_dispatch (rule : RuleMethods) : M unit :=
  b <- get_builder ;;
  (* We test here, and not in the ConnBuilder constructor, so the derived
     classes are fully constructed when the test is executed *)
  lift (check_requires_symmetric rule b (synapse_model_id_ b)) ;;;
  (if make_symmetric_ b && negb (supports_symmetric rule)
   then throw (NotImplemented "This connection rule does not support symmetric connections.")
   else ret tt) ;;;
  if use_structural_plasticity_ b then
    (if make_symmetric_ b
     then throw (NotImplemented
            "Symmetric connections are not supported in combination with structural plasticity.")
     else ret tt) ;;;
    sp_connect_ rule
  else
    connect_ rule ;;;
    b <- get_builder ;;
    if make_symmetric_ b && negb (creates_symmetric_connections_ b) then
      (* call reset on all parameters *)
      update_builder reset_weights_ ;;;
      update_builder reset_delays_ ;;;
      update_builder reset_synapse_params ;;;
      update_builder (fun b => Ok (swap_sources_targets b)) ;;;
      connect_ rule ;;;
      update_builder (fun b => Ok (swap_sources_targets b)) (* re-establish original state *)
    else ret tt.

(** [ConnBuilder::connect()]. *)
Definition ConnBuilder_connect (rule : RuleMethods) : M unit :=
  ConnBuilder_connect_dispatch rule ;;;
  (* check if any exceptions have been raised *)
  check_exceptions_raised.

(** [ConnBuilder::disconnect()] up to the check of the exception slots. *)
Definition ConnBuilder_disconnect_dispatch (rule : RuleMethods) : M unit :=
  b <- get_builder ;;
  if use_structural_plasticity_ b then sp_disconnect_ rule else disconnect_ rule.

(** [ConnBuilder::disconnect()]. *)
Definition ConnBuilder_disconnect (rule : RuleMethods) : M unit :=
  ConnBuilder_disconnect_dispatch rule ;;;
  (* check if any exceptions have been raised *)
  check_exceptions_raised.

(** [ConnBuilder::loop_over_targets_()]. *)
Definition loop_over_targets_ (b : ConnBuilder) : bool :=
  (nc_size (targets_ b) <? node_manager_size K)%Z
  || negb (is_range (targets_ b))
  || (0 <? List.length (parameters_requiring_skipping_ b))%nat.

(** [ConnBuilder::all_parameters_scalar_()]. *)
Definition all_parameters_scalar_ (b : ConnBuilder) : bool :=
  let all_scalar := true in
  let all_scalar :=
    fold_left (fun acc weight =>
                 match weight with Some p => acc && is_scalar p | None => acc end)
      (weights_ b) all_scalar in
  let all_scalar :=
    fold_left (fun acc delay =>
                 match delay with Some p => acc && is_scalar p | None => acc end)
      (delays_ b) all_scalar in
  fold_left (fun acc params =>
               fold_left (fun acc (np : string * ConnParameter) => acc && is_scalar (snd np))
                 params acc)
    (synapse_params_ b) all_scalar.

(** [ConnBuilder::set_synaptic_element_names]. *)
Definition set_synaptic_element_names (pre_name post_name : string) (b : ConnBuilder)
    : outcome ConnBuilder :=
  if String.eqb pre_name EmptyString || String.eqb post_name EmptyString
  then Throw (BadProperty "synaptic element names cannot be empty.")
  else Ok (set_use_structural_plasticity_ true
             (set_post_synaptic_element_name_ post_name
                (set_pre_synaptic_element_name_ pre_name b))).

(** *** Skipping of array parameters

    Modelled from the spec: [skip_conn_parameter_] is defined in
    [conn_builder.h]; it advances every parameter registered as requiring
    skipping by [n_skip] on the given thread. *)

Definition map_param (f : ConnParameter -> ConnParameter) (name : string)
    (m : ConnParameterMap) : ConnParameterMap :=
  map (fun np : string * ConnParameter =>
         if String.eqb (fst np) name then (fst np, f (snd np)) else np) m.

Definition skip_referenced (tid : nat) (n_skip : Z) (b : ConnBuilder) (r : ParamRef)
    : ConnBuilder :=
  match r with
  | weight_ref i =>
      match nth_error (weights_ b) i with
      | Some (Some p) =>
          set_weights_ (vector_set (weights_ b) i (Some (ConnParameter_skip p tid n_skip))) b
      | _ => b
      end
  | delay_ref i =>
      match nth_error (delays_ b) i with
      | Some (Some p) =>
          set_delays_ (vector_set (delays_ b) i (Some (ConnParameter_skip p tid n_skip))) b
      | _ => b
      end
  | synapse_param_ref i name =>
      match nth_error (synapse_params_ b) i with
      | Some m =>
          set_synapse_params_
            (vector_set (synapse_params_ b) i
               (map_param (fun p => ConnParameter_skip p tid n_skip) name m)) b
      | None => b
      end
  end.

Definition skip_conn_parameter_ (target_thread : nat) (n_skip : Z) : M unit :=
  b <- get_builder ;;
  put_builder (fold_left (skip_referenced target_thread (to_size_t n_skip))
                 (parameters_requiring_skipping_ b) b).

(** *** Structural plasticity and disconnection *)

Definition connect_synaptic_element (node : Z) (name : string) (update : Z) : M unit :=
  fun w =>
    (Ok tt, set_synaptic_elements (mkElementUpdate node name update :: synaptic_elements w) w).

(** [ConnBuilder::change_connected_synaptic_elements]. *)
Definition change_connected_synaptic_elements (snode_id tnode_id : Z) (tid : nat)
    (update : Z) : M bool :=
  b <- get_builder ;;
  (* check whether the source is on this mpi machine *)
  (if is_local_node_id K snode_id then
     let source := get_node_or_proxy K snode_id tid in
     let source_thread := get_thread source in
     (* check whether the source is on our thread *)
     if Nat.eqb tid source_thread
     then connect_synaptic_element snode_id (pre_synaptic_element_name_ b) update
     else ret tt
   else ret tt) ;;;
  (* check whether the target is on this mpi machine *)
  if negb (is_local_node_id K tnode_id) then ret false
  else
    let target := get_node_or_proxy K tnode_id tid in
    let target_thread := get_thread target in
    (* check whether the target is on our thread *)
    if negb (Nat.eqb tid target_thread) then ret false
    else
      connect_synaptic_element tnode_id (post_synaptic_element_name_ b) update ;;;
      ret true.

(** Modelled from the spec: [single_disconnect_] is defined outside
    [conn_builder.cpp]; the request handed to the storage is recorded. *)
Definition single_disconnect_ (snode_id : Z) (target : Node) (target_thread : nat) : M unit :=
  fun w =>
    (Ok tt,
     set_disconnections
       (mkDisconnection snode_id (get_node_id target) target_thread :: disconnections w) w).

(** *** Parallel regions *)

(** [try { body } catch ( std::exception& err ) { exceptions_raised_.at( tid )
    = ... WrappedThreadException( err ) }]. *)
Definition try_catch (tid : nat) (body : M unit) : M unit :=
  fun w =>
    match body w with
    | (Throw err, w') =>
        match nth_error (exceptions_raised_ (builder w')) tid with
        | Some _ =>
            (Ok tt,
             set_builder
               (set_exceptions_raised_
                  (vector_set (exceptions_raised_ (builder w')) tid
                     (Some (WrappedThreadException err)))
                  (builder w')) w')
        | None => (Crash "exceptions_raised_.at( tid ) inside a parallel region", w')
        end
    | r => r
    end.

(** [#pragma omp parallel]: the block runs once for every thread of the team. *)
Definition omp_parallel (block : nat -> M unit) : M unit :=
  for_each (seq 0 (get_num_threads K)) block.

End Operations.

(** ** The rules

    The members a worker only reads ([sources_], [targets_], the flags and the
    list of registered parameters) are taken from the builder once, when
    [connect_] is entered. *)

Section Rules.

Variable K : Kernel.

Local Open Scope M_scope.
Local Open Scope Z_scope.

(** The loops that advance a target and a source iterator together and
    assert that the source iterator has not reached the end. *)
Fixpoint for_each_pair (targets sources : list Z) (body : Z -> Z -> M unit) : M unit :=
  match targets with
  | [] => ret tt
  | tnode_id :: targets' =>
      match sources with
      | [] => crash "assert( source_it < sources_->end() )"
      | snode_id :: sources' =>
          body snode_id tnode_id ;;; for_each_pair targets' sources' body
      end
  end.

(** *** OneToOneBuilder *)

(** The block of the parallel region of [connect_], inside [try]. *)
Definition OneToOneBuilder_connect_thread (requires_proxies : bool) (b : ConnBuilder)
    (tid : nat) : M unit :=
  let rng := get_vp_specific_rng tid in
  if loop_over_targets_ K b then
    for_each_pair (node_ids (targets_ b)) (node_ids (sources_ b))
      (fun snode_id tnode_id =>
         if (snode_id =? tnode_id) && negb (allow_autapses_ b) then ret tt
         else
           let target := get_node_or_proxy K tnode_id tid in
           if is_proxy target then
             (* skip array parameters handled in other virtual processes *)
             skip_conn_parameter_ tid 1
           else single_connect_ K requires_proxies snode_id target tid rng)
  else
    for_each (get_local_nodes K tid)
      (fun n =>
         let target := n in
         let tnode_id := get_node_id n in
         let lid := get_lid (targets_ b) tnode_id in
         if lid <? 0 then ret tt      (* Is local node in target list? *)
         else
           (* one-to-one, thus we can use target idx for source as well *)
           snode_id <- lift (nc_at (sources_ b) lid) ;;
           if negb (allow_autapses_ b) && (snode_id =? tnode_id) then ret tt
           else single_connect_ K requires_proxies snode_id target tid rng).

Definition OneToOneBuilder_connect_ (requires_proxies : bool) : M unit :=
  b <- get_builder ;;
  omp_parallel K (fun tid =>
    try_catch tid (OneToOneBuilder_connect_thread requires_proxies b tid)).

Definition OneToOneBuilder_disconnect_ : M unit :=
  b <- get_builder ;;
  omp_parallel K (fun tid =>
    try_catch tid
      (for_each_pair (node_ids (targets_ b)) (node_ids (sources_ b))
         (fun snode_id tnode_id =>
            (* check whether the target is on this mpi machine *)
            if negb (is_local_node_id K tnode_id) then ret tt
            else
              let target := get_node_or_proxy K tnode_id tid in
              let target_thread := get_thread target in
              (* check whether the target is a proxy *)
              if is_proxy target then ret tt
              else single_disconnect_ snode_id target target_thread))).

Definition OneToOneBuilder_sp_connect_ (requires_proxies : bool) : M unit :=
  b <- get_builder ;;
  omp_parallel K (fun tid =>
    try_catch tid
      (let rng := get_vp_specific_rng tid in
       for_each_pair (node_ids (targets_ b)) (node_ids (sources_ b))
         (fun snode_id tnode_id =>
            if (snode_id =? tnode_id) && negb (allow_autapses_ b) then ret tt
            else
              local <- change_connected_synaptic_elements K snode_id tnode_id tid 1 ;;
              if negb local then skip_conn_parameter_ tid 1
              else
                let target := get_node_or_proxy K tnode_id tid in
                let target_thread := get_thread target in
                single_connect_ K requires_proxies snode_id target target_thread rng))).

Definition OneToOneBuilder_sp_disconnect_ : M unit :=
  b <- get_builder ;;
  omp_parallel K (fun tid =>
    try_catch tid
      (for_each_pair (node_ids (targets_ b)) (node_ids (sources_ b))
         (fun snode_id tnode_id =>
            local <- change_connected_synaptic_elements K snode_id tnode_id tid (-1) ;;
            if negb local then ret tt
            else
              let target := get_node_or_proxy K tnode_id tid in
              let target_thread := get_thread target in
              single_disconnect_ snode_id target target_thread))).

(** The virtual table of the one-to-one rule.  Modelled from the spec:
    [supports_symmetric], [is_symmetric] and [requires_proxies] are declared
    in [conn_builder.h]; the rule supports symmetrisation and does not create
    symmetric connections itself.  Whether it requires proxies is left open. *)
Definition OneToOneBuilder_methods (requires_proxies : bool) : RuleMethods :=
  {| connect_ := OneToOneBuilder_connect_ requires_proxies;
     sp_connect_ := OneToOneBuilder_sp_connect_ requires_proxies;
     disconnect_ := OneToOneBuilder_disconnect_;
     sp_disconnect_ := OneToOneBuilder_sp_disconnect_;
     supports_symmetric := true;
     is_symmetric := fun _ => false;
     requires_proxies := requires_proxies |}.

(** *** FixedInDegreeBuilder *)

(** The [do ... while ( skip_autapse or skip_multapse )] loop of
    [inner_connect_]; every draw uses one unit of fuel. *)
Fixpoint FixedInDegreeBuilder_draw_source (fuel : nat) (b : ConnBuilder) (rng : RngPtr)
    (tnode_id : Z) (ch_ids : list Z) : M (Z * Z) :=
  match fuel with
  | O => out_of_fuel
  | S fuel' =>
      let n_rnd := to_long (nc_size (sources_ b)) in
      s_id <- ulrand K rng n_rnd ;;
      snode_id <- lift (nc_at (sources_ b) s_id) ;;
      let skip_autapse := negb (allow_autapses_ b) && (snode_id =? tnode_id) in
      let skip_multapse := negb (allow_multapses_ b) && existsb (Z.eqb s_id) ch_ids in
      if skip_autapse || skip_multapse
      then FixedInDegreeBuilder_draw_source fuel' b rng tnode_id ch_ids
      else ret (s_id, snode_id)
  end.

(** The loop [for ( long j = 0; j < indegree_value; ++j )] of [inner_connect_]. *)
Fixpoint FixedInDegreeBuilder_inner_loop (fuel : nat) (requires_proxies : bool)
    (b : ConnBuilder) (rng : RngPtr) (target : Node) (tnode_id : Z) (target_thread : nat)
    (remaining : nat) (ch_ids : list Z) : M unit :=
  match remaining with
  | O => ret tt
  | S remaining' =>
      ' (s_id, snode_id) <- FixedInDegreeBuilder_draw_source fuel b rng tnode_id ch_ids ;;
      let ch_ids := if negb (allow_multapses_ b) then s_id :: ch_ids else ch_ids in
      single_connect_ K requires_proxies snode_id target target_thread rng ;;;
      FixedInDegreeBuilder_inner_loop fuel requires_proxies b rng target tnode_id
        target_thread remaining' ch_ids
  end.

Definition FixedInDegreeBuilder_inner_connect_ (fuel : nat) (requires_proxies : bool)
    (b : ConnBuilder) (tid : nat) (rng : RngPtr) (target : Node) (tnode_id : Z)
    (skip : bool) (indegree_value : Z) : M unit :=
  let target_thread := get_thread target in
  (* check whether the target is on our thread *)
  if negb (Nat.eqb tid target_thread) then
    (* skip array parameters handled in other virtual processes *)
    if skip then skip_conn_parameter_ tid indegree_value else ret tt
  else
    FixedInDegreeBuilder_inner_loop fuel requires_proxies b rng target tnode_id
      target_thread (Z.to_nat indegree_value) [].

(** The block of the parallel region of [connect_], inside [try]. *)
Definition FixedInDegreeBuilder_connect_thread (fuel : nat) (requires_proxies : bool)
    (indegree : NestParameter) (b : ConnBuilder) (tid : nat) : M unit :=
  let rng := get_vp_specific_rng tid in
  if loop_over_targets_ K b then
    for_each (node_ids (targets_ b))
      (fun tnode_id =>
         let target := get_node_or_proxy K tnode_id tid in
         v <- NestParameter_value K indegree rng ;;
         let indegree_value := std_round v in
         if is_proxy target then
           (* skip array parameters handled in other virtual processes *)
           skip_conn_parameter_ tid indegree_value
         else
           FixedInDegreeBuilder_inner_connect_ fuel requires_proxies b tid rng target
             tnode_id true indegree_value)
  else
    for_each (get_local_nodes K tid)
      (fun n =>
         let tnode_id := get_node_id n in
         (* Is the local node in the targets list? *)
         if get_lid (targets_ b) tnode_id <? 0 then ret tt
         else
           let source := n in
           v <- NestParameter_value K indegree rng ;;
           let indegree_value := std_round v in
           FixedInDegreeBuilder_inner_connect_ fuel requires_proxies b tid rng source
             tnode_id false indegree_value).

Definition FixedInDegreeBuilder_connect_ (fuel : nat) (requires_proxies : bool)
    (indegree : NestParameter) : M unit :=
  b <- get_builder ;;
  omp_parallel K (fun tid =>
    try_catch tid (FixedInDegreeBuilder_connect_thread fuel requires_proxies indegree b tid)).

(** *** SymmetricBernoulliBuilder *)

(** "sample indegree according to truncated Binomial distribution":
    [while ( indegree >= sources_->size() ) indegree = bino_dist( ... )]. *)
Fixpoint SymmetricBernoulliBuilder_draw_indegree (fuel : nat) (b : ConnBuilder)
    (p : double) (synced_rng : RngPtr) (indegree : Z) : M Z :=
  if indegree <? nc_size (sources_ b) then ret indegree
  else
    match fuel with
    | O => out_of_fuel
    | S fuel' =>
        x <- binomial_distribution K synced_rng (nc_size (sources_ b)) p ;;
        SymmetricBernoulliBuilder_draw_indegree fuel' b p synced_rng x
    end.

(** "choose indegree number of sources randomly from all sources":
    [while ( i < indegree )].  A thread that is [invalid_thread] is [None]. *)
Fixpoint SymmetricBernoulliBuilder_choose_sources (fuel : nat) (requires_proxies : bool)
    (b : ConnBuilder) (tid : nat) (synced_rng : RngPtr) (tnode_id : Z) (target : Node)
    (target_thread : option nat) (indegree i : Z) (previous_snode_ids : list Z) : M unit :=
  if i <? indegree then
    match fuel with
    | O => out_of_fuel
    | S fuel' =>
        idx <- ulrand K synced_rng (nc_size (sources_ b)) ;;
        snode_id <- lift (nc_at (sources_ b) idx) ;;
        (* Avoid autapses and multapses. *)
        if (snode_id =? tnode_id) || existsb (Z.eqb snode_id) previous_snode_ids
        then SymmetricBernoulliBuilder_choose_sources fuel' requires_proxies b tid synced_rng
               tnode_id target target_thread indegree i previous_snode_ids
        else
          let previous_snode_ids := snode_id :: previous_snode_ids in
          let source := get_node_or_proxy K snode_id tid in
          let source_thread := if is_proxy source then None else Some tid in
          (* if target is local: connect *)
          (match target_thread with
           | Some target_thread =>
               if Nat.eqb target_thread tid
               then single_connect_ K requires_proxies snode_id target target_thread synced_rng
               else ret tt
           | None => ret tt
           end) ;;;
          (* if source is local: connect *)
          (match source_thread with
           | Some source_thread =>
               if Nat.eqb source_thread tid
               then single_connect_ K requires_proxies tnode_id source source_thread synced_rng
               else ret tt
           | None => ret tt
           end) ;;;
          SymmetricBernoulliBuilder_choose_sources fuel' requires_proxies b tid synced_rng
            tnode_id target target_thread indegree (i + 1) previous_snode_ids
    end
  else ret tt.

Definition SymmetricBernoulliBuilder_connect_ (fuel : nat) (requires_proxies : bool)
    (p : double) : M unit :=
  b <- get_builder ;;
  omp_parallel K (fun tid =>
    (* Use RNG generating same number sequence on all threads *)
    let synced_rng := get_vp_synced_rng tid in
    try_catch tid
      (for_each (node_ids (targets_ b))
         (fun tnode_id =>
            (* sample indegree according to truncated Binomial distribution *)
            indegree <- SymmetricBernoulliBuilder_draw_indegree fuel b p synced_rng
                          (nc_size (sources_ b)) ;;
            let target := get_node_or_proxy K tnode_id tid in
            (* check whether the target is on this thread *)
            let target_thread := if is_proxy target then None else Some tid in
            (* choose indegree number of sources randomly from all sources *)
            SymmetricBernoulliBuilder_choose_sources fuel requires_proxies b tid synced_rng
              tnode_id target target_thread indegree 0 []))).

End Rules.

(** Modelled from the spec: the defaults of the virtual members are declared
    in [conn_builder.h]; an operation a rule does not implement raises
    [NotImplemented], a rule does not support symmetrisation and is not
    symmetric unless it says so. *)
Definition sp_connect_default : M unit :=
  throw (NotImplemented "This connection rule is not implemented for structural plasticity.").
Definition disconnect_default : M unit :=
  throw (NotImplemented "This disconnection rule is not implemented.").
Definition sp_disconnect_default : M unit :=
  throw (NotImplemented "This connection rule is not implemented for structural plasticity.").

Definition FixedInDegreeBuilder_methods (K : Kernel) (fuel : nat) (requires_proxies : bool)
    (bld : FixedInDegreeBuilder) : RuleMethods :=
  {| connect_ := FixedInDegreeBuilder_connect_ K fuel requires_proxies (indegree_ bld);
     sp_connect_ := sp_connect_default;
     disconnect_ := disconnect_default;
     sp_disconnect_ := sp_disconnect_default;
     supports_symmetric := false;
     is_symmetric := fun _ => false;
     requires_proxies := requires_proxies |}.

Definition SymmetricBernoulliBuilder_methods (K : Kernel) (fuel : nat)
    (requires_proxies : bool) (bld : SymmetricBernoulliBuilder) : RuleMethods :=
  {| connect_ := SymmetricBernoulliBuilder_connect_ K fuel requires_proxies
                   (symmetric_bernoulli_p_ bld);
     sp_connect_ := sp_connect_default;
     disconnect_ := disconnect_default;
     sp_disconnect_ := sp_disconnect_default;
     supports_symmetric := true;
     is_symmetric := fun _ => false;
     requires_proxies := requires_proxies |}.

(** ** A small kernel for concrete scenarios

    One process with [nthreads] threads and the nodes [1 .. n_nodes]; node
    [id] lives on thread [id mod nthreads].  The only synapse model is
    [static_synapse]; the storage accepts every connection; the [k]-th raw
    number of every stream is [k]. *)

Definition static_synapse_defaults : Dictionary :=
  [ ("weight"%string, DoubleDatum 1);
    ("delay"%string, DoubleDatum 1);
    ("receptor_type"%string, IntegerDatum 0);
    ("synapse_model"%string, StringDatum "static_synapse");
    ("num_connections"%string, IntegerDatum 0) ].

Definition scenario_node (nthreads : nat) (n_nodes : Z) (id : Z) (tid : nat) : Node :=
  let home := Z.to_nat (id mod Z.of_nat nthreads) in
  {| get_node_id := id;
     get_thread := home;
     is_proxy := negb (Nat.eqb home tid) || (id <? 1)%Z || (n_nodes <? id)%Z;
     has_proxies := true |}.

Definition scenario_kernel (nthreads : nat) (n_nodes : Z) : Kernel :=
  {| get_num_threads := nthreads;
     node_manager_size := n_nodes;
     get_node_or_proxy := scenario_node nthreads n_nodes;
     get_local_nodes := fun tid =>
       filter (fun n => negb (is_proxy n))
         (map (fun k => scenario_node nthreads n_nodes (Z.of_nat k) tid)
            (seq 1 (Z.to_nat n_nodes)));
     is_local_node_id := fun id => (1 <=? id)%Z && (id <=? n_nodes)%Z;
     get_synapse_model_id := fun name =>
       if String.eqb name "static_synapse" then Some 0 else None;
     get_connector_defaults := fun _ => static_synapse_defaults;
     check_synapse_params := fun _ _ => None;
     requires_symmetric := fun _ => false;
     connection_refused := fun _ _ _ => None;
     rng_stream := fun _ k => Z.of_nat k |}.

(** A primitive collection of the nodes [first .. first + n - 1]. *)
Definition node_range (first : Z) (n : nat) : NodeCollection :=
  {| node_ids := map (fun k => (first + Z.of_nat k)%Z) (seq 0 n);
     is_range := true;
     valid := true |}.

Definition empty_collection : NodeCollection :=
  {| node_ids := []; is_range := true; valid := true |}.

Definition static_synapse_spec : Dictionary :=
  [ ("synapse_model"%string, StringDatum "static_synapse") ].

(** The state before a build: nothing stored, nothing drawn. *)
Definition initial_world (b : ConnBuilder) : World :=
  {| builder := b;
     connections := [];
     disconnections := [];
     synaptic_elements := [];
     rng_draws := [] |}.

(** The base-class object constructed for one [static_synapse]
    specification. *)
Definition scenario_builder (K : Kernel) (sources targets : NodeCollection)
    (conn_spec : Dictionary) : ConnBuilder :=
  match ConnBuilder_ctor K sources targets conn_spec [static_synapse_spec] with
  | Ok b => b
  | _ => ConnBuilder_init K sources targets
  end.

(** A kernel whose storage refuses the connections that [refuse] names. *)
Definition with_connection_refused (K : Kernel)
    (refuse : Z -> Node -> nat -> option exception) : Kernel :=
  {| get_num_threads := get_num_threads K;
     node_manager_size := node_manager_size K;
     get_node_or_proxy := get_node_or_proxy K;
     get_local_nodes := get_local_nodes K;
     is_local_node_id := is_local_node_id K;
     get_synapse_model_id := get_synapse_model_id K;
     get_connector_defaults := get_connector_defaults K;
     check_synapse_params := check_synapse_params K;
     requires_symmetric := requires_symmetric K;
     connection_refused := refuse;
     rng_stream := rng_stream K |}.

(** The scenario kernel with a storage that refuses every connection. *)
Definition refusing_kernel (nthreads : nat) (n_nodes : Z) : Kernel :=
  with_connection_refused (scenario_kernel nthreads n_nodes)
    (fun _ _ _ => Some (IllegalConnection "The storage refuses the connection.")).

(** The endpoints of the recorded connections. *)
Definition edge_of (c : Connection) : Z * Z := (conn_source c, conn_target c).
Definition edges (w : World) : list (Z * Z) := map edge_of (connections w).

(** ** Notions used in the statements *)

(** The value a boolean rule flag takes from the connection specification. *)
Definition flag_of (conn_spec : Dictionary) (name : string) (default : bool) : bool :=
  match dict_find conn_spec name with
  | Some (BoolDatum v) => v
  | _ => default
  end.

(** What the rules read but never write: the collections and the flags. *)
Definition interface (b : ConnBuilder)
    : NodeCollection * NodeCollection * bool * bool * bool * bool :=
  (sources_ b, targets_ b, allow_autapses_ b, allow_multapses_ b, make_symmetric_ b,
   creates_symmetric_connections_ b).

(** The part of the builder a worker leaves alone: besides the interface,
    the exception slots of the other threads are only written by
    [try_catch], and the vectors keep their sizes. *)
Definition configuration (b : ConnBuilder)
    : (NodeCollection * NodeCollection * bool * bool * bool * bool)
      * list (option exception) * nat * list ParamRef :=
  (interface b, exceptions_raised_ b, List.length (synapse_params_ b),
   parameters_requiring_skipping_ b).

(** Slot [tid] is the first filled one and holds [e]. *)
Definition first_raised (slots : list (option exception)) (tid : nat) (e : exception)
    : Prop :=
  nth_error slots tid = Some (Some e)
  /\ forall j, j < tid -> nth_error slots j = Some None.

(** No slot is filled. *)
Definition none_raised (slots : list (option exception)) : Prop :=
  Forall (fun slot => slot = None) slots.

(** A member function that leaves the collections and the flags alone. *)
Definition keeps_interface (m : M unit) : Prop :=
  forall w, interface (builder (snd (m w))) = interface (builder w).

(** The kernel is consistent: a node that is not a proxy carries the id it
    was asked for, and the local nodes of a thread are the nodes that are
    not proxies there. *)
Record Kernel_consistent (K : Kernel) : Prop := mkKernel_consistent {
  node_id_of_local :
    forall id tid,
      is_proxy (get_node_or_proxy K id tid) = false ->
      get_node_id (get_node_or_proxy K id tid) = id;
  local_nodes_are_hosted :
    forall tid n,
      In n (get_local_nodes K tid) ->
      n = get_node_or_proxy K (get_node_id n) tid /\ is_proxy n = false;
  hosted_nodes_are_local :
    forall id tid,
      is_proxy (get_node_or_proxy K id tid) = false ->
      In (get_node_or_proxy K id tid) (get_local_nodes K tid)
}.

(** Node [id] lives on one of the threads of this process. *)
Definition hosted (K : Kernel) (id : Z) : Prop :=
  exists tid, tid < get_num_threads K /\ is_proxy (get_node_or_proxy K id tid) = false.

(** The entry [name] of a specification is absent or satisfies [ok]. *)
Definition absent_or (ok : Datum -> bool) (d : Dictionary) (name : string) : bool :=
  match dict_find d name with
  | None => true
  | Some t => ok t
  end.

Definition holds_double (t : Datum) : bool :=
  match t with DoubleDatum _ => true | _ => false end.
Definition holds_string (t : Datum) : bool :=
  match t with StringDatum _ => true | _ => false end.
(** An integer datum holds a C++ [long]. *)
Definition holds_long (t : Datum) : bool :=
  match t with
  | IntegerDatum i => ((- two63 <=? i) && (i <? two63))%Z
  | _ => false
  end.

(** The rule parameters of the tripartite rule have the types that
    [updateValue] expects. *)
Definition tripartite_spec_typed (conn_spec : Dictionary) : bool :=
  absent_or holds_double conn_spec names.p_primary
  && absent_or holds_double conn_spec names.p_third_if_primary
  && absent_or holds_long conn_spec names.pool_size
  && absent_or holds_string conn_spec names.pool_type.

(** The value a rule parameter of type double takes from the specification. *)
Definition double_of (conn_spec : Dictionary) (name : string) (default : double) : double :=
  match dict_find conn_spec name with
  | Some (DoubleDatum v) => v
  | _ => default
  end.

(** The pool size the tripartite rule works with: the entry of the
    specification, by default the size of the third-factor population. *)
Definition pool_size_of (conn_spec : Dictionary) (third : NodeCollection) : Z :=
  match dict_find conn_spec names.pool_size with
  | Some (IntegerDatum ps) => ps
  | _ => nc_size third
  end.

(** The size of a collection fits a C++ [long]. *)
Definition fits_long (c : NodeCollection) : Prop := (nc_size c < two63)%Z.

(** A relation between the state before and after a step, with what it
    needs to be preserved by the steps of a worker: it is a preorder, it
    admits draws from the generators in [rng_ok] and connections between the
    endpoints in [conn_ok], and it admits every update of the builder that
    keeps the configuration. *)
Record Frame : Type := mkFrame {
  related : World -> World -> Prop;
  rng_ok : RngPtr -> Prop;
  conn_ok : Z -> Z -> Prop;
  related_refl : forall w, related w w;
  related_trans : forall w1 w2 w3, related w1 w2 -> related w2 w3 -> related w1 w3;
  related_draw :
    forall w d, rng_ok (draw_rng d) -> related w (set_rng_draws (d :: rng_draws w) w);
  related_connect :
    forall w c,
      conn_ok (conn_source c) (conn_target c) ->
      related w (set_connections (c :: connections w) w);
  related_builder :
    forall w b, configuration b = configuration (builder w) -> related w (set_builder b w)
}.

(** A member function all of whose runs are related by the frame. *)
Definition respects {A} (F : Frame) (m : M A) : Prop :=
  forall w, related F w (snd (m w)).

(** The frame also admits the capture of an exception in a slot. *)
Definition admits_capture (F : Frame) : Prop :=
  forall w tid e,
    related F w
      (set_builder
         (set_exceptions_raised_
            (vector_set (exceptions_raised_ (builder w)) tid (Some e)) (builder w)) w).

(** Two frames at once. *)
Definition frame_and (F G : Frame) : Frame.
Proof.
  refine
    {| related := fun w w' => related F w w' /\ related G w w';
       rng_ok := fun r => rng_ok F r /\ rng_ok G r;
       conn_ok := fun s t => conn_ok F s t /\ conn_ok G s t |}.
  - intros w. split; apply related_refl.
  - intros w1 w2 w3 [F1 G1] [F2 G2]. split; eapply related_trans; eassumption.
  - intros w d [HF HG]. split; apply related_draw; assumption.
  - intros w c [HF HG]. split; apply related_connect; assumption.
  - intros w b Hb. split; apply related_builder; assumption.
Defined.

(** Slot [j] is filled. *)
Definition filled (slots : list (option exception)) (j : nat) : Prop :=
  exists e, nth_error slots j = Some (Some e).

(** The frame of the filled slots: a slot that is filled stays filled. *)
Definition filled_frame : Frame.
Proof.
  refine
    {| related := fun w w' =>
         forall j, filled (exceptions_raised_ (builder w)) j ->
                   filled (exceptions_raised_ (builder w')) j;
       rng_ok := fun _ => True;
       conn_ok := fun _ _ => True |}.
  - intros w j Hj. exact Hj.
  - intros w1 w2 w3 H1 H2 j Hj. apply H2, H1, Hj.
  - intros w d _ j Hj. exact Hj.
  - intros w c _ j Hj. exact Hj.
  - intros w b Hb j Hj. simpl.
    unfold configuration in Hb.
    assert (E : exceptions_raised_ b = exceptions_raised_ (builder w))
      by exact (f_equal (fun c => snd (fst (fst c))) Hb).
    rewrite E. exact Hj.
Defined.

(** The frame of the draws: a run only appends draws, all of them taken
    from generators in [P]. *)
Definition draws_frame (P : RngPtr -> Prop) : Frame.
Proof.
  refine
    {| related := fun w w' =>
         exists new, rng_draws w' = new ++ rng_draws w
                     /\ Forall (fun d => P (draw_rng d)) new;
       rng_ok := P;
       conn_ok := fun _ _ => True |}.
  - intros w. exists []. split; [reflexivity | constructor].
  - intros w1 w2 w3 [n1 [E1 F1]] [n2 [E2 F2]]. exists (n2 ++ n1). split.
    + rewrite E2, E1. apply app_assoc.
    + apply Forall_app. split; assumption.
  - intros w d Hd. exists [d]. split; [reflexivity |]. constructor; [exact Hd | constructor].
  - intros w c _. exists []. split; [reflexivity | constructor].
  - intros w b _. exists []. split; [reflexivity | constructor].
Defined.

(** The frame of the connections: a run only appends connections, all of
    them between endpoints in [P]. *)
Definition emits_frame (P : Z -> Z -> Prop) : Frame.
Proof.
  refine
    {| related := fun w w' =>
         exists new, connections w' = new ++ connections w
                     /\ Forall (fun c => P (conn_source c) (conn_target c)) new;
       rng_ok := fun _ => True;
       conn_ok := P |}.
  - intros w. exists []. split; [reflexivity | constructor].
  - intros w1 w2 w3 [n1 [E1 F1]] [n2 [E2 F2]]. exists (n2 ++ n1). split.
    + rewrite E2, E1. apply app_assoc.
    + apply Forall_app. split; assumption.
  - intros w d _. exists []. split; [reflexivity | constructor].
  - intros w c Hc. exists [c]. split; [reflexivity |]. constructor; [exact Hc | constructor].
  - intros w b _. exists []. split; [reflexivity | constructor].
Defined.

(** The frame of the interface: the collections, the flags and the number
    of synapse types stay. *)
Definition interface_frame : Frame.
Proof.
  refine
    {| related := fun w w' =>
         interface (builder w') = interface (builder w)
         /\ List.length (synapse_params_ (builder w'))
            = List.length (synapse_params_ (builder w));
       rng_ok := fun _ => True;
       conn_ok := fun _ _ => True |}.
  - intros w. split; reflexivity.
  - intros w1 w2 w3 [E1 L1] [E2 L2]. split; [rewrite E2; exact E1 | rewrite L2; exact L1].
  - intros w d _. split; reflexivity.
  - intros w c _. split; reflexivity.
  - intros w b Hb. simpl. unfold configuration in Hb. split.
    + exact (f_equal (fun c => fst (fst (fst c))) Hb).
    + exact (f_equal (fun c => snd (fst c)) Hb).
Defined.

(** The frame used to follow a run that completes: connections are only
    added, the interface and the number of synapse types stay. *)
Definition growing : Frame := frame_and (emits_frame (fun _ _ => True)) interface_frame.

(** A builder whose vectors have the sizes the constructor gives them and
    whose parameters are constants or sampled, not array-indexed: no value
    can be exhausted, and [single_connect_] finds every entry it reads. *)
Record Steady (K : Kernel) (b : ConnBuilder) : Prop := mkSteady {
  steady_models : List.length (synapse_model_id_ b) = List.length (synapse_params_ b);
  steady_default_weight_and_delay :
    List.length (default_weight_and_delay_ b) = List.length (synapse_params_ b);
  steady_default_weight :
    List.length (default_weight_ b) = List.length (synapse_params_ b);
  steady_default_delay :
    List.length (default_delay_ b) = List.length (synapse_params_ b);
  steady_dicts : List.length (param_dicts_ b) = List.length (synapse_params_ b);
  steady_dicts_threads :
    Forall (fun ds => List.length ds = get_num_threads K) (param_dicts_ b);
  steady_present :
    forall i,
      nth_error (default_weight_and_delay_ b) i = Some false ->
      (exists p, nth_error (weights_ b) i = Some (Some p))
      /\ (exists p, nth_error (delays_ b) i = Some (Some p));
  steady_weights :
    Forall (fun o => forall p, o = Some p -> is_array p = false) (weights_ b);
  steady_delays :
    Forall (fun o => forall p, o = Some p -> is_array p = false) (delays_ b);
  steady_params :
    Forall (fun m => NoDup (map fst m)
                     /\ Forall (fun np => is_array (snd np) = false) m)
      (synapse_params_ b)
}.

(** The storage accepts every connection. *)
Definition storage_accepts (K : Kernel) : Prop :=
  forall snode_id target syn_id, connection_refused K snode_id target syn_id = None.

(** Every node the kernel hands out may be connected to: the rule does not
    ask for proxies, or the node has them. *)
Definition connectable (requires_proxies : bool) (target : Node) : Prop :=
  requires_proxies && negb (has_proxies target) = false.

Definition targets_connectable (K : Kernel) (requires_proxies : bool) : Prop :=
  (forall id tid, connectable requires_proxies (get_node_or_proxy K id tid))
  /\ (forall tid n, In n (get_local_nodes K tid) -> connectable requires_proxies n).

(** What a step that returns leaves of a steady builder: a steady builder
    with the same configuration and the same synapse parameters. *)
Definition steady_step (K : Kernel) (w w' : World) : Prop :=
  Steady K (builder w')
  /\ configuration (builder w') = configuration (builder w)
  /\ synapse_params_ (builder w') = synapse_params_ (builder w).

(** A member function that, started on a steady builder with [n] synapse
    types, returns. *)
Definition returns_steadily (K : Kernel) (n : nat) {A} (m : M A) : Prop :=
  forall w,
    Steady K (builder w) ->
    List.length (synapse_params_ (builder w)) = n ->
    exists a w', m w = (Ok a, w') /\ steady_step K w w'.

(** *** What the constructor leaves behind *)

Definition holds_bool (t : Datum) : bool :=
  match t with BoolDatum _ => true | _ => false end.

(** The three flags the base constructor reads are booleans where given. *)
Definition flags_typed (conn_spec : Dictionary) : bool :=
  absent_or holds_bool conn_spec names.allow_autapses
  && absent_or holds_bool conn_spec names.allow_multapses
  && absent_or holds_bool conn_spec names.make_symmetric.

Definition is_vector_datum (t : Datum) : bool :=
  match t with
  | IntVectorDatum _ | DoubleVectorDatum _ => true
  | _ => false
  end.

(** No entry of the dictionary is a vector. *)
Definition scalar_valued (d : Dictionary) : Prop :=
  Forall (fun kv => is_vector_datum (snd kv) = false) d.

(** What the constructor has recorded for the synapse specification [spec]
    at index [j]: the three flags say which of weight and delay the
    specification gives, a delay parameter is always created, a weight
    parameter is created unless both are left to the synapse model, the
    model id is the one registered for the model name, and there is one
    parameter dictionary per thread. *)
Definition spec_handled (K : Kernel) (spec : Dictionary) (j : nat) (b : ConnBuilder) : Prop :=
  let dw := negb (known spec names.weight) in
  let dd := negb (known spec names.delay) in
  nth_error (default_weight_ b) j = Some dw
  /\ nth_error (default_delay_ b) j = Some dd
  /\ nth_error (default_weight_and_delay_ b) j = Some (dw && dd)
  /\ (exists d, nth_error (delays_ b) j = Some (Some d))
  /\ (if dw && dd
      then nth_error (weights_ b) j = Some None
      else exists w, nth_error (weights_ b) j = Some (Some w))
  /\ (exists ds, nth_error (param_dicts_ b) j = Some ds
                 /\ List.length ds = get_num_threads K)
  /\ (exists name id,
        dict_find spec names.synapse_model = Some (StringDatum name)
        /\ get_synapse_model_id K name = Some id
        /\ nth_error (synapse_model_id_ b) j = Some id).

(** The per-synapse vectors of the builder all have [n] entries. *)
Definition vectors_sized (n : nat) (b : ConnBuilder) : Prop :=
  List.length (synapse_model_id_ b) = n
  /\ List.length (default_weight_and_delay_ b) = n
  /\ List.length (default_weight_ b) = n
  /\ List.length (default_delay_ b) = n
  /\ List.length (weights_ b) = n
  /\ List.length (delays_ b) = n
  /\ List.length (synapse_params_ b) = n
  /\ List.length (param_dicts_ b) = n.

(** The datum has the type [update_param_dict_] casts the entry of the
    parameter to: an [IntegerDatum] for a parameter that provides a long, a
    [DoubleDatum] otherwise. *)
Definition datum_fits (p : ConnParameter) (t : Datum) : bool :=
  match t with
  | IntegerDatum _ => provides_long p
  | DoubleDatum _ => negb (provides_long p)
  | _ => false
  end.

(** Every parameter dictionary of the builder holds, for every synapse
    parameter of its synapse type, an entry of the fitting type. *)
Definition dicts_typed (b : ConnBuilder) : Prop :=
  forall j m ds d name p,
    nth_error (synapse_params_ b) j = Some m ->
    nth_error (param_dicts_ b) j = Some ds ->
    In d ds ->
    In (name, p) m ->
    exists t, dict_find d name = Some t /\ datum_fits p t = true.

(** No weight, delay or synapse parameter of the builder is array-indexed. *)
Definition params_plain (b : ConnBuilder) : Prop :=
  Forall (fun o => forall p, o = Some p -> is_array p = false) (weights_ b)
  /\ Forall (fun o => forall p, o = Some p -> is_array p = false) (delays_ b)
  /\ Forall (fun m => Forall (fun np => is_array (snd np) = false) m) (synapse_params_ b).

(** The names of the synapse parameters of a synapse type are distinct. *)
Definition params_named_once (b : ConnBuilder) : Prop :=
  Forall (fun m => NoDup (map fst m)) (synapse_params_ b).

(** *** Resetting and replaying *)

(** A parameter after [reset()]: a scalar is what it was; an array has its
    values and, for every thread, the cursor back at the first value; a
    parameter that is sampled has no reset. *)
Definition rewound (p p' : ConnParameter) : Prop :=
  match p with
  | ScalarDoubleParameter v => p' = ScalarDoubleParameter v
  | ScalarIntegerParameter v => p' = ScalarIntegerParameter v
  | ArrayDoubleParameter vs next =>
      p' = ArrayDoubleParameter vs (repeat 0 (List.length next))
  | ArrayIntegerParameter vs next =>
      p' = ArrayIntegerParameter vs (repeat 0 (List.length next))
  | ParameterConnParameterWrapper _ => False
  end.

(** The same for an entry of [weights_] or [delays_], which may be empty. *)
Definition rewound_optional (o o' : option ConnParameter) : Prop :=
  match o, o' with
  | None, None => True
  | Some p, Some p' => rewound p p'
  | _, _ => False
  end.

(** Builder [b'] is builder [b] with every weight, every delay and every
    synapse parameter reset, and nothing else changed. *)
Definition parameters_rewound (b b' : ConnBuilder) : Prop :=
  Forall2 rewound_optional (weights_ b) (weights_ b')
  /\ Forall2 rewound_optional (delays_ b) (delays_ b')
  /\ Forall2 (Forall2 (fun np np' : string * ConnParameter =>
                         fst np' = fst np /\ rewound (snd np) (snd np')))
       (synapse_params_ b) (synapse_params_ b')
  /\ b' = set_synapse_params_ (synapse_params_ b')
            (set_delays_ (delays_ b') (set_weights_ (weights_ b') b)).

(** *** Hosts and streams *)

(** Thread [tid] of this process hosts node [id]. *)
Definition hosted_by (K : Kernel) (id : Z) (tid : nat) : Prop :=
  tid < get_num_threads K
  /\ is_proxy (get_node_or_proxy K id tid) = false
  /\ get_thread (get_node_or_proxy K id tid) = tid.

(** From every position of the stream behind [rng], each index below [n]
    comes up within [fuel] draws of [ulrand( n )]. *)
Definition stream_covers (K : Kernel) (rng : RngPtr) (n : Z) (fuel : nat) : Prop :=
  forall pos i,
    (0 <= i < n)%Z ->
    exists j, j < fuel /\ (rng_stream K rng (pos + j) mod n)%Z = i.

(** *** Workers and parameters *)

(** A member function that never leaves by an exception. *)
Definition never_throws {A} (m : M A) : Prop :=
  forall w e w', m w <> (Throw e, w').

(** A weight or delay that is absent, or is a scalar. *)
Definition scalar_if_present (o : option ConnParameter) : bool :=
  match o with Some p => is_scalar p | None => true end.

(** The generators a thread of the symmetric Bernoulli rule may draw from:
    the synchronised generator of one of the threads of the team. *)
Definition synced_generator_of_team (K : Kernel) (r : RngPtr) : Prop :=
  exists tid, tid < get_num_threads K /\ r = get_vp_synced_rng tid.

(** * Properties *)

(** ** Outcomes *)

Lemma bind_outcome_Ok {A B} (r : outcome A) (f : A -> outcome B) (y : B) :
  bind_outcome r f = Ok y -> exists x, r = Ok x /\ f x = Ok y.
Proof.
  destruct r; simpl; intros H; try discriminate.
  eauto.
Qed.

Ltac invert_outcome :=
  repeat match goal with
    | H : bind_outcome ?r _ = Ok _ |- _ =>
        let x := fresh "x" in
        let Hx := fresh "Hx" in
        apply bind_outcome_Ok in H; destruct H as [x [Hx H]]
    | H : Ok _ = Ok _ |- _ => inversion H; subst; clear H
    | H : Throw _ = Ok _ |- _ => discriminate H
    | H : Crash _ = Ok _ |- _ => discriminate H
    | H : OutOfFuel = Ok _ |- _ => discriminate H
    | H : (if ?c then _ else _) = Ok _ |- _ => destruct c eqn:?
    | H : match ?x with _ => _ end = Ok _ |- _ => destruct x eqn:?
    end.

(** ** Setters and the interface *)

Lemma interface_set_exceptions_raised_ x b :
  interface (set_exceptions_raised_ x b) = interface b.
Proof. destruct b; reflexivity. Qed.
Lemma interface_set_synapse_model_id_ x b :
  interface (set_synapse_model_id_ x b) = interface b.
Proof. destruct b; reflexivity. Qed.
Lemma interface_set_param_dicts_ x b :
  interface (set_param_dicts_ x b) = interface b.
Proof. destruct b; reflexivity. Qed.
Lemma interface_set_use_structural_plasticity_ x b :
  interface (set_use_structural_plasticity_ x b) = interface b.
Proof. destruct b; reflexivity. Qed.
Lemma interface_set_pre_synaptic_element_name_ x b :
  interface (set_pre_synaptic_element_name_ x b) = interface b.
Proof. destruct b; reflexivity. Qed.
Lemma interface_set_post_synaptic_element_name_ x b :
  interface (set_post_synaptic_element_name_ x b) = interface b.
Proof. destruct b; reflexivity. Qed.
Lemma interface_set_default_weight_and_delay_ x b :
  interface (set_default_weight_and_delay_ x b) = interface b.
Proof. destruct b; reflexivity. Qed.
Lemma interface_set_default_weight_ x b :
  interface (set_default_weight_ x b) = interface b.
Proof. destruct b; reflexivity. Qed.
Lemma interface_set_default_delay_ x b :
  interface (set_default_delay_ x b) = interface b.
Proof. destruct b; reflexivity. Qed.
Lemma interface_set_weights_ x b :
  interface (set_weights_ x b) = interface b.
Proof. destruct b; reflexivity. Qed.
Lemma interface_set_delays_ x b :
  interface (set_delays_ x b) = interface b.
Proof. destruct b; reflexivity. Qed.
Lemma interface_set_synapse_params_ x b :
  interface (set_synapse_params_ x b) = interface b.
Proof. destruct b; reflexivity. Qed.
Lemma interface_set_parameters_requiring_skipping_ x b :
  interface (set_parameters_requiring_skipping_ x b) = interface b.
Proof. destruct b; reflexivity. Qed.

Create Rewrite HintDb builder_fields.
#[global] Hint Rewrite
  interface_set_exceptions_raised_ interface_set_synapse_model_id_
  interface_set_param_dicts_ interface_set_use_structural_plasticity_
  interface_set_pre_synaptic_element_name_ interface_set_post_synaptic_element_name_
  interface_set_default_weight_and_delay_ interface_set_default_weight_
  interface_set_default_delay_ interface_set_weights_ interface_set_delays_
  interface_set_synapse_params_ interface_set_parameters_requiring_skipping_
  : builder_fields.

(** ** The base constructor keeps the collections and reads the flags *)

Section ConstructionFacts.

Variable K : Kernel.

Lemma register_parameters_requiring_skipping__interface r p b :
  interface (register_parameters_requiring_skipping_ r p b) = interface b.
Proof.
  unfold register_parameters_requiring_skipping_.
  destruct (is_array p); autorewrite with builder_fields; reflexivity.
Qed.

Lemma set_synapse_model__interface syn_params i b b' :
  set_synapse_model_ K syn_params i b = Ok b' -> interface b' = interface b.
Proof.
  unfold set_synapse_model_. intros H. invert_outcome.
  autorewrite with builder_fields. reflexivity.
Qed.

Lemma set_default_weight_or_delay__interface syn_params i b b' :
  set_default_weight_or_delay_ K syn_params i b = Ok b' -> interface b' = interface b.
Proof.
  unfold set_default_weight_or_delay_. intros H. invert_outcome;
    rewrite ?register_parameters_requiring_skipping__interface;
    autorewrite with builder_fields;
    rewrite ?register_parameters_requiring_skipping__interface;
    autorewrite with builder_fields; reflexivity.
Qed.

Lemma set_synapse_params_entries_interface entries syn_params i :
  forall b b',
    set_synapse_params_entries K entries syn_params i b = Ok b' ->
    interface b' = interface b.
Proof.
  induction entries as [| [name v] rest IH]; intros b b' H.
  - simpl in H. invert_outcome. reflexivity.
  - cbn [set_synapse_params_entries] in H.
    destruct (existsb (String.eqb name) skip_syn_params_).
    + eapply IH; eassumption.
    + destruct (known syn_params name).
      * invert_outcome. apply IH in H. rewrite H.
        rewrite register_parameters_requiring_skipping__interface.
        autorewrite with builder_fields. reflexivity.
      * eapply IH; eassumption.
Qed.

Lemma set_synapse_params_interface syn_defaults syn_params i b b' :
  set_synapse_params K syn_defaults syn_params i b = Ok b' -> interface b' = interface b.
Proof.
  unfold set_synapse_params. intros H. invert_outcome.
  autorewrite with builder_fields.
  eapply set_synapse_params_entries_interface; eassumption.
Qed.

Lemma set_synapse_specs_interface syn_specs :
  forall i b b',
    set_synapse_specs K syn_specs i b = Ok b' -> interface b' = interface b.
Proof.
  induction syn_specs as [| syn_params rest IH]; simpl; intros i b b' H.
  - invert_outcome. reflexivity.
  - invert_outcome.
    apply IH in H. rewrite H.
    erewrite set_synapse_params_interface by eassumption.
    erewrite set_default_weight_or_delay__interface by eassumption.
    eapply set_synapse_model__interface; eassumption.
Qed.

Lemma set_structural_plasticity_parameters_interface syn_specs b b' :
  set_structural_plasticity_parameters syn_specs b = Ok b' -> interface b' = interface b.
Proof.
  unfold set_structural_plasticity_parameters. intros H. invert_outcome;
    autorewrite with builder_fields; reflexivity.
Qed.

Lemma reset_all_parameters_interface b b' :
  reset_all_parameters b = Ok b' -> interface b' = interface b.
Proof.
  unfold reset_all_parameters, reset_weights_, reset_delays_, reset_synapse_params.
  intros H. invert_outcome. autorewrite with builder_fields. reflexivity.
Qed.

Lemma updateValue_bool_flag conn_spec name default v given :
  updateValue getValue_bool conn_spec name default = Ok (v, given) ->
  v = flag_of conn_spec name default.
Proof.
  unfold updateValue, flag_of. intros H.
  destruct (dict_find conn_spec name) as [t |].
  - destruct t; simpl in H; try discriminate. inversion H. reflexivity.
  - inversion H. reflexivity.
Qed.

(** A builder that was constructed holds the collections it was given, and
    its flags are those of the connection specification. *)
Lemma ConnBuilder_ctor_interface sources targets conn_spec syn_specs b :
  ConnBuilder_ctor K sources targets conn_spec syn_specs = Ok b ->
  interface b =
    (sources, targets,
     flag_of conn_spec names.allow_autapses true,
     flag_of conn_spec names.allow_multapses true,
     flag_of conn_spec names.make_symmetric false,
     false).
Proof.
  unfold ConnBuilder_ctor. intros H.
  apply bind_outcome_Ok in H. destruct H as [[aa ga] [Haa H]].
  apply bind_outcome_Ok in H. destruct H as [[am gm] [Ham H]].
  apply bind_outcome_Ok in H. destruct H as [[ms gs] [Hms H]].
  apply updateValue_bool_flag in Haa, Ham, Hms.
  apply bind_outcome_Ok in H. destruct H as [static_id [Hstatic H]].
  apply bind_outcome_Ok in H. destruct H as [b1 [Hb1 H]].
  apply bind_outcome_Ok in H. destruct H as [b2 [Hb2 H]].
  apply bind_outcome_Ok in H. destruct H as [b3 [Hb3 H]].
  apply bind_outcome_Ok in H. destruct H as [b4 [Hb4 H]].
  destruct (negb (valid (sources_ b4) && valid (targets_ b4))); [discriminate |].
  inversion H; subst b4; clear H.
  assert (E4 : interface b = interface b3).
  { destruct (make_symmetric_ b3).
    - eapply reset_all_parameters_interface; eassumption.
    - inversion Hb4. reflexivity. }
  rewrite E4.
  erewrite set_structural_plasticity_parameters_interface by eassumption.
  erewrite set_synapse_specs_interface by eassumption.
  autorewrite with builder_fields.
  destruct (List.length syn_specs); [discriminate |].
  inversion Hb1; subst b1; clear Hb1.
  autorewrite with builder_fields.
  cbn. rewrite Haa, Ham, Hms. reflexivity.
Qed.

End ConstructionFacts.

(** ** Arithmetic of sizes and doubles *)

Lemma nc_size_nonneg c : (0 <= nc_size c)%Z.
Proof. unfold nc_size. lia. Qed.

Lemma nc_size_zero_iff c : nc_size c = 0%Z <-> node_ids c = [].
Proof.
  unfold nc_size. destruct (node_ids c); simpl; split; intros H;
    try reflexivity; try discriminate; lia.
Qed.

Lemma two63_two64 : two64 = (2 * two63)%Z.
Proof. reflexivity. Qed.

Lemma two63_pos : (0 < two63)%Z.
Proof. reflexivity. Qed.

Lemma wrap_size_t_small z : (0 <= z < two64)%Z -> wrap_size_t z = z.
Proof. intros H. unfold wrap_size_t. apply Z.mod_small. exact H. Qed.

Lemma to_long_small z : (0 <= z < two63)%Z -> to_long z = z.
Proof.
  intros H. unfold to_long.
  assert (E : wrap_size_t z = z).
  { apply wrap_size_t_small. rewrite two63_two64. lia. }
  rewrite E. destruct (Z.ltb_spec z two63); [reflexivity | lia].
Qed.

Lemma to_long_nc_size c : fits_long c -> to_long (nc_size c) = nc_size c.
Proof. intros H. apply to_long_small. split; [apply nc_size_nonneg | exact H]. Qed.

Lemma Qltb_true_iff x y : Qltb x y = true <-> (x < y)%Q.
Proof.
  unfold Qltb. rewrite negb_true_iff.
  split; intros H.
  - apply Qnot_le_lt. intros Hle. apply Qle_bool_iff in Hle. congruence.
  - destruct (Qle_bool y x) eqn:E; [| reflexivity].
    apply Qle_bool_iff in E. exfalso. exact (Qlt_not_le _ _ H E).
Qed.

Lemma std_round_inject_Z z : std_round (inject_Z z) = z.
Proof.
  unfold std_round.
  destruct (Qle_bool 0 (inject_Z z)) eqn:E.
  - unfold Qfloor, Qplus, inject_Z. simpl.
    symmetry. apply Z.div_unique with 1%Z; lia.
  - unfold Qfloor, Qplus, Qopp, inject_Z. simpl.
    assert (E' : ((- z * 2 + 1) / 2 = - z)%Z).
    { symmetry. apply Z.div_unique with 1%Z; lia. }
    rewrite E'. lia.
Qed.

(** ** The constructors of the rules *)

Section RuleConstructionFacts.

Variable K : Kernel.

Lemma ConnBuilder_ctor_fields sources targets conn_spec syn_specs b :
  ConnBuilder_ctor K sources targets conn_spec syn_specs = Ok b ->
  sources_ b = sources
  /\ targets_ b = targets
  /\ allow_autapses_ b = flag_of conn_spec names.allow_autapses true
  /\ allow_multapses_ b = flag_of conn_spec names.allow_multapses true
  /\ make_symmetric_ b = flag_of conn_spec names.make_symmetric false
  /\ creates_symmetric_connections_ b = false.
Proof.
  intros H. apply ConnBuilder_ctor_interface in H.
  unfold interface in H. inversion H. repeat split; reflexivity.
Qed.

Lemma dict_get_found d n t : dict_find d n = Some t -> dict_get d n = Ok t.
Proof. unfold dict_get. intros ->. reflexivity. Qed.

End RuleConstructionFacts.

(** ** The choice between the two loops *)

(** Claim C8.  For a target collection that is no larger than the node graph,
    [loop_over_targets_()] returns [false] (the loop over the local nodes)
    exactly when the size of the target collection equals the size of the
    node graph, the collection is a contiguous range and no parameter is
    registered as requiring skipping; in every other case it returns [true]
    (the loop over the targets). *)
Theorem loop_over_targets_false_iff (K : Kernel) (b : ConnBuilder) :
  (nc_size (targets_ b) <= node_manager_size K)%Z ->
  (loop_over_targets_ K b = false <->
     nc_size (targets_ b) = node_manager_size K
     /\ is_range (targets_ b) = true
     /\ parameters_requiring_skipping_ b = [])
  /\ (loop_over_targets_ K b = true <->
        ~ (nc_size (targets_ b) = node_manager_size K
           /\ is_range (targets_ b) = true
           /\ parameters_requiring_skipping_ b = [])).
Proof.
  intros Hle.
  assert (Hfalse :
    loop_over_targets_ K b = false <->
      nc_size (targets_ b) = node_manager_size K
      /\ is_range (targets_ b) = true
      /\ parameters_requiring_skipping_ b = []).
  { unfold loop_over_targets_.
    rewrite !orb_false_iff, negb_false_iff, Z.ltb_ge, Nat.ltb_ge.
    split.
    - intros [[Hsize Hrange] Hskip]. repeat split.
      + lia.
      + exact Hrange.
      + destruct (parameters_requiring_skipping_ b); [reflexivity | simpl in Hskip; lia].
    - intros [Hsize [Hrange Hskip]]. rewrite Hskip. simpl. repeat split.
      + lia.
      + exact Hrange.
      + lia. }
  split; [exact Hfalse |].
  rewrite <- Hfalse. destruct (loop_over_targets_ K b); split; intros H.
  - discriminate.
  - reflexivity.
  - discriminate.
  - exfalso. apply H. reflexivity.
Qed.

Lemma loop_over_targets_false_iff_witness :
  (nc_size (node_range 1 3) <= node_manager_size (scenario_kernel 2 3))%Z
  /\ loop_over_targets_ (scenario_kernel 2 3)
       (ConnBuilder_init (scenario_kernel 2 3) (node_range 1 3) (node_range 1 3)) = false.
Proof.
  assert (Hle : (nc_size (node_range 1 3) <= node_manager_size (scenario_kernel 2 3))%Z)
    by (vm_compute; discriminate).
  split; [exact Hle |].
  apply (proj1 (loop_over_targets_false_iff (scenario_kernel 2 3)
                  (ConnBuilder_init (scenario_kernel 2 3) (node_range 1 3) (node_range 1 3))
                  Hle)).
  repeat split.
Defined.

(** ** The fixed-total-number rule *)

Lemma FixedTotalNumberBuilder_needs_multapses (K : Kernel) sources targets conn_spec syn_specs :
  flag_of conn_spec names.allow_multapses true = false ->
  is_Ok (FixedTotalNumberBuilder_ctor K sources targets conn_spec syn_specs) = false.
Proof.
  intros Hflag. unfold FixedTotalNumberBuilder_ctor.
  destruct (ConnBuilder_ctor K sources targets conn_spec syn_specs) as [b | | |] eqn:Hb;
    try reflexivity.
  destruct (ConnBuilder_ctor_fields _ _ _ _ _ _ Hb) as [_ [_ [_ [Ham _]]]].
  simpl. destruct (dict_get conn_spec names.N) as [t | | |]; try reflexivity.
  simpl. destruct (getValue_long t) as [N | | |]; try reflexivity.
  simpl. rewrite Ham, Hflag. simpl.
  destruct (N >? _)%Z; [reflexivity |].
  destruct (N <? 0)%Z; reflexivity.
Qed.

(** Claim C5.  For collections whose sizes have a product that fits a [long]:
    construction of [FixedTotalNumberBuilder] throws [BadProperty] when
    [N < 0]; it throws [BadProperty] when multapses are disallowed and
    [N > |sources| * |targets|]; with multapses disallowed and [N] in range it
    throws [NotImplemented]; so with multapses disallowed it never succeeds.
    With multapses allowed and [N >= 0] it succeeds. *)
Theorem FixedTotalNumberBuilder_ctor_checks (K : Kernel)
    (sources targets : NodeCollection) (conn_spec : Dictionary)
    (syn_specs : list Dictionary) (b : ConnBuilder) (N : Z) :
  ConnBuilder_ctor K sources targets conn_spec syn_specs = Ok b ->
  dict_find conn_spec names.N = Some (IntegerDatum N) ->
  (nc_size sources * nc_size targets < two63)%Z ->
  let built := FixedTotalNumberBuilder_ctor K sources targets conn_spec syn_specs in
  let multapses := flag_of conn_spec names.allow_multapses true in
  ((N < 0)%Z -> is_BadProperty built = true)
  /\ (multapses = false -> (N > nc_size sources * nc_size targets)%Z ->
      is_BadProperty built = true)
  /\ (multapses = false -> (0 <= N <= nc_size sources * nc_size targets)%Z ->
      is_NotImplemented built = true)
  /\ (multapses = false -> is_Ok built = false)
  /\ (multapses = true -> (0 <= N)%Z -> built = Ok (mkFixedTotalNumberBuilder b N)).
Proof.
  intros Hb HN Hfit built multapses.
  destruct (ConnBuilder_ctor_fields _ _ _ _ _ _ Hb) as [Hs [Ht [_ [Ham _]]]].
  assert (Hprod : to_long (wrap_size_t (nc_size (sources_ b) * nc_size (targets_ b)))
                  = (nc_size sources * nc_size targets)%Z).
  { rewrite Hs, Ht.
    pose proof (nc_size_nonneg sources). pose proof (nc_size_nonneg targets).
    rewrite wrap_size_t_small by (rewrite two63_two64; nia).
    apply to_long_small. nia. }
  assert (E : built =
    if negb multapses && (N >? nc_size sources * nc_size targets)%Z
    then Throw (BadProperty
           "Total number of connections cannot exceed product of source and target population sizes.")
    else if (N <? 0)%Z
    then Throw (BadProperty "Total number of connections cannot be negative.")
    else if negb multapses
    then Throw (NotImplemented
           "Connect doesn't support the suppression of multapses in the FixedTotalNumber connector.")
    else Ok (mkFixedTotalNumberBuilder b N)).
  { unfold built, FixedTotalNumberBuilder_ctor. rewrite Hb. simpl.
    rewrite (dict_get_found _ _ _ HN). simpl.
    rewrite Hprod, Ham. reflexivity. }
  rewrite E. clear E.
  repeat split.
  - intros Hneg.
    destruct (negb multapses && (N >? nc_size sources * nc_size targets)%Z);
      [reflexivity |].
    destruct (Z.ltb_spec N 0); [reflexivity | lia].
  - intros Hm Hgt. rewrite Hm. simpl.
    destruct (Z.gtb_spec N (nc_size sources * nc_size targets)); [reflexivity | lia].
  - intros Hm Hrange. rewrite Hm. simpl.
    destruct (Z.gtb_spec N (nc_size sources * nc_size targets)); [lia |].
    destruct (Z.ltb_spec N 0); [lia | reflexivity].
  - intros Hm. rewrite Hm. simpl.
    destruct (N >? nc_size sources * nc_size targets)%Z; [reflexivity |].
    destruct (N <? 0)%Z; reflexivity.
  - intros Hm Hpos. rewrite Hm. simpl.
    destruct (Z.ltb_spec N 0); [lia | reflexivity].
Qed.

Lemma FixedTotalNumberBuilder_ctor_checks_witness :
  let K := scenario_kernel 1 4 in
  let spec := [("allow_multapses"%string, BoolDatum false); ("N"%string, IntegerDatum 6)] in
  (nc_size (node_range 1 4) * nc_size (node_range 1 4) < two63)%Z
  /\ is_NotImplemented
       (FixedTotalNumberBuilder_ctor K (node_range 1 4) (node_range 1 4) spec
          [static_synapse_spec]) = true.
Proof.
  intros K spec.
  assert (Hfit : (nc_size (node_range 1 4) * nc_size (node_range 1 4) < two63)%Z)
    by reflexivity.
  split; [exact Hfit |].
  destruct (ConnBuilder_ctor K (node_range 1 4) (node_range 1 4) spec [static_synapse_spec])
    as [b | | |] eqn:Hb; try (vm_compute in Hb; discriminate).
  destruct (FixedTotalNumberBuilder_ctor_checks K (node_range 1 4) (node_range 1 4) spec
              [static_synapse_spec] b 6 Hb eq_refl Hfit) as [_ [_ [Hin _]]].
  apply Hin; [reflexivity | vm_compute; split; discriminate].
Defined.

(** ** Rule parameters given as parameter objects *)

(** Claim C10.  When [indegree] (fixed-indegree rule) or [p] (Bernoulli rule)
    is a parameter object, the constructor validates nothing: construction
    succeeds for every parameter object, also for one that always produces a
    negative indegree or a probability above one, although the same value
    given as a scalar is rejected with [BadProperty]. *)
Theorem parameter_objects_are_not_validated (K : Kernel)
    (sources targets : NodeCollection) (conn_spec : Dictionary)
    (syn_specs : list Dictionary) (b : ConnBuilder) :
  ConnBuilder_ctor K sources targets conn_spec syn_specs = Ok b ->
  node_ids sources <> [] ->
  fits_long sources ->
  (forall pd,
     dict_find conn_spec names.indegree = Some (ParameterDatum pd) ->
     FixedInDegreeBuilder_ctor K sources targets conn_spec syn_specs
     = (Ok (mkFixedInDegreeBuilder b pd), []))
  /\ (forall pd,
        dict_find conn_spec names.p = Some (ParameterDatum pd) ->
        BernoulliBuilder_ctor K sources targets conn_spec syn_specs
        = Ok (mkBernoulliBuilder b pd))
  /\ (forall value,
        dict_find conn_spec names.indegree = Some (IntegerDatum value) ->
        (value < 0)%Z ->
        is_BadProperty (fst (FixedInDegreeBuilder_ctor K sources targets conn_spec syn_specs))
        = true)
  /\ (forall value,
        dict_find conn_spec names.p = Some (DoubleDatum value) ->
        (value < 0 \/ 1 < value)%Q ->
        is_BadProperty (BernoulliBuilder_ctor K sources targets conn_spec syn_specs) = true).
Proof.
  intros Hb Hne Hfit.
  destruct (ConnBuilder_ctor_fields _ _ _ _ _ _ Hb) as [Hs _].
  assert (Hn : (0 < to_long (nc_size (sources_ b)))%Z).
  { rewrite Hs, (to_long_nc_size _ Hfit).
    pose proof (nc_size_nonneg sources).
    assert (nc_size sources <> 0%Z) by (rewrite nc_size_zero_iff; exact Hne).
    lia. }
  assert (Hn0 : (to_long (nc_size (sources_ b)) =? 0)%Z = false)
    by (apply Z.eqb_neq; lia).
  repeat split.
  - intros pd Hpd. unfold FixedInDegreeBuilder_ctor.
    rewrite Hb, Hn0, (dict_get_found _ _ _ Hpd). reflexivity.
  - intros pd Hpd. unfold BernoulliBuilder_ctor.
    rewrite Hb. simpl. rewrite (dict_get_found _ _ _ Hpd). reflexivity.
  - intros value Hv Hneg. unfold FixedInDegreeBuilder_ctor.
    rewrite Hb, Hn0, (dict_get_found _ _ _ Hv). simpl.
    destruct (Z.ltb_spec value 0) as [_ | Hge]; [| lia].
    destruct (negb (allow_multapses_ b)); [| reflexivity].
    destruct (Z.gtb_spec value (to_long (nc_size (sources_ b)))); [reflexivity |].
    destruct (Z.eqb_spec value (to_long (nc_size (sources_ b)))); [lia |].
    reflexivity.
  - intros value Hv Hout. unfold BernoulliBuilder_ctor.
    rewrite Hb. simpl. rewrite (dict_get_found _ _ _ Hv). simpl.
    assert (E : Qltb value 0 || Qltb 1 value = true).
    { apply orb_true_iff. destruct Hout as [H | H]; [left | right];
        apply Qltb_true_iff; exact H. }
    rewrite E. reflexivity.
Qed.

Lemma parameter_objects_are_not_validated_witness :
  let K := scenario_kernel 1 3 in
  let spec := [ ("indegree"%string, ParameterDatum (ConstantParameter (- 5)));
                ("p"%string, ParameterDatum (ConstantParameter 2)) ] in
  node_ids (node_range 1 3) <> []
  /\ fits_long (node_range 1 3)
  /\ is_Ok (fst (FixedInDegreeBuilder_ctor K (node_range 1 3) (node_range 1 3) spec
                   [static_synapse_spec])) = true
  /\ is_Ok (BernoulliBuilder_ctor K (node_range 1 3) (node_range 1 3) spec
              [static_synapse_spec]) = true.
Proof.
  intros K spec.
  assert (Hne : node_ids (node_range 1 3) <> []) by (vm_compute; discriminate).
  assert (Hfit : fits_long (node_range 1 3)) by reflexivity.
  destruct (ConnBuilder_ctor K (node_range 1 3) (node_range 1 3) spec [static_synapse_spec])
    as [b | | |] eqn:Hb; try (vm_compute in Hb; discriminate).
  destruct (parameter_objects_are_not_validated K (node_range 1 3) (node_range 1 3) spec
              [static_synapse_spec] b Hb Hne Hfit) as [Hin [Hp _]].
  split; [exact Hne |]. split; [exact Hfit |]. split.
  - rewrite (Hin (ConstantParameter (- 5)) eq_refl). reflexivity.
  - rewrite (Hp (ConstantParameter 2) eq_refl). reflexivity.
Defined.

(** The scalar counterparts of the values above are rejected. *)
Example scalar_counterparts_are_rejected :
  let K := scenario_kernel 1 3 in
  is_BadProperty (fst (FixedInDegreeBuilder_ctor K (node_range 1 3) (node_range 1 3)
                         [("indegree"%string, IntegerDatum (- 5))] [static_synapse_spec]))
  = true
  /\ is_BadProperty (BernoulliBuilder_ctor K (node_range 1 3) (node_range 1 3)
                       [("p"%string, DoubleDatum 2)] [static_synapse_spec]) = true.
Proof. vm_compute. split; reflexivity. Qed.

(** ** The pool of the tripartite rule *)

Lemma updateValue_typed {T} (get : Datum -> outcome T) (ok : Datum -> bool)
    (d : Dictionary) (n : string) (x : T) :
  (forall t, ok t = true -> exists v, get t = Ok v) ->
  absent_or ok d n = true ->
  exists v given, updateValue get d n x = Ok (v, given)
    /\ (dict_find d n = None -> v = x /\ given = false)
    /\ (forall t, dict_find d n = Some t -> get t = Ok v /\ given = true).
Proof.
  intros Hget Habs. unfold absent_or in Habs. unfold updateValue.
  destruct (dict_find d n) as [t |].
  - destruct (Hget t Habs) as [v Hv]. exists v, true.
    split; [rewrite Hv; reflexivity |]. split.
    + intros E. discriminate E.
    + intros t' E. inversion E; subst. split; [exact Hv | reflexivity].
  - exists x, false. split; [reflexivity |]. split.
    + intros _. split; reflexivity.
    + intros t E. discriminate E.
Qed.

(** Claim C9.  For a third-factor population that is not empty and whose
    size fits a [long], with [|targets| * |third|] below [2^64] and rule
    parameters of the types [updateValue] expects: construction of
    [TripartiteBernoulliWithPoolBuilder] with [pool_type = "block"] throws
    [BadProperty] unless [|targets| * pool_size = |third|] or ([pool_size = 1]
    and [|targets| mod |third| = 0]); a [pool_size] outside [[1, |third|]]
    throws [BadProperty] for every pool type.  With probabilities in
    [[0, 1]], a pool size in range and one of the two sizings, construction
    with block pools succeeds. *)
Theorem tripartite_pool_checks (K : Kernel)
    (sources targets third : NodeCollection) (conn_spec : Dictionary)
    (syn_specs : list (string * list Dictionary))
    (b : ConnBuilder) (third_in third_out : AuxiliaryBuilder) :
  ConnBuilder_ctor K sources targets conn_spec (syn_specs_at syn_specs names.primary) = Ok b ->
  AuxiliaryBuilder_ctor K sources third conn_spec (syn_specs_at syn_specs names.third_in)
  = Ok third_in ->
  AuxiliaryBuilder_ctor K third targets conn_spec (syn_specs_at syn_specs names.third_out)
  = Ok third_out ->
  (0 < nc_size third)%Z ->
  fits_long third ->
  (nc_size targets * nc_size third < two64)%Z ->
  tripartite_spec_typed conn_spec = true ->
  let built :=
    TripartiteBernoulliWithPoolBuilder_ctor K sources targets third conn_spec syn_specs in
  let pool_size := pool_size_of conn_spec third in
  let fits :=
    (nc_size targets * pool_size = nc_size third)%Z
    \/ (pool_size = 1%Z /\ (nc_size targets mod nc_size third = 0)%Z) in
  (dict_find conn_spec names.pool_type = Some (StringDatum "block") ->
   ~ fits -> is_BadProperty built = true)
  /\ ((pool_size < 1 \/ nc_size third < pool_size)%Z -> is_BadProperty built = true)
  /\ (dict_find conn_spec names.pool_type = Some (StringDatum "block") ->
      (0 <= double_of conn_spec names.p_primary 1 <= 1)%Q ->
      (0 <= double_of conn_spec names.p_third_if_primary 1 <= 1)%Q ->
      (1 <= pool_size <= nc_size third)%Z ->
      fits -> is_Ok built = true).
Proof.
  intros Hb Hin Hout Hthird Hfit Hprod Htyped built pool_size fits.
  unfold tripartite_spec_typed in Htyped.
  apply andb_true_iff in Htyped. destruct Htyped as [Htyped Htype].
  apply andb_true_iff in Htyped. destruct Htyped as [Htyped Hsize].
  apply andb_true_iff in Htyped. destruct Htyped as [Hpp Hpt].
  set (pp := double_of conn_spec names.p_primary 1).
  set (pt := double_of conn_spec names.p_third_if_primary 1).
  assert (Epp : updateValue getValue_double conn_spec names.p_primary 1%Q
                = Ok (pp, known conn_spec names.p_primary)).
  { unfold updateValue, pp, double_of, known, absent_or in *.
    destruct (dict_find conn_spec names.p_primary) as [t |]; [| reflexivity].
    destruct t; try discriminate. reflexivity. }
  assert (Ept : updateValue getValue_double conn_spec names.p_third_if_primary 1%Q
                = Ok (pt, known conn_spec names.p_third_if_primary)).
  { unfold updateValue, pt, double_of, known, absent_or in *.
    destruct (dict_find conn_spec names.p_third_if_primary) as [t |]; [| reflexivity].
    destruct t; try discriminate. reflexivity. }
  assert (Hdefault : to_long (nc_size third) = nc_size third)
    by (apply to_long_nc_size; exact Hfit).
  (* the pool size read from the specification *)
  assert (Eps : updateValue getValue_long conn_spec names.pool_size (nc_size third)
                = Ok (pool_size, known conn_spec names.pool_size)
                  /\ (pool_size < two63)%Z).
  { unfold updateValue, pool_size, pool_size_of, known, absent_or in *.
    destruct (dict_find conn_spec names.pool_size) as [t |].
    - destruct t; try discriminate. simpl in Hsize.
      apply andb_true_iff in Hsize. destruct Hsize as [_ Hlt].
      apply Z.ltb_lt in Hlt. split; [reflexivity | exact Hlt].
    - split; [reflexivity | exact Hfit]. }
  destruct Eps as [Eps Hps].
  (* the pool type read from the specification *)
  destruct (updateValue_typed getValue_string holds_string conn_spec names.pool_type
              EmptyString) as [ptype [gtype [Etype [_ Hgiven]]]]; [| exact Htype |].
  { intros t Ht. destruct t; try discriminate. eexists; reflexivity. }
  assert (Hthird0 : (nc_size third =? 0)%Z = false) by (apply Z.eqb_neq; lia).
  assert (E : built =
    bind_outcome
      (if gtype then
         if String.eqb ptype "random" then Ok true
         else if String.eqb ptype "block" then Ok false
         else Throw (BadProperty "pool_type must be 'random' or 'block'")
       else Ok true)
      (fun random_pool =>
         if Qltb pp 0 || Qltb 1 pp
         then Throw (BadProperty "Probability of primary connection 0 ≤ p_primary ≤ 1 required")
         else if Qltb pt 0 || Qltb 1 pt
         then Throw (BadProperty
                "Conditional probability of third-factor connection 0 ≤ p_third_if_primary ≤ 1 required")
         else if (pool_size <? 1)%Z || (nc_size third <? to_size_t pool_size)%Z
         then Throw (BadProperty
                "Pool size 1 ≤ pool_size ≤ size of third-factor population required")
         else if negb (random_pool
                       || (wrap_size_t (nc_size targets * to_size_t pool_size)
                           =? nc_size third)%Z
                       || ((pool_size =? 1)%Z
                           && (nc_size targets mod nc_size third =? 0)%Z))
         then Throw (BadProperty
                "The sizes of target and third-factor populations and the chosen pool size do not fit. If pool_size == 1, the target population size must be a multiple of the third-factor population size. For pool_size > 1, size(targets) * pool_size == size(third factor) is required. For all other cases, use random pools.")
         else Ok {| tripartite_base := b;
                    third_ := third;
                    third_in_builder_ := third_in;
                    third_out_builder_ := third_out;
                    p_primary_ := pp;
                    p_third_if_primary_ := pt;
                    random_pool_ := random_pool;
                    pool_size_ := pool_size;
                    targets_per_third_ := (nc_size targets / nc_size third)%Z |})).
  { unfold built, TripartiteBernoulliWithPoolBuilder_ctor.
    rewrite Hb. cbn [bind_outcome]. rewrite Hin. cbn [bind_outcome].
    rewrite Hout. cbn [bind_outcome]. rewrite Hthird0. cbn [bind_outcome].
    rewrite Epp. cbn [bind_outcome]. rewrite Ept. cbn [bind_outcome].
    rewrite Hdefault, Eps. cbn [bind_outcome]. rewrite Etype. cbn [bind_outcome].
    reflexivity. }
  (* inside the range, the size_t arithmetic is exact *)
  assert (Hexact : (1 <= pool_size <= nc_size third)%Z ->
                   to_size_t pool_size = pool_size
                   /\ wrap_size_t (nc_size targets * pool_size)
                      = (nc_size targets * pool_size)%Z).
  { intros Hrange. pose proof (nc_size_nonneg targets). split.
    - apply wrap_size_t_small. rewrite two63_two64. lia.
    - apply wrap_size_t_small. nia. }
  split; [| split].
  - intros Hblock Hnofit.
    destruct (Hgiven _ Hblock) as [Hget ->]. inversion Hget; subst ptype.
    rewrite E. cbn [bind_outcome String.eqb Ascii.eqb Bool.eqb].
    simpl.
    destruct (Qltb pp 0 || Qltb 1 pp); [reflexivity |].
    destruct (Qltb pt 0 || Qltb 1 pt); [reflexivity |].
    destruct ((pool_size <? 1)%Z || (nc_size third <? to_size_t pool_size)%Z) eqn:Hrange;
      [reflexivity |].
    apply orb_false_iff in Hrange. destruct Hrange as [H1 H2].
    apply Z.ltb_ge in H1.
    assert (Hps' : to_size_t pool_size = pool_size).
    { apply wrap_size_t_small. rewrite two63_two64. lia. }
    rewrite Hps' in H2 |- *. apply Z.ltb_ge in H2.
    destruct (Hexact (conj H1 H2)) as [_ Hw]. rewrite Hw.
    destruct (Z.eqb_spec (nc_size targets * pool_size) (nc_size third)) as [EA | _].
    { exfalso. apply Hnofit. left. exact EA. }
    destruct (Z.eqb_spec pool_size 1) as [E1 | _]; [| reflexivity].
    destruct (Z.eqb_spec (nc_size targets mod nc_size third) 0) as [EB | _]; [| reflexivity].
    exfalso. apply Hnofit. right. split; assumption.
  - intros Hout_of_range.
    rewrite E.
    destruct (if gtype then _ else _) as [random_pool | e | why |] eqn:Hrp.
    + cbn [bind_outcome].
      destruct (Qltb pp 0 || Qltb 1 pp); [reflexivity |].
      destruct (Qltb pt 0 || Qltb 1 pt); [reflexivity |].
      assert (Hrange : (pool_size <? 1)%Z || (nc_size third <? to_size_t pool_size)%Z = true).
      { apply orb_true_iff. destruct (Z.ltb_spec pool_size 1) as [Hlt | Hge].
        - left. reflexivity.
        - right. apply Z.ltb_lt.
          assert (Hps' : to_size_t pool_size = pool_size).
          { apply wrap_size_t_small. rewrite two63_two64. lia. }
          rewrite Hps'. lia. }
      rewrite Hrange. reflexivity.
    + destruct gtype; [| discriminate].
      destruct (String.eqb ptype "random"); [discriminate |].
      destruct (String.eqb ptype "block"); [discriminate |].
      inversion Hrp. reflexivity.
    + destruct gtype; [| discriminate].
      destruct (String.eqb ptype "random"); [discriminate |].
      destruct (String.eqb ptype "block"); discriminate.
    + destruct gtype; [| discriminate].
      destruct (String.eqb ptype "random"); [discriminate |].
      destruct (String.eqb ptype "block"); discriminate.
  - intros Hblock [Hpp0 Hpp1] [Hpt0 Hpt1] Hrange Hfits.
    destruct (Hgiven _ Hblock) as [Hget ->]. inversion Hget; subst ptype.
    rewrite E. cbn [bind_outcome String.eqb Ascii.eqb Bool.eqb].
    simpl.
    assert (Qltb_false : forall x y, (y <= x)%Q -> Qltb x y = false).
    { intros x y Hle. unfold Qltb. apply negb_false_iff. apply Qle_bool_iff. exact Hle. }
    fold pp in Hpp0, Hpp1. fold pt in Hpt0, Hpt1.
    rewrite (Qltb_false pp 0%Q Hpp0), (Qltb_false 1%Q pp Hpp1).
    rewrite (Qltb_false pt 0%Q Hpt0), (Qltb_false 1%Q pt Hpt1).
    simpl.
    destruct (Hexact Hrange) as [Hps' Hw]. rewrite Hps', Hw.
    destruct (Z.ltb_spec pool_size 1); [lia |].
    destruct (Z.ltb_spec (nc_size third) pool_size); [lia |].
    simpl.
    destruct Hfits as [EA | [E1 EB]].
    + rewrite EA, Z.eqb_refl. reflexivity.
    + rewrite E1, EB. simpl. rewrite orb_true_r. reflexivity.
Qed.

Lemma tripartite_pool_checks_witness :
  let K := scenario_kernel 1 12 in
  let spec := [ ("pool_type"%string, StringDatum "block");
                ("pool_size"%string, IntegerDatum 2) ] in
  let specs := [ ("primary"%string, [static_synapse_spec]);
                 ("third_in"%string, [static_synapse_spec]);
                 ("third_out"%string, [static_synapse_spec]) ] in
  (0 < nc_size (node_range 9 4))%Z
  /\ fits_long (node_range 9 4)
  /\ (nc_size (node_range 5 4) * nc_size (node_range 9 4) < two64)%Z
  /\ tripartite_spec_typed spec = true
  /\ is_BadProperty
       (TripartiteBernoulliWithPoolBuilder_ctor K (node_range 1 4) (node_range 5 4)
          (node_range 9 4) spec specs) = true.
Proof.
  intros K spec specs.
  assert (Hthird : (0 < nc_size (node_range 9 4))%Z) by reflexivity.
  assert (Hfit : fits_long (node_range 9 4)) by reflexivity.
  assert (Hprod : (nc_size (node_range 5 4) * nc_size (node_range 9 4) < two64)%Z)
    by reflexivity.
  assert (Htyped : tripartite_spec_typed spec = true) by reflexivity.
  repeat (split; [assumption |]).
  destruct (ConnBuilder_ctor K (node_range 1 4) (node_range 5 4) spec
              (syn_specs_at specs names.primary)) as [b | | |] eqn:Hb;
    try (vm_compute in Hb; discriminate).
  destruct (AuxiliaryBuilder_ctor K (node_range 1 4) (node_range 9 4) spec
              (syn_specs_at specs names.third_in)) as [third_in | | |] eqn:Hin;
    try (vm_compute in Hin; discriminate).
  destruct (AuxiliaryBuilder_ctor K (node_range 9 4) (node_range 5 4) spec
              (syn_specs_at specs names.third_out)) as [third_out | | |] eqn:Hout;
    try (vm_compute in Hout; discriminate).
  destruct (tripartite_pool_checks K (node_range 1 4) (node_range 5 4) (node_range 9 4)
              spec specs b third_in third_out Hb Hin Hout Hthird Hfit Hprod Htyped)
    as [Hblock _].
  apply Hblock; [reflexivity |].
  vm_compute. intros [H | [H _]]; discriminate H.
Defined.

(** A block pool of size one over equally large target and third-factor
    populations is accepted; an empty third-factor population leaves the
    quotient [targets->size() / third->size()] undefined. *)
Example tripartite_block_pool_of_size_one :
  let K := scenario_kernel 1 12 in
  let spec := [ ("pool_type"%string, StringDatum "block");
                ("pool_size"%string, IntegerDatum 1) ] in
  let specs := [ ("primary"%string, [static_synapse_spec]);
                 ("third_in"%string, [static_synapse_spec]);
                 ("third_out"%string, [static_synapse_spec]) ] in
  is_Ok (TripartiteBernoulliWithPoolBuilder_ctor K (node_range 1 4) (node_range 5 4)
           (node_range 9 4) spec specs) = true
  /\ TripartiteBernoulliWithPoolBuilder_ctor K (node_range 1 4) (node_range 5 4)
       empty_collection spec specs
     = Crash "targets->size() / third->size(): division by zero".
Proof. vm_compute. split; reflexivity. Qed.

(** ** Empty collections *)

Lemma Qltb_false_iff x y : Qltb x y = false <-> (y <= x)%Q.
Proof.
  unfold Qltb. rewrite negb_false_iff. apply Qle_bool_iff.
Qed.

(** The tripartite constructor over an empty target collection: random
    pools and block pools of size one are accepted, block pools of a larger
    size fail the test of the sizes. *)
Lemma TripartiteBernoulliWithPoolBuilder_ctor_empty_targets (K : Kernel)
    (sources targets third : NodeCollection) (conn_spec : Dictionary)
    (syn_specs : list (string * list Dictionary))
    (b : ConnBuilder) (third_in third_out : AuxiliaryBuilder) :
  ConnBuilder_ctor K sources targets conn_spec (syn_specs_at syn_specs names.primary) = Ok b ->
  AuxiliaryBuilder_ctor K sources third conn_spec (syn_specs_at syn_specs names.third_in)
  = Ok third_in ->
  AuxiliaryBuilder_ctor K third targets conn_spec (syn_specs_at syn_specs names.third_out)
  = Ok third_out ->
  (0 < nc_size third)%Z ->
  fits_long third ->
  tripartite_spec_typed conn_spec = true ->
  (0 <= double_of conn_spec names.p_primary 1 <= 1)%Q ->
  (0 <= double_of conn_spec names.p_third_if_primary 1 <= 1)%Q ->
  (1 <= pool_size_of conn_spec third <= nc_size third)%Z ->
  node_ids targets = [] ->
  let built :=
    TripartiteBernoulliWithPoolBuilder_ctor K sources targets third conn_spec syn_specs in
  (dict_find conn_spec names.pool_type = None
   \/ dict_find conn_spec names.pool_type = Some (StringDatum "random") ->
   is_Ok built = true)
  /\ (dict_find conn_spec names.pool_type = Some (StringDatum "block") ->
      pool_size_of conn_spec third = 1%Z -> is_Ok built = true)
  /\ (dict_find conn_spec names.pool_type = Some (StringDatum "block") ->
      (1 < pool_size_of conn_spec third)%Z -> is_BadProperty built = true).
Proof.
  intros Hb Hin Hout Hthird Hfit Htyped [Hpp0 Hpp1] [Hpt0 Hpt1] Hrange Hempty built.
  set (pool_size := pool_size_of conn_spec third) in *.
  unfold tripartite_spec_typed in Htyped.
  apply andb_true_iff in Htyped. destruct Htyped as [Htyped Htype].
  apply andb_true_iff in Htyped. destruct Htyped as [Htyped Hsize].
  apply andb_true_iff in Htyped. destruct Htyped as [Hpp Hpt].
  set (pp := double_of conn_spec names.p_primary 1) in *.
  set (pt := double_of conn_spec names.p_third_if_primary 1) in *.
  assert (Epp : updateValue getValue_double conn_spec names.p_primary 1%Q
                = Ok (pp, known conn_spec names.p_primary)).
  { unfold updateValue, pp, double_of, known, absent_or in *.
    destruct (dict_find conn_spec names.p_primary) as [t |]; [| reflexivity].
    destruct t; try discriminate. reflexivity. }
  assert (Ept : updateValue getValue_double conn_spec names.p_third_if_primary 1%Q
                = Ok (pt, known conn_spec names.p_third_if_primary)).
  { unfold updateValue, pt, double_of, known, absent_or in *.
    destruct (dict_find conn_spec names.p_third_if_primary) as [t |]; [| reflexivity].
    destruct t; try discriminate. reflexivity. }
  assert (Hdefault : to_long (nc_size third) = nc_size third)
    by (apply to_long_nc_size; exact Hfit).
  assert (Eps : updateValue getValue_long conn_spec names.pool_size (nc_size third)
                = Ok (pool_size, known conn_spec names.pool_size)).
  { unfold updateValue, pool_size, pool_size_of, known, absent_or in *.
    destruct (dict_find conn_spec names.pool_size) as [t |]; [| reflexivity].
    destruct t; try discriminate. reflexivity. }
  assert (Hsize0 : nc_size targets = 0%Z) by (apply nc_size_zero_iff; exact Hempty).
  assert (Hthird0 : (nc_size third =? 0)%Z = false) by (apply Z.eqb_neq; lia).
  assert (Hps : to_size_t pool_size = pool_size).
  { apply wrap_size_t_small. unfold fits_long in Hfit. rewrite two63_two64. lia. }
  assert (E : forall ptype gtype,
    updateValue getValue_string conn_spec names.pool_type EmptyString = Ok (ptype, gtype) ->
    built =
    bind_outcome
      (if gtype then
         if String.eqb ptype "random" then Ok true
         else if String.eqb ptype "block" then Ok false
         else Throw (BadProperty "pool_type must be 'random' or 'block'")
       else Ok true)
      (fun random_pool =>
         if negb (random_pool || (pool_size =? 1)%Z)
         then Throw (BadProperty
                "The sizes of target and third-factor populations and the chosen pool size do not fit. If pool_size == 1, the target population size must be a multiple of the third-factor population size. For pool_size > 1, size(targets) * pool_size == size(third factor) is required. For all other cases, use random pools.")
         else Ok {| tripartite_base := b;
                    third_ := third;
                    third_in_builder_ := third_in;
                    third_out_builder_ := third_out;
                    p_primary_ := pp;
                    p_third_if_primary_ := pt;
                    random_pool_ := random_pool;
                    pool_size_ := pool_size;
                    targets_per_third_ := (nc_size targets / nc_size third)%Z |})).
  { intros ptype gtype Etype.
    unfold built, TripartiteBernoulliWithPoolBuilder_ctor.
    rewrite Hb. cbn [bind_outcome]. rewrite Hin. cbn [bind_outcome].
    rewrite Hout. cbn [bind_outcome]. rewrite Hthird0. cbn [bind_outcome].
    rewrite Epp. cbn [bind_outcome]. rewrite Ept. cbn [bind_outcome].
    rewrite Hdefault, Eps. cbn [bind_outcome]. rewrite Etype. cbn [bind_outcome].
    destruct (if gtype then _ else _) as [random_pool | e | why |]; try reflexivity.
    cbn [bind_outcome].
    rewrite (proj2 (Qltb_false_iff pp 0%Q) Hpp0), (proj2 (Qltb_false_iff 1%Q pp) Hpp1).
    rewrite (proj2 (Qltb_false_iff pt 0%Q) Hpt0), (proj2 (Qltb_false_iff 1%Q pt) Hpt1).
    cbn [orb]. rewrite Hps.
    destruct (Z.ltb_spec pool_size 1); [lia |].
    destruct (Z.ltb_spec (nc_size third) pool_size); [lia |].
    cbn [orb]. rewrite Hsize0.
    change (0 * pool_size)%Z with 0%Z. rewrite Z.mod_0_l by lia.
    change (wrap_size_t 0) with 0%Z.
    destruct (Z.eqb_spec 0 (nc_size third)) as [E0 | _]; [lia |].
    rewrite Z.eqb_refl, andb_true_r, orb_false_r. reflexivity. }
  split; [| split].
  - intros [Habsent | Hrandom].
    + rewrite (E EmptyString false); [reflexivity |].
      unfold updateValue. rewrite Habsent. reflexivity.
    + rewrite (E "random"%string true); [reflexivity |].
      unfold updateValue. rewrite Hrandom. reflexivity.
  - intros Hblock Hone.
    rewrite (E "block"%string true); [| unfold updateValue; rewrite Hblock; reflexivity].
    rewrite Hone. reflexivity.
  - intros Hblock Hlarge.
    rewrite (E "block"%string true); [| unfold updateValue; rewrite Hblock; reflexivity].
    cbn [bind_outcome String.eqb Ascii.eqb Bool.eqb]. simpl.
    destruct (Z.eqb_spec pool_size 1); [lia | reflexivity].
Qed.

(** Claim C4, as amended.  Once the base class is constructed,
    [FixedInDegreeBuilder] rejects an empty source collection and
    [FixedOutDegreeBuilder] rejects an empty target collection, each with
    [BadProperty].  Neither looks at the collection on the other side: with
    multapses allowed and a scalar degree that is not negative it is
    constructed over a collection of its own side that is not empty.  The
    constructors that follow accept whatever sizes the collections have,
    hence also empty ones: [OneToOneBuilder] whenever the two sizes are
    equal, [AuxiliaryBuilder] always, [FixedTotalNumberBuilder] for [N >= 0]
    with multapses allowed, [BernoulliBuilder] for a scalar [0 <= p <= 1],
    [SymmetricBernoulliBuilder] for a scalar [0 <= p < 1] with multapses
    allowed, autapses disallowed and [make_symmetric] set, [SPBuilder] when
    structural plasticity is in use.  [TripartiteBernoulliWithPoolBuilder],
    over a third-factor population that is not empty and with parameters in
    range, is constructed over an empty target collection with random pools
    and with block pools of size one; with block pools of a larger size its
    test of the sizes throws [BadProperty]. *)
Theorem constructors_on_empty_collections (K : Kernel)
    (sources targets : NodeCollection) (conn_spec : Dictionary)
    (syn_specs : list Dictionary) (b : ConnBuilder) :
  ConnBuilder_ctor K sources targets conn_spec syn_specs = Ok b ->
  (* the two tests for an empty collection *)
  (node_ids sources = [] ->
   FixedInDegreeBuilder_ctor K sources targets conn_spec syn_specs
   = (Throw (BadProperty "Source array must not be empty."), []))
  /\ (node_ids targets = [] ->
      FixedOutDegreeBuilder_ctor K sources targets conn_spec syn_specs
      = (Throw (BadProperty "Target array must not be empty."), []))
  (* the collection on the other side is not tested *)
  /\ (node_ids sources <> [] -> fits_long sources ->
      forall value,
        dict_find conn_spec names.indegree = Some (IntegerDatum value) ->
        flag_of conn_spec names.allow_multapses true = true ->
        (0 <= value)%Z ->
        FixedInDegreeBuilder_ctor K sources targets conn_spec syn_specs
        = (Ok (mkFixedInDegreeBuilder b (ConstantParameter (inject_Z value))), []))
  /\ (node_ids targets <> [] -> fits_long targets ->
      forall value,
        dict_find conn_spec names.outdegree = Some (IntegerDatum value) ->
        flag_of conn_spec names.allow_multapses true = true ->
        (0 <= value)%Z ->
        FixedOutDegreeBuilder_ctor K sources targets conn_spec syn_specs
        = (Ok (mkFixedOutDegreeBuilder b (ConstantParameter (inject_Z value))), []))
  (* the constructors without a test of the sizes *)
  /\ (List.length (node_ids sources) = List.length (node_ids targets) ->
      OneToOneBuilder_ctor K sources targets conn_spec syn_specs = Ok (mkOneToOneBuilder b))
  /\ AuxiliaryBuilder_ctor K sources targets conn_spec syn_specs = Ok (mkAuxiliaryBuilder b)
  /\ (forall N,
        dict_find conn_spec names.N = Some (IntegerDatum N) ->
        flag_of conn_spec names.allow_multapses true = true ->
        (0 <= N)%Z ->
        FixedTotalNumberBuilder_ctor K sources targets conn_spec syn_specs
        = Ok (mkFixedTotalNumberBuilder b N))
  /\ (forall p,
        dict_find conn_spec names.p = Some (DoubleDatum p) ->
        (0 <= p <= 1)%Q ->
        BernoulliBuilder_ctor K sources targets conn_spec syn_specs
        = Ok (mkBernoulliBuilder b (ConstantParameter p)))
  /\ (forall p,
        dict_find conn_spec names.p = Some (DoubleDatum p) ->
        (0 <= p)%Q -> (p < 1)%Q ->
        flag_of conn_spec names.allow_multapses true = true ->
        flag_of conn_spec names.allow_autapses true = false ->
        flag_of conn_spec names.make_symmetric false = true ->
        SymmetricBernoulliBuilder_ctor K sources targets conn_spec syn_specs
        = Ok (mkSymmetricBernoulliBuilder (set_creates_symmetric_connections_ true b) p))
  /\ (use_structural_plasticity_ b = true ->
      SPBuilder_ctor K sources targets conn_spec syn_specs = Ok (mkSPBuilder b))
  (* the tripartite rule tests how the sizes fit, not whether one is zero *)
  /\ (forall third specs primary third_in third_out,
        ConnBuilder_ctor K sources targets conn_spec (syn_specs_at specs names.primary)
        = Ok primary ->
        AuxiliaryBuilder_ctor K sources third conn_spec (syn_specs_at specs names.third_in)
        = Ok third_in ->
        AuxiliaryBuilder_ctor K third targets conn_spec (syn_specs_at specs names.third_out)
        = Ok third_out ->
        (0 < nc_size third)%Z ->
        fits_long third ->
        tripartite_spec_typed conn_spec = true ->
        (0 <= double_of conn_spec names.p_primary 1 <= 1)%Q ->
        (0 <= double_of conn_spec names.p_third_if_primary 1 <= 1)%Q ->
        (1 <= pool_size_of conn_spec third <= nc_size third)%Z ->
        node_ids targets = [] ->
        let built :=
          TripartiteBernoulliWithPoolBuilder_ctor K sources targets third conn_spec specs in
        (dict_find conn_spec names.pool_type = None
         \/ dict_find conn_spec names.pool_type = Some (StringDatum "random") ->
         is_Ok built = true)
        /\ (dict_find conn_spec names.pool_type = Some (StringDatum "block") ->
            pool_size_of conn_spec third = 1%Z -> is_Ok built = true)
        /\ (dict_find conn_spec names.pool_type = Some (StringDatum "block") ->
            (1 < pool_size_of conn_spec third)%Z -> is_BadProperty built = true)).
Proof.
  intros Hb.
  destruct (ConnBuilder_ctor_fields _ _ _ _ _ _ Hb) as [Hs [Ht [Haa [Ham [Hms _]]]]].
  split; [| split; [| split; [| split; [| split; [| split; [| split; [| split; [| split;
    [| split]]]]]]]]].
  - intros Hempty. unfold FixedInDegreeBuilder_ctor. rewrite Hb, Hs.
    unfold nc_size. rewrite Hempty. reflexivity.
  - intros Hempty. unfold FixedOutDegreeBuilder_ctor. rewrite Hb, Ht.
    unfold nc_size. rewrite Hempty. reflexivity.
  - intros Hne Hfit value Hv Hm Hpos.
    assert (Hn0 : (to_long (nc_size (sources_ b)) =? 0)%Z = false).
    { rewrite Hs, (to_long_nc_size _ Hfit). apply Z.eqb_neq.
      rewrite nc_size_zero_iff. exact Hne. }
    unfold FixedInDegreeBuilder_ctor.
    rewrite Hb, Hn0, (dict_get_found _ _ _ Hv). cbn [getValue_long].
    rewrite Ham, Hm. cbn [negb].
    destruct (Z.ltb_spec value 0); [lia | reflexivity].
  - intros Hne Hfit value Hv Hm Hpos.
    assert (Hn0 : (to_long (nc_size (targets_ b)) =? 0)%Z = false).
    { rewrite Ht, (to_long_nc_size _ Hfit). apply Z.eqb_neq.
      rewrite nc_size_zero_iff. exact Hne. }
    unfold FixedOutDegreeBuilder_ctor.
    rewrite Hb, Hn0, (dict_get_found _ _ _ Hv). cbn [getValue_long].
    rewrite Ham, Hm. cbn [negb].
    destruct (Z.ltb_spec value 0); [lia | reflexivity].
  - intros Hlen. unfold OneToOneBuilder_ctor. rewrite Hb. cbn [bind_outcome].
    rewrite Hs, Ht. unfold nc_size. rewrite Hlen, Z.eqb_refl. reflexivity.
  - unfold AuxiliaryBuilder_ctor. rewrite Hb. reflexivity.
  - intros N HN Hm Hpos. unfold FixedTotalNumberBuilder_ctor.
    rewrite Hb. cbn [bind_outcome]. rewrite (dict_get_found _ _ _ HN).
    cbn [bind_outcome getValue_long]. rewrite Ham, Hm. cbn [negb andb].
    destruct (Z.ltb_spec N 0); [lia | reflexivity].
  - intros p Hp [Hp0 Hp1]. unfold BernoulliBuilder_ctor.
    rewrite Hb. cbn [bind_outcome]. rewrite (dict_get_found _ _ _ Hp).
    cbn [bind_outcome getValue_double].
    rewrite (proj2 (Qltb_false_iff p 0%Q) Hp0), (proj2 (Qltb_false_iff 1%Q p) Hp1).
    reflexivity.
  - intros p Hp Hp0 Hp1 Hm Ha Hsym. unfold SymmetricBernoulliBuilder_ctor.
    rewrite Hb. cbn [bind_outcome]. rewrite (dict_get_found _ _ _ Hp).
    cbn [bind_outcome getValue_double].
    rewrite (proj2 (Qltb_false_iff p 0%Q) Hp0).
    assert (Hle : Qle_bool 1 p = false).
    { destruct (Qle_bool 1 p) eqn:E; [| reflexivity].
      apply Qle_bool_iff in E. exfalso. exact (Qlt_not_le _ _ Hp1 E). }
    rewrite Hle. cbn [orb].
    destruct b; simpl in *. rewrite Ham, Hm, Haa, Ha, Hms, Hsym. reflexivity.
  - intros Hsp. unfold SPBuilder_ctor. rewrite Hb. cbn [bind_outcome].
    rewrite Hsp. reflexivity.
  - intros third specs primary third_in third_out Hprimary Hin Hout.
    exact (TripartiteBernoulliWithPoolBuilder_ctor_empty_targets K sources targets third
             conn_spec specs primary third_in third_out Hprimary Hin Hout).
Qed.

Lemma constructors_on_empty_collections_witness :
  let K := scenario_kernel 1 3 in
  let spec := [ ("allow_autapses"%string, BoolDatum false);
                ("make_symmetric"%string, BoolDatum true);
                ("N"%string, IntegerDatum 0);
                ("p"%string, DoubleDatum (1 # 2));
                ("pool_type"%string, StringDatum "block");
                ("pool_size"%string, IntegerDatum 2) ] in
  let specs := [ ("primary"%string, [static_synapse_spec]);
                 ("third_in"%string, [static_synapse_spec]);
                 ("third_out"%string, [static_synapse_spec]) ] in
  FixedInDegreeBuilder_ctor K empty_collection empty_collection spec [static_synapse_spec]
  = (Throw (BadProperty "Source array must not be empty."), [])
  /\ FixedOutDegreeBuilder_ctor K empty_collection empty_collection spec [static_synapse_spec]
     = (Throw (BadProperty "Target array must not be empty."), [])
  /\ is_Ok (OneToOneBuilder_ctor K empty_collection empty_collection spec
              [static_synapse_spec]) = true
  /\ is_Ok (AuxiliaryBuilder_ctor K empty_collection empty_collection spec
              [static_synapse_spec]) = true
  /\ is_Ok (FixedTotalNumberBuilder_ctor K empty_collection empty_collection spec
              [static_synapse_spec]) = true
  /\ is_Ok (BernoulliBuilder_ctor K empty_collection empty_collection spec
              [static_synapse_spec]) = true
  /\ is_Ok (SymmetricBernoulliBuilder_ctor K empty_collection empty_collection spec
              [static_synapse_spec]) = true
  /\ is_BadProperty (TripartiteBernoulliWithPoolBuilder_ctor K empty_collection
                       empty_collection (node_range 1 2) spec specs) = true.
Proof.
  intros K spec specs.
  destruct (ConnBuilder_ctor K empty_collection empty_collection spec [static_synapse_spec])
    as [b | e | why |] eqn:Hb; try (vm_compute in Hb; discriminate).
  destruct (constructors_on_empty_collections K empty_collection empty_collection spec
              [static_synapse_spec] b Hb)
    as (Hin & Hout & _ & _ & Hone & Haux & Htotal & Hbern & Hsym & _ & Htri).
  split; [apply Hin; reflexivity |].
  split; [apply Hout; reflexivity |].
  split; [rewrite Hone; reflexivity |].
  split; [rewrite Haux; reflexivity |].
  split; [rewrite (Htotal 0%Z); [reflexivity | reflexivity | reflexivity | lia] |].
  split.
  { rewrite (Hbern (1 # 2)%Q); [reflexivity | reflexivity |].
    split; vm_compute; discriminate. }
  split.
  { rewrite (Hsym (1 # 2)%Q); try reflexivity. vm_compute. discriminate. }
  destruct (AuxiliaryBuilder_ctor K empty_collection (node_range 1 2) spec
              (syn_specs_at specs names.third_in)) as [third_in | | |] eqn:Ein;
    try (vm_compute in Ein; discriminate).
  destruct (AuxiliaryBuilder_ctor K (node_range 1 2) empty_collection spec
              (syn_specs_at specs names.third_out)) as [third_out | | |] eqn:Eout;
    try (vm_compute in Eout; discriminate).
  destruct (Htri (node_range 1 2) specs b third_in third_out) as (_ & _ & Hblock).
  - exact Hb.
  - exact Ein.
  - exact Eout.
  - vm_compute. reflexivity.
  - vm_compute. reflexivity.
  - vm_compute. reflexivity.
  - split; vm_compute; discriminate.
  - split; vm_compute; discriminate.
  - split; vm_compute; discriminate.
  - reflexivity.
  - apply Hblock; vm_compute; reflexivity.
Defined.

(** Claim C4, counterexample.  The other constructors make no such test: the
    one-to-one, fixed-total-number and Bernoulli rules are constructed from
    two empty collections, the fixed-indegree rule from an empty target
    collection and the fixed-outdegree rule from an empty source collection;
    none of these constructions throws [BadProperty]. *)
Lemma empty_collections_are_accepted :
  let K := scenario_kernel 1 3 in
  node_ids empty_collection = []
  /\ is_Ok (OneToOneBuilder_ctor K empty_collection empty_collection []
              [static_synapse_spec]) = true
  /\ is_BadProperty (OneToOneBuilder_ctor K empty_collection empty_collection []
                       [static_synapse_spec]) = false
  /\ is_Ok (FixedTotalNumberBuilder_ctor K empty_collection empty_collection
              [("N"%string, IntegerDatum 0)] [static_synapse_spec]) = true
  /\ is_Ok (BernoulliBuilder_ctor K empty_collection empty_collection
              [("p"%string, DoubleDatum (1 # 2))] [static_synapse_spec]) = true
  /\ is_Ok (fst (FixedInDegreeBuilder_ctor K (node_range 1 3) empty_collection
                   [("indegree"%string, IntegerDatum 1)] [static_synapse_spec])) = true
  /\ is_Ok (fst (FixedOutDegreeBuilder_ctor K empty_collection (node_range 1 3)
                   [("outdegree"%string, IntegerDatum 1)] [static_synapse_spec])) = true.
Proof. vm_compute. repeat split. Qed.

(** ** The warning of the fixed-indegree rule *)

(** With multapses and autapses disallowed and a scalar indegree equal to the
    number of sources, the constructor logs the warning and returns: the
    builder is constructed, with the constant indegree. *)
Lemma FixedInDegreeBuilder_ctor_warns (K : Kernel)
    (sources targets : NodeCollection) (conn_spec : Dictionary)
    (syn_specs : list Dictionary) (b : ConnBuilder) (value : Z) :
  ConnBuilder_ctor K sources targets conn_spec syn_specs = Ok b ->
  flag_of conn_spec names.allow_multapses true = false ->
  flag_of conn_spec names.allow_autapses true = false ->
  dict_find conn_spec names.indegree = Some (IntegerDatum value) ->
  value = nc_size sources ->
  node_ids sources <> [] ->
  fits_long sources ->
  FixedInDegreeBuilder_ctor K sources targets conn_spec syn_specs
  = (Ok (mkFixedInDegreeBuilder b (ConstantParameter (inject_Z value))),
     [indegree_warning_infinite_loop]).
Proof.
  intros Hb Hm Ha Hv Hvalue Hne Hfit.
  destruct (ConnBuilder_ctor_fields _ _ _ _ _ _ Hb) as [Hs [_ [Haa [Ham _]]]].
  unfold FixedInDegreeBuilder_ctor.
  rewrite Hb, Hs, (to_long_nc_size _ Hfit).
  assert (Hn0 : nc_size sources <> 0%Z) by (rewrite nc_size_zero_iff; exact Hne).
  destruct (Z.eqb_spec (nc_size sources) 0); [contradiction |].
  rewrite (dict_get_found _ _ _ Hv). simpl.
  rewrite Ham, Hm, Haa, Ha. simpl.
  subst value.
  destruct (Z.gtb_spec (nc_size sources) (nc_size sources)); [lia |].
  rewrite Z.eqb_refl. reflexivity.
Qed.

(** ** Frames: what the steps of a worker preserve *)

Lemma configuration_set_weights_ x b :
  configuration (set_weights_ x b) = configuration b.
Proof. destruct b; reflexivity. Qed.

Lemma configuration_set_delays_ x b :
  configuration (set_delays_ x b) = configuration b.
Proof. destruct b; reflexivity. Qed.

Lemma configuration_set_param_dicts_ x b :
  configuration (set_param_dicts_ x b) = configuration b.
Proof. destruct b; reflexivity. Qed.

Lemma configuration_set_synapse_params_ x b :
  List.length x = List.length (synapse_params_ b) ->
  configuration (set_synapse_params_ x b) = configuration b.
Proof. destruct b; unfold configuration; simpl. intros ->. reflexivity. Qed.

Lemma vector_set_length {A} (v : list A) i x :
  List.length (vector_set v i x) = List.length v.
Proof.
  revert i. induction v as [| y v IH]; intros i; simpl; [reflexivity |].
  destruct i; simpl; [reflexivity | rewrite IH; reflexivity].
Qed.

Lemma configuration_interface b b' :
  configuration b' = configuration b -> interface b' = interface b.
Proof.
  unfold configuration. intros H.
  exact (f_equal (fun c => fst (fst (fst c))) H).
Qed.

Section FrameFacts.

Variable K : Kernel.
Variable F : Frame.

Lemma respects_ret {A} (a : A) : respects F (ret a).
Proof. intros w. apply related_refl. Qed.

Lemma respects_throw {A} e : respects F (@throw A e).
Proof. intros w. apply related_refl. Qed.

Lemma respects_crash {A} why : respects F (@crash A why).
Proof. intros w. apply related_refl. Qed.

Lemma respects_out_of_fuel {A} : respects F (@out_of_fuel A).
Proof. intros w. apply related_refl. Qed.

Lemma respects_lift {A} (r : outcome A) : respects F (lift r).
Proof. intros w. apply related_refl. Qed.

Lemma respects_get_builder : respects F get_builder.
Proof. intros w. apply related_refl. Qed.

Lemma respects_bind {A B} (m : M A) (f : A -> M B) :
  respects F m -> (forall a, respects F (f a)) -> respects F (bind m f).
Proof.
  intros Hm Hf w. unfold bind. specialize (Hm w).
  destruct (m w) as [[a | e | why |] w']; simpl in *; try exact Hm.
  eapply related_trans; [exact Hm | apply Hf].
Qed.

Lemma respects_for_each {A} (xs : list A) (body : A -> M unit) :
  (forall x, In x xs -> respects F (body x)) -> respects F (for_each xs body).
Proof.
  induction xs as [| x xs IH]; intros Hbody; simpl.
  - apply respects_ret.
  - apply respects_bind.
    + apply Hbody. left. reflexivity.
    + intros _. apply IH. intros y Hy. apply Hbody. right. exact Hy.
Qed.

Lemma respects_for_each_pair (targets sources : list Z) (body : Z -> Z -> M unit) :
  (forall s t, In (s, t) (combine sources targets) -> respects F (body s t)) ->
  respects F (for_each_pair targets sources body).
Proof.
  revert sources. induction targets as [| t targets IH]; intros sources Hbody; simpl.
  - apply respects_ret.
  - destruct sources as [| s sources].
    + apply respects_crash.
    + apply respects_bind.
      * apply Hbody. left. reflexivity.
      * intros _. apply IH. intros s' t' Hin. apply Hbody. right. exact Hin.
Qed.

Lemma respects_update_builder (f : ConnBuilder -> outcome ConnBuilder) :
  (forall b b', f b = Ok b' -> configuration b' = configuration b) ->
  respects F (update_builder f).
Proof.
  intros Hf w. unfold update_builder.
  destruct (f (builder w)) as [b' | e | why |] eqn:E; simpl; try apply related_refl.
  apply related_builder. apply Hf. exact E.
Qed.

Lemma respects_put_builder b :
  (forall w, configuration b = configuration (builder w)) ->
  respects F (put_builder b).
Proof. intros Hb w. simpl. apply related_builder. apply Hb. Qed.

Lemma respects_draw_raw rng kind : rng_ok F rng -> respects F (draw_raw K rng kind).
Proof. intros Hrng w. simpl. apply related_draw. exact Hrng. Qed.

Lemma respects_ulrand rng n : rng_ok F rng -> respects F (ulrand K rng n).
Proof.
  intros Hrng. unfold ulrand. apply respects_bind.
  - apply respects_draw_raw. exact Hrng.
  - intros x. apply respects_ret.
Qed.

Lemma respects_binomial_distribution rng n p :
  rng_ok F rng -> respects F (binomial_distribution K rng n p).
Proof.
  intros Hrng. unfold binomial_distribution. apply respects_bind.
  - apply respects_draw_raw. exact Hrng.
  - intros x. apply respects_ret.
Qed.

Lemma respects_NestParameter_value p rng :
  rng_ok F rng -> respects F (NestParameter_value K p rng).
Proof.
  intros Hrng. destruct p; simpl.
  - apply respects_ret.
  - apply respects_bind.
    + apply respects_draw_raw. exact Hrng.
    + intros x. apply respects_ret.
Qed.

Lemma respects_next_value {A} (values : list A) next tid :
  respects F (next_value values next tid).
Proof.
  unfold next_value. destruct (nth_error next tid); [| apply respects_crash].
  destruct (nth_error values n); [apply respects_ret | apply respects_throw].
Qed.

Lemma respects_ConnParameter_value_double p tid rng :
  rng_ok F rng -> respects F (ConnParameter_value_double K p tid rng).
Proof.
  intros Hrng. destruct p; simpl; try apply respects_ret.
  - apply respects_bind; [apply respects_next_value |].
    intros [v next']. apply respects_ret.
  - apply respects_bind; [apply respects_next_value |].
    intros [v next']. apply respects_ret.
  - apply respects_bind; [apply respects_NestParameter_value; exact Hrng |].
    intros v. apply respects_ret.
Qed.

Lemma respects_ConnParameter_value_int p tid rng :
  rng_ok F rng -> respects F (ConnParameter_value_int K p tid rng).
Proof.
  intros Hrng. destruct p; simpl; try apply respects_ret; try apply respects_throw.
  - apply respects_bind; [apply respects_next_value |].
    intros [v next']. apply respects_ret.
  - apply respects_bind; [apply respects_NestParameter_value; exact Hrng |].
    intros v. apply respects_ret.
Qed.

Lemma respects_store_synapse_param i name p :
  respects F (store_synapse_param i name p).
Proof.
  unfold store_synapse_param. apply respects_update_builder.
  intros b b' H. invert_outcome.
  apply configuration_set_synapse_params_. apply vector_set_length.
Qed.

Lemma respects_store_param_dict_entry i tid name v :
  respects F (store_param_dict_entry i tid name v).
Proof.
  unfold store_param_dict_entry. apply respects_update_builder.
  intros b b' H. invert_outcome.
  apply configuration_set_param_dicts_.
Qed.

Lemma respects_update_param_dict_entries entries tid rng i :
  rng_ok F rng -> respects F (update_param_dict_entries K entries tid rng i).
Proof.
  intros Hrng. induction entries as [| [name p] rest IH]; simpl.
  - apply respects_ret.
  - apply respects_bind; [| intros _; exact IH].
    destruct (provides_long p).
    + apply respects_bind; [apply respects_ConnParameter_value_int; exact Hrng |].
      intros [v p']. apply respects_bind; [apply respects_store_synapse_param |].
      intros _. apply respects_store_param_dict_entry.
    + apply respects_bind; [apply respects_ConnParameter_value_double; exact Hrng |].
      intros [v p']. apply respects_bind; [apply respects_store_synapse_param |].
      intros _. apply respects_store_param_dict_entry.
Qed.

Lemma respects_update_param_dict_ snode_id target tid rng i :
  rng_ok F rng -> respects F (update_param_dict_ K snode_id target tid rng i).
Proof.
  intros Hrng. unfold update_param_dict_.
  apply respects_bind; [apply respects_get_builder |]. intros b.
  apply respects_bind; [apply respects_lift |]. intros ds.
  destruct (negb _); [apply respects_crash |].
  apply respects_bind; [apply respects_lift |]. intros m.
  apply respects_update_param_dict_entries. exact Hrng.
Qed.

Lemma respects_delay_value i tid rng :
  rng_ok F rng -> respects F (delay_value K i tid rng).
Proof.
  intros Hrng. unfold delay_value.
  apply respects_bind; [apply respects_get_builder |]. intros b.
  apply respects_bind; [apply respects_lift |]. intros [p |]; [| apply respects_crash].
  apply respects_bind; [apply respects_ConnParameter_value_double; exact Hrng |].
  intros [v p']. apply respects_bind; [| intros _; apply respects_ret].
  apply respects_update_builder. intros b0 b' H. invert_outcome.
  apply configuration_set_delays_.
Qed.

Lemma respects_weight_value i tid rng :
  rng_ok F rng -> respects F (weight_value K i tid rng).
Proof.
  intros Hrng. unfold weight_value.
  apply respects_bind; [apply respects_get_builder |]. intros b.
  apply respects_bind; [apply respects_lift |]. intros [p |]; [| apply respects_crash].
  apply respects_bind; [apply respects_ConnParameter_value_double; exact Hrng |].
  intros [v p']. apply respects_bind; [| intros _; apply respects_ret].
  apply respects_update_builder. intros b0 b' H. invert_outcome.
  apply configuration_set_weights_.
Qed.

Lemma respects_connection_manager_connect snode_id target tid syn_id params delay weight :
  conn_ok F snode_id (get_node_id target) ->
  respects F (connection_manager_connect K snode_id target tid syn_id params delay weight).
Proof.
  intros Hconn. unfold connection_manager_connect.
  destruct (connection_refused K snode_id target syn_id); [apply respects_throw |].
  intros w. simpl. apply related_connect. exact Hconn.
Qed.

Lemma respects_single_connect_synapse snode_id target tid rng i :
  rng_ok F rng -> conn_ok F snode_id (get_node_id target) ->
  respects F (single_connect_synapse K snode_id target tid rng i).
Proof.
  intros Hrng Hconn. unfold single_connect_synapse.
  apply respects_bind; [apply respects_update_param_dict_; exact Hrng |]. intros _.
  apply respects_bind; [apply respects_get_builder |]. intros b.
  apply respects_bind; [apply respects_lift |]. intros dwd.
  apply respects_bind; [apply respects_lift |]. intros dw.
  apply respects_bind; [apply respects_lift |]. intros dd.
  apply respects_bind; [apply respects_lift |]. intros syn_id.
  apply respects_bind; [apply respects_lift |]. intros ds.
  apply respects_bind; [apply respects_lift |]. intros params.
  destruct dwd; [apply respects_connection_manager_connect; exact Hconn |].
  destruct dw.
  { apply respects_bind; [apply respects_delay_value; exact Hrng |]. intros delay.
    apply respects_connection_manager_connect; exact Hconn. }
  destruct dd.
  { apply respects_bind; [apply respects_weight_value; exact Hrng |]. intros weight.
    apply respects_connection_manager_connect; exact Hconn. }
  apply respects_bind; [apply respects_delay_value; exact Hrng |]. intros delay.
  apply respects_bind; [apply respects_weight_value; exact Hrng |]. intros weight.
  apply respects_connection_manager_connect; exact Hconn.
Qed.

Lemma respects_single_connect_ requires_proxies snode_id target tid rng :
  rng_ok F rng -> conn_ok F snode_id (get_node_id target) ->
  respects F (single_connect_ K requires_proxies snode_id target tid rng).
Proof.
  intros Hrng Hconn. unfold single_connect_.
  destruct (requires_proxies && negb (has_proxies target)); [apply respects_throw |].
  apply respects_bind; [apply respects_get_builder |]. intros b.
  apply respects_for_each. intros i _.
  apply respects_single_connect_synapse; assumption.
Qed.

Lemma skip_referenced_configuration tid n_skip b r :
  configuration (skip_referenced tid n_skip b r) = configuration b.
Proof.
  destruct r as [i | i | i name]; simpl.
  - destruct (nth_error (weights_ b) i) as [[p |] |]; try reflexivity.
    apply configuration_set_weights_.
  - destruct (nth_error (delays_ b) i) as [[p |] |]; try reflexivity.
    apply configuration_set_delays_.
  - destruct (nth_error (synapse_params_ b) i); try reflexivity.
    apply configuration_set_synapse_params_. apply vector_set_length.
Qed.

Lemma skip_all_configuration tid n_skip refs :
  forall b, configuration (fold_left (skip_referenced tid n_skip) refs b) = configuration b.
Proof.
  induction refs as [| r refs IH]; intros b; simpl; [reflexivity |].
  rewrite IH. apply skip_referenced_configuration.
Qed.

Lemma respects_skip_conn_parameter_ tid n_skip :
  respects F (skip_conn_parameter_ tid n_skip).
Proof.
  intros w. unfold skip_conn_parameter_, bind, get_builder, put_builder. simpl.
  apply related_builder. apply skip_all_configuration.
Qed.

(** *** Parallel regions *)

Hypothesis capture : admits_capture F.

Lemma respects_try_catch tid (body : M unit) :
  respects F body -> respects F (try_catch tid body).
Proof.
  intros Hbody w. unfold try_catch. specialize (Hbody w).
  destruct (body w) as [[[] | err | why |] w']; simpl in *; try exact Hbody.
  destruct (nth_error (exceptions_raised_ (builder w')) tid); simpl; [| exact Hbody].
  eapply related_trans; [exact Hbody | apply capture].
Qed.

Lemma respects_omp_parallel (block : nat -> M unit) :
  (forall tid, tid < get_num_threads K -> respects F (block tid)) ->
  respects F (omp_parallel K block).
Proof.
  intros Hblock. unfold omp_parallel. apply respects_for_each.
  intros tid Hin. apply Hblock. apply in_seq in Hin. lia.
Qed.

End FrameFacts.

(** ** The draws of the symmetric Bernoulli rule *)

Section SymmetricBernoulliDraws.

Variable K : Kernel.
Variable F : Frame.
Hypothesis connects_anything : forall s t, conn_ok F s t.

Lemma respects_SymmetricBernoulliBuilder_draw_indegree fuel b p synced_rng :
  rng_ok F synced_rng ->
  forall indegree,
    respects F (SymmetricBernoulliBuilder_draw_indegree K fuel b p synced_rng indegree).
Proof.
  intros Hrng. induction fuel as [| fuel IH]; intros indegree; simpl.
  - destruct (indegree <? nc_size (sources_ b))%Z;
      [apply respects_ret | apply respects_out_of_fuel].
  - destruct (indegree <? nc_size (sources_ b))%Z; [apply respects_ret |].
    apply respects_bind.
    + apply respects_binomial_distribution. exact Hrng.
    + intros x. apply IH.
Qed.

Lemma respects_SymmetricBernoulliBuilder_choose_sources fuel requires_proxies b tid
    synced_rng tnode_id target target_thread indegree :
  rng_ok F synced_rng ->
  forall i previous_snode_ids,
    respects F
      (SymmetricBernoulliBuilder_choose_sources K fuel requires_proxies b tid synced_rng
         tnode_id target target_thread indegree i previous_snode_ids).
Proof.
  intros Hrng. induction fuel as [| fuel IH]; intros i previous; simpl.
  - destruct (i <? indegree)%Z; [apply respects_out_of_fuel | apply respects_ret].
  - destruct (i <? indegree)%Z; [| apply respects_ret].
    apply respects_bind; [apply respects_ulrand; exact Hrng |]. intros idx.
    apply respects_bind; [apply respects_lift |]. intros snode_id.
    destruct ((snode_id =? tnode_id)%Z || existsb (Z.eqb snode_id) previous);
      [apply IH |].
    apply respects_bind.
    { destruct target_thread as [target_thread |]; [| apply respects_ret].
      destruct (Nat.eqb target_thread tid); [| apply respects_ret].
      apply respects_single_connect_; [exact Hrng | apply connects_anything]. }
    intros _. apply respects_bind.
    { destruct (is_proxy (get_node_or_proxy K snode_id tid)); [apply respects_ret |].
      rewrite Nat.eqb_refl.
      apply respects_single_connect_; [exact Hrng | apply connects_anything]. }
    intros _. apply IH.
Qed.

End SymmetricBernoulliDraws.

(** Claim C1.  Every draw of [SymmetricBernoulliBuilder::connect_] (the
    truncated-binomial indegree draws, the source-index draws and the
    edge-attribute draws made inside [single_connect_]) is taken from the
    synchronised generator [get_vp_synced_rng( tid )] of a thread of the team,
    a stream that is the same on every virtual process and rank; no draw is
    taken from a generator [get_vp_specific_rng( tid )]. *)
Theorem symmetric_bernoulli_draws_are_synced (K : Kernel) (fuel : nat)
    (requires_proxies : bool) (p : double) (w : World) :
  exists new,
    rng_draws (snd (SymmetricBernoulliBuilder_connect_ K fuel requires_proxies p w))
    = new ++ rng_draws w
    /\ Forall (fun d =>
                 synced_generator_of_team K (draw_rng d)
                 /\ is_synced (draw_rng d) = true
                 /\ forall tid, draw_rng d <> get_vp_specific_rng tid) new.
Proof.
  assert (H : respects (draws_frame (synced_generator_of_team K))
                (SymmetricBernoulliBuilder_connect_ K fuel requires_proxies p)).
  { unfold SymmetricBernoulliBuilder_connect_.
    assert (Hcap : admits_capture (draws_frame (synced_generator_of_team K))).
    { intros w0 tid e. exists []. split; [reflexivity | constructor]. }
    apply respects_bind; [apply respects_get_builder |]. intros b.
    apply respects_omp_parallel.
    intros tid Htid.
    assert (Hrng : rng_ok (draws_frame (synced_generator_of_team K)) (get_vp_synced_rng tid)).
    { exists tid. split; [exact Htid | reflexivity]. }
    apply (respects_try_catch _ Hcap).
    apply respects_for_each. intros tnode_id _.
    apply respects_bind.
    - apply respects_SymmetricBernoulliBuilder_draw_indegree. exact Hrng.
    - intros indegree.
      apply respects_SymmetricBernoulliBuilder_choose_sources.
      + intros s t. exact I.
      + exact Hrng. }
  destruct (H w) as [new [Enew Hnew]].
  exists new. split; [exact Enew |].
  eapply Forall_impl; [| exact Hnew].
  intros d [tid [Htid Hd]]. split; [exists tid; split; assumption |].
  rewrite Hd. split; [reflexivity |].
  intros tid'. discriminate.
Qed.

(** ** Captured exceptions *)

Lemma rethrow_from_first slots e tid :
  forall remaining tid0,
    tid0 <= tid < tid0 + remaining ->
    nth_error slots tid = Some (Some e) ->
    (forall j, tid0 <= j < tid -> nth_error slots j = Some None) ->
    rethrow_from slots tid0 remaining = Throw e.
Proof.
  induction remaining as [| remaining IH]; intros tid0 Hrange Hat Hbefore; simpl.
  - lia.
  - destruct (Nat.eq_dec tid0 tid) as [-> | Hne].
    + rewrite Hat. reflexivity.
    + rewrite (Hbefore tid0) by lia.
      apply IH; [lia | exact Hat |].
      intros j Hj. apply Hbefore. lia.
Qed.

Lemma rethrow_from_none slots :
  forall remaining tid0,
    (forall j, tid0 <= j < tid0 + remaining -> nth_error slots j = Some None) ->
    rethrow_from slots tid0 remaining = Ok tt.
Proof.
  induction remaining as [| remaining IH]; intros tid0 Hnone; simpl.
  - reflexivity.
  - rewrite (Hnone tid0) by lia.
    apply IH. intros j Hj. apply Hnone. lia.
Qed.

Lemma none_raised_nth slots j :
  none_raised slots -> j < List.length slots -> nth_error slots j = Some None.
Proof.
  intros Hnone Hj. unfold none_raised in Hnone. rewrite Forall_forall in Hnone.
  destruct (nth_error slots j) as [slot |] eqn:E.
  - rewrite (Hnone slot (nth_error_In _ _ E)). reflexivity.
  - apply nth_error_None in E. lia.
Qed.

Lemma check_exceptions_raised_first (K : Kernel) (w : World) tid e :
  List.length (exceptions_raised_ (builder w)) = get_num_threads K ->
  first_raised (exceptions_raised_ (builder w)) tid e ->
  check_exceptions_raised K w = (Throw e, w).
Proof.
  intros Hlen [Hat Hbefore]. unfold check_exceptions_raised.
  rewrite (rethrow_from_first _ e tid); [reflexivity | | exact Hat |].
  - assert (tid < List.length (exceptions_raised_ (builder w))).
    { apply nth_error_Some. rewrite Hat. discriminate. }
    lia.
  - intros j Hj. apply Hbefore. lia.
Qed.

Lemma check_exceptions_raised_none (K : Kernel) (w : World) :
  List.length (exceptions_raised_ (builder w)) = get_num_threads K ->
  none_raised (exceptions_raised_ (builder w)) ->
  check_exceptions_raised K w = (Ok tt, w).
Proof.
  intros Hlen Hnone. unfold check_exceptions_raised.
  rewrite rethrow_from_none; [reflexivity |].
  intros j Hj. apply none_raised_nth; [exact Hnone | lia].
Qed.

Lemma nth_error_vector_set_eq {A} (v : list A) i x :
  i < List.length v -> nth_error (vector_set v i x) i = Some x.
Proof.
  revert i. induction v as [| y v IH]; intros i Hi; simpl in *; [lia |].
  destruct i; simpl; [reflexivity | apply IH; lia].
Qed.

Lemma nth_error_vector_set_neq {A} (v : list A) i j x :
  i <> j -> nth_error (vector_set v i x) j = nth_error v j.
Proof.
  revert i j. induction v as [| y v IH]; intros i j Hne; simpl.
  - reflexivity.
  - destruct i, j; simpl; try reflexivity; [congruence | apply IH; congruence].
Qed.

Lemma exceptions_raised_set_exceptions_raised_ x b :
  exceptions_raised_ (set_exceptions_raised_ x b) = x.
Proof. destruct b; reflexivity. Qed.

(** A worker that throws leaves the exception, wrapped, in its own slot. *)
Lemma try_catch_captures tid (body : M unit) w w1 err :
  body w = (Throw err, w1) ->
  tid < List.length (exceptions_raised_ (builder w1)) ->
  exists w2,
    try_catch tid body w = (Ok tt, w2)
    /\ nth_error (exceptions_raised_ (builder w2)) tid
       = Some (Some (WrappedThreadException err))
    /\ forall j, j <> tid ->
         nth_error (exceptions_raised_ (builder w2)) j
         = nth_error (exceptions_raised_ (builder w1)) j.
Proof.
  intros Hbody Htid. unfold try_catch. rewrite Hbody.
  destruct (nth_error (exceptions_raised_ (builder w1)) tid) eqn:E.
  - eexists. split; [reflexivity |]. simpl.
    rewrite exceptions_raised_set_exceptions_raised_. split.
    + apply nth_error_vector_set_eq. exact Htid.
    + intros j Hj. apply nth_error_vector_set_neq. congruence.
  - apply nth_error_None in E. lia.
Qed.

(** Claim C2.  A worker that throws has its exception captured, wrapped, in
    the slot of its thread.  When the rule has run and the slot of thread
    [tid] is the first filled one, [connect()] and [disconnect()] throw the
    [WrappedThreadException] of that slot, whatever the later slots hold; when
    no slot is filled they return normally. *)
Theorem first_captured_exception_is_rethrown (K : Kernel) (rule : RuleMethods)
    (w w' : World) :
  List.length (exceptions_raised_ (builder w')) = get_num_threads K ->
  (forall tid body w0 w1 err,
      body w0 = (Throw err, w1) ->
      tid < List.length (exceptions_raised_ (builder w1)) ->
      exists w2,
        try_catch tid body w0 = (Ok tt, w2)
        /\ nth_error (exceptions_raised_ (builder w2)) tid
           = Some (Some (WrappedThreadException err)))
  /\ (ConnBuilder_connect_dispatch K rule w = (Ok tt, w') ->
      (forall tid err,
          first_raised (exceptions_raised_ (builder w')) tid (WrappedThreadException err) ->
          ConnBuilder_connect K rule w = (Throw (WrappedThreadException err), w'))
      /\ (none_raised (exceptions_raised_ (builder w')) ->
          ConnBuilder_connect K rule w = (Ok tt, w')))
  /\ (ConnBuilder_disconnect_dispatch rule w = (Ok tt, w') ->
      (forall tid err,
          first_raised (exceptions_raised_ (builder w')) tid (WrappedThreadException err) ->
          ConnBuilder_disconnect K rule w = (Throw (WrappedThreadException err), w'))
      /\ (none_raised (exceptions_raised_ (builder w')) ->
          ConnBuilder_disconnect K rule w = (Ok tt, w'))).
Proof.
  intros Hlen. split; [| split].
  - intros tid body w0 w1 err Hbody Htid.
    destruct (try_catch_captures tid body w0 w1 err Hbody Htid) as [w2 [E [Hslot _]]].
    exists w2. split; assumption.
  - intros Hrun. split.
    + intros tid err Hfirst. unfold ConnBuilder_connect, bind. rewrite Hrun.
      apply check_exceptions_raised_first with tid; assumption.
    + intros Hnone. unfold ConnBuilder_connect, bind. rewrite Hrun.
      apply check_exceptions_raised_none; assumption.
  - intros Hrun. split.
    + intros tid err Hfirst. unfold ConnBuilder_disconnect, bind. rewrite Hrun.
      apply check_exceptions_raised_first with tid; assumption.
    + intros Hnone. unfold ConnBuilder_disconnect, bind. rewrite Hrun.
      apply check_exceptions_raised_none; assumption.
Qed.

Lemma first_captured_exception_is_rethrown_witness :
  let K := refusing_kernel 2 4 in
  let b := scenario_builder K (node_range 1 2) (node_range 3 2) [] in
  exceptions_raised_
    (builder (snd (ConnBuilder_connect_dispatch K (OneToOneBuilder_methods K false)
                     (initial_world b))))
  = [ Some (WrappedThreadException (IllegalConnection "The storage refuses the connection."));
      Some (WrappedThreadException (IllegalConnection "The storage refuses the connection.")) ]
  /\ fst (ConnBuilder_connect K (OneToOneBuilder_methods K false) (initial_world b))
     = Throw (WrappedThreadException (IllegalConnection "The storage refuses the connection.")).
Proof.
  intros K b.
  set (rule := OneToOneBuilder_methods K false).
  set (w := initial_world b).
  set (w' := snd (ConnBuilder_connect_dispatch K rule w)).
  assert (Hslots : exceptions_raised_ (builder w')
    = [ Some (WrappedThreadException (IllegalConnection "The storage refuses the connection."));
        Some (WrappedThreadException (IllegalConnection "The storage refuses the connection.")) ])
    by (vm_compute; reflexivity).
  split; [exact Hslots |].
  assert (Hlen : List.length (exceptions_raised_ (builder w')) = get_num_threads K)
    by (rewrite Hslots; reflexivity).
  assert (Hrun : ConnBuilder_connect_dispatch K rule w = (Ok tt, w'))
    by (vm_compute; reflexivity).
  destruct (first_captured_exception_is_rethrown K rule w w' Hlen) as [_ [Hconnect _]].
  destruct (Hconnect Hrun) as [Hfirst _].
  rewrite (Hfirst 0 (IllegalConnection "The storage refuses the connection.")).
  - reflexivity.
  - split.
    + rewrite Hslots. reflexivity.
    + intros j Hj. lia.
Defined.

(** ** Symmetrisation by replay *)

Lemma check_requires_symmetric_make_symmetric (K : Kernel) rule b ids :
  make_symmetric_ b = true -> check_requires_symmetric K rule b ids = Ok tt.
Proof.
  intros Hms. induction ids as [| id ids IH]; simpl; [reflexivity |].
  rewrite Hms, orb_true_r, andb_false_r. exact IH.
Qed.

Lemma swap_sources_targets_fields b :
  sources_ (swap_sources_targets b) = targets_ b
  /\ targets_ (swap_sources_targets b) = sources_ b
  /\ make_symmetric_ (swap_sources_targets b) = make_symmetric_ b
  /\ creates_symmetric_connections_ (swap_sources_targets b)
     = creates_symmetric_connections_ b.
Proof. destruct b; repeat split. Qed.

Lemma interface_fields b b' :
  interface b' = interface b ->
  sources_ b' = sources_ b
  /\ targets_ b' = targets_ b
  /\ make_symmetric_ b' = make_symmetric_ b
  /\ creates_symmetric_connections_ b' = creates_symmetric_connections_ b.
Proof. unfold interface. intros H. inversion H. repeat split; reflexivity. Qed.

Lemma reset_steps_compose (b b2 : ConnBuilder) (w : World) :
  builder w = b ->
  reset_all_parameters b = Ok b2 ->
  bind (update_builder reset_weights_)
    (fun _ => bind (update_builder reset_delays_)
                (fun _ => update_builder reset_synapse_params)) w
  = (Ok tt, set_builder b2 w).
Proof.
  intros Hw Hreset. unfold reset_all_parameters in Hreset.
  apply bind_outcome_Ok in Hreset. destruct Hreset as [bw [Hw1 Hreset]].
  apply bind_outcome_Ok in Hreset. destruct Hreset as [bd [Hd Hs]].
  unfold bind, update_builder. rewrite Hw, Hw1. simpl.
  rewrite Hd. simpl. rewrite Hs. reflexivity.
Qed.

Lemma map_const_repeat {A B} (x : B) (l : list A) :
  map (fun _ => x) l = repeat x (List.length l).
Proof. induction l as [| a l IH]; simpl; [reflexivity | rewrite IH; reflexivity]. Qed.

Lemma ConnParameter_reset_rewound p p' :
  ConnParameter_reset p = Ok p' -> rewound p p'.
Proof.
  destruct p; simpl; intros H; inversion H; try reflexivity;
    rewrite map_const_repeat; reflexivity.
Qed.

Lemma reset_optional_rewound ps :
  forall ps', reset_optional ps = Ok ps' -> Forall2 rewound_optional ps ps'.
Proof.
  induction ps as [| [p |] ps IH]; simpl; intros ps' H.
  - inversion H. constructor.
  - apply bind_outcome_Ok in H. destruct H as [p' [Hp H]].
    apply bind_outcome_Ok in H. destruct H as [ps'' [Hps H]]. inversion H; subst ps'.
    constructor; [exact (ConnParameter_reset_rewound _ _ Hp) | exact (IH _ Hps)].
  - apply bind_outcome_Ok in H. destruct H as [ps'' [Hps H]]. inversion H; subst ps'.
    constructor; [exact I | exact (IH _ Hps)].
Qed.

Lemma reset_map_rewound m :
  forall m',
    reset_map m = Ok m' ->
    Forall2 (fun np np' : string * ConnParameter =>
               fst np' = fst np /\ rewound (snd np) (snd np')) m m'.
Proof.
  induction m as [| [n p] m IH]; simpl; intros m' H.
  - inversion H. constructor.
  - apply bind_outcome_Ok in H. destruct H as [p' [Hp H]].
    apply bind_outcome_Ok in H. destruct H as [m'' [Hm H]]. inversion H; subst m'.
    constructor; [| exact (IH _ Hm)].
    split; [reflexivity | exact (ConnParameter_reset_rewound _ _ Hp)].
Qed.

Lemma reset_maps_rewound ms :
  forall ms',
    reset_maps ms = Ok ms' ->
    Forall2 (Forall2 (fun np np' : string * ConnParameter =>
                        fst np' = fst np /\ rewound (snd np) (snd np'))) ms ms'.
Proof.
  induction ms as [| m ms IH]; simpl; intros ms' H.
  - inversion H. constructor.
  - apply bind_outcome_Ok in H. destruct H as [m' [Hm H]].
    apply bind_outcome_Ok in H. destruct H as [ms'' [Hms H]]. inversion H; subst ms'.
    constructor; [exact (reset_map_rewound _ _ Hm) | exact (IH _ Hms)].
Qed.

Lemma reset_all_parameters_rewound b b' :
  reset_all_parameters b = Ok b' -> parameters_rewound b b'.
Proof.
  unfold reset_all_parameters, reset_weights_, reset_delays_, reset_synapse_params.
  intros H.
  apply bind_outcome_Ok in H. destruct H as [b1 [H1 H]].
  apply bind_outcome_Ok in H1. destruct H1 as [ws [Hws H1]]. inversion H1; subst b1; clear H1.
  apply bind_outcome_Ok in H. destruct H as [b2 [H2 H]].
  apply bind_outcome_Ok in H2. destruct H2 as [ds [Hds H2]]. inversion H2; subst b2; clear H2.
  apply bind_outcome_Ok in H. destruct H as [ms [Hms H]]. inversion H; subst b'; clear H.
  apply reset_optional_rewound in Hws.
  destruct b; simpl in *.
  apply reset_optional_rewound in Hds. apply reset_maps_rewound in Hms.
  unfold parameters_rewound. simpl.
  split; [exact Hws |]. split; [exact Hds |]. split; [exact Hms | reflexivity].
Qed.

(** Claim C3.  With [make_symmetric] set, on a rule that supports
    symmetrisation and does not create symmetric connections itself,
    [connect()] runs the rule's [connect_], resets every weight, delay and
    synapse parameter (scalars stay, the cursors of arrays return to the
    first value, nothing else of the builder changes), swaps the source and
    target collections, runs [connect_] again on the builder so reset and
    swapped, and swaps the collections back; as [connect_] does not write
    the collections, the builder then holds its original source and target
    collections. *)
Theorem make_symmetric_replays_with_swapped_collections (K : Kernel) (rule : RuleMethods)
    (w w1 w4 : World) (b2 : ConnBuilder) :
  make_symmetric_ (builder w) = true ->
  supports_symmetric rule = true ->
  creates_symmetric_connections_ (builder w) = false ->
  use_structural_plasticity_ (builder w) = false ->
  keeps_interface (connect_ rule) ->
  connect_ rule w = (Ok tt, w1) ->
  reset_all_parameters (builder w1) = Ok b2 ->
  connect_ rule (set_builder (swap_sources_targets b2) w1) = (Ok tt, w4) ->
  let w5 := set_builder (swap_sources_targets (builder w4)) w4 in
  ConnBuilder_connect_dispatch K rule w = (Ok tt, w5)
  /\ ConnBuilder_connect K rule w = check_exceptions_raised K w5
  /\ parameters_rewound (builder w1) b2
  /\ sources_ (swap_sources_targets b2) = targets_ (builder w)
  /\ targets_ (swap_sources_targets b2) = sources_ (builder w)
  /\ sources_ (builder w5) = sources_ (builder w)
  /\ targets_ (builder w5) = targets_ (builder w).
Proof.
  intros Hms Hsup Hcreates Hsp Hkeeps Hfirst Hreset Hsecond w5.
  (* the flags after the first pass *)
  pose proof (Hkeeps w) as Hi1. rewrite Hfirst in Hi1. simpl in Hi1.
  destruct (interface_fields _ _ Hi1) as [Hs1 [Ht1 [Hms1 Hcr1]]].
  (* the collections after the reset *)
  pose proof (reset_all_parameters_interface _ _ Hreset) as Hi2.
  destruct (interface_fields _ _ Hi2) as [Hs2 [Ht2 _]].
  (* the collections after the second pass *)
  pose proof (Hkeeps (set_builder (swap_sources_targets b2) w1)) as Hi4.
  rewrite Hsecond in Hi4. simpl in Hi4.
  destruct (interface_fields _ _ Hi4) as [Hs4 [Ht4 _]].
  destruct (swap_sources_targets_fields b2) as [Hsw1 [Hsw2 _]].
  destruct (swap_sources_targets_fields (builder w4)) as [Hsw3 [Hsw4 _]].
  assert (Hrun : ConnBuilder_connect_dispatch K rule w = (Ok tt, w5)).
  { unfold ConnBuilder_connect_dispatch.
    unfold bind at 1. unfold get_builder at 1.
    unfold bind at 1. unfold lift at 1.
    rewrite (check_requires_symmetric_make_symmetric K rule _ _ Hms).
    rewrite Hms, Hsup, Hsp. cbn [negb andb].
    unfold bind at 1. unfold ret at 1.
    unfold bind at 1. rewrite Hfirst.
    unfold bind at 1. unfold get_builder at 1.
    rewrite Hms1, Hms, Hcr1, Hcreates. cbn [negb andb].
    pose proof (reset_steps_compose (builder w1) b2 w1 eq_refl Hreset) as Hsteps.
    unfold bind in Hsteps |- *.
    destruct (update_builder reset_weights_ w1) as [[[] | e | why |] wa];
      try discriminate Hsteps.
    destruct (update_builder reset_delays_ wa) as [[[] | e | why |] wb];
      try discriminate Hsteps.
    rewrite Hsteps.
    unfold update_builder at 1. cbn [builder set_builder].
    change (set_builder (swap_sources_targets b2) (set_builder b2 w1))
      with (set_builder (swap_sources_targets b2) w1).
    rewrite Hsecond. reflexivity. }
  split; [exact Hrun |]. split.
  { unfold ConnBuilder_connect, bind. rewrite Hrun. reflexivity. }
  split; [exact (reset_all_parameters_rewound _ _ Hreset) |].
  split; [rewrite Hsw1, Ht2, Ht1; reflexivity |].
  split; [rewrite Hsw2, Hs2, Hs1; reflexivity |].
  unfold w5. simpl. rewrite Hsw3, Hsw4, Ht4, Hs4. simpl.
  rewrite Hsw1, Hsw2, Hs2, Ht2, Hs1, Ht1. split; reflexivity.
Qed.

(** ** Runs that complete *)

Lemma bind_Ok_inv {A B} (m : M A) (f : A -> M B) w y w' :
  bind m f w = (Ok y, w') ->
  exists a w1, m w = (Ok a, w1) /\ f a w1 = (Ok y, w').
Proof.
  unfold bind. destruct (m w) as [[a | e | why |] w1]; intros H; try discriminate.
  exists a, w1. split; [reflexivity | exact H].
Qed.

Lemma lift_Ok_inv {A} (r : outcome A) w y w' :
  lift r w = (Ok y, w') -> r = Ok y /\ w' = w.
Proof. unfold lift. intros H. inversion H. split; reflexivity. Qed.

Lemma get_builder_Ok_inv w b w' :
  get_builder w = (Ok b, w') -> b = builder w /\ w' = w.
Proof. unfold get_builder. intros H. inversion H. split; reflexivity. Qed.

Lemma ret_Ok_inv {A} (a : A) w y w' : ret a w = (Ok y, w') -> y = a /\ w' = w.
Proof. unfold ret. intros H. inversion H. split; reflexivity. Qed.

Section CompletedRuns.

Variable F : Frame.

Lemma for_each_split {A} (xs : list A) (body : A -> M unit) :
  (forall x, In x xs -> respects F (body x)) ->
  forall w w',
    for_each xs body w = (Ok tt, w') ->
    forall x, In x xs ->
      exists wa wb, related F w wa /\ body x wa = (Ok tt, wb) /\ related F wb w'.
Proof.
  induction xs as [| y xs IH]; simpl; intros Hbody w w' Hrun x Hin; [contradiction |].
  apply bind_Ok_inv in Hrun. destruct Hrun as [[] [w1 [Hy Hrest]]].
  assert (Hrest_related : related F w1 w').
  { assert (H : respects F (for_each xs body))
      by (apply respects_for_each; intros z Hz; apply Hbody; right; exact Hz).
    specialize (H w1). rewrite Hrest in H. exact H. }
  destruct Hin as [-> | Hin].
  - exists w, w1. split; [apply related_refl |]. split; assumption.
  - destruct (IH (fun z Hz => Hbody z (or_intror Hz)) w1 w' Hrest x Hin)
      as [wa [wb [Ha [Hx Hb]]]].
    exists wa, wb. split; [| split; assumption].
    eapply related_trans; [| exact Ha].
    pose proof (Hbody y (or_introl eq_refl) w) as H. rewrite Hy in H. exact H.
Qed.

Lemma for_each_pair_split (targets sources : list Z) (body : Z -> Z -> M unit) :
  (forall s t, In (s, t) (combine sources targets) -> respects F (body s t)) ->
  forall w w',
    for_each_pair targets sources body w = (Ok tt, w') ->
    forall s t, In (s, t) (combine sources targets) ->
      exists wa wb, related F w wa /\ body s t wa = (Ok tt, wb) /\ related F wb w'.
Proof.
  revert sources.
  induction targets as [| t0 targets IH]; intros sources Hbody w w' Hrun s t Hin.
  - destruct sources; contradiction.
  - destruct sources as [| s0 sources]; [contradiction |].
    simpl in Hrun, Hin.
    apply bind_Ok_inv in Hrun. destruct Hrun as [[] [w1 [Hy Hrest]]].
    assert (Hrest_related : related F w1 w').
    { assert (H : respects F (for_each_pair targets sources body)).
      { apply respects_for_each_pair. intros s' t' H'. apply Hbody. right. exact H'. }
      specialize (H w1). rewrite Hrest in H. exact H. }
    destruct Hin as [E | Hin].
    + inversion E; subst. exists w, w1. split; [apply related_refl |]. split; assumption.
    + destruct (IH sources (fun s' t' H' => Hbody s' t' (or_intror H')) w1 w' Hrest s t Hin)
        as [wa [wb [Ha [Hx Hb]]]].
      exists wa, wb. split; [| split; assumption].
      eapply related_trans; [| exact Ha].
      pose proof (Hbody s0 t0 (or_introl eq_refl) w) as H. rewrite Hy in H. exact H.
Qed.

End CompletedRuns.

Lemma for_each_unchanged {A} (xs : list A) (body : A -> M unit) w :
  (forall x, In x xs -> body x w = (Ok tt, w)) ->
  for_each xs body w = (Ok tt, w).
Proof.
  induction xs as [| x xs IH]; simpl; intros Hbody; [reflexivity |].
  unfold bind. rewrite (Hbody x (or_introl eq_refl)).
  apply IH. intros y Hy. apply Hbody. right. exact Hy.
Qed.

Lemma try_catch_Ok_inv tid (body : M unit) w w' :
  try_catch tid body w = (Ok tt, w') ->
  body w = (Ok tt, w')
  \/ (exists err w1, body w = (Throw err, w1))
     /\ filled (exceptions_raised_ (builder w')) tid.
Proof.
  unfold try_catch. destruct (body w) as [[[] | err | why |] w1]; intros H;
    try discriminate.
  - left. exact H.
  - right. split; [exists err, w1; reflexivity |].
    destruct (nth_error (exceptions_raised_ (builder w1)) tid) eqn:E; [| discriminate].
    inversion H; subst. simpl.
    rewrite exceptions_raised_set_exceptions_raised_.
    exists (WrappedThreadException err). apply nth_error_vector_set_eq.
    apply nth_error_Some. rewrite E. discriminate.
Qed.

Lemma none_raised_not_filled slots j : none_raised slots -> ~ filled slots j.
Proof.
  intros Hnone [e He]. unfold none_raised in Hnone. rewrite Forall_forall in Hnone.
  specialize (Hnone (Some e) (nth_error_In _ _ He)). discriminate.
Qed.

(** ** What [single_connect_] emits *)

Section SingleConnect.

Variable K : Kernel.

Lemma connection_manager_connect_emits snode_id target tid syn_id params delay weight w w' :
  connection_manager_connect K snode_id target tid syn_id params delay weight w = (Ok tt, w') ->
  In (snode_id, get_node_id target) (edges w').
Proof.
  unfold connection_manager_connect.
  destruct (connection_refused K snode_id target syn_id); [discriminate |].
  intros H. inversion H; subst. unfold edges. simpl. left. reflexivity.
Qed.

Lemma single_connect_synapse_emits snode_id target tid rng i w w' :
  single_connect_synapse K snode_id target tid rng i w = (Ok tt, w') ->
  In (snode_id, get_node_id target) (edges w').
Proof.
  unfold single_connect_synapse. intros H.
  apply bind_Ok_inv in H. destruct H as [[] [w1 [_ H]]].
  apply bind_Ok_inv in H. destruct H as [b [w2 [_ H]]].
  apply bind_Ok_inv in H. destruct H as [dwd [w3 [_ H]]].
  apply bind_Ok_inv in H. destruct H as [dw [w4 [_ H]]].
  apply bind_Ok_inv in H. destruct H as [dd [w5 [_ H]]].
  apply bind_Ok_inv in H. destruct H as [syn_id [w6 [_ H]]].
  apply bind_Ok_inv in H. destruct H as [ds [w7 [_ H]]].
  apply bind_Ok_inv in H. destruct H as [params [w8 [_ H]]].
  destruct dwd.
  { eapply connection_manager_connect_emits; eassumption. }
  destruct dw.
  { apply bind_Ok_inv in H. destruct H as [delay [w9 [_ H]]].
    eapply connection_manager_connect_emits; eassumption. }
  destruct dd.
  { apply bind_Ok_inv in H. destruct H as [weight [w9 [_ H]]].
    eapply connection_manager_connect_emits; eassumption. }
  apply bind_Ok_inv in H. destruct H as [delay [w9 [_ H]]].
  apply bind_Ok_inv in H. destruct H as [weight [w10 [_ H]]].
  eapply connection_manager_connect_emits; eassumption.
Qed.

Lemma emitted_edges_stay (P : Z -> Z -> Prop) w w' e :
  related (emits_frame P) w w' -> In e (edges w) -> In e (edges w').
Proof.
  intros [new [E _]] Hin. unfold edges in *. rewrite E, map_app.
  apply in_or_app. right. exact Hin.
Qed.

(** A call of [single_connect_] that returns has handed at least one
    connection from the source to the target to the storage, provided the
    builder has a synapse type. *)
Lemma single_connect__emits requires_proxies snode_id target tid rng w w' :
  synapse_params_ (builder w) <> [] ->
  single_connect_ K requires_proxies snode_id target tid rng w = (Ok tt, w') ->
  In (snode_id, get_node_id target) (edges w').
Proof.
  intros Hne. unfold single_connect_.
  destruct (requires_proxies && negb (has_proxies target)); [discriminate |].
  intros H.
  apply bind_Ok_inv in H. destruct H as [b [w1 [Hb H]]].
  apply get_builder_Ok_inv in Hb. destruct Hb as [-> ->].
  destruct (synapse_params_ (builder w)) as [| m ms] eqn:E; [contradiction |].
  simpl in H.
  apply bind_Ok_inv in H. destruct H as [[] [w2 [Hfirst H]]].
  apply single_connect_synapse_emits in Hfirst.
  assert (Hrest : respects (emits_frame (fun _ _ => True))
                    (for_each (seq 1 (List.length ms))
                       (single_connect_synapse K snode_id target tid rng))).
  { apply respects_for_each. intros i _.
    apply respects_single_connect_synapse; exact I. }
  specialize (Hrest w2). rewrite H in Hrest.
  eapply emitted_edges_stay; eassumption.
Qed.

End SingleConnect.

(** ** The one-to-one rule *)

Lemma respects_bind_lift (F : Frame) {A B} (r : outcome A) (f : A -> M B) :
  (forall a, r = Ok a -> respects F (f a)) -> respects F (bind (lift r) f).
Proof.
  intros Hf w. unfold bind, lift.
  destruct r as [a | e | why |]; simpl; try apply related_refl.
  apply Hf. reflexivity.
Qed.

Lemma admits_capture_interface_frame : admits_capture interface_frame.
Proof. intros w tid e. simpl. destruct (builder w). split; reflexivity. Qed.

Lemma admits_capture_emits_frame P : admits_capture (emits_frame P).
Proof. intros w tid e. exists []. split; [reflexivity | constructor]. Qed.

Lemma admits_capture_filled_frame : admits_capture filled_frame.
Proof.
  intros w tid e j [e' He']. simpl.
  rewrite exceptions_raised_set_exceptions_raised_.
  destruct (Nat.eq_dec tid j) as [-> | Hne].
  - exists e. apply nth_error_vector_set_eq. apply nth_error_Some. rewrite He'. discriminate.
  - exists e'. rewrite nth_error_vector_set_neq by exact Hne. exact He'.
Qed.

Lemma admits_capture_frame_and F G :
  admits_capture F -> admits_capture G -> admits_capture (frame_and F G).
Proof. intros HF HG w tid e. split; [apply HF | apply HG]. Qed.

Section OneToOneFacts.

Variable K : Kernel.

Lemma respects_OneToOneBuilder_connect_thread (F : Frame) requires_proxies b tid :
  rng_ok F (get_vp_specific_rng tid) ->
  (forall s t,
      In (s, t) (combine (node_ids (sources_ b)) (node_ids (targets_ b))) ->
      (s =? t)%Z && negb (allow_autapses_ b) = false ->
      is_proxy (get_node_or_proxy K t tid) = false ->
      conn_ok F s (get_node_id (get_node_or_proxy K t tid))) ->
  (forall n s,
      In n (get_local_nodes K tid) ->
      (get_lid (targets_ b) (get_node_id n) <? 0)%Z = false ->
      nc_at (sources_ b) (get_lid (targets_ b) (get_node_id n)) = Ok s ->
      negb (allow_autapses_ b) && (s =? get_node_id n)%Z = false ->
      conn_ok F s (get_node_id n)) ->
  respects F (OneToOneBuilder_connect_thread K requires_proxies b tid).
Proof.
  intros Hrng Htarget Hlocal. unfold OneToOneBuilder_connect_thread.
  destruct (loop_over_targets_ K b).
  - apply respects_for_each_pair. intros s t Hin.
    destruct ((s =? t)%Z && negb (allow_autapses_ b)) eqn:Hskip; [apply respects_ret |].
    destruct (is_proxy (get_node_or_proxy K t tid)) eqn:Hproxy.
    + apply respects_skip_conn_parameter_.
    + apply respects_single_connect_; [exact Hrng |].
      apply Htarget; assumption.
  - apply respects_for_each. intros n Hn.
    destruct (get_lid (targets_ b) (get_node_id n) <? 0)%Z eqn:Hlid; [apply respects_ret |].
    apply respects_bind_lift. intros s Hs.
    destruct (negb (allow_autapses_ b) && (s =? get_node_id n)%Z) eqn:Hskip;
      [apply respects_ret |].
    apply respects_single_connect_; [exact Hrng |].
    apply Hlocal; assumption.
Qed.

Lemma respects_OneToOneBuilder_connect_ (F : Frame) requires_proxies :
  admits_capture F ->
  (forall r, rng_ok F r) ->
  (forall s t, conn_ok F s t) ->
  respects F (OneToOneBuilder_connect_ K requires_proxies).
Proof.
  intros Hcap Hrng Hconn. unfold OneToOneBuilder_connect_.
  apply respects_bind; [apply respects_get_builder |]. intros b.
  apply respects_omp_parallel. intros tid _.
  apply (respects_try_catch _ Hcap).
  apply respects_OneToOneBuilder_connect_thread.
  - apply Hrng.
  - intros. apply Hconn.
  - intros. apply Hconn.
Qed.

Lemma OneToOneBuilder_connect__keeps_interface requires_proxies :
  keeps_interface (connect_ (OneToOneBuilder_methods K requires_proxies)).
Proof.
  intros w. simpl.
  apply (respects_OneToOneBuilder_connect_ interface_frame requires_proxies).
  - apply admits_capture_interface_frame.
  - intros r. exact I.
  - intros s t. exact I.
Qed.

End OneToOneFacts.


Lemma make_symmetric_replays_with_swapped_collections_witness :
  let K := scenario_kernel 2 4 in
  let rule := OneToOneBuilder_methods K false in
  let syn_spec := [ ("synapse_model"%string, StringDatum "static_synapse");
                    ("weight"%string, DoubleVectorDatum [5%Q; 6%Q]) ] in
  match ConnBuilder_ctor K (node_range 1 2) (node_range 3 2)
          [("make_symmetric"%string, BoolDatum true)] [syn_spec] with
  | Ok b =>
      let w := initial_world b in
      let w1 := snd (connect_ rule w) in
      let result := ConnBuilder_connect K rule w in
      make_symmetric_ b = true
      /\ weights_ (builder w1) = [Some (ArrayDoubleParameter [5%Q; 6%Q] [2; 2])]
      /\ (forall b2, reset_all_parameters (builder w1) = Ok b2 ->
                     weights_ b2 = [Some (ArrayDoubleParameter [5%Q; 6%Q] [0; 0])])
      /\ fst result = Ok tt
      /\ map (fun c => (conn_source c, conn_target c, conn_weight c))
           (connections (snd result))
         = [(3, 1, Some 5%Q); (4, 2, Some 6%Q); (1, 3, Some 5%Q); (2, 4, Some 6%Q)]%Z
      /\ sources_ (builder (snd result)) = node_range 1 2
      /\ targets_ (builder (snd result)) = node_range 3 2
  | _ => False
  end.
Proof.
  intros K rule syn_spec.
  destruct (ConnBuilder_ctor K (node_range 1 2) (node_range 3 2)
              [("make_symmetric"%string, BoolDatum true)] [syn_spec])
    as [b | e | why |] eqn:Hb; try (vm_compute in Hb; discriminate).
  vm_compute in Hb. inversion Hb; subst b; clear Hb.
  intros w w1 result.
  assert (Hms : make_symmetric_ (builder w) = true) by (vm_compute; reflexivity).
  destruct (reset_all_parameters (builder w1)) as [b2 | e | why |] eqn:Hreset;
    try (vm_compute in Hreset; discriminate).
  set (w4 := snd (connect_ rule (set_builder (swap_sources_targets b2) w1))).
  destruct (make_symmetric_replays_with_swapped_collections K rule w w1 w4 b2)
    as [Hdispatch [Hconnect [Hrewound [_ [_ [Hs Ht]]]]]].
  - exact Hms.
  - reflexivity.
  - vm_compute; reflexivity.
  - vm_compute; reflexivity.
  - apply OneToOneBuilder_connect__keeps_interface.
  - vm_compute; reflexivity.
  - exact Hreset.
  - vm_compute in Hreset. inversion Hreset; subst b2. vm_compute; reflexivity.
  - split; [exact Hms |].
    assert (Hw1 : weights_ (builder w1) = [Some (ArrayDoubleParameter [5%Q; 6%Q] [2; 2])])
      by (vm_compute; reflexivity).
    split; [exact Hw1 |].
    split.
    { intros b2' Hb2'. inversion Hb2'; subst b2'.
      destruct Hrewound as [Hweights _]. rewrite Hw1 in Hweights.
      inversion Hweights as [| o o' l l' Ho Hl]; subst.
      inversion Hl; subst.
      destruct o' as [p' |]; simpl in Ho; [| contradiction].
      rewrite Ho. reflexivity. }
    change result with (ConnBuilder_connect K rule w). rewrite Hconnect.
    vm_compute in Hreset. inversion Hreset; subst b2.
    split; [vm_compute; reflexivity |].
    split; [vm_compute; reflexivity |].
    unfold check_exceptions_raised. cbn [snd].
    split; [rewrite Hs | rewrite Ht]; vm_compute; reflexivity.
Defined.

(** *** Positions in collections *)

Lemma In_combine_nth_error {A B} (l : list A) (l' : list B) a b :
  In (a, b) (combine l l') <->
  exists i, nth_error l i = Some a /\ nth_error l' i = Some b.
Proof.
  revert l'. induction l as [| x l IH]; intros l'; simpl.
  - split; [contradiction |]. intros [i [H _]]. destruct i; discriminate.
  - destruct l' as [| y l']; simpl.
    + split; [contradiction |]. intros [i [_ H]]. destruct i; discriminate.
    + split.
      * intros [E | Hin].
        -- inversion E; subst. exists 0. split; reflexivity.
        -- apply IH in Hin. destruct Hin as [i [H1 H2]]. exists (S i). split; assumption.
      * intros [[| i] [H1 H2]]; simpl in *.
        -- left. congruence.
        -- right. apply IH. exists i. split; assumption.
Qed.

Lemma find_lid_found ids id :
  forall pos,
    (0 <= pos)%Z ->
    (0 <= find_lid ids id pos)%Z ->
    exists i, find_lid ids id pos = (pos + Z.of_nat i)%Z /\ nth_error ids i = Some id.
Proof.
  induction ids as [| x ids IH]; intros pos Hpos Hfound; simpl in *.
  - lia.
  - destruct (Z.eqb_spec x id) as [-> | Hne].
    + exists 0. split; [simpl; lia | reflexivity].
    + destruct (IH (pos + 1)%Z ltac:(lia) Hfound) as [i [E Hi]].
      exists (S i). split; [rewrite E; lia | exact Hi].
Qed.

Lemma find_lid_first ids id :
  NoDup ids ->
  forall i pos, nth_error ids i = Some id -> find_lid ids id pos = (pos + Z.of_nat i)%Z.
Proof.
  induction 1 as [| x ids Hnotin Hnodup IH]; intros i pos Hi.
  - destruct i; discriminate.
  - simpl. destruct i as [| i]; simpl in Hi.
    + inversion Hi; subst. rewrite Z.eqb_refl. simpl. lia.
    + destruct (Z.eqb_spec x id) as [-> | Hne].
      * exfalso. apply Hnotin. eapply nth_error_In. exact Hi.
      * rewrite (IH i (pos + 1)%Z Hi). lia.
Qed.

Lemma nc_at_nth_error c lid s :
  (lid <? 0)%Z = false ->
  nc_at c lid = Ok s -> nth_error (node_ids c) (Z.to_nat lid) = Some s.
Proof.
  unfold nc_at. intros ->.
  destruct (nth_error (node_ids c) (Z.to_nat lid)); intros H; inversion H. reflexivity.
Qed.

Lemma nc_at_of_nat c i s :
  nth_error (node_ids c) i = Some s -> nc_at c (Z.of_nat i) = Ok s.
Proof.
  intros H. unfold nc_at.
  destruct (Z.ltb_spec (Z.of_nat i) 0); [lia |].
  rewrite Nat2Z.id, H. reflexivity.
Qed.

(** *** The edges of a one-to-one build *)

Section OneToOneEdges.

Variable K : Kernel.
Hypothesis consistent : Kernel_consistent K.

(** Every connection a one-to-one build hands to the storage joins a source
    to the target at the same position, and the two differ when autapses are
    disallowed. *)
Lemma OneToOneBuilder_connect__sound requires_proxies w :
  allow_autapses_ (builder w) = false ->
  related
    (emits_frame
       (fun s t =>
          In (s, t) (combine (node_ids (sources_ (builder w)))
                       (node_ids (targets_ (builder w))))
          /\ s <> t))
    w (snd (OneToOneBuilder_connect_ K requires_proxies w)).
Proof.
  intros Hauto.
  set (b := builder w).
  set (P := fun s t =>
              In (s, t) (combine (node_ids (sources_ b)) (node_ids (targets_ b)))
              /\ s <> t).
  unfold OneToOneBuilder_connect_, bind, get_builder. cbn [fst snd].
  fold b.
  apply (respects_omp_parallel K (emits_frame P)). intros tid _.
  apply (respects_try_catch _ (admits_capture_emits_frame P)).
  apply respects_OneToOneBuilder_connect_thread.
  - exact I.
  - intros s t Hin Hskip Hproxy. simpl. unfold P.
    rewrite (node_id_of_local K consistent t tid Hproxy).
    split; [exact Hin |].
    unfold b in Hskip. rewrite Hauto in Hskip. simpl in Hskip.
    rewrite andb_true_r in Hskip. apply Z.eqb_neq. exact Hskip.
  - intros n s Hn Hlid Hs Hskip. simpl. unfold P. split.
    + apply In_combine_nth_error.
      exists (Z.to_nat (get_lid (targets_ b) (get_node_id n))). split.
      * apply nc_at_nth_error; assumption.
      * apply Z.ltb_ge in Hlid.
        destruct (find_lid_found (node_ids (targets_ b)) (get_node_id n) 0%Z
                    ltac:(lia) Hlid) as [i [E Hi]].
        unfold get_lid. rewrite E. simpl. rewrite Nat2Z.id. exact Hi.
    + unfold b in Hskip. rewrite Hauto in Hskip. simpl in Hskip.
      apply Z.eqb_neq. exact Hskip.
Qed.

Lemma growing_universal :
  (forall r, rng_ok growing r) /\ (forall s t, conn_ok growing s t).
Proof. split; intros; simpl; auto. Qed.

Lemma admits_capture_growing : admits_capture growing.
Proof.
  apply admits_capture_frame_and;
    [apply admits_capture_emits_frame | apply admits_capture_interface_frame].
Qed.

Lemma growing_keeps_edges w w' e : related growing w w' -> In e (edges w) -> In e (edges w').
Proof. intros [Hemits _]. eapply emitted_edges_stay. exact Hemits. Qed.

Lemma growing_keeps_synapse_types w w' :
  related growing w w' ->
  synapse_params_ (builder w) <> [] -> synapse_params_ (builder w') <> [].
Proof.
  intros [_ [_ Hlen]] Hne E. rewrite E in Hlen. simpl in Hlen.
  destruct (synapse_params_ (builder w)); [contradiction | discriminate].
Qed.

Lemma respects_growing_thread requires_proxies b tid :
  respects growing (OneToOneBuilder_connect_thread K requires_proxies b tid).
Proof.
  destruct growing_universal as [Hrng Hconn].
  apply respects_OneToOneBuilder_connect_thread; intros; auto.
Qed.

(** A thread whose block returns has connected every pair it hosts. *)
Lemma OneToOneBuilder_connect_thread_complete requires_proxies b tid wa wb i s t :
  allow_autapses_ b = false ->
  NoDup (node_ids (targets_ b)) ->
  synapse_params_ (builder wa) <> [] ->
  nth_error (node_ids (sources_ b)) i = Some s ->
  nth_error (node_ids (targets_ b)) i = Some t ->
  s <> t ->
  is_proxy (get_node_or_proxy K t tid) = false ->
  OneToOneBuilder_connect_thread K requires_proxies b tid wa = (Ok tt, wb) ->
  In (s, t) (edges wb).
Proof.
  intros Hauto Hnodup Hsyn Hs Ht Hne Hproxy Hrun.
  destruct growing_universal as [Hrng Hconn].
  assert (Hst : (s =? t)%Z = false) by (apply Z.eqb_neq; exact Hne).
  unfold OneToOneBuilder_connect_thread in Hrun.
  destruct (loop_over_targets_ K b).
  - (* the loop over the targets *)
    eapply (for_each_pair_split growing) with (s := s) (t := t) in Hrun.
    + destruct Hrun as [wc [wd [Hac [Hbody Hdb]]]].
      rewrite Hst, Hproxy in Hbody. simpl in Hbody.
      apply single_connect__emits in Hbody.
      * rewrite (node_id_of_local K consistent t tid Hproxy) in Hbody.
        eapply growing_keeps_edges; eassumption.
      * eapply growing_keeps_synapse_types; eassumption.
    + intros s' t' _.
      destruct ((s' =? t')%Z && negb (allow_autapses_ b)); [apply respects_ret |].
      destruct (is_proxy (get_node_or_proxy K t' tid));
        [apply respects_skip_conn_parameter_ |].
      apply respects_single_connect_; auto.
    + apply In_combine_nth_error. exists i. split; assumption.
  - (* the loop over the local nodes *)
    pose proof (hosted_nodes_are_local K consistent t tid Hproxy) as Hlocal.
    pose proof (node_id_of_local K consistent t tid Hproxy) as Hid.
    eapply (for_each_split growing) with (x := get_node_or_proxy K t tid) in Hrun.
    + destruct Hrun as [wc [wd [Hac [Hbody Hdb]]]].
      cbv beta zeta in Hbody. rewrite Hid in Hbody.
      assert (Elid : get_lid (targets_ b) t = Z.of_nat i).
      { unfold get_lid. rewrite (find_lid_first _ _ Hnodup i 0%Z Ht). lia. }
      rewrite Elid in Hbody.
      destruct (Z.ltb_spec (Z.of_nat i) 0); [lia |].
      unfold bind, lift in Hbody. rewrite (nc_at_of_nat _ _ _ Hs) in Hbody.
      rewrite Hauto, Hst in Hbody. simpl in Hbody.
      apply single_connect__emits in Hbody.
      * rewrite Hid in Hbody. eapply growing_keeps_edges; eassumption.
      * eapply growing_keeps_synapse_types; eassumption.
    + intros n _.
      destruct (get_lid (targets_ b) (get_node_id n) <? 0)%Z; [apply respects_ret |].
      apply respects_bind_lift. intros s' _.
      destruct (negb (allow_autapses_ b) && (s' =? get_node_id n)%Z);
        [apply respects_ret |].
      apply respects_single_connect_; auto.
    + exact Hlocal.
Qed.

End OneToOneEdges.

(** *** Builds that cannot fail

    On a steady builder every update of [single_connect_] writes back what
    it read, apart from the entries of the parameter dictionaries, so the
    whole build can be followed to its end. *)

Lemma vector_set_same {A} (v : list A) i x :
  nth_error v i = Some x -> vector_set v i x = v.
Proof.
  revert i. induction v as [| y v IH]; intros i H; simpl.
  - reflexivity.
  - destruct i; simpl in H.
    + inversion H. reflexivity.
    + rewrite (IH i H). reflexivity.
Qed.

Lemma set_weights__same b : set_weights_ (weights_ b) b = b.
Proof. destruct b; reflexivity. Qed.

Lemma set_delays__same b : set_delays_ (delays_ b) b = b.
Proof. destruct b; reflexivity. Qed.

Lemma set_synapse_params__same b : set_synapse_params_ (synapse_params_ b) b = b.
Proof. destruct b; reflexivity. Qed.

Lemma set_builder_same w : set_builder (builder w) w = w.
Proof. destruct w; reflexivity. Qed.

Lemma params_set_same (m : ConnParameterMap) name p :
  NoDup (map fst m) -> In (name, p) m -> params_set m name p = m.
Proof.
  induction m as [| [k q] m IH]; simpl; intros Hnodup Hin; [contradiction |].
  inversion Hnodup as [| ? ? Hnotin Hnodup']; subst.
  destruct (String.eqb_spec k name) as [-> | Hne].
  - destruct Hin as [E | Hin].
    + inversion E. reflexivity.
    + exfalso. apply Hnotin. apply in_map_iff. exists (name, p). split; [reflexivity | exact Hin].
  - destruct Hin as [E | Hin]; [inversion E; congruence |].
    rewrite (IH Hnodup' Hin). reflexivity.
Qed.

Lemma map_param_same f name (m : ConnParameterMap) :
  (forall np, In np m -> f (snd np) = snd np) -> map_param f name m = m.
Proof.
  intros Hf. unfold map_param.
  rewrite <- (map_id m) at 2. apply map_ext_in. intros [k q] Hin.
  specialize (Hf (k, q) Hin). simpl in *.
  destruct (String.eqb k name); [rewrite Hf |]; reflexivity.
Qed.

Lemma ConnParameter_skip_same p tid n_skip :
  is_array p = false -> ConnParameter_skip p tid n_skip = p.
Proof. destruct p; simpl; intros H; try discriminate; reflexivity. Qed.

Section SteadyFacts.

Variable K : Kernel.

Lemma ConnParameter_value_double_steady p tid rng w :
  is_array p = false ->
  exists v w',
    ConnParameter_value_double K p tid rng w = (Ok (v, p), w')
    /\ builder w' = builder w.
Proof.
  intros Hp. destruct p as [v | v | vs next | vs next | [v | lo hi]]; simpl;
    try discriminate; try (eexists; eexists; split; reflexivity).
Qed.

Lemma ConnParameter_value_int_steady p tid rng w :
  is_array p = false -> provides_long p = true ->
  exists v w',
    ConnParameter_value_int K p tid rng w = (Ok (v, p), w')
    /\ builder w' = builder w.
Proof.
  intros Hp Hlong. destruct p; simpl in *; try discriminate.
  eexists; eexists; split; reflexivity.
Qed.

Lemma Steady_set_param_dicts_ b i ds tid d :
  Steady K b ->
  nth_error (param_dicts_ b) i = Some ds ->
  Steady K (set_param_dicts_ (vector_set (param_dicts_ b) i (vector_set ds tid d)) b).
Proof.
  intros [H1 H2 H3 H4 H5 H6 H7 H8 H9 H10] Hds.
  destruct b; simpl in *. constructor; simpl; try assumption.
  - rewrite vector_set_length. exact H5.
  - clear - H6 Hds. revert i Hds. 
    induction H6 as [| x l Hx Hl IH]; intros i Hds; simpl.
    + constructor.
    + destruct i; simpl in Hds.
      * inversion Hds; subst. constructor; [| exact Hl].
        rewrite vector_set_length. exact Hx.
      * constructor; [exact Hx | apply IH; exact Hds].
Qed.

Lemma configuration_set_param_dicts__eq x b :
  configuration (set_param_dicts_ x b) = configuration b
  /\ synapse_params_ (set_param_dicts_ x b) = synapse_params_ b.
Proof. destruct b; split; reflexivity. Qed.

Lemma Steady_dicts_at b i tid :
  Steady K b -> i < List.length (synapse_params_ b) -> tid < get_num_threads K ->
  exists ds d, nth_error (param_dicts_ b) i = Some ds
               /\ List.length ds = get_num_threads K
               /\ nth_error ds tid = Some d.
Proof.
  intros HS Hi Htid.
  destruct (nth_error (param_dicts_ b) i) as [ds |] eqn:E.
  - pose proof (steady_dicts_threads K b HS) as Hall.
    rewrite Forall_forall in Hall. specialize (Hall ds (nth_error_In _ _ E)).
    destruct (nth_error ds tid) as [d |] eqn:E'.
    + exists ds, d. split; [reflexivity |]. split; assumption.
    + apply nth_error_None in E'. lia.
  - apply nth_error_None in E. rewrite (steady_dicts K b HS) in E. lia.
Qed.

Lemma Steady_params_at b i :
  Steady K b -> i < List.length (synapse_params_ b) ->
  exists m, nth_error (synapse_params_ b) i = Some m
            /\ NoDup (map fst m)
            /\ Forall (fun np => is_array (snd np) = false) m.
Proof.
  intros HS Hi.
  destruct (nth_error (synapse_params_ b) i) as [m |] eqn:E.
  - pose proof (steady_params K b HS) as Hall.
    rewrite Forall_forall in Hall. destruct (Hall m (nth_error_In _ _ E)) as [Hn Hf].
    exists m. split; [reflexivity |]. split; assumption.
  - apply nth_error_None in E. lia.
Qed.

Lemma steady_step_refl w : Steady K (builder w) -> steady_step K w w.
Proof. intros HS. split; [exact HS |]. split; reflexivity. Qed.

Lemma steady_step_trans w1 w2 w3 :
  steady_step K w1 w2 -> steady_step K w2 w3 -> steady_step K w1 w3.
Proof.
  intros [_ [Hc Hp]] [HS [Hc' Hp']]. split; [exact HS |].
  split; [rewrite Hc'; exact Hc | rewrite Hp'; exact Hp].
Qed.

Lemma steady_step_builder w0 w w' :
  builder w0 = builder w -> steady_step K w0 w' -> steady_step K w w'.
Proof. unfold steady_step. intros ->. exact (fun H => H). Qed.

Lemma steady_step_same w w' :
  Steady K (builder w) -> builder w' = builder w -> steady_step K w w'.
Proof. intros HS Hb. unfold steady_step. rewrite Hb. apply steady_step_refl. exact HS. Qed.

Lemma store_synapse_param_steady i name p m w :
  nth_error (synapse_params_ (builder w)) i = Some m ->
  NoDup (map fst m) -> In (name, p) m ->
  store_synapse_param i name p w = (Ok tt, w).
Proof.
  intros Hm Hnodup Hin. unfold store_synapse_param, update_builder, vector_get.
  rewrite Hm. simpl.
  rewrite (params_set_same m name p Hnodup Hin), (vector_set_same _ _ _ Hm).
  rewrite set_synapse_params__same, set_builder_same. reflexivity.
Qed.

Lemma store_param_dict_entry_steady i tid name v w :
  Steady K (builder w) ->
  i < List.length (synapse_params_ (builder w)) -> tid < get_num_threads K ->
  exists w',
    store_param_dict_entry i tid name v w = (Ok tt, w') /\ steady_step K w w'.
Proof.
  intros HS Hi Htid.
  destruct (Steady_dicts_at _ i tid HS Hi Htid) as [ds [d [Hds [_ Hd]]]].
  unfold store_param_dict_entry, update_builder, vector_get.
  rewrite Hds. simpl. rewrite Hd. simpl.
  eexists. split; [reflexivity |]. unfold steady_step. simpl.
  split; [apply Steady_set_param_dicts_; assumption |].
  apply configuration_set_param_dicts__eq.
Qed.

Lemma update_param_dict_entries_steady tid rng i m :
  tid < get_num_threads K ->
  NoDup (map fst m) ->
  Forall (fun np => is_array (snd np) = false) m ->
  forall entries,
    incl entries m ->
    forall w,
      Steady K (builder w) ->
      nth_error (synapse_params_ (builder w)) i = Some m ->
      exists w',
        update_param_dict_entries K entries tid rng i w = (Ok tt, w') /\ steady_step K w w'.
Proof.
  intros Htid Hnodup Hsteady.
  induction entries as [| [name p] rest IH]; intros Hincl w HS Hm; simpl.
  - exists w. split; [reflexivity |]. apply steady_step_refl. exact HS.
  - assert (Hin : In (name, p) m) by (apply Hincl; left; reflexivity).
    assert (Hp : is_array p = false).
    { rewrite Forall_forall in Hsteady. exact (Hsteady (name, p) Hin). }
    assert (Hi : i < List.length (synapse_params_ (builder w))).
    { apply nth_error_Some. rewrite Hm. discriminate. }
    assert (Hstep : exists w1,
      (if provides_long p
       then bind (ConnParameter_value_int K p tid rng)
              (fun x => match x with
                        | (v, p') =>
                            bind (store_synapse_param i name p')
                              (fun _ => store_param_dict_entry i tid name (IntegerDatum v))
                        end)
       else bind (ConnParameter_value_double K p tid rng)
              (fun x => match x with
                        | (v, p') =>
                            bind (store_synapse_param i name p')
                              (fun _ => store_param_dict_entry i tid name (DoubleDatum v))
                        end)) w = (Ok tt, w1)
      /\ steady_step K w w1).
    { destruct (provides_long p) eqn:Hlong.
      - destruct (ConnParameter_value_int_steady p tid rng w Hp Hlong) as [v [w0 [Hv Hb0]]].
        unfold bind at 1. rewrite Hv.
        assert (Hm0 : nth_error (synapse_params_ (builder w0)) i = Some m)
          by (rewrite Hb0; exact Hm).
        unfold bind at 1. rewrite (store_synapse_param_steady i name p m w0 Hm0 Hnodup Hin).
        destruct (store_param_dict_entry_steady i tid name (IntegerDatum v) w0)
          as [w1 [H1 H2]]; try (rewrite Hb0; assumption); [exact Htid |].
        exists w1. split; [exact H1 |]. exact (steady_step_builder _ _ _ Hb0 H2).
      - destruct (ConnParameter_value_double_steady p tid rng w Hp) as [v [w0 [Hv Hb0]]].
        unfold bind at 1. rewrite Hv.
        assert (Hm0 : nth_error (synapse_params_ (builder w0)) i = Some m)
          by (rewrite Hb0; exact Hm).
        unfold bind at 1. rewrite (store_synapse_param_steady i name p m w0 Hm0 Hnodup Hin).
        destruct (store_param_dict_entry_steady i tid name (DoubleDatum v) w0)
          as [w1 [H1 H2]]; try (rewrite Hb0; assumption); [exact Htid |].
        exists w1. split; [exact H1 |]. exact (steady_step_builder _ _ _ Hb0 H2). }
    destruct Hstep as [w1 [Hrun1 Hstep1]].
    unfold bind at 1. rewrite Hrun1.
    destruct (IH (fun e He => Hincl e (or_intror He)) w1 (proj1 Hstep1)) as [w' [Hrun Hstep']].
    { rewrite (proj2 (proj2 Hstep1)). exact Hm. }
    exists w'. split; [exact Hrun |]. exact (steady_step_trans _ _ _ Hstep1 Hstep').
Qed.

Lemma vector_get_nth_error {A} (v : list A) i what x :
  nth_error v i = Some x -> vector_get v i what = Ok x.
Proof. unfold vector_get. intros ->. reflexivity. Qed.

Lemma nth_error_in_range {A} (v : list A) i :
  i < List.length v -> exists x, nth_error v i = Some x.
Proof.
  intros Hi. destruct (nth_error v i) as [x |] eqn:E.
  - exists x. reflexivity.
  - apply nth_error_None in E. lia.
Qed.

Lemma update_param_dict__steady snode_id target tid rng i w :
  Steady K (builder w) ->
  i < List.length (synapse_params_ (builder w)) -> tid < get_num_threads K ->
  exists w',
    update_param_dict_ K snode_id target tid rng i w = (Ok tt, w') /\ steady_step K w w'.
Proof.
  intros HS Hi Htid.
  destruct (Steady_dicts_at _ i tid HS Hi Htid) as [ds [d [Hds [Hlen _]]]].
  destruct (Steady_params_at _ i HS Hi) as [m [Hm [Hnodup Hall]]].
  unfold update_param_dict_.
  change (bind get_builder ?f w) with (f (builder w) w). cbv beta.
  rewrite (vector_get_nth_error _ _ _ _ Hds).
  change (bind (lift (Ok ds)) ?f w) with (f ds w). cbv beta.
  rewrite Hlen, Nat.eqb_refl. cbn [negb].
  rewrite (vector_get_nth_error _ _ _ _ Hm).
  change (bind (lift (Ok m)) ?f w) with (f m w). cbv beta.
  apply (update_param_dict_entries_steady tid rng i m Htid Hnodup Hall m (incl_refl m) w HS Hm).
Qed.

Lemma Steady_weight_at b i :
  Steady K b -> nth_error (default_weight_and_delay_ b) i = Some false ->
  exists p, nth_error (weights_ b) i = Some (Some p) /\ is_array p = false.
Proof.
  intros HS Hdwd. destruct (steady_present K b HS i Hdwd) as [[p Hp] _].
  exists p. split; [exact Hp |].
  pose proof (steady_weights K b HS) as Hall. rewrite Forall_forall in Hall.
  exact (Hall _ (nth_error_In _ _ Hp) p eq_refl).
Qed.

Lemma Steady_delay_at b i :
  Steady K b -> nth_error (default_weight_and_delay_ b) i = Some false ->
  exists p, nth_error (delays_ b) i = Some (Some p) /\ is_array p = false.
Proof.
  intros HS Hdwd. destruct (steady_present K b HS i Hdwd) as [_ [p Hp]].
  exists p. split; [exact Hp |].
  pose proof (steady_delays K b HS) as Hall. rewrite Forall_forall in Hall.
  exact (Hall _ (nth_error_In _ _ Hp) p eq_refl).
Qed.

Lemma delay_value_steady i tid rng w :
  Steady K (builder w) ->
  nth_error (default_weight_and_delay_ (builder w)) i = Some false ->
  exists v w', delay_value K i tid rng w = (Ok v, w') /\ builder w' = builder w.
Proof.
  intros HS Hdwd. destruct (Steady_delay_at _ i HS Hdwd) as [p [Hp Harr]].
  unfold delay_value.
  change (bind get_builder ?f w) with (f (builder w) w). cbv beta.
  rewrite (vector_get_nth_error _ _ _ _ Hp).
  change (bind (lift (Ok (Some p))) ?f w) with (f (Some p) w). cbv beta iota.
  destruct (ConnParameter_value_double_steady p tid rng w Harr) as [v [w0 [Hv Hb0]]].
  unfold bind at 1. rewrite Hv.
  exists v, w0. split; [| exact Hb0].
  unfold bind, update_builder, ret. rewrite Hb0.
  rewrite (vector_set_same _ _ _ Hp), set_delays__same, <- Hb0, set_builder_same.
  reflexivity.
Qed.

Lemma weight_value_steady i tid rng w :
  Steady K (builder w) ->
  nth_error (default_weight_and_delay_ (builder w)) i = Some false ->
  exists v w', weight_value K i tid rng w = (Ok v, w') /\ builder w' = builder w.
Proof.
  intros HS Hdwd. destruct (Steady_weight_at _ i HS Hdwd) as [p [Hp Harr]].
  unfold weight_value.
  change (bind get_builder ?f w) with (f (builder w) w). cbv beta.
  rewrite (vector_get_nth_error _ _ _ _ Hp).
  change (bind (lift (Ok (Some p))) ?f w) with (f (Some p) w). cbv beta iota.
  destruct (ConnParameter_value_double_steady p tid rng w Harr) as [v [w0 [Hv Hb0]]].
  unfold bind at 1. rewrite Hv.
  exists v, w0. split; [| exact Hb0].
  unfold bind, update_builder, ret. rewrite Hb0.
  rewrite (vector_set_same _ _ _ Hp), set_weights__same, <- Hb0, set_builder_same.
  reflexivity.
Qed.

Hypothesis accepts : storage_accepts K.

Lemma connection_manager_connect_steady snode_id target tid syn_id params delay weight w :
  exists w',
    connection_manager_connect K snode_id target tid syn_id params delay weight w = (Ok tt, w')
    /\ builder w' = builder w.
Proof.
  unfold connection_manager_connect. rewrite accepts.
  eexists. split; reflexivity.
Qed.

Lemma single_connect_synapse_steady snode_id target tid rng i w :
  Steady K (builder w) ->
  i < List.length (synapse_params_ (builder w)) -> tid < get_num_threads K ->
  exists w',
    single_connect_synapse K snode_id target tid rng i w = (Ok tt, w') /\ steady_step K w w'.
Proof.
  intros HS Hi Htid.
  destruct (update_param_dict__steady snode_id target tid rng i w HS Hi Htid)
    as [w1 [Hrun1 Hstep1]].
  pose proof (proj1 Hstep1) as HS1.
  assert (Hi1 : i < List.length (synapse_params_ (builder w1)))
    by (rewrite (proj2 (proj2 Hstep1)); exact Hi).
  unfold single_connect_synapse. unfold bind at 1. rewrite Hrun1.
  change (bind get_builder ?f w1) with (f (builder w1) w1). cbv beta.
  destruct (nth_error_in_range (default_weight_and_delay_ (builder w1)) i) as [dwd Hdwd];
    [rewrite (steady_default_weight_and_delay K _ HS1); exact Hi1 |].
  destruct (nth_error_in_range (default_weight_ (builder w1)) i) as [dw Hdw];
    [rewrite (steady_default_weight K _ HS1); exact Hi1 |].
  destruct (nth_error_in_range (default_delay_ (builder w1)) i) as [dd Hdd];
    [rewrite (steady_default_delay K _ HS1); exact Hi1 |].
  destruct (nth_error_in_range (synapse_model_id_ (builder w1)) i) as [syn_id Hsyn];
    [rewrite (steady_models K _ HS1); exact Hi1 |].
  destruct (Steady_dicts_at _ i tid HS1 Hi1 Htid) as [ds [d [Hds [_ Hd]]]].
  rewrite (vector_get_nth_error _ _ _ _ Hdwd).
  change (bind (lift (Ok dwd)) ?f w1) with (f dwd w1). cbv beta.
  rewrite (vector_get_nth_error _ _ _ _ Hdw).
  change (bind (lift (Ok dw)) ?f w1) with (f dw w1). cbv beta.
  rewrite (vector_get_nth_error _ _ _ _ Hdd).
  change (bind (lift (Ok dd)) ?f w1) with (f dd w1). cbv beta.
  rewrite (vector_get_nth_error _ _ _ _ Hsyn).
  change (bind (lift (Ok syn_id)) ?f w1) with (f syn_id w1). cbv beta.
  rewrite (vector_get_nth_error _ _ _ _ Hds).
  change (bind (lift (Ok ds)) ?f w1) with (f ds w1). cbv beta.
  rewrite (vector_get_nth_error _ _ _ _ Hd).
  change (bind (lift (Ok d)) ?f w1) with (f d w1). cbv beta.
  assert (Hfinish : forall w2 delay weight,
            builder w2 = builder w1 ->
            exists w',
              connection_manager_connect K snode_id target tid syn_id d delay weight w2
              = (Ok tt, w') /\ steady_step K w w').
  { intros w2 delay weight Hb2.
    destruct (connection_manager_connect_steady snode_id target tid syn_id d delay weight w2)
      as [w' [Hrun Hb']].
    exists w'. split; [exact Hrun |].
    apply (steady_step_trans _ _ _ Hstep1). apply (steady_step_same _ _ HS1).
    rewrite Hb'. exact Hb2. }
  destruct dwd.
  - apply Hfinish. reflexivity.
  - destruct (delay_value_steady i tid rng w1 HS1 Hdwd) as [dv [wd [Hdv Hbd]]].
    assert (HSd : Steady K (builder wd)) by (rewrite Hbd; exact HS1).
    assert (Hdwd' : nth_error (default_weight_and_delay_ (builder wd)) i = Some false)
      by (rewrite Hbd; exact Hdwd).
    destruct (weight_value_steady i tid rng w1 HS1 Hdwd) as [wv [ww [Hwv Hbw]]].
    destruct (weight_value_steady i tid rng wd HSd Hdwd') as [wv' [ww' [Hwv' Hbw']]].
    destruct dw; [| destruct dd].
    + unfold bind at 1. rewrite Hdv. apply Hfinish. exact Hbd.
    + unfold bind at 1. rewrite Hwv. apply Hfinish. exact Hbw.
    + unfold bind at 1. rewrite Hdv. unfold bind at 1. rewrite Hwv'.
      apply Hfinish. rewrite Hbw'. exact Hbd.
Qed.

Lemma returns_steadily_for_each {A} n (xs : list A) (body : A -> M unit) :
  (forall x, In x xs -> returns_steadily K n (body x)) ->
  returns_steadily K n (for_each xs body).
Proof.
  induction xs as [| x xs IH]; intros Hbody w HS Hn; simpl.
  - exists tt, w. split; [reflexivity |]. apply steady_step_refl. exact HS.
  - destruct (Hbody x (or_introl eq_refl) w HS Hn) as [[] [w1 [Hrun1 Hstep1]]].
    unfold bind. rewrite Hrun1.
    destruct (IH (fun y Hy => Hbody y (or_intror Hy)) w1 (proj1 Hstep1)) as [[] [w' [Hrun Hstep']]].
    { rewrite (proj2 (proj2 Hstep1)). exact Hn. }
    exists tt, w'. split; [exact Hrun |]. exact (steady_step_trans _ _ _ Hstep1 Hstep').
Qed.

Lemma returns_steadily_for_each_pair n (body : Z -> Z -> M unit) :
  (forall s t, returns_steadily K n (body s t)) ->
  forall targets sources,
    List.length targets = List.length sources ->
    returns_steadily K n (for_each_pair targets sources body).
Proof.
  intros Hbody.
  induction targets as [| t targets IH]; intros sources Hlen w HS Hn; simpl.
  - exists tt, w. split; [reflexivity |]. apply steady_step_refl. exact HS.
  - destruct sources as [| s sources]; [discriminate |].
    destruct (Hbody s t w HS Hn) as [[] [w1 [Hrun1 Hstep1]]].
    unfold bind. rewrite Hrun1.
    destruct (IH sources (eq_add_S _ _ Hlen) w1 (proj1 Hstep1)) as [[] [w' [Hrun Hstep']]].
    { rewrite (proj2 (proj2 Hstep1)). exact Hn. }
    exists tt, w'. split; [exact Hrun |]. exact (steady_step_trans _ _ _ Hstep1 Hstep').
Qed.

Lemma returns_steadily_ret n {A} (a : A) : returns_steadily K n (ret a).
Proof.
  intros w HS _. exists a, w. split; [reflexivity |]. apply steady_step_refl. exact HS.
Qed.

Lemma single_connect__steady n requires_proxies snode_id target tid rng :
  connectable requires_proxies target ->
  tid < get_num_threads K ->
  returns_steadily K n (single_connect_ K requires_proxies snode_id target tid rng).
Proof.
  intros Hconn Htid w HS Hn. unfold single_connect_.
  unfold connectable in Hconn. rewrite Hconn.
  change (bind get_builder ?f w) with (f (builder w) w). cbv beta.
  rewrite Hn.
  apply (returns_steadily_for_each n); [| exact HS | exact Hn].
  intros i Hi w1 HS1 Hn1. apply in_seq in Hi.
  destruct (single_connect_synapse_steady snode_id target tid rng i w1 HS1) as [w' [Hrun Hstep]];
    [lia | exact Htid |].
  exists tt, w'. split; assumption.
Qed.

Lemma skip_referenced_steady tid n_skip b r :
  Steady K b -> skip_referenced tid n_skip b r = b.
Proof.
  intros HS. destruct r as [i | i | i name]; simpl.
  - destruct (nth_error (weights_ b) i) as [[p |] |] eqn:E; try reflexivity.
    pose proof (steady_weights K b HS) as Hall. rewrite Forall_forall in Hall.
    rewrite (ConnParameter_skip_same p tid n_skip (Hall _ (nth_error_In _ _ E) p eq_refl)).
    rewrite (vector_set_same _ _ _ E). apply set_weights__same.
  - destruct (nth_error (delays_ b) i) as [[p |] |] eqn:E; try reflexivity.
    pose proof (steady_delays K b HS) as Hall. rewrite Forall_forall in Hall.
    rewrite (ConnParameter_skip_same p tid n_skip (Hall _ (nth_error_In _ _ E) p eq_refl)).
    rewrite (vector_set_same _ _ _ E). apply set_delays__same.
  - destruct (nth_error (synapse_params_ b) i) as [m |] eqn:E; try reflexivity.
    pose proof (steady_params K b HS) as Hall. rewrite Forall_forall in Hall.
    destruct (Hall _ (nth_error_In _ _ E)) as [_ Hm]. rewrite Forall_forall in Hm.
    rewrite map_param_same.
    + rewrite (vector_set_same _ _ _ E). apply set_synapse_params__same.
    + intros np Hin. apply ConnParameter_skip_same. exact (Hm np Hin).
Qed.

Lemma skip_conn_parameter__steady n tid n_skip :
  returns_steadily K n (skip_conn_parameter_ tid n_skip).
Proof.
  intros w HS _. exists tt, w. split; [| apply steady_step_refl; exact HS].
  unfold skip_conn_parameter_.
  change (bind get_builder ?f w) with (f (builder w) w). cbv beta.
  assert (Hfold : forall rs, fold_left (skip_referenced tid (to_size_t n_skip)) rs (builder w)
                             = builder w).
  { induction rs as [| r rs IH]; simpl; [reflexivity |].
    rewrite (skip_referenced_steady _ _ _ r HS). exact IH. }
  rewrite Hfold. unfold put_builder. rewrite set_builder_same. reflexivity.
Qed.

Lemma find_lid_range ids id :
  forall pos,
    (0 <= pos)%Z ->
    (find_lid ids id pos <? 0)%Z = false ->
    (Z.to_nat (find_lid ids id pos - pos) < List.length ids)%nat.
Proof.
  induction ids as [| x ids IH]; intros pos Hpos Hfound; simpl in *.
  - discriminate.
  - destruct (x =? id)%Z.
    + replace (pos - pos)%Z with 0%Z by lia. simpl. lia.
    + assert (Hpos' : (0 <= pos + 1)%Z) by lia.
      specialize (IH (pos + 1)%Z Hpos' Hfound).
      assert (pos + 1 <= find_lid ids id (pos + 1))%Z.
      { clear - Hfound Hpos. revert pos Hpos Hfound.
        induction ids as [| y ids IH']; intros pos Hpos Hfound; simpl in *.
        - discriminate.
        - destruct (y =? id)%Z; [lia |].
          assert (0 <= pos + 1)%Z by lia.
          specialize (IH' (pos + 1)%Z H Hfound). lia. }
      lia.
Qed.

Lemma OneToOneBuilder_connect_thread_steady n requires_proxies b tid :
  targets_connectable K requires_proxies ->
  tid < get_num_threads K ->
  List.length (node_ids (targets_ b)) = List.length (node_ids (sources_ b)) ->
  returns_steadily K n (OneToOneBuilder_connect_thread K requires_proxies b tid).
Proof.
  intros [Hany Hlocal] Htid Hlen. unfold OneToOneBuilder_connect_thread.
  destruct (loop_over_targets_ K b).
  - apply returns_steadily_for_each_pair; [| exact Hlen].
    intros s t.
    destruct ((s =? t)%Z && negb (allow_autapses_ b)); [apply returns_steadily_ret |].
    destruct (is_proxy (get_node_or_proxy K t tid)).
    + apply skip_conn_parameter__steady.
    + apply single_connect__steady; [apply Hany | exact Htid].
  - apply returns_steadily_for_each. intros node Hnode.
    destruct (get_lid (targets_ b) (get_node_id node) <? 0)%Z eqn:Hlid;
      [apply returns_steadily_ret |].
    pose proof (find_lid_range (node_ids (targets_ b)) (get_node_id node) 0%Z
                  (Z.le_refl 0) Hlid) as Hrange.
    rewrite Z.sub_0_r, Hlen in Hrange.
    destruct (nth_error_in_range _ _ Hrange) as [s Hs].
    assert (Hat : nc_at (sources_ b) (get_lid (targets_ b) (get_node_id node)) = Ok s).
    { unfold nc_at. unfold get_lid in *. rewrite Hlid, Hs. reflexivity. }
    rewrite Hat. intros w HS Hn.
    change (bind (lift (Ok s)) ?f w) with (f s w). cbv beta.
    destruct (negb (allow_autapses_ b) && (s =? get_node_id node)%Z).
    + exact (returns_steadily_ret n tt w HS Hn).
    + exact (single_connect__steady n requires_proxies s node tid (get_vp_specific_rng tid)
               (Hlocal tid node Hnode) Htid w HS Hn).
Qed.

Lemma try_catch_steady n tid body :
  returns_steadily K n body -> returns_steadily K n (try_catch tid body).
Proof.
  intros Hbody w HS Hn. destruct (Hbody w HS Hn) as [[] [w' [Hrun Hstep]]].
  exists tt, w'. split; [| exact Hstep]. unfold try_catch. rewrite Hrun. reflexivity.
Qed.

Lemma OneToOneBuilder_connect__steady requires_proxies w :
  targets_connectable K requires_proxies ->
  Steady K (builder w) ->
  List.length (node_ids (targets_ (builder w))) = List.length (node_ids (sources_ (builder w))) ->
  exists w',
    OneToOneBuilder_connect_ K requires_proxies w = (Ok tt, w') /\ steady_step K w w'.
Proof.
  intros Hconn HS Hlen. unfold OneToOneBuilder_connect_.
  change (bind get_builder ?f w) with (f (builder w) w). cbv beta.
  destruct (returns_steadily_for_each (List.length (synapse_params_ (builder w)))
              (seq 0 (get_num_threads K))
              (fun tid => try_catch tid
                 (OneToOneBuilder_connect_thread K requires_proxies (builder w) tid)))
    with (w := w) as [[] [w' [Hrun Hstep]]]; [| exact HS | reflexivity |].
  - intros tid Htid. apply in_seq in Htid. apply try_catch_steady.
    apply OneToOneBuilder_connect_thread_steady; [exact Hconn | lia | exact Hlen].
  - exists w'. split; [exact Hrun | exact Hstep].
Qed.

End SteadyFacts.

Lemma for_each_pair_diagonal (ids : list Z) (body : Z -> Z -> M unit) w :
  (forall x, In x ids -> body x x w = (Ok tt, w)) ->
  for_each_pair ids ids body w = (Ok tt, w).
Proof.
  induction ids as [| x ids IH]; simpl; intros Hbody; [reflexivity |].
  unfold bind. rewrite (Hbody x (or_introl eq_refl)).
  apply IH. intros y Hy. apply Hbody. right. exact Hy.
Qed.

(** With autapses disallowed, a one-to-one build over identical source and
    target collections does nothing at all. *)
Lemma OneToOneBuilder_connect__identical_collections (K : Kernel) requires_proxies w :
  allow_autapses_ (builder w) = false ->
  node_ids (sources_ (builder w)) = node_ids (targets_ (builder w)) ->
  OneToOneBuilder_connect_ K requires_proxies w = (Ok tt, w).
Proof.
  intros Hauto Hsame.
  unfold OneToOneBuilder_connect_, bind, get_builder, omp_parallel.
  apply for_each_unchanged. intros tid _.
  assert (Hthread : OneToOneBuilder_connect_thread K requires_proxies (builder w) tid w
                    = (Ok tt, w)).
  { unfold OneToOneBuilder_connect_thread.
    destruct (loop_over_targets_ K (builder w)).
    - rewrite Hsame. apply for_each_pair_diagonal. intros x _.
      rewrite Z.eqb_refl, Hauto. reflexivity.
    - apply for_each_unchanged. intros n _. cbv beta zeta.
      destruct (Z.ltb_spec (get_lid (targets_ (builder w)) (get_node_id n)) 0)
        as [_ | Hlid]; [reflexivity |].
      destruct (find_lid_found (node_ids (targets_ (builder w))) (get_node_id n) 0%Z
                  ltac:(lia) Hlid) as [i [E Hi]].
      unfold get_lid. rewrite E. simpl (0 + Z.of_nat i)%Z.
      unfold bind, lift. rewrite <- Hsame in Hi.
      rewrite (nc_at_of_nat _ _ _ Hi), Hauto, Z.eqb_refl. reflexivity. }
  unfold try_catch. rewrite Hthread. reflexivity.
Qed.

(** Claim C7.  With autapses disallowed, the edges of a one-to-one build that
    completes without a captured failure, on a process that hosts every
    target, are exactly the pairs [(s_i, t_i)] with [s_i <> t_i]; on a steady
    builder over collections of equal size, with a storage that accepts
    every connection, the build does complete without a captured failure;
    when the source and target collections are identical, the build emits
    nothing. *)
Theorem one_to_one_edges_without_autapses (K : Kernel) (requires_proxies : bool)
    (w : World) :
  allow_autapses_ (builder w) = false ->
  (forall w',
      Kernel_consistent K ->
      List.length (node_ids (sources_ (builder w)))
      = List.length (node_ids (targets_ (builder w))) ->
      NoDup (node_ids (targets_ (builder w))) ->
      synapse_params_ (builder w) <> [] ->
      (forall t, In t (node_ids (targets_ (builder w))) -> hosted K t) ->
      connections w = [] ->
      OneToOneBuilder_connect_ K requires_proxies w = (Ok tt, w') ->
      none_raised (exceptions_raised_ (builder w')) ->
      forall s t,
        In (s, t) (edges w') <->
        exists i,
          nth_error (node_ids (sources_ (builder w))) i = Some s
          /\ nth_error (node_ids (targets_ (builder w))) i = Some t
          /\ s <> t)
  /\ (Steady K (builder w) ->
      storage_accepts K ->
      targets_connectable K requires_proxies ->
      List.length (node_ids (sources_ (builder w)))
      = List.length (node_ids (targets_ (builder w))) ->
      none_raised (exceptions_raised_ (builder w)) ->
      exists w',
        OneToOneBuilder_connect_ K requires_proxies w = (Ok tt, w')
        /\ none_raised (exceptions_raised_ (builder w')))
  /\ (node_ids (sources_ (builder w)) = node_ids (targets_ (builder w)) ->
      OneToOneBuilder_connect_ K requires_proxies w = (Ok tt, w)).
Proof.
  intros Hauto. split; [| split].
  - intros w' Hcons Hlen Hnodup Hsyn Hhosted Hempty Hrun Hnone s t. split.
    + (* every edge is one of the pairs *)
      intros Hin.
      pose proof (OneToOneBuilder_connect__sound K Hcons requires_proxies w Hauto) as Hsound.
      rewrite Hrun in Hsound. destruct Hsound as [new [Enew Hnew]]. simpl in Enew.
      rewrite Hempty, app_nil_r in Enew.
      unfold edges in Hin. rewrite Enew in Hin.
      apply in_map_iff in Hin. destruct Hin as [c [Ec Hc]].
      rewrite Forall_forall in Hnew. specialize (Hnew c Hc).
      unfold edge_of in Ec. inversion Ec; subst.
      destruct Hnew as [Hpair Hne].
      apply In_combine_nth_error in Hpair. destruct Hpair as [i [Hs Ht]].
      exists i. repeat split; assumption.
    + (* every pair is an edge *)
      intros [i [Hs [Ht Hne]]].
      destruct (Hhosted t (nth_error_In _ _ Ht)) as [tid [Htid Hproxy]].
      unfold OneToOneBuilder_connect_ in Hrun.
      apply bind_Ok_inv in Hrun. destruct Hrun as [b [w0 [Hb Hrun]]].
      apply get_builder_Ok_inv in Hb. destruct Hb as [-> ->].
      unfold omp_parallel in Hrun.
      set (G := frame_and growing filled_frame).
      eapply (for_each_split G) with (x := tid) in Hrun.
      * destruct Hrun as [wa [wb [[Hwa _] [Hblock [Hwb Hfilled]]]]].
        apply try_catch_Ok_inv in Hblock. destruct Hblock as [Hthread | [_ Hfill]].
        -- eapply growing_keeps_edges; [exact Hwb |].
           apply (OneToOneBuilder_connect_thread_complete K Hcons requires_proxies
                    (builder w) tid wa wb i s t); try assumption.
           eapply growing_keeps_synapse_types; eassumption.
        -- exfalso. apply (none_raised_not_filled _ tid Hnone).
           apply Hfilled. exact Hfill.
      * intros tid' _.
        apply respects_try_catch.
        -- apply admits_capture_frame_and;
             [apply admits_capture_growing | apply admits_capture_filled_frame].
        -- apply respects_OneToOneBuilder_connect_thread; intros; simpl; auto.
      * apply in_seq. lia.
  - intros HS Haccepts Hconn Hlen Hnone.
    destruct (OneToOneBuilder_connect__steady K Haccepts requires_proxies w Hconn HS
                (eq_sym Hlen)) as [w' [Hrun [_ [Hconf _]]]].
    exists w'. split; [exact Hrun |].
    replace (exceptions_raised_ (builder w')) with (exceptions_raised_ (builder w));
      [exact Hnone |].
    symmetry. exact (f_equal (fun c => snd (fst (fst c))) Hconf).
  - intros Hsame.
    apply OneToOneBuilder_connect__identical_collections; assumption.
Qed.

Lemma scenario_kernel_consistent nthreads n_nodes :
  Kernel_consistent (scenario_kernel nthreads n_nodes).
Proof.
  constructor.
  - intros id tid _. reflexivity.
  - intros tid n Hn. simpl in Hn.
    apply filter_In in Hn. destruct Hn as [Hn Hproxy].
    apply in_map_iff in Hn. destruct Hn as [k [Ek _]].
    split.
    + rewrite <- Ek. reflexivity.
    + apply negb_true_iff. exact Hproxy.
  - intros id tid Hproxy.
    change (get_node_or_proxy (scenario_kernel nthreads n_nodes) id tid)
      with (scenario_node nthreads n_nodes id tid) in *.
    change (get_local_nodes (scenario_kernel nthreads n_nodes) tid)
      with (filter (fun n => negb (is_proxy n))
              (map (fun k => scenario_node nthreads n_nodes (Z.of_nat k) tid)
                 (seq 1 (Z.to_nat n_nodes)))).
    apply filter_In. split; [| rewrite Hproxy; reflexivity].
    apply in_map_iff. exists (Z.to_nat id).
    unfold scenario_node in Hproxy. cbn [is_proxy] in Hproxy.
    apply orb_false_iff in Hproxy. destruct Hproxy as [Hproxy Hhigh].
    apply orb_false_iff in Hproxy. destruct Hproxy as [_ Hlow].
    apply Z.ltb_ge in Hlow, Hhigh.
    split.
    + rewrite Z2Nat.id by lia. reflexivity.
    + apply in_seq. lia.
Qed.

Lemma one_to_one_edges_without_autapses_witness :
  let spec := [("allow_autapses"%string, BoolDatum false)] in
  let K := scenario_kernel 2 4 in
  let w := initial_world (scenario_builder K (node_range 1 2) (node_range 3 2) spec) in
  let w' := snd (OneToOneBuilder_connect_ K false w) in
  let K3 := scenario_kernel 2 3 in
  let w3 := initial_world (scenario_builder K3 (node_range 1 3) (node_range 1 3) spec) in
  edges w' = [(1, 3); (2, 4)]%Z
  /\ (forall s t,
         In (s, t) (edges w') <->
         exists i,
           nth_error (node_ids (sources_ (builder w))) i = Some s
           /\ nth_error (node_ids (targets_ (builder w))) i = Some t
           /\ s <> t)
  /\ (exists w'',
         OneToOneBuilder_connect_ K false w = (Ok tt, w'')
         /\ none_raised (exceptions_raised_ (builder w'')))
  /\ OneToOneBuilder_connect_ K3 false w3 = (Ok tt, w3)
  /\ edges w3 = [].
Proof.
  intros spec K w w' K3 w3.
  split; [vm_compute; reflexivity |]. split; [| split; [| split]].
  - assert (Hauto : allow_autapses_ (builder w) = false) by (vm_compute; reflexivity).
    destruct (one_to_one_edges_without_autapses K false w Hauto) as [Hedges _].
    apply Hedges.
    + apply scenario_kernel_consistent.
    + vm_compute. reflexivity.
    + vm_compute. repeat constructor; simpl; intuition discriminate.
    + vm_compute. discriminate.
    + intros t Ht. vm_compute in Ht. destruct Ht as [<- | [<- | []]].
      * exists 1. split; [vm_compute; lia | vm_compute; reflexivity].
      * exists 0. split; [vm_compute; lia | vm_compute; reflexivity].
    + vm_compute. reflexivity.
    + vm_compute. reflexivity.
    + vm_compute. repeat constructor.
  - assert (Hauto : allow_autapses_ (builder w) = false) by (vm_compute; reflexivity).
    destruct (one_to_one_edges_without_autapses K false w Hauto) as [_ [Hruns _]].
    apply Hruns.
    + constructor; try (vm_compute; reflexivity).
      * vm_compute. repeat constructor.
      * intros i Hi. vm_compute in Hi. destruct i as [| [| i]]; discriminate.
      * vm_compute. constructor; [intros p Hp; discriminate | constructor].
      * vm_compute. constructor; [intros p Hp; inversion Hp; reflexivity | constructor].
      * vm_compute. repeat constructor.
    + intros snode_id target syn_id. reflexivity.
    + split; intros; reflexivity.
    + vm_compute. reflexivity.
    + vm_compute. repeat constructor.
  - assert (Hauto : allow_autapses_ (builder w3) = false) by (vm_compute; reflexivity).
    destruct (one_to_one_edges_without_autapses K3 false w3 Hauto) as [_ [_ Hsame]].
    apply Hsame. vm_compute. reflexivity.
  - vm_compute. reflexivity.
Defined.

(** ** What the base constructor establishes *)

Section ConstructorSteps.

Variable K : Kernel.

Lemma set_synapse_model__step syn_params i b b' :
  set_synapse_model_ K syn_params i b = Ok b' ->
  exists name id,
    dict_find syn_params names.synapse_model = Some (StringDatum name)
    /\ get_synapse_model_id K name = Some id
    /\ check_synapse_params K id syn_params = None
    /\ b' = set_synapse_model_id_ (vector_set (synapse_model_id_ b) i id) b.
Proof.
  unfold set_synapse_model_, known, dict_get, synapse_model_id_of.
  destruct (dict_find syn_params names.synapse_model) as [t |]; simpl; [| discriminate].
  destruct t; simpl; try discriminate.
  destruct (get_synapse_model_id K s) as [id |] eqn:Hid; simpl; [| discriminate].
  destruct (check_synapse_params K id syn_params) eqn:Hcheck; [discriminate |].
  intros H. inversion H. exists s, id. repeat split; assumption.
Qed.

Lemma scalar_valued_dict_get d n t :
  scalar_valued d -> dict_get d n = Ok t -> is_vector_datum t = false.
Proof.
  unfold dict_get. intros Hd.
  induction Hd as [| [k v] d Hv Hd IH]; simpl; [discriminate |].
  destruct (String.eqb k n).
  - intros H. inversion H; subst. exact Hv.
  - exact IH.
Qed.

Lemma ConnParameter_create_scalar t nthreads p :
  is_vector_datum t = false -> ConnParameter_create t nthreads = Ok p -> is_array p = false.
Proof.
  destruct t; simpl; intros Hv H; try discriminate Hv; try discriminate H; inversion H; reflexivity.
Qed.

Lemma create_from_spec_or_default_scalar syn_params syn_defaults n p :
  scalar_valued syn_params -> scalar_valued syn_defaults ->
  create_from_spec_or_default K syn_params syn_defaults n = Ok p ->
  is_array p = false.
Proof.
  intros Hs Hd H. unfold create_from_spec_or_default in H.
  apply bind_outcome_Ok in H. destruct H as [t [Ht H]].
  apply (ConnParameter_create_scalar t (get_num_threads K)); [| exact H].
  revert Ht. destruct (known syn_params n); intros Ht;
    [exact (scalar_valued_dict_get _ _ _ Hs Ht) | exact (scalar_valued_dict_get _ _ _ Hd Ht)].
Qed.

Lemma vector_get_Ok {A} (v : list A) i what x :
  vector_get v i what = Ok x -> nth_error v i = Some x.
Proof. unfold vector_get. destruct (nth_error v i); intros H; inversion H. reflexivity. Qed.

Lemma nth_error_vector_set_inv {A} (v : list A) i x y :
  nth_error (vector_set v i x) i = Some y -> i < List.length v /\ y = x.
Proof.
  revert i. induction v as [| z v IH]; intros i H.
  - destruct i; discriminate.
  - destruct i; simpl in *.
    + inversion H. split; [lia | reflexivity].
    + destruct (IH i H) as [Hi E]. split; [lia | exact E].
Qed.

Lemma set_default_weight_or_delay__step syn_params i b b' :
  set_default_weight_or_delay_ K syn_params i b = Ok b' ->
  let dw := negb (known syn_params names.weight) in
  let dd := negb (known syn_params names.delay) in
  exists id d,
    nth_error (synapse_model_id_ b) i = Some id
    /\ create_from_spec_or_default K syn_params (get_connector_defaults K id) names.delay = Ok d
    /\ i < List.length (delays_ b)
    /\ default_weight_ b' = vector_set (default_weight_ b) i dw
    /\ default_delay_ b' = vector_set (default_delay_ b) i dd
    /\ default_weight_and_delay_ b' = vector_set (default_weight_and_delay_ b) i (dw && dd)
    /\ delays_ b' = vector_set (delays_ b) i (Some d)
    /\ (if dw && dd
        then weights_ b' = weights_ b
             /\ parameters_requiring_skipping_ b'
                = parameters_requiring_skipping_ b
                  ++ (if is_array d then [delay_ref i] else [])
        else exists w,
               create_from_spec_or_default K syn_params (get_connector_defaults K id)
                 names.weight = Ok w
               /\ weights_ b' = vector_set (weights_ b) i (Some w)
               /\ parameters_requiring_skipping_ b'
                  = (parameters_requiring_skipping_ b
                     ++ (if is_array w then [weight_ref i] else []))
                    ++ (if is_array d then [delay_ref i] else []))
    /\ synapse_model_id_ b' = synapse_model_id_ b
    /\ synapse_params_ b' = synapse_params_ b
    /\ param_dicts_ b' = param_dicts_ b
    /\ use_structural_plasticity_ b' = use_structural_plasticity_ b
    /\ pre_synaptic_element_name_ b' = pre_synaptic_element_name_ b
    /\ post_synaptic_element_name_ b' = post_synaptic_element_name_ b
    /\ exceptions_raised_ b' = exceptions_raised_ b.
Proof.
  intros H dw dd. unfold set_default_weight_or_delay_ in H.
  apply bind_outcome_Ok in H. destruct H as [id [Hid H]].
  apply vector_get_Ok in Hid.
  fold dw in H. fold dd in H. clearbody dw dd.
  apply bind_outcome_Ok in H. destruct H as [b1 [Hb1 H]].
  apply bind_outcome_Ok in H. destruct H as [od [Hod H]].
  apply vector_get_Ok in Hod.
  destruct od as [d0 |]; [| discriminate]. inversion H; subst b'; clear H.
  exists id, d0.
  unfold register_parameters_requiring_skipping_ in *.
  destruct (dw && dd) eqn:Hdwd; cbn [negb] in Hb1.
  - assert (Hdw : dw = true) by (destruct dw; [reflexivity | discriminate]).
    subst dw.
    apply bind_outcome_Ok in Hb1. destruct Hb1 as [d [Hd Hb1]].
    inversion Hb1; subst b1; clear Hb1.
    destruct b; cbn in *.
    apply nth_error_vector_set_inv in Hod. destruct Hod as [Hi E]. inversion E; subst d0.
    destruct (is_array d); cbn; rewrite ?app_nil_r; repeat split; assumption || reflexivity.
  - apply bind_outcome_Ok in Hb1. destruct Hb1 as [w [Hw Hb1]].
    apply bind_outcome_Ok in Hb1. destruct Hb1 as [d [Hd Hb1]].
    inversion Hb1; subst b1; clear Hb1.
    assert (Hod' : nth_error (vector_set (delays_ b) i (Some d)) i = Some (Some d0)).
    { destruct b; destruct (is_array w); exact Hod. }
    apply nth_error_vector_set_inv in Hod'. destruct Hod' as [Hi E].
    inversion E; subst d0. clear Hod.
    split; [exact Hid |]. split; [exact Hd |]. split; [exact Hi |].
    split; [destruct b; destruct (is_array w), (is_array d); reflexivity |].
    split; [destruct b; destruct (is_array w), (is_array d); reflexivity |].
    split; [destruct b; destruct (is_array w), (is_array d); reflexivity |].
    split; [destruct b; destruct (is_array w), (is_array d); reflexivity |].
    split.
    { exists w. split; [exact Hw |].
      destruct b; destruct (is_array w), (is_array d); cbn; rewrite ?app_nil_r;
        split; reflexivity. }
    destruct b; destruct (is_array w), (is_array d); repeat split; reflexivity.
Qed.

Lemma vector_set_vector_set {A} (v : list A) i x y :
  vector_set (vector_set v i x) i y = vector_set v i y.
Proof.
  revert i. induction v as [| z v IH]; intros i; simpl; [reflexivity |].
  destruct i; simpl; [reflexivity | rewrite IH; reflexivity].
Qed.

Lemma vector_set_out_of_range {A} (v : list A) i x :
  nth_error v i = None -> vector_set v i x = v.
Proof.
  revert i. induction v as [| z v IH]; intros i H; simpl; [reflexivity |].
  destruct i; simpl in *; [discriminate | rewrite (IH i H); reflexivity].
Qed.

Lemma params_set_keys m n p :
  map fst (params_set m n p) = map fst m
  \/ (~ In n (map fst m) /\ map fst (params_set m n p) = map fst m ++ [n]).
Proof.
  induction m as [| [k q] m IH]; simpl.
  - right. split; [intros [] | reflexivity].
  - destruct (String.eqb_spec k n) as [-> | Hne]; simpl.
    + left. reflexivity.
    + destruct IH as [E | [Hnot E]].
      * left. rewrite E. reflexivity.
      * right. split; [intros [H | H]; [exact (Hne H) | exact (Hnot H)] |].
        rewrite E. reflexivity.
Qed.

Lemma params_set_NoDup m n p :
  NoDup (map fst m) -> NoDup (map fst (params_set m n p)).
Proof.
  intros Hm. destruct (params_set_keys m n p) as [E | [Hnot E]]; rewrite E.
  - exact Hm.
  - apply NoDup_app; [exact Hm | repeat constructor; intros [] |].
    intros x Hx [<- | []]. exact (Hnot Hx).
Qed.

Lemma params_set_In m n p k q :
  In (k, q) (params_set m n p) -> (k = n /\ q = p) \/ In (k, q) m.
Proof.
  induction m as [| [k' q'] m IH]; simpl.
  - intros [H | []]. inversion H. left. split; reflexivity.
  - destruct (String.eqb_spec k' n) as [-> | Hne]; simpl.
    + intros [H | H]; [inversion H; left; split; reflexivity | right; right; exact H].
    + intros [H | H]; [right; left; exact H |].
      destruct (IH H) as [E | Hin]; [left; exact E | right; right; exact Hin].
Qed.

Lemma set_synapse_params_entries_step syn_params i entries :
  forall b b',
    set_synapse_params_entries K entries syn_params i b = Ok b' ->
    (exists m',
        synapse_params_ b' = vector_set (synapse_params_ b) i m'
        /\ forall m,
             nth_error (synapse_params_ b) i = Some m ->
             (NoDup (map fst m) -> NoDup (map fst m'))
             /\ (scalar_valued syn_params ->
                 Forall (fun np => is_array (snd np) = false) m ->
                 Forall (fun np => is_array (snd np) = false) m'))
    /\ (exists added,
          parameters_requiring_skipping_ b' = parameters_requiring_skipping_ b ++ added
          /\ (scalar_valued syn_params -> added = []))
    /\ synapse_model_id_ b' = synapse_model_id_ b
    /\ default_weight_and_delay_ b' = default_weight_and_delay_ b
    /\ default_weight_ b' = default_weight_ b
    /\ default_delay_ b' = default_delay_ b
    /\ weights_ b' = weights_ b
    /\ delays_ b' = delays_ b
    /\ param_dicts_ b' = param_dicts_ b
    /\ use_structural_plasticity_ b' = use_structural_plasticity_ b
    /\ pre_synaptic_element_name_ b' = pre_synaptic_element_name_ b
    /\ post_synaptic_element_name_ b' = post_synaptic_element_name_ b
    /\ exceptions_raised_ b' = exceptions_raised_ b.
Proof.
  induction entries as [| [param_name v] rest IH]; intros b b' H.
  - simpl in H. inversion H; subst b'; clear H.
    split.
    { destruct (nth_error (synapse_params_ b) i) as [m |] eqn:E.
      - exists m. split; [symmetry; apply vector_set_same; exact E |].
        intros m0 Hm0. inversion Hm0; subst. split; intros; assumption.
      - exists []. split; [symmetry; apply vector_set_out_of_range; exact E |].
        intros m0 Hm0. discriminate. }
    split; [exists []; split; [symmetry; apply app_nil_r | reflexivity] |].
    repeat split; reflexivity.
  - cbn [set_synapse_params_entries] in H.
    destruct (existsb (String.eqb param_name) skip_syn_params_); [exact (IH b b' H) |].
    destruct (known syn_params param_name); [| exact (IH b b' H)].
    apply bind_outcome_Ok in H. destruct H as [t [Ht H]].
    apply bind_outcome_Ok in H. destruct H as [p [Hp H]].
    apply bind_outcome_Ok in H. destruct H as [m [Hm H]].
    apply vector_get_Ok in Hm.
    apply IH in H.
    destruct H as [[m' [Hsp Hprops]] [[added [Hprs Hadded]] Hsame]].
    assert (Hi : i < List.length (synapse_params_ b)).
    { apply nth_error_Some. rewrite Hm. discriminate. }
    split.
    { exists m'. split.
      - rewrite Hsp. unfold register_parameters_requiring_skipping_.
        destruct b; destruct (is_array p); cbn; apply vector_set_vector_set.
      - intros m0 Hm0. rewrite Hm in Hm0. inversion Hm0; subst m0.
        assert (Hat : nth_error
                        (synapse_params_
                           (register_parameters_requiring_skipping_
                              (synapse_param_ref i param_name) p
                              (set_synapse_params_
                                 (vector_set (synapse_params_ b) i (params_set m param_name p))
                                 b))) i
                      = Some (params_set m param_name p)).
        { unfold register_parameters_requiring_skipping_.
          destruct b; destruct (is_array p); cbn in *;
            apply nth_error_vector_set_eq; exact Hi. }
        destruct (Hprops _ Hat) as [Hkeys Harr]. split.
        + intros Hnodup. apply Hkeys. apply params_set_NoDup. exact Hnodup.
        + intros Hscalar Hall. apply (Harr Hscalar).
          apply Forall_forall. intros [k q] Hin.
          destruct (params_set_In _ _ _ _ _ Hin) as [[_ ->] | Hin'].
          * simpl. eapply ConnParameter_create_scalar; [| exact Hp].
            eapply scalar_valued_dict_get; eassumption.
          * rewrite Forall_forall in Hall. exact (Hall _ Hin'). }
    split.
    { exists ((if is_array p then [synapse_param_ref i param_name] else []) ++ added).
      split.
      - rewrite Hprs. unfold register_parameters_requiring_skipping_.
        destruct b; destruct (is_array p); cbn; rewrite <- ?app_assoc; reflexivity.
      - intros Hscalar. rewrite (Hadded Hscalar).
        assert (E : is_array p = false).
        { eapply ConnParameter_create_scalar; [| exact Hp].
          eapply scalar_valued_dict_get; eassumption. }
        rewrite E. reflexivity. }
    unfold register_parameters_requiring_skipping_ in Hsame.
    destruct Hsame as (H1 & H2 & H3 & H4 & H5 & H6 & H7 & H8 & H9 & H10 & H11).
    rewrite H1, H2, H3, H4, H5, H6, H7, H8, H9, H10, H11.
    destruct b; destruct (is_array p); repeat split; reflexivity.
Qed.

Lemma set_synapse_params_step syn_defaults syn_params i b b' :
  set_synapse_params K syn_defaults syn_params i b = Ok b' ->
  exists m0 m' ds,
    nth_error (synapse_params_ b) i = Some m0
    /\ nth_error (param_dicts_ b) i = Some ds
    /\ synapse_params_ b' = vector_set (synapse_params_ b) i m'
    /\ param_dicts_ b'
       = vector_set (param_dicts_ b) i
           (ds ++ repeat (dummy_param_dict m') (get_num_threads K))
    /\ (NoDup (map fst m0) -> NoDup (map fst m'))
    /\ (scalar_valued syn_params ->
        Forall (fun np => is_array (snd np) = false) m0 ->
        Forall (fun np => is_array (snd np) = false) m')
    /\ (exists added,
          parameters_requiring_skipping_ b' = parameters_requiring_skipping_ b ++ added
          /\ (scalar_valued syn_params -> added = []))
    /\ synapse_model_id_ b' = synapse_model_id_ b
    /\ default_weight_and_delay_ b' = default_weight_and_delay_ b
    /\ default_weight_ b' = default_weight_ b
    /\ default_delay_ b' = default_delay_ b
    /\ weights_ b' = weights_ b
    /\ delays_ b' = delays_ b
    /\ use_structural_plasticity_ b' = use_structural_plasticity_ b
    /\ pre_synaptic_element_name_ b' = pre_synaptic_element_name_ b
    /\ post_synaptic_element_name_ b' = post_synaptic_element_name_ b
    /\ exceptions_raised_ b' = exceptions_raised_ b.
Proof.
  unfold set_synapse_params. intros H.
  apply bind_outcome_Ok in H. destruct H as [b1 [Hb1 H]].
  apply bind_outcome_Ok in H. destruct H as [m' [Hm' H]].
  apply bind_outcome_Ok in H. destruct H as [ds [Hds H]].
  apply vector_get_Ok in Hm', Hds. inversion H; subst b'; clear H.
  apply set_synapse_params_entries_step in Hb1.
  destruct Hb1 as [[m1 [Hsp Hprops]] [Hprs Hsame]].
  destruct Hsame as (H1 & H2 & H3 & H4 & H5 & H6 & H7 & H8 & H9 & H10 & H11).
  rewrite Hsp in Hm'. apply nth_error_vector_set_inv in Hm'. destruct Hm' as [Hi ->].
  destruct (nth_error (synapse_params_ b) i) as [m0 |] eqn:Hm0;
    [| apply nth_error_None in Hm0; lia].
  destruct (Hprops m0 eq_refl) as [Hkeys Harr].
  exists m0, m1, ds. rewrite H7 in Hds.
  split; [reflexivity |]. split; [exact Hds |].
  split; [destruct b1; exact Hsp |].
  split; [destruct b1; cbn in *; rewrite H7; reflexivity |].
  split; [exact Hkeys |]. split; [exact Harr |].
  split; [destruct b1; exact Hprs |].
  destruct b1; cbn in *. repeat split; assumption.
Qed.

Lemma Forall_vector_set {A} (P : A -> Prop) (v : list A) i x :
  Forall P v -> P x -> Forall P (vector_set v i x).
Proof.
  intros Hv Hx. revert i. induction Hv as [| y v Hy Hv IH]; intros i; simpl.
  - constructor.
  - destruct i; constructor; auto.
Qed.

Lemma dict_find_dict_set_eq d k v : dict_find (dict_set d k v) k = Some v.
Proof.
  induction d as [| [k' w] d IH]; simpl.
  - rewrite String.eqb_refl. reflexivity.
  - destruct (String.eqb k' k) eqn:E; simpl; rewrite E; [reflexivity | exact IH].
Qed.

Lemma dict_find_dict_set_neq d k v n :
  k <> n -> dict_find (dict_set d k v) n = dict_find d n.
Proof.
  intros Hne. induction d as [| [k' w] d IH]; simpl.
  - destruct (String.eqb_spec k n); [contradiction | reflexivity].
  - destruct (String.eqb_spec k' k) as [-> | Hk]; simpl.
    + destruct (String.eqb_spec k n); [contradiction | reflexivity].
    + destruct (String.eqb k' n); [reflexivity | exact IH].
Qed.

Lemma dummy_param_dict_entries (m : ConnParameterMap) :
  forall d0 name,
    ~ In name (map fst m) ->
    dict_find
      (fold_left
         (fun d (np : string * ConnParameter) =>
            dict_set d (fst np)
              (if provides_long (snd np) then IntegerDatum 0 else DoubleDatum 0))
         m d0) name
    = dict_find d0 name.
Proof.
  induction m as [| [k q] m IH]; intros d0 name Hnot; simpl; [reflexivity |].
  rewrite IH by (intros H; apply Hnot; right; exact H).
  apply dict_find_dict_set_neq. intros ->. apply Hnot. left. reflexivity.
Qed.

Lemma dummy_param_dict_typed (m : ConnParameterMap) name p :
  NoDup (map fst m) -> In (name, p) m ->
  exists t, dict_find (dummy_param_dict m) name = Some t /\ datum_fits p t = true.
Proof.
  unfold dummy_param_dict. generalize (@nil (string * Datum)).
  induction m as [| [k q] m IH]; intros d0 Hnodup Hin; [contradiction |].
  inversion Hnodup as [| ? ? Hnotin Hnodup']; subst. simpl.
  destruct Hin as [E | Hin].
  - inversion E; subst k q. rewrite dummy_param_dict_entries by exact Hnotin.
    rewrite dict_find_dict_set_eq.
    eexists. split; [reflexivity |]. destruct (provides_long p) eqn:E'; simpl; rewrite E'; reflexivity.
  - apply IH; assumption.
Qed.

End ConstructorSteps.

Ltac reduce_fields :=
  cbn [sources_ targets_ allow_autapses_ allow_multapses_ make_symmetric_
       creates_symmetric_connections_ exceptions_raised_ synapse_model_id_ param_dicts_
       use_structural_plasticity_ pre_synaptic_element_name_ post_synaptic_element_name_
       default_weight_and_delay_ default_weight_ default_delay_ weights_ delays_
       synapse_params_ parameters_requiring_skipping_
       set_sources_ set_targets_ set_allow_autapses_ set_allow_multapses_
       set_make_symmetric_ set_creates_symmetric_connections_ set_exceptions_raised_
       set_synapse_model_id_ set_param_dicts_ set_use_structural_plasticity_
       set_pre_synaptic_element_name_ set_post_synaptic_element_name_
       set_default_weight_and_delay_ set_default_weight_ set_default_delay_
       set_weights_ set_delays_ set_synapse_params_ set_parameters_requiring_skipping_] in *.

Section ConstructorLoop.

Variable K : Kernel.
Variable syn_specs : list Dictionary.

Lemma spec_handled_transfer spec j b b' :
  nth_error (default_weight_ b') j = nth_error (default_weight_ b) j ->
  nth_error (default_delay_ b') j = nth_error (default_delay_ b) j ->
  nth_error (default_weight_and_delay_ b') j = nth_error (default_weight_and_delay_ b) j ->
  nth_error (delays_ b') j = nth_error (delays_ b) j ->
  nth_error (weights_ b') j = nth_error (weights_ b) j ->
  nth_error (param_dicts_ b') j = nth_error (param_dicts_ b) j ->
  nth_error (synapse_model_id_ b') j = nth_error (synapse_model_id_ b) j ->
  spec_handled K spec j b -> spec_handled K spec j b'.
Proof.
  unfold spec_handled. intros -> -> -> -> -> -> ->. exact (fun H => H).
Qed.

(** One turn of the loop of the constructor, at index [i]. *)
Lemma set_synapse_specs_turn spec i b b1 b2 b3 id :
  set_synapse_model_ K spec i b = Ok b1 ->
  set_default_weight_or_delay_ K spec i b1 = Ok b2 ->
  vector_get (synapse_model_id_ b2) i "synapse_model_id_[ synapse_indx ]" = Ok id ->
  set_synapse_params K (get_connector_defaults K id) spec i b2 = Ok b3 ->
  nth_error (param_dicts_ b) i = Some [] ->
  nth_error (synapse_params_ b) i = Some [] ->
  exists mid d m' ow,
    synapse_model_id_ b3 = vector_set (synapse_model_id_ b) i mid
    /\ default_weight_ b3 = vector_set (default_weight_ b) i (negb (known spec names.weight))
    /\ default_delay_ b3 = vector_set (default_delay_ b) i (negb (known spec names.delay))
    /\ default_weight_and_delay_ b3
       = vector_set (default_weight_and_delay_ b) i
           (negb (known spec names.weight) && negb (known spec names.delay))
    /\ delays_ b3 = vector_set (delays_ b) i (Some d)
    /\ weights_ b3
       = (if negb (known spec names.weight) && negb (known spec names.delay)
          then weights_ b else vector_set (weights_ b) i (Some ow))
    /\ synapse_params_ b3 = vector_set (synapse_params_ b) i m'
    /\ param_dicts_ b3
       = vector_set (param_dicts_ b) i (repeat (dummy_param_dict m') (get_num_threads K))
    /\ (exists name,
          dict_find spec names.synapse_model = Some (StringDatum name)
          /\ get_synapse_model_id K name = Some mid)
    /\ i < List.length (synapse_model_id_ b)
    /\ i < List.length (delays_ b)
    /\ NoDup (map fst m')
    /\ (exists added,
          parameters_requiring_skipping_ b3 = parameters_requiring_skipping_ b ++ added
          /\ (scalar_valued spec -> (forall id, scalar_valued (get_connector_defaults K id)) ->
              added = []
              /\ is_array d = false
              /\ (negb (known spec names.weight) && negb (known spec names.delay) = false ->
                  is_array ow = false)
              /\ Forall (fun np => is_array (snd np) = false) m'))
    /\ use_structural_plasticity_ b3 = use_structural_plasticity_ b
    /\ pre_synaptic_element_name_ b3 = pre_synaptic_element_name_ b
    /\ post_synaptic_element_name_ b3 = post_synaptic_element_name_ b
    /\ exceptions_raised_ b3 = exceptions_raised_ b.
Proof.
  intros H1 H2 Hid H3 Hdicts Hparams.
  apply set_synapse_model__step in H1.
  destruct H1 as [name [mid [Hname [Hmid [_ ->]]]]].
  apply set_default_weight_or_delay__step in H2. cbv zeta in H2.
  destruct H2 as [id2 [d (Hid2 & Hd & Hi & Edw & Edd & Edwd & Edel & Hw & Emid & Esp & Epd
                            & Eu & Epre & Epost & Eex)]].
  apply set_synapse_params_step in H3.
  destruct H3 as [m0 [m' [ds (Hm0 & Hds & Esp3 & Epd3 & Hkeys & Harr & Hprs3 & Emid3 & Edwd3
                              & Edw3 & Edd3 & Ew3 & Edel3 & Eu3 & Epre3 & Epost3 & Eex3)]]].
  destruct b. reduce_fields.
  apply nth_error_vector_set_inv in Hid2. destruct Hid2 as [Himid ->].
  rewrite Esp, Hparams in Hm0. inversion Hm0; subst m0.
  rewrite Epd, Hdicts in Hds. inversion Hds; subst ds. clear Hm0 Hds.
  destruct Hprs3 as [added3 [Eprs3 Hadded3]].
  rewrite Emid3, Edwd3, Edw3, Edd3, Ew3, Edel3, Eu3, Epre3, Epost3, Eex3, Esp3, Epd3, Eprs3.
  rewrite Emid, Edwd, Edw, Edd, Edel, Eu, Epre, Epost, Eex, Esp, Epd.
  clear Emid3 Edwd3 Edw3 Edd3 Ew3 Edel3 Eu3 Epre3 Epost3 Eex3 Esp3 Epd3 Eprs3.
  assert (Hnodup : NoDup (map fst m')) by (apply Hkeys; constructor).
  destruct (negb (known spec names.weight) && negb (known spec names.delay)) eqn:Hdwd.
  - destruct Hw as [Ew Eprs].
    exists mid, d, m', d. rewrite Ew, Eprs.
    repeat (split; [reflexivity || assumption |]).
    split; [exists name; split; assumption |].
    repeat (split; [reflexivity || assumption |]).
    split; [| repeat split; reflexivity].
    exists ((if is_array d then [delay_ref i] else []) ++ added3).
    split; [rewrite app_assoc; reflexivity |].
    intros Hspec Hdefaults.
    assert (Ed : is_array d = false)
      by (eapply create_from_spec_or_default_scalar; [exact Hspec | apply Hdefaults | exact Hd]).
    rewrite Ed, (Hadded3 Hspec).
    split; [reflexivity |]. split; [reflexivity |]. split; [discriminate |].
    apply (Harr Hspec). constructor.
  - destruct Hw as [w [Hw [Ew Eprs]]].
    exists mid, d, m', w. rewrite Ew, Eprs.
    repeat (split; [reflexivity || assumption |]).
    split; [exists name; split; assumption |].
    repeat (split; [reflexivity || assumption |]).
    split; [| repeat split; reflexivity].
    exists (((if is_array w then [weight_ref i] else [])
             ++ (if is_array d then [delay_ref i] else [])) ++ added3).
    split; [rewrite !app_assoc; reflexivity |].
    intros Hspec Hdefaults.
    assert (Ed : is_array d = false)
      by (eapply create_from_spec_or_default_scalar; [exact Hspec | apply Hdefaults | exact Hd]).
    assert (Ew' : is_array w = false)
      by (eapply create_from_spec_or_default_scalar; [exact Hspec | apply Hdefaults | exact Hw]).
    rewrite Ed, Ew', (Hadded3 Hspec).
    split; [reflexivity |]. split; [reflexivity |]. split; [intros _; reflexivity |].
    apply (Harr Hspec). constructor.
Qed.

Lemma dicts_typed_turn b b3 i m' :
  i < List.length (synapse_params_ b) ->
  List.length (param_dicts_ b) = List.length (synapse_params_ b) ->
  synapse_params_ b3 = vector_set (synapse_params_ b) i m' ->
  param_dicts_ b3
  = vector_set (param_dicts_ b) i (repeat (dummy_param_dict m') (get_num_threads K)) ->
  NoDup (map fst m') ->
  dicts_typed b -> dicts_typed b3.
Proof.
  intros Hi Hlen Esp Epd Hnodup Htyped j m ds d name p Hm Hds Hd Hin.
  rewrite Esp in Hm. rewrite Epd in Hds.
  destruct (Nat.eq_dec i j) as [<- | Hne].
  - rewrite nth_error_vector_set_eq in Hm by exact Hi.
    rewrite nth_error_vector_set_eq in Hds by (rewrite Hlen; exact Hi).
    inversion Hm; subst m. inversion Hds; subst ds.
    apply repeat_spec in Hd. subst d.
    apply dummy_param_dict_typed; assumption.
  - rewrite nth_error_vector_set_neq in Hm by exact Hne.
    rewrite nth_error_vector_set_neq in Hds by exact Hne.
    eapply Htyped; eassumption.
Qed.

Lemma set_synapse_specs_handles rest :
  forall i b b',
    (forall k spec, nth_error rest k = Some spec -> nth_error syn_specs (i + k) = Some spec) ->
    i + List.length rest = List.length syn_specs ->
    set_synapse_specs K rest i b = Ok b' ->
    vectors_sized (List.length syn_specs) b ->
    (forall j, i <= j -> j < List.length syn_specs ->
               nth_error (param_dicts_ b) j = Some []
               /\ nth_error (synapse_params_ b) j = Some []
               /\ nth_error (weights_ b) j = Some None) ->
    (forall j spec, j < i -> nth_error syn_specs j = Some spec -> spec_handled K spec j b) ->
    params_named_once b ->
    dicts_typed b ->
    vectors_sized (List.length syn_specs) b'
    /\ (forall j spec, nth_error syn_specs j = Some spec -> spec_handled K spec j b')
    /\ params_named_once b'
    /\ dicts_typed b'
    /\ use_structural_plasticity_ b' = use_structural_plasticity_ b
    /\ pre_synaptic_element_name_ b' = pre_synaptic_element_name_ b
    /\ post_synaptic_element_name_ b' = post_synaptic_element_name_ b
    /\ exceptions_raised_ b' = exceptions_raised_ b
    /\ ((forall spec, In spec syn_specs -> scalar_valued spec) ->
        (forall id, scalar_valued (get_connector_defaults K id)) ->
        params_plain b ->
        parameters_requiring_skipping_ b = [] ->
        params_plain b' /\ parameters_requiring_skipping_ b' = []).
Proof.
  induction rest as [| spec rest IH]; intros i b b' Hrest Hlen Hrun Hsized Hpending Hdone
    Hnamed Htyped.
  - simpl in Hrun. inversion Hrun; subst b'; clear Hrun. simpl in Hlen.
    split; [exact Hsized |].
    split; [intros j s Hj; apply Hdone; [| exact Hj];
            assert (j < List.length syn_specs) by (apply nth_error_Some; rewrite Hj; discriminate);
            lia |].
    do 6 (split; [assumption || reflexivity |]).
    intros _ _ Hplain Hprs. split; assumption.
  - simpl in Hrun, Hlen.
    apply bind_outcome_Ok in Hrun. destruct Hrun as [b1 [H1 Hrun]].
    apply bind_outcome_Ok in Hrun. destruct Hrun as [b2 [H2 Hrun]].
    apply bind_outcome_Ok in Hrun. destruct Hrun as [id [Hid Hrun]].
    apply bind_outcome_Ok in Hrun. destruct Hrun as [b3 [H3 Hrun]].
    assert (Hi : i < List.length syn_specs) by lia.
    assert (Hspec : nth_error syn_specs i = Some spec).
    { rewrite <- (Nat.add_0_r i). apply Hrest. reflexivity. }
    destruct (Hpending i (Nat.le_refl i) Hi) as [Hdicts [Hparams Hweight]].
    destruct (set_synapse_specs_turn spec i b b1 b2 b3 id H1 H2 Hid H3 Hdicts Hparams)
      as [mid [d [m' [ow (Emid & Edw & Edd & Edwd & Edel & Ew & Esp & Epd & Hname & Himid
                          & Hidel & Hnodup & Hprs & Eu & Epre & Epost & Eex)]]]].
    destruct Hsized as (L1 & L2 & L3 & L4 & L5 & L6 & L7 & L8).
    assert (Hsized3 : vectors_sized (List.length syn_specs) b3).
    { unfold vectors_sized. rewrite Emid, Edw, Edd, Edwd, Edel, Ew, Esp, Epd.
      destruct (negb (known spec names.weight) && negb (known spec names.delay));
        rewrite ?vector_set_length; repeat split; assumption. }
    assert (Hpending3 : forall j, S i <= j -> j < List.length syn_specs ->
              nth_error (param_dicts_ b3) j = Some []
              /\ nth_error (synapse_params_ b3) j = Some []
              /\ nth_error (weights_ b3) j = Some None).
    { intros j Hj Hjn. rewrite Epd, Esp, Ew.
      destruct (negb (known spec names.weight) && negb (known spec names.delay));
        rewrite !nth_error_vector_set_neq by lia; apply Hpending; lia. }
    assert (Hdone3 : forall j s, j < S i -> nth_error syn_specs j = Some s ->
              spec_handled K s j b3).
    { intros j s Hj Hs.
      destruct (Nat.eq_dec j i) as [-> | Hne].
      - rewrite Hspec in Hs. inversion Hs; subst s.
        unfold spec_handled. rewrite Edw, Edd, Edwd, Edel, Ew, Epd, Emid.
        rewrite !nth_error_vector_set_eq by lia.
        split; [reflexivity |]. split; [reflexivity |]. split; [reflexivity |].
        split; [exists d; reflexivity |].
        split.
        { destruct (negb (known spec names.weight) && negb (known spec names.delay)) eqn:Hdwd.
          - exact Hweight.
          - exists ow. apply nth_error_vector_set_eq. lia. }
        split; [eexists; split; [reflexivity | apply repeat_length] |].
        destruct Hname as [name [Hname Hmid]].
        exists name, mid. repeat split; assumption.
      - apply (spec_handled_transfer s j b b3).
        + rewrite Edw. apply nth_error_vector_set_neq. lia.
        + rewrite Edd. apply nth_error_vector_set_neq. lia.
        + rewrite Edwd. apply nth_error_vector_set_neq. lia.
        + rewrite Edel. apply nth_error_vector_set_neq. lia.
        + rewrite Ew.
          destruct (negb (known spec names.weight) && negb (known spec names.delay));
            [reflexivity | apply nth_error_vector_set_neq; lia].
        + rewrite Epd. apply nth_error_vector_set_neq. lia.
        + rewrite Emid. apply nth_error_vector_set_neq. lia.
        + apply Hdone; [lia | exact Hs]. }
    destruct Hprs as [added [Eprs Hadded]].
    assert (Hnamed3 : params_named_once b3).
    { unfold params_named_once. rewrite Esp. apply Forall_vector_set; assumption. }
    assert (Htyped3 : dicts_typed b3).
    { apply (dicts_typed_turn b b3 i m'); try assumption; lia. }
    destruct (IH (S i) b3 b') as (R1 & R2 & R3 & R4 & R5 & R6 & R7 & R8 & R9);
      try assumption.
    { intros k s Hk. rewrite Nat.add_succ_l, <- Nat.add_succ_r. apply Hrest. exact Hk. }
    { lia. }
    split; [exact R1 |]. split; [exact R2 |]. split; [exact R3 |]. split; [exact R4 |].
    split; [rewrite R5; exact Eu |]. split; [rewrite R6; exact Epre |].
    split; [rewrite R7; exact Epost |]. split; [rewrite R8; exact Eex |].
    intros Hspecs Hdefaults [Pw [Pd Pp]] Hprs.
    destruct (Hadded (Hspecs spec (nth_error_In _ _ Hspec)) Hdefaults)
      as [-> [Hd [How Hm']]].
    apply R9; try assumption.
    + unfold params_plain. rewrite Ew, Edel, Esp.
      split; [| split].
      * destruct (negb (known spec names.weight) && negb (known spec names.delay)) eqn:Hdwd;
          [exact Pw |].
        apply Forall_vector_set; [exact Pw |].
        intros p Hp. inversion Hp; subst p. apply How. reflexivity.
      * apply Forall_vector_set; [exact Pd |].
        intros p Hp. inversion Hp; subst p. exact Hd.
      * apply Forall_vector_set; assumption.
    + rewrite Eprs, Hprs. reflexivity.
Qed.

End ConstructorLoop.

Section ConstructorFinish.

Variable K : Kernel.

Lemma ConnParameter_reset_kind p p' :
  ConnParameter_reset p = Ok p' ->
  is_array p' = is_array p /\ provides_long p' = provides_long p /\ is_scalar p' = is_scalar p.
Proof.
  destruct p; simpl; intros H; inversion H; repeat split; reflexivity.
Qed.

Lemma reset_optional_nth ps :
  forall ps',
    reset_optional ps = Ok ps' ->
    List.length ps' = List.length ps
    /\ forall j,
         match nth_error ps j with
         | None => nth_error ps' j = None
         | Some None => nth_error ps' j = Some None
         | Some (Some p) =>
             exists p', nth_error ps' j = Some (Some p') /\ ConnParameter_reset p = Ok p'
         end.
Proof.
  induction ps as [| [p |] ps IH]; simpl; intros ps' H.
  - inversion H. split; [reflexivity |]. intros []; reflexivity.
  - apply bind_outcome_Ok in H. destruct H as [p' [Hp H]].
    apply bind_outcome_Ok in H. destruct H as [ps'' [Hps H]]. inversion H; subst ps'.
    destruct (IH _ Hps) as [Hlen Hnth].
    split; [simpl; rewrite Hlen; reflexivity |].
    intros [| j]; simpl; [exists p'; split; [reflexivity | exact Hp] | apply Hnth].
  - apply bind_outcome_Ok in H. destruct H as [ps'' [Hps H]]. inversion H; subst ps'.
    destruct (IH _ Hps) as [Hlen Hnth].
    split; [simpl; rewrite Hlen; reflexivity |].
    intros [| j]; simpl; [reflexivity | apply Hnth].
Qed.

Lemma reset_map_entries m :
  forall m',
    reset_map m = Ok m' ->
    map fst m' = map fst m
    /\ forall name p', In (name, p') m' ->
         exists p, In (name, p) m /\ ConnParameter_reset p = Ok p'.
Proof.
  induction m as [| [n p] m IH]; simpl; intros m' H.
  - inversion H. split; [reflexivity |]. intros name p' [].
  - apply bind_outcome_Ok in H. destruct H as [p1 [Hp H]].
    apply bind_outcome_Ok in H. destruct H as [m1 [Hm H]]. inversion H; subst m'.
    destruct (IH _ Hm) as [Hkeys Hin].
    split; [simpl; rewrite Hkeys; reflexivity |].
    intros name p' [E | Hin'].
    + inversion E; subst. exists p. split; [left; reflexivity | exact Hp].
    + destruct (Hin _ _ Hin') as [q [Hq Hreset]]. exists q. split; [right; exact Hq | exact Hreset].
Qed.

Lemma reset_maps_nth ms :
  forall ms',
    reset_maps ms = Ok ms' ->
    List.length ms' = List.length ms
    /\ forall j m', nth_error ms' j = Some m' ->
         exists m, nth_error ms j = Some m /\ reset_map m = Ok m'.
Proof.
  induction ms as [| m ms IH]; simpl; intros ms' H.
  - inversion H. split; [reflexivity |]. intros [] m' Hm'; discriminate.
  - apply bind_outcome_Ok in H. destruct H as [m1 [Hm1 H]].
    apply bind_outcome_Ok in H. destruct H as [ms1 [Hms1 H]]. inversion H; subst ms'.
    destruct (IH _ Hms1) as [Hlen Hnth].
    split; [simpl; rewrite Hlen; reflexivity |].
    intros [| j] m' Hm'; simpl in *.
    + inversion Hm'; subst. exists m. split; [reflexivity | exact Hm1].
    + apply Hnth. exact Hm'.
Qed.

Lemma reset_all_parameters_step b b' :
  reset_all_parameters b = Ok b' ->
  exists ws ds ms,
    reset_optional (weights_ b) = Ok ws
    /\ reset_optional (delays_ b) = Ok ds
    /\ reset_maps (synapse_params_ b) = Ok ms
    /\ b' = set_synapse_params_ ms (set_delays_ ds (set_weights_ ws b)).
Proof.
  unfold reset_all_parameters, reset_weights_, reset_delays_, reset_synapse_params.
  intros H.
  apply bind_outcome_Ok in H. destruct H as [b1 [H1 H]].
  apply bind_outcome_Ok in H1. destruct H1 as [ws [Hws H1]]. inversion H1; subst b1; clear H1.
  apply bind_outcome_Ok in H. destruct H as [b2 [H2 H]].
  apply bind_outcome_Ok in H2. destruct H2 as [ds [Hds H2]]. inversion H2; subst b2; clear H2.
  apply bind_outcome_Ok in H. destruct H as [ms [Hms H]]. inversion H; subst b'; clear H.
  exists ws, ds, ms. destruct b; reduce_fields. repeat split; assumption.
Qed.

Lemma set_structural_plasticity_parameters_step syn_specs b b' :
  set_structural_plasticity_parameters syn_specs b = Ok b' ->
  (b' = b
   /\ Forall (fun spec => known spec names.pre_synaptic_element = false
                          /\ known spec names.post_synaptic_element = false) syn_specs)
  \/ exists spec pre post,
       syn_specs = [spec]
       /\ dict_find spec names.pre_synaptic_element = Some (StringDatum pre)
       /\ dict_find spec names.post_synaptic_element = Some (StringDatum post)
       /\ b' = set_use_structural_plasticity_ true
                 (set_post_synaptic_element_name_ post
                    (set_pre_synaptic_element_name_ pre b)).
Proof.
  unfold set_structural_plasticity_parameters. intros H.
  destruct (existsb _ syn_specs) eqn:Hex; cbn [negb] in H.
  - right.
    destruct syn_specs as [| spec [| spec' rest]]; [discriminate | | discriminate].
    cbn [List.length Nat.ltb Nat.leb] in H.
    destruct (xorb _ _) eqn:Hxor; [discriminate |].
    apply bind_outcome_Ok in H. destruct H as [pre [Hpre H]].
    apply bind_outcome_Ok in H. destruct H as [post [Hpost H]].
    inversion H; subst b'; clear H.
    unfold getValue_string_from, dict_get in Hpre, Hpost.
    destruct (dict_find spec names.pre_synaptic_element) as [[] |] eqn:E1;
      simpl in Hpre; try discriminate.
    destruct (dict_find spec names.post_synaptic_element) as [[] |] eqn:E2;
      simpl in Hpost; try discriminate.
    inversion Hpre; inversion Hpost; subst.
    exists spec, pre, post.
    split; [reflexivity |]. split; [exact E1 |]. split; [exact E2 | reflexivity].
  - left. inversion H. split; [reflexivity |].
    apply Forall_forall. intros spec Hin.
    apply orb_false_iff.
    destruct (known spec names.pre_synaptic_element || known spec names.post_synaptic_element)
      eqn:E; [| reflexivity].
    assert (Hex' : existsb (fun syn_spec => known syn_spec names.pre_synaptic_element
                                           || known syn_spec names.post_synaptic_element)
                     syn_specs = true).
    { apply existsb_exists. exists spec. split; assumption. }
    rewrite Hex' in Hex. discriminate.
Qed.

Lemma reset_all_parameters_keeps b b' :
  reset_all_parameters b = Ok b' ->
  (forall n, vectors_sized n b -> vectors_sized n b')
  /\ (forall spec j, spec_handled K spec j b -> spec_handled K spec j b')
  /\ (params_named_once b -> params_named_once b')
  /\ (dicts_typed b -> dicts_typed b')
  /\ (params_plain b -> params_plain b')
  /\ parameters_requiring_skipping_ b' = parameters_requiring_skipping_ b
  /\ use_structural_plasticity_ b' = use_structural_plasticity_ b
  /\ pre_synaptic_element_name_ b' = pre_synaptic_element_name_ b
  /\ post_synaptic_element_name_ b' = post_synaptic_element_name_ b
  /\ exceptions_raised_ b' = exceptions_raised_ b.
Proof.
  intros H. apply reset_all_parameters_step in H.
  destruct H as [ws [ds [ms [Hws [Hds [Hms Hb']]]]]].
  destruct (reset_optional_nth _ _ Hws) as [Lw Nw].
  destruct (reset_optional_nth _ _ Hds) as [Ld Nd].
  destruct (reset_maps_nth _ _ Hms) as [Lm Nm].
  assert (Fw : weights_ b' = ws) by (subst b'; destruct b; reflexivity).
  assert (Fd : delays_ b' = ds) by (subst b'; destruct b; reflexivity).
  assert (Fm : synapse_params_ b' = ms) by (subst b'; destruct b; reflexivity).
  assert (F1 : synapse_model_id_ b' = synapse_model_id_ b)
    by (subst b'; destruct b; reflexivity).
  assert (F2 : default_weight_and_delay_ b' = default_weight_and_delay_ b)
    by (subst b'; destruct b; reflexivity).
  assert (F3 : default_weight_ b' = default_weight_ b) by (subst b'; destruct b; reflexivity).
  assert (F4 : default_delay_ b' = default_delay_ b) by (subst b'; destruct b; reflexivity).
  assert (F5 : param_dicts_ b' = param_dicts_ b) by (subst b'; destruct b; reflexivity).
  split.
  { unfold vectors_sized. intros n (L1 & L2 & L3 & L4 & L5 & L6 & L7 & L8).
    rewrite Fw, Fd, Fm, F1, F2, F3, F4, F5, Lw, Ld, Lm. repeat split; assumption. }
  split.
  { unfold spec_handled. rewrite Fw, Fd, F1, F2, F3, F4, F5.
    intros spec j (S1 & S2 & S3 & [d Sd] & Sw & S6 & S7).
    split; [exact S1 |]. split; [exact S2 |]. split; [exact S3 |].
    split.
    { specialize (Nd j). rewrite Sd in Nd. destruct Nd as [d' [Hd' _]]. exists d'. exact Hd'. }
    split; [| split; assumption].
    destruct (negb (known spec names.weight) && negb (known spec names.delay)).
    - specialize (Nw j). rewrite Sw in Nw. exact Nw.
    - destruct Sw as [w Sw]. specialize (Nw j). rewrite Sw in Nw.
      destruct Nw as [w' [Hw' _]]. exists w'. exact Hw'. }
  split.
  { unfold params_named_once. rewrite Fm. intros Hnamed.
    apply Forall_forall. intros m' Hin.
    apply In_nth_error in Hin. destruct Hin as [j Hj].
    destruct (Nm j m' Hj) as [m [Hm Hreset]].
    destruct (reset_map_entries _ _ Hreset) as [Hkeys _]. rewrite Hkeys.
    rewrite Forall_forall in Hnamed. exact (Hnamed m (nth_error_In _ _ Hm)). }
  split.
  { unfold dicts_typed. rewrite Fm, F5.
    intros Htyped j m' dicts d name p' Hm' Hdicts Hd Hin.
    destruct (Nm j m' Hm') as [m [Hm Hreset]].
    destruct (reset_map_entries _ _ Hreset) as [_ Hentries].
    destruct (Hentries name p' Hin) as [p [Hp Hpreset]].
    destruct (Htyped j m dicts d name p Hm Hdicts Hd Hp) as [t [Ht Hfits]].
    exists t. split; [exact Ht |].
    destruct (ConnParameter_reset_kind _ _ Hpreset) as [_ [Hlong _]].
    unfold datum_fits in *. rewrite Hlong. exact Hfits. }
  split.
  { unfold params_plain. rewrite Fw, Fd, Fm. intros [Pw [Pd Pm]].
    split; [| split].
    - apply Forall_forall. intros o Hin p' ->.
      apply In_nth_error in Hin. destruct Hin as [j Hj].
      specialize (Nw j). destruct (nth_error (weights_ b) j) as [[p |] |] eqn:E.
      + destruct Nw as [q [Hq Hreset]]. rewrite Hq in Hj. inversion Hj; subst q.
        destruct (ConnParameter_reset_kind _ _ Hreset) as [Harr _]. rewrite Harr.
        rewrite Forall_forall in Pw. exact (Pw _ (nth_error_In _ _ E) p eq_refl).
      + rewrite Nw in Hj. discriminate.
      + rewrite Nw in Hj. discriminate.
    - apply Forall_forall. intros o Hin p' ->.
      apply In_nth_error in Hin. destruct Hin as [j Hj].
      specialize (Nd j). destruct (nth_error (delays_ b) j) as [[p |] |] eqn:E.
      + destruct Nd as [q [Hq Hreset]]. rewrite Hq in Hj. inversion Hj; subst q.
        destruct (ConnParameter_reset_kind _ _ Hreset) as [Harr _]. rewrite Harr.
        rewrite Forall_forall in Pd. exact (Pd _ (nth_error_In _ _ E) p eq_refl).
      + rewrite Nd in Hj. discriminate.
      + rewrite Nd in Hj. discriminate.
    - apply Forall_forall. intros m' Hin.
      apply In_nth_error in Hin. destruct Hin as [j Hj].
      destruct (Nm j m' Hj) as [m [Hm Hreset]].
      destruct (reset_map_entries _ _ Hreset) as [_ Hentries].
      apply Forall_forall. intros [name p'] Hin'.
      destruct (Hentries name p' Hin') as [p [Hp Hpreset]].
      destruct (ConnParameter_reset_kind _ _ Hpreset) as [Harr _]. simpl. rewrite Harr.
      rewrite Forall_forall in Pm. specialize (Pm m (nth_error_In _ _ Hm)).
      rewrite Forall_forall in Pm. exact (Pm (name, p) Hp). }
  subst b'. destruct b. repeat split; reflexivity.
Qed.

Ltac refold_repeat :=
  repeat match goal with
    | |- context [?x :: repeat ?x ?n] => change (x :: repeat x n) with (repeat x (S n))
    end.

Lemma nth_error_repeat_Some {A} (x : A) n j : j < n -> nth_error (repeat x n) j = Some x.
Proof.
  revert j. induction n as [| n IH]; intros j Hj; [lia |].
  destruct j; simpl; [reflexivity | apply IH; lia].
Qed.

(** What a successful run of the base constructor leaves behind. *)
Lemma ConnBuilder_ctor_constructed sources targets conn_spec syn_specs b :
  ConnBuilder_ctor K sources targets conn_spec syn_specs = Ok b ->
  0 < List.length syn_specs
  /\ vectors_sized (List.length syn_specs) b
  /\ (forall j spec, nth_error syn_specs j = Some spec -> spec_handled K spec j b)
  /\ params_named_once b
  /\ dicts_typed b
  /\ exceptions_raised_ b = repeat None (get_num_threads K)
  /\ valid sources && valid targets = true
  /\ ((forall spec, In spec syn_specs -> scalar_valued spec) ->
      (forall id, scalar_valued (get_connector_defaults K id)) ->
      params_plain b /\ parameters_requiring_skipping_ b = []).
Proof.
  intros Hctor.
  pose proof (ConnBuilder_ctor_fields K _ _ _ _ _ Hctor) as [Hsrc [Htgt _]].
  unfold ConnBuilder_ctor in Hctor.
  apply bind_outcome_Ok in Hctor. destruct Hctor as [[aa ga] [_ H]].
  apply bind_outcome_Ok in H. destruct H as [[am gm] [_ H]].
  apply bind_outcome_Ok in H. destruct H as [[ms gs] [_ H]].
  apply bind_outcome_Ok in H. destruct H as [static_id [_ H]].
  apply bind_outcome_Ok in H. destruct H as [b0 [Hb0 H]].
  apply bind_outcome_Ok in H. destruct H as [b1 [Hb1 H]].
  apply bind_outcome_Ok in H. destruct H as [b2 [Hb2 H]].
  apply bind_outcome_Ok in H. destruct H as [b3 [Hb3 H]].
  destruct (negb (valid (sources_ b3) && valid (targets_ b3))) eqn:Hvalid; [discriminate |].
  inversion H; subst b3; clear H.
  apply negb_false_iff in Hvalid. rewrite Hsrc, Htgt in Hvalid.
  destruct (List.length syn_specs) as [| n'] eqn:Hn; [discriminate |].
  injection Hb0 as Hb0. subst b0.
  rewrite <- Hn.
  assert (Hpos : 0 < List.length syn_specs) by lia.
  split; [exact Hpos |].
  apply (set_synapse_specs_handles K syn_specs syn_specs 0) in Hb1.
  - destruct Hb1 as (R1 & R2 & R3 & R4 & R5 & R6 & R7 & R8 & R9).
    (* the structural plasticity parameters touch no vector *)
    assert (Hsp : vectors_sized (List.length syn_specs) b2
                  /\ (forall j spec, nth_error syn_specs j = Some spec -> spec_handled K spec j b2)
                  /\ params_named_once b2
                  /\ dicts_typed b2
                  /\ exceptions_raised_ b2 = exceptions_raised_ b1
                  /\ (params_plain b1 -> params_plain b2)
                  /\ parameters_requiring_skipping_ b2 = parameters_requiring_skipping_ b1).
    { apply set_structural_plasticity_parameters_step in Hb2.
      destruct Hb2 as [[-> _] | [spec [pre [post [_ [_ [_ ->]]]]]]].
      - repeat (split; [assumption || reflexivity |]). split; [exact (fun H => H) | reflexivity].
      - destruct b1. unfold vectors_sized, spec_handled, params_named_once, dicts_typed,
          params_plain in *. reduce_fields.
        repeat (split; [assumption || reflexivity |]). split; [exact (fun H => H) | reflexivity]. }
    destruct Hsp as (P1 & P2 & P3 & P4 & P5 & P6 & P7).
    assert (Hex : exceptions_raised_ b2 = repeat None (get_num_threads K)).
    { rewrite P5, R8. reflexivity. }
    assert (Hplain2 : (forall spec, In spec syn_specs -> scalar_valued spec) ->
                      (forall id, scalar_valued (get_connector_defaults K id)) ->
                      params_plain b2 /\ parameters_requiring_skipping_ b2 = []).
    { intros Hspecs Hdefaults.
      destruct (R9 Hspecs Hdefaults) as [Q1 Q2].
      - unfold params_plain. reduce_fields. refold_repeat.
        split; [| split]; apply Forall_forall; intros x Hx; apply repeat_spec in Hx; subst x.
        + intros p Hp. discriminate.
        + intros p Hp. discriminate.
        + constructor.
      - reflexivity.
      - split; [apply P6; exact Q1 | rewrite P7; exact Q2]. }
    destruct (make_symmetric_ b2).
    + destruct (reset_all_parameters_keeps _ _ Hb3)
        as (K1 & K2 & K3 & K4 & K5 & K6 & K7 & K8 & K9 & K10).
      split; [apply K1; exact P1 |].
      split; [intros j spec Hj; apply K2; apply P2; exact Hj |].
      split; [apply K3; exact P3 |]. split; [apply K4; exact P4 |].
      split; [rewrite K10; exact Hex |]. split; [exact Hvalid |].
      intros Hspecs Hdefaults. destruct (Hplain2 Hspecs Hdefaults) as [Q1 Q2].
      split; [apply K5; exact Q1 | rewrite K6; exact Q2].
    + inversion Hb3; subst b.
      repeat (split; [assumption |]). exact Hplain2.
  - intros k spec Hk. exact Hk.
  - reflexivity.
  - unfold vectors_sized. reduce_fields. rewrite Hn. simpl. rewrite !repeat_length.
    repeat split; reflexivity.
  - reduce_fields. refold_repeat. rewrite Hn. intros j _ Hj.
    rewrite !nth_error_repeat_Some by exact Hj.
    repeat split; reflexivity.
  - intros j spec Hj. lia.
  - unfold params_named_once. reduce_fields. refold_repeat.
    apply Forall_forall. intros m Hm. apply repeat_spec in Hm. subst m. constructor.
  - unfold dicts_typed. reduce_fields. intros j m ds d name p Hm Hds Hd Hin.
    apply nth_error_In in Hds. apply repeat_spec in Hds. subst ds. contradiction.
Qed.

End ConstructorFinish.

(** A builder constructed from scalar specifications is steady. *)
Lemma ConnBuilder_ctor_steady (K : Kernel) sources targets conn_spec syn_specs b :
  ConnBuilder_ctor K sources targets conn_spec syn_specs = Ok b ->
  (forall spec, In spec syn_specs -> scalar_valued spec) ->
  (forall id, scalar_valued (get_connector_defaults K id)) ->
  Steady K b.
Proof.
  intros Hctor Hspecs Hdefaults.
  destruct (ConnBuilder_ctor_constructed K _ _ _ _ _ Hctor)
    as (Hpos & Hsized & Hhandled & Hnamed & _ & _ & _ & Hplain).
  destruct (Hplain Hspecs Hdefaults) as [[Pw [Pd Pm]] Hprs].
  destruct Hsized as (L1 & L2 & L3 & L4 & L5 & L6 & L7 & L8).
  refine (mkSteady K b _ _ _ _ _ _ _ _ _ _); try congruence.
  - apply Forall_forall. intros ds Hin.
    apply In_nth_error in Hin. destruct Hin as [j Hj].
    assert (Hjn : j < List.length syn_specs).
    { rewrite <- L8. apply nth_error_Some. rewrite Hj. discriminate. }
    destruct (nth_error syn_specs j) as [spec |] eqn:Hspec;
      [| apply nth_error_None in Hspec; lia].
    destruct (Hhandled j spec Hspec) as (_ & _ & _ & _ & _ & [ds' [Hds' Hlen]] & _).
    rewrite Hj in Hds'. inversion Hds'; subst ds'. exact Hlen.
  - intros i Hdwd.
    assert (Hin : i < List.length syn_specs).
    { rewrite <- L2. apply nth_error_Some. rewrite Hdwd. discriminate. }
    destruct (nth_error syn_specs i) as [spec |] eqn:Hspec;
      [| apply nth_error_None in Hspec; lia].
    destruct (Hhandled i spec Hspec) as (_ & _ & Sdwd & Sd & Sw & _).
    rewrite Hdwd in Sdwd. inversion Sdwd as [E]. rewrite <- E in Sw.
    split; [exact Sw | exact Sd].
  - unfold params_named_once in Hnamed. rewrite Forall_forall in *.
    intros m Hm. split; [apply Hnamed | apply Pm]; exact Hm.
Qed.

(** ** The fixed-indegree rule after the warning *)

Section FixedInDegreeFacts.

Variable K : Kernel.

Lemma nc_at_In c idx id : nc_at c idx = Ok id -> In id (node_ids c).
Proof.
  unfold nc_at. destruct (idx <? 0)%Z; [discriminate |].
  destruct (nth_error (node_ids c) (Z.to_nat idx)) eqn:E; intros H; inversion H; subst.
  eapply nth_error_In. exact E.
Qed.

Lemma respects_FixedInDegreeBuilder_draw_source (F : Frame) fuel b rng tnode_id :
  rng_ok F rng ->
  forall ch_ids, respects F (FixedInDegreeBuilder_draw_source K fuel b rng tnode_id ch_ids).
Proof.
  intros Hrng. induction fuel as [| fuel IH]; intros ch_ids; simpl.
  - apply respects_out_of_fuel.
  - apply respects_bind; [apply respects_ulrand; exact Hrng |]. intros s_id.
    apply respects_bind; [apply respects_lift |]. intros snode_id.
    destruct (_ || _); [apply IH | apply respects_ret].
Qed.

Lemma FixedInDegreeBuilder_draw_source_in_sources fuel b rng tnode_id :
  forall ch_ids w s_id snode_id w',
    FixedInDegreeBuilder_draw_source K fuel b rng tnode_id ch_ids w
    = (Ok (s_id, snode_id), w') ->
    In snode_id (node_ids (sources_ b)).
Proof.
  induction fuel as [| fuel IH]; intros ch_ids w s_id snode_id w' H; simpl in H.
  - discriminate.
  - apply bind_Ok_inv in H. destruct H as [idx [w1 [_ H]]].
    apply bind_Ok_inv in H. destruct H as [id [w2 [Hat H]]].
    apply lift_Ok_inv in Hat. destruct Hat as [Hat ->].
    destruct (_ || _).
    + eapply IH. exact H.
    + apply ret_Ok_inv in H. destruct H as [E _]. inversion E; subst.
      eapply nc_at_In. exact Hat.
Qed.

Lemma respects_FixedInDegreeBuilder_inner_loop (F : Frame) fuel requires_proxies b rng
    target tnode_id target_thread :
  rng_ok F rng ->
  (forall s, In s (node_ids (sources_ b)) -> conn_ok F s (get_node_id target)) ->
  forall remaining ch_ids,
    respects F
      (FixedInDegreeBuilder_inner_loop K fuel requires_proxies b rng target tnode_id
         target_thread remaining ch_ids).
Proof.
  intros Hrng Hconn. induction remaining as [| remaining IH]; intros ch_ids; simpl.
  - apply respects_ret.
  - intros w. unfold bind at 1.
    destruct (FixedInDegreeBuilder_draw_source K fuel b rng tnode_id ch_ids w)
      as [[[s_id snode_id] | e | why |] w1] eqn:Hdraw;
      try (pose proof (respects_FixedInDegreeBuilder_draw_source F fuel b rng tnode_id
                         Hrng ch_ids w) as H; rewrite Hdraw in H; exact H).
    eapply related_trans.
    + pose proof (respects_FixedInDegreeBuilder_draw_source F fuel b rng tnode_id
                    Hrng ch_ids w) as H. rewrite Hdraw in H. exact H.
    + apply respects_bind.
      * apply respects_single_connect_; [exact Hrng |].
        apply Hconn. eapply FixedInDegreeBuilder_draw_source_in_sources. exact Hdraw.
      * intros _. apply IH.
Qed.

End FixedInDegreeFacts.

(** *** What a build of the fixed-indegree rule that returns has connected *)

Lemma rethrow_from_Ok_inv slots :
  forall remaining tid0,
    rethrow_from slots tid0 remaining = Ok tt ->
    forall j, tid0 <= j < tid0 + remaining -> nth_error slots j = Some None.
Proof.
  induction remaining as [| remaining IH]; intros tid0 H j Hj; simpl in H.
  - lia.
  - destruct (nth_error slots tid0) as [[e |] |] eqn:E; try discriminate.
    destruct (Nat.eq_dec j tid0) as [-> | Hne]; [exact E |].
    apply (IH (S tid0) H). lia.
Qed.

Lemma find_lid_In ids id :
  In id ids -> forall pos, (0 <= pos)%Z -> (find_lid ids id pos <? 0)%Z = false.
Proof.
  induction ids as [| x ids IH]; intros Hin pos Hpos; simpl; [contradiction |].
  destruct (Z.eqb_spec x id) as [_ | Hne].
  - apply Z.ltb_ge. exact Hpos.
  - destruct Hin as [E | Hin]; [contradiction |].
    apply IH; [exact Hin | lia].
Qed.

Lemma nc_at_range c idx id :
  nc_at c idx = Ok id -> (0 <= idx < nc_size c)%Z /\ nth_error (node_ids c) (Z.to_nat idx) = Some id.
Proof.
  unfold nc_at, nc_size. destruct (Z.ltb_spec idx 0); [discriminate |].
  destruct (nth_error (node_ids c) (Z.to_nat idx)) eqn:E; intros Hat; inversion Hat; subst.
  assert (Z.to_nat idx < List.length (node_ids c)) by (apply nth_error_Some; rewrite E; discriminate).
  split; [lia | reflexivity].
Qed.

(** A [NoDup] list of [n] indices below [n] holds every index below [n]. *)
Lemma indices_exhausted (chosen : list Z) n :
  NoDup chosen ->
  List.length chosen = n ->
  (forall i, In i chosen -> (0 <= i < Z.of_nat n)%Z) ->
  forall k, k < n -> In (Z.of_nat k) chosen.
Proof.
  intros Hnodup Hlen Hrange k Hk.
  assert (Hnodup' : NoDup (map Z.to_nat chosen)).
  { clear Hlen. induction Hnodup as [| x l Hnotin Hl IH]; simpl; constructor.
    - intros Hin. apply in_map_iff in Hin. destruct Hin as [y [Ey Hy]].
      assert (y = x).
      { pose proof (Hrange x (or_introl eq_refl)).
        pose proof (Hrange y (or_intror Hy)). lia. }
      subst y. contradiction.
    - apply IH. intros i Hi. apply Hrange. right. exact Hi. }
  assert (Hincl : incl (map Z.to_nat chosen) (seq 0 n)).
  { intros x Hx. apply in_map_iff in Hx. destruct Hx as [y [Ey Hy]].
    apply in_seq. pose proof (Hrange y Hy). lia. }
  assert (Hall : incl (seq 0 n) (map Z.to_nat chosen)).
  { apply NoDup_length_incl; [exact Hnodup' | | exact Hincl].
    rewrite length_map, length_seq, Hlen. lia. }
  assert (Hin : In k (map Z.to_nat chosen)) by (apply Hall; apply in_seq; lia).
  apply in_map_iff in Hin. destruct Hin as [y [Ey Hy]].
  replace (Z.of_nat k) with y; [exact Hy |].
  pose proof (Hrange y Hy). lia.
Qed.

Section FixedInDegreeComplete.

Variable K : Kernel.

(** What the draw loop returns has passed both tests. *)
Lemma FixedInDegreeBuilder_draw_source_accepted fuel b rng tnode_id :
  forall ch_ids w s_id snode_id w',
    FixedInDegreeBuilder_draw_source K fuel b rng tnode_id ch_ids w
    = (Ok (s_id, snode_id), w') ->
    nc_at (sources_ b) s_id = Ok snode_id
    /\ (allow_autapses_ b = false -> snode_id <> tnode_id)
    /\ (allow_multapses_ b = false -> ~ In s_id ch_ids).
Proof.
  induction fuel as [| fuel IH]; intros ch_ids w s_id snode_id w' H; simpl in H.
  - discriminate.
  - apply bind_Ok_inv in H. destruct H as [idx [w1 [_ H]]].
    apply bind_Ok_inv in H. destruct H as [id [w2 [Hat H]]].
    apply lift_Ok_inv in Hat. destruct Hat as [Hat ->].
    destruct (_ || _) eqn:Hskip.
    + eapply IH. exact H.
    + apply ret_Ok_inv in H. destruct H as [E _]. inversion E; subst.
      apply orb_false_iff in Hskip. destruct Hskip as [Hauto Hmult].
      split; [exact Hat |]. split.
      * intros Ha. rewrite Ha in Hauto. simpl in Hauto. apply Z.eqb_neq. exact Hauto.
      * intros Hm Hin. rewrite Hm in Hmult. simpl in Hmult.
        assert (Hex : existsb (Z.eqb idx) ch_ids = true).
        { apply existsb_exists. exists idx. split; [exact Hin | apply Z.eqb_refl]. }
        rewrite Hex in Hmult. discriminate.
Qed.

(** With multapses disallowed, a run of the loop of [inner_connect_] that
    returns has drawn as many distinct new indices as it had rounds, and has
    connected the source at each of them to the target. *)
Lemma FixedInDegreeBuilder_inner_loop_chosen fuel requires_proxies b rng target tnode_id
    target_thread :
  allow_multapses_ b = false ->
  forall remaining ch_ids w w',
    NoDup ch_ids ->
    synapse_params_ (builder w) <> [] ->
    FixedInDegreeBuilder_inner_loop K fuel requires_proxies b rng target tnode_id
      target_thread remaining ch_ids w = (Ok tt, w') ->
    exists chosen,
      List.length chosen = remaining
      /\ NoDup (chosen ++ ch_ids)
      /\ forall s_id, In s_id chosen ->
           exists snode_id,
             nc_at (sources_ b) s_id = Ok snode_id
             /\ (allow_autapses_ b = false -> snode_id <> tnode_id)
             /\ In (snode_id, get_node_id target) (edges w').
Proof.
  intros Hmult. induction remaining as [| remaining IH]; intros ch_ids w w' Hnodup Hsyn H;
    simpl in H.
  - apply ret_Ok_inv in H. destruct H as [_ ->].
    exists []. split; [reflexivity |]. split; [exact Hnodup |]. intros s_id [].
  - apply bind_Ok_inv in H. destruct H as [[s_id snode_id] [w1 [Hdraw H]]].
    apply bind_Ok_inv in H. destruct H as [[] [w2 [Hconnect H]]].
    rewrite Hmult in H. cbn [negb] in H.
    destruct (FixedInDegreeBuilder_draw_source_accepted _ _ _ _ _ _ _ _ _ Hdraw)
      as [Hat [Hauto Hnew]].
    assert (H1 : related growing w w1).
    { pose proof (respects_FixedInDegreeBuilder_draw_source K growing fuel b rng tnode_id
                    ltac:(simpl; auto) ch_ids w) as R. rewrite Hdraw in R. exact R. }
    assert (Hsyn1 : synapse_params_ (builder w1) <> [])
      by (eapply growing_keeps_synapse_types; eassumption).
    assert (H12 : related growing w1 w2).
    { pose proof (respects_single_connect_ K growing requires_proxies snode_id target
                    target_thread rng ltac:(simpl; auto) ltac:(simpl; auto) w1) as R.
      rewrite Hconnect in R. exact R. }
    assert (Hsyn2 : synapse_params_ (builder w2) <> [])
      by (eapply growing_keeps_synapse_types; eassumption).
    apply single_connect__emits in Hconnect; [| exact Hsyn1].
    assert (H2 : related growing w2 w').
    { pose proof (respects_FixedInDegreeBuilder_inner_loop K growing fuel requires_proxies b
                    rng target tnode_id target_thread ltac:(simpl; auto)
                    ltac:(intros; simpl; auto) remaining (s_id :: ch_ids) w2) as R.
      rewrite H in R. exact R. }
    destruct (IH (s_id :: ch_ids) w2 w') as [chosen [Hlen [Hnd Hall]]].
    + constructor; [apply Hnew; exact Hmult | exact Hnodup].
    + exact Hsyn2.
    + exact H.
    + exists (chosen ++ [s_id]). split; [| split].
      * rewrite length_app, Hlen. simpl. lia.
      * rewrite <- app_assoc. exact Hnd.
      * intros i Hi. apply in_app_or in Hi. destruct Hi as [Hi | [<- | []]].
        -- apply Hall. exact Hi.
        -- exists snode_id. split; [exact Hat |]. split; [exact Hauto |].
           eapply growing_keeps_edges; eassumption.
Qed.

(** With multapses disallowed and the indegree equal to the number of
    sources, a call of [inner_connect_] for a target of the thread that
    returns has connected every source to the target; with autapses
    disallowed, none of the sources is the target. *)
Lemma FixedInDegreeBuilder_inner_connect__exhausts fuel requires_proxies b tid rng target
    tnode_id skip w w' :
  allow_multapses_ b = false ->
  get_thread target = tid ->
  synapse_params_ (builder w) <> [] ->
  FixedInDegreeBuilder_inner_connect_ K fuel requires_proxies b tid rng target tnode_id
    skip (nc_size (sources_ b)) w = (Ok tt, w') ->
  forall s,
    In s (node_ids (sources_ b)) ->
    In (s, get_node_id target) (edges w')
    /\ (allow_autapses_ b = false -> s <> tnode_id).
Proof.
  intros Hmult Hthread Hsyn. unfold FixedInDegreeBuilder_inner_connect_.
  rewrite Hthread, Nat.eqb_refl. cbn [negb]. intros H s Hs.
  apply (FixedInDegreeBuilder_inner_loop_chosen _ _ _ _ _ _ _ Hmult) in H;
    [| constructor | exact Hsyn].
  destruct H as [chosen [Hlen [Hnodup Hall]]].
  rewrite app_nil_r in Hnodup. unfold nc_size in Hlen. rewrite Nat2Z.id in Hlen.
  apply In_nth_error in Hs. destruct Hs as [k Hk].
  assert (Hk' : k < List.length (node_ids (sources_ b)))
    by (apply nth_error_Some; rewrite Hk; discriminate).
  assert (Hin : In (Z.of_nat k) chosen).
  { apply (indices_exhausted chosen (List.length (node_ids (sources_ b)))); try assumption.
    intros i Hi. destruct (Hall i Hi) as [snode_id [Hat _]].
    apply nc_at_range in Hat. exact (proj1 Hat). }
  destruct (Hall _ Hin) as [snode_id [Hat [Hauto Hedge]]].
  rewrite (nc_at_of_nat _ _ _ Hk) in Hat. inversion Hat; subst snode_id.
  split; assumption.
Qed.

Lemma respects_FixedInDegreeBuilder_inner_connect_ (F : Frame) fuel requires_proxies b tid
    rng target tnode_id skip indegree_value :
  rng_ok F rng ->
  (forall s, conn_ok F s (get_node_id target)) ->
  respects F
    (FixedInDegreeBuilder_inner_connect_ K fuel requires_proxies b tid rng target tnode_id
       skip indegree_value).
Proof.
  intros Hrng Hconn. unfold FixedInDegreeBuilder_inner_connect_.
  destruct (negb _).
  - destruct skip; [apply respects_skip_conn_parameter_ | apply respects_ret].
  - apply respects_FixedInDegreeBuilder_inner_loop; [exact Hrng |].
    intros s _. apply Hconn.
Qed.

Lemma respects_FixedInDegreeBuilder_connect_thread (F : Frame) fuel requires_proxies indegree
    b tid :
  (forall r, rng_ok F r) ->
  (forall s t, conn_ok F s t) ->
  respects F (FixedInDegreeBuilder_connect_thread K fuel requires_proxies indegree b tid).
Proof.
  intros Hrng Hconn. unfold FixedInDegreeBuilder_connect_thread.
  destruct (loop_over_targets_ K b).
  - apply respects_for_each. intros t _.
    apply respects_bind; [apply respects_NestParameter_value; apply Hrng |]. intros v.
    destruct (is_proxy _); [apply respects_skip_conn_parameter_ |].
    apply respects_FixedInDegreeBuilder_inner_connect_; [apply Hrng | intros; apply Hconn].
  - apply respects_for_each. intros n _.
    destruct (_ <? 0)%Z; [apply respects_ret |].
    apply respects_bind; [apply respects_NestParameter_value; apply Hrng |]. intros v.
    apply respects_FixedInDegreeBuilder_inner_connect_; [apply Hrng | intros; apply Hconn].
Qed.

Lemma respects_FixedInDegreeBuilder_connect_ (F : Frame) fuel requires_proxies indegree :
  admits_capture F ->
  (forall r, rng_ok F r) ->
  (forall s t, conn_ok F s t) ->
  respects F (FixedInDegreeBuilder_connect_ K fuel requires_proxies indegree).
Proof.
  intros Hcap Hrng Hconn. unfold FixedInDegreeBuilder_connect_.
  apply respects_bind; [apply respects_get_builder |]. intros b.
  apply respects_omp_parallel. intros tid _.
  apply (respects_try_catch _ Hcap).
  apply respects_FixedInDegreeBuilder_connect_thread; assumption.
Qed.

Hypothesis consistent : Kernel_consistent K.

(** A thread whose block returns has connected every source to every target
    it hosts. *)
Lemma FixedInDegreeBuilder_connect_thread_complete fuel requires_proxies b tid wa wb t :
  allow_multapses_ b = false ->
  synapse_params_ (builder wa) <> [] ->
  In t (node_ids (targets_ b)) ->
  is_proxy (get_node_or_proxy K t tid) = false ->
  get_thread (get_node_or_proxy K t tid) = tid ->
  FixedInDegreeBuilder_connect_thread K fuel requires_proxies
    (ConstantParameter (inject_Z (nc_size (sources_ b)))) b tid wa = (Ok tt, wb) ->
  forall s,
    In s (node_ids (sources_ b)) ->
    In (s, t) (edges wb) /\ (allow_autapses_ b = false -> s <> t).
Proof.
  intros Hmult Hsyn Ht Hproxy Hthread Hrun s Hs.
  pose proof (node_id_of_local K consistent t tid Hproxy) as Hid.
  destruct growing_universal as [Hrng Hconn].
  unfold FixedInDegreeBuilder_connect_thread in Hrun.
  destruct (loop_over_targets_ K b).
  - eapply (for_each_split growing) with (x := t) in Hrun; [| | exact Ht].
    + destruct Hrun as [wc [wd [Hac [Hbody Hdb]]]].
      cbv beta zeta in Hbody. unfold NestParameter_value in Hbody.
      change (bind (ret ?v) ?f wc) with (f v wc) in Hbody. cbv beta in Hbody.
      rewrite std_round_inject_Z, Hproxy in Hbody.
      destruct (FixedInDegreeBuilder_inner_connect__exhausts _ _ _ _ _ _ _ _ _ _
                  Hmult Hthread (growing_keeps_synapse_types _ _ Hac Hsyn) Hbody s Hs)
        as [Hedge Hne].
      rewrite Hid in Hedge.
      split; [eapply growing_keeps_edges; eassumption | exact Hne].
    + intros t' _.
      apply respects_bind; [apply respects_NestParameter_value; apply Hrng |]. intros v.
      destruct (is_proxy (get_node_or_proxy K t' tid));
        [apply respects_skip_conn_parameter_ |].
      apply respects_FixedInDegreeBuilder_inner_connect_; [apply Hrng | intros; apply Hconn].
  - pose proof (hosted_nodes_are_local K consistent t tid Hproxy) as Hlocal.
    eapply (for_each_split growing) with (x := get_node_or_proxy K t tid) in Hrun;
      [| | exact Hlocal].
    + destruct Hrun as [wc [wd [Hac [Hbody Hdb]]]].
      cbv beta zeta in Hbody. rewrite Hid in Hbody.
      unfold get_lid in Hbody.
      rewrite (find_lid_In _ _ Ht 0%Z (Z.le_refl 0)) in Hbody.
      unfold NestParameter_value in Hbody.
      change (bind (ret ?v) ?f wc) with (f v wc) in Hbody. cbv beta in Hbody.
      rewrite std_round_inject_Z in Hbody.
      destruct (FixedInDegreeBuilder_inner_connect__exhausts _ _ _ _ _ _ _ _ _ _
                  Hmult Hthread (growing_keeps_synapse_types _ _ Hac Hsyn) Hbody s Hs)
        as [Hedge Hne].
      rewrite Hid in Hedge.
      split; [eapply growing_keeps_edges; eassumption | exact Hne].
    + intros n _.
      destruct (get_lid (targets_ b) (get_node_id n) <? 0)%Z; [apply respects_ret |].
      apply respects_bind; [apply respects_NestParameter_value; apply Hrng |]. intros v.
      apply respects_FixedInDegreeBuilder_inner_connect_; [apply Hrng | intros; apply Hconn].
Qed.

(** A build whose thread [tid] did not capture a failure has connected
    every source to every target that thread hosts. *)
Lemma FixedInDegreeBuilder_connect__complete fuel requires_proxies w w' t tid :
  allow_multapses_ (builder w) = false ->
  synapse_params_ (builder w) <> [] ->
  In t (node_ids (targets_ (builder w))) ->
  hosted_by K t tid ->
  FixedInDegreeBuilder_connect_ K fuel requires_proxies
    (ConstantParameter (inject_Z (nc_size (sources_ (builder w))))) w = (Ok tt, w') ->
  ~ filled (exceptions_raised_ (builder w')) tid ->
  forall s,
    In s (node_ids (sources_ (builder w))) ->
    In (s, t) (edges w') /\ (allow_autapses_ (builder w) = false -> s <> t).
Proof.
  intros Hmult Hsyn Ht [Htid [Hproxy Hthread]] Hrun Hnone s Hs.
  unfold FixedInDegreeBuilder_connect_ in Hrun.
  apply bind_Ok_inv in Hrun. destruct Hrun as [b [w0 [Hb Hrun]]].
  apply get_builder_Ok_inv in Hb. destruct Hb as [-> ->].
  unfold omp_parallel in Hrun.
  set (G := frame_and growing filled_frame).
  eapply (for_each_split G) with (x := tid) in Hrun.
  - destruct Hrun as [wa [wb [[Hwa _] [Hblock [Hwb Hfilled]]]]].
    apply try_catch_Ok_inv in Hblock. destruct Hblock as [Hrun | [_ Hfill]].
    + destruct (FixedInDegreeBuilder_connect_thread_complete fuel requires_proxies
                  (builder w) tid wa wb t Hmult
                  (growing_keeps_synapse_types _ _ Hwa Hsyn) Ht Hproxy Hthread Hrun s Hs)
        as [Hedge Hne].
      split; [eapply growing_keeps_edges; eassumption | exact Hne].
    + exfalso. apply Hnone. apply Hfilled. exact Hfill.
  - intros tid' _. apply respects_try_catch.
    + apply admits_capture_frame_and;
        [apply admits_capture_growing | apply admits_capture_filled_frame].
    + apply respects_FixedInDegreeBuilder_connect_thread; intros; simpl; auto.
  - apply in_seq. lia.
Qed.

End FixedInDegreeComplete.

(** *** Builds of the fixed-indegree rule that return *)

Lemma RngPtr_eqb_refl r : RngPtr_eqb r r = true.
Proof. destruct r; simpl; try reflexivity; apply Nat.eqb_refl. Qed.

Lemma rng_position_draw rng kind draws :
  rng_position rng (mkDraw rng kind :: draws) = S (rng_position rng draws).
Proof. unfold rng_position. simpl. rewrite RngPtr_eqb_refl. reflexivity. Qed.

Lemma NoDup_map_of_nat (l : list nat) : NoDup l -> NoDup (map Z.of_nat l).
Proof.
  induction 1 as [| k l Hnotin _ IH]; simpl; constructor; [| exact IH].
  intros Hin. apply in_map_iff in Hin. destruct Hin as [k' [Ek Hk']].
  apply Nat2Z.inj in Ek. subst k'. contradiction.
Qed.

(** Fewer than [n] indices leave one below [n] out. *)
Lemma fresh_index (ch_ids : list Z) n :
  List.length ch_ids < n ->
  exists i, (0 <= i < Z.of_nat n)%Z /\ ~ In i ch_ids.
Proof.
  intros Hlen.
  destruct (existsb (fun k => negb (existsb (Z.eqb (Z.of_nat k)) ch_ids)) (seq 0 n)) eqn:E.
  - apply existsb_exists in E. destruct E as [k [Hk Hfresh]].
    apply in_seq in Hk. exists (Z.of_nat k). split; [lia |].
    intros Hin. apply negb_true_iff in Hfresh.
    assert (Hex : existsb (Z.eqb (Z.of_nat k)) ch_ids = true).
    { apply existsb_exists. exists (Z.of_nat k). split; [exact Hin | apply Z.eqb_refl]. }
    rewrite Hex in Hfresh. discriminate.
  - exfalso.
    assert (Hincl : incl (map Z.of_nat (seq 0 n)) ch_ids).
    { intros i Hi. apply in_map_iff in Hi. destruct Hi as [k [<- Hk]].
      destruct (existsb (Z.eqb (Z.of_nat k)) ch_ids) eqn:Ek.
      - apply existsb_exists in Ek. destruct Ek as [x [Hx Ex]].
        apply Z.eqb_eq in Ex. rewrite Ex. exact Hx.
      - assert (Hex : existsb (fun k => negb (existsb (Z.eqb (Z.of_nat k)) ch_ids)) (seq 0 n)
                      = true).
        { apply existsb_exists. exists k. split; [exact Hk | rewrite Ek; reflexivity]. }
        rewrite Hex in E. discriminate. }
    assert (Hnodup : NoDup (map Z.of_nat (seq 0 n))).
    { apply NoDup_map_of_nat. apply seq_NoDup. }
    pose proof (NoDup_incl_length Hnodup Hincl) as Hle.
    rewrite length_map, length_seq in Hle. lia.
Qed.

Section FixedInDegreeReturns.

Variable K : Kernel.

(** If an index that passes both tests comes up within the fuel, the draw
    loop returns; it leaves the builder alone. *)
Lemma FixedInDegreeBuilder_draw_source_hits b rng tnode_id ch_ids i :
  fits_long (sources_ b) ->
  ~ In tnode_id (node_ids (sources_ b)) ->
  (0 <= i < nc_size (sources_ b))%Z ->
  ~ In i ch_ids ->
  forall fuel j w,
    j < fuel ->
    (rng_stream K rng (rng_position rng (rng_draws w) + j) mod nc_size (sources_ b))%Z = i ->
    exists s_id snode_id w',
      FixedInDegreeBuilder_draw_source K fuel b rng tnode_id ch_ids w
      = (Ok (s_id, snode_id), w')
      /\ builder w' = builder w.
Proof.
  intros Hfit Hdisjoint Hi Hfresh.
  induction fuel as [| fuel IH]; intros j w Hj Hhit; [lia |].
  cbn [FixedInDegreeBuilder_draw_source].
  rewrite (to_long_nc_size _ Hfit).
  set (n := nc_size (sources_ b)) in *.
  set (x := rng_stream K rng (rng_position rng (rng_draws w))).
  set (w1 := set_rng_draws (mkDraw rng draw_ulrand :: rng_draws w) w).
  assert (Hdraw : ulrand K rng n w = (Ok (x mod n)%Z, w1)) by reflexivity.
  unfold bind at 1. rewrite Hdraw.
  assert (Ex : x = rng_stream K rng (rng_position rng (rng_draws w))) by reflexivity.
  assert (En : n = Z.of_nat (List.length (node_ids (sources_ b)))) by reflexivity.
  clearbody x n.
  assert (Hrange : (0 <= x mod n < n)%Z) by (apply Z.mod_pos_bound; lia).
  destruct (nth_error (node_ids (sources_ b)) (Z.to_nat (x mod n))) as [snode_id |] eqn:Hnth.
  2:{ apply nth_error_None in Hnth. lia. }
  assert (Hat : nc_at (sources_ b) (x mod n) = Ok snode_id).
  { unfold nc_at. destruct (Z.ltb_spec (x mod n) 0); [lia |]. rewrite Hnth. reflexivity. }
  rewrite Hat.
  change (bind (lift (Ok snode_id)) ?f w1) with (f snode_id w1). cbv beta.
  assert (Hauto : (snode_id =? tnode_id)%Z = false).
  { apply Z.eqb_neq. intros ->. apply Hdisjoint. eapply nth_error_In. exact Hnth. }
  rewrite Hauto, andb_false_r. cbn [orb].
  destruct (negb (allow_multapses_ b) && existsb (Z.eqb (x mod n)) ch_ids) eqn:Hskip.
  - apply andb_true_iff in Hskip. destruct Hskip as [_ Hex].
    apply existsb_exists in Hex. destruct Hex as [y [Hy Ey]].
    apply Z.eqb_eq in Ey. subst y.
    destruct j as [| j].
    + exfalso. apply Hfresh. rewrite <- Hhit, Nat.add_0_r, <- Ex. exact Hy.
    + destruct (IH j w1) as [s_id [snode_id' [w' [Hrun Hb]]]].
      * lia.
      * unfold w1. cbn [rng_draws set_rng_draws]. rewrite rng_position_draw.
        rewrite <- Hhit. f_equal. f_equal. lia.
      * exists s_id, snode_id', w'. split; [exact Hrun | rewrite Hb; reflexivity].
  - exists (x mod n)%Z, snode_id, w1. split; reflexivity.
Qed.

Lemma FixedInDegreeBuilder_draw_source_returns fuel b rng tnode_id ch_ids :
  fits_long (sources_ b) ->
  stream_covers K rng (nc_size (sources_ b)) fuel ->
  ~ In tnode_id (node_ids (sources_ b)) ->
  List.length ch_ids < List.length (node_ids (sources_ b)) ->
  forall w,
    exists s_id snode_id w',
      FixedInDegreeBuilder_draw_source K fuel b rng tnode_id ch_ids w
      = (Ok (s_id, snode_id), w')
      /\ builder w' = builder w.
Proof.
  intros Hfit Hcovers Hdisjoint Hlen w.
  destruct (fresh_index ch_ids _ Hlen) as [i [Hi Hfresh]].
  destruct (Hcovers (rng_position rng (rng_draws w)) i Hi) as [j [Hj Hhit]].
  exact (FixedInDegreeBuilder_draw_source_hits b rng tnode_id ch_ids i Hfit Hdisjoint Hi
           Hfresh fuel j w Hj Hhit).
Qed.

Hypothesis accepts : storage_accepts K.

Lemma FixedInDegreeBuilder_inner_loop_steady n fuel requires_proxies b rng target tnode_id
    target_thread :
  fits_long (sources_ b) ->
  stream_covers K rng (nc_size (sources_ b)) fuel ->
  ~ In tnode_id (node_ids (sources_ b)) ->
  connectable requires_proxies target ->
  target_thread < get_num_threads K ->
  forall remaining ch_ids,
    List.length ch_ids + remaining <= List.length (node_ids (sources_ b)) ->
    returns_steadily K n
      (FixedInDegreeBuilder_inner_loop K fuel requires_proxies b rng target tnode_id
         target_thread remaining ch_ids).
Proof.
  intros Hfit Hcovers Hdisjoint Hconn Hthread.
  induction remaining as [| remaining IH]; intros ch_ids Hlen w HS Hn;
    cbn [FixedInDegreeBuilder_inner_loop].
  - exact (returns_steadily_ret K n tt w HS Hn).
  - destruct (FixedInDegreeBuilder_draw_source_returns fuel b rng tnode_id ch_ids Hfit Hcovers
                Hdisjoint ltac:(lia) w) as [s_id [snode_id [w1 [Hdraw Hb1]]]].
    unfold bind at 1. rewrite Hdraw.
    assert (HS1 : Steady K (builder w1)) by (rewrite Hb1; exact HS).
    assert (Hn1 : List.length (synapse_params_ (builder w1)) = n) by (rewrite Hb1; exact Hn).
    destruct (single_connect__steady K accepts n requires_proxies snode_id target target_thread
                rng Hconn Hthread w1 HS1 Hn1) as [[] [w2 [Hconnect Hstep2]]].
    unfold bind at 1. rewrite Hconnect.
    destruct (IH (if negb (allow_multapses_ b) then s_id :: ch_ids else ch_ids)) with (w := w2)
      as [[] [w' [Hrun Hstep']]].
    + destruct (negb (allow_multapses_ b)); simpl; lia.
    + exact (proj1 Hstep2).
    + rewrite (proj2 (proj2 Hstep2)). exact Hn1.
    + exists tt, w'. split; [exact Hrun |].
      apply (steady_step_builder K w1 w w' Hb1).
      exact (steady_step_trans K _ _ _ Hstep2 Hstep').
Qed.

Lemma FixedInDegreeBuilder_inner_connect__steady n fuel requires_proxies b tid rng target
    tnode_id skip :
  fits_long (sources_ b) ->
  stream_covers K rng (nc_size (sources_ b)) fuel ->
  ~ In tnode_id (node_ids (sources_ b)) ->
  connectable requires_proxies target ->
  tid < get_num_threads K ->
  returns_steadily K n
    (FixedInDegreeBuilder_inner_connect_ K fuel requires_proxies b tid rng target tnode_id
       skip (nc_size (sources_ b))).
Proof.
  intros Hfit Hcovers Hdisjoint Hconn Htid.
  unfold FixedInDegreeBuilder_inner_connect_.
  destruct (Nat.eqb_spec tid (get_thread target)) as [E | _]; cbn [negb].
  - apply FixedInDegreeBuilder_inner_loop_steady; try assumption.
    + rewrite <- E. exact Htid.
    + unfold nc_size. rewrite Nat2Z.id. simpl. lia.
  - destruct skip; [apply skip_conn_parameter__steady | apply returns_steadily_ret].
Qed.

Lemma FixedInDegreeBuilder_connect_thread_steady n fuel requires_proxies b tid :
  fits_long (sources_ b) ->
  stream_covers K (get_vp_specific_rng tid) (nc_size (sources_ b)) fuel ->
  (forall t, In t (node_ids (targets_ b)) -> ~ In t (node_ids (sources_ b))) ->
  targets_connectable K requires_proxies ->
  tid < get_num_threads K ->
  returns_steadily K n
    (FixedInDegreeBuilder_connect_thread K fuel requires_proxies
       (ConstantParameter (inject_Z (nc_size (sources_ b)))) b tid).
Proof.
  intros Hfit Hcovers Hdisjoint [Hany Hlocal] Htid.
  unfold FixedInDegreeBuilder_connect_thread.
  destruct (loop_over_targets_ K b).
  - apply returns_steadily_for_each. intros t Ht w HS Hn.
    unfold NestParameter_value.
    change (bind (ret ?v) ?f w) with (f v w). cbv beta.
    rewrite std_round_inject_Z.
    destruct (is_proxy (get_node_or_proxy K t tid)).
    + exact (skip_conn_parameter__steady K n tid _ w HS Hn).
    + exact (FixedInDegreeBuilder_inner_connect__steady n fuel requires_proxies b tid _ _ t true
               Hfit Hcovers (Hdisjoint t Ht) (Hany t tid) Htid w HS Hn).
  - apply returns_steadily_for_each. intros node Hnode w HS Hn.
    cbv beta zeta.
    destruct (get_lid (targets_ b) (get_node_id node) <? 0)%Z eqn:Hlid.
    + exact (returns_steadily_ret K n tt w HS Hn).
    + unfold NestParameter_value.
      change (bind (ret ?v) ?f w) with (f v w). cbv beta.
      rewrite std_round_inject_Z.
      apply Z.ltb_ge in Hlid.
      destruct (find_lid_found (node_ids (targets_ b)) (get_node_id node) 0%Z
                  (Z.le_refl 0) Hlid) as [i [_ Hi]].
      exact (FixedInDegreeBuilder_inner_connect__steady n fuel requires_proxies b tid _ node
               (get_node_id node) false Hfit Hcovers
               (Hdisjoint _ (nth_error_In _ _ Hi)) (Hlocal tid node Hnode) Htid w HS Hn).
Qed.

(** On a steady builder, with sources and targets that share no node and
    streams that cover the sources, the build of the fixed-indegree rule
    with the indegree equal to the number of sources returns. *)
Lemma FixedInDegreeBuilder_connect__steady fuel requires_proxies w :
  fits_long (sources_ (builder w)) ->
  (forall tid, tid < get_num_threads K ->
     stream_covers K (get_vp_specific_rng tid) (nc_size (sources_ (builder w))) fuel) ->
  (forall t, In t (node_ids (targets_ (builder w))) ->
             ~ In t (node_ids (sources_ (builder w)))) ->
  targets_connectable K requires_proxies ->
  Steady K (builder w) ->
  exists w',
    FixedInDegreeBuilder_connect_ K fuel requires_proxies
      (ConstantParameter (inject_Z (nc_size (sources_ (builder w))))) w = (Ok tt, w')
    /\ steady_step K w w'.
Proof.
  intros Hfit Hcovers Hdisjoint Hconn HS. unfold FixedInDegreeBuilder_connect_.
  change (bind get_builder ?f w) with (f (builder w) w). cbv beta.
  destruct (returns_steadily_for_each K (List.length (synapse_params_ (builder w)))
              (seq 0 (get_num_threads K))
              (fun tid => try_catch tid
                 (FixedInDegreeBuilder_connect_thread K fuel requires_proxies
                    (ConstantParameter (inject_Z (nc_size (sources_ (builder w)))))
                    (builder w) tid)))
    with (w := w) as [[] [w' [Hrun Hstep]]]; [| exact HS | reflexivity |].
  - intros tid Htid. apply in_seq in Htid. apply try_catch_steady.
    apply FixedInDegreeBuilder_connect_thread_steady; try assumption; [apply Hcovers |]; lia.
  - exists w'. split; [exact Hrun | exact Hstep].
Qed.

End FixedInDegreeReturns.

(** *** [connect()] on the fixed-indegree rule *)

Lemma check_requires_symmetric_none (K : Kernel) rule b ids :
  (forall id, In id ids -> requires_symmetric K id = false) ->
  check_requires_symmetric K rule b ids = Ok tt.
Proof.
  induction ids as [| id ids IH]; intros Hnone; simpl; [reflexivity |].
  rewrite (Hnone id (or_introl eq_refl)). simpl.
  apply IH. intros id' Hid'. apply Hnone. right. exact Hid'.
Qed.

(** A call of [connect()] on the fixed-indegree rule that returns has run
    the rule's [connect_] once, and no thread has captured a failure. *)
Lemma FixedInDegreeBuilder_connect_returned (K : Kernel) fuel requires_proxies bld w w' :
  ConnBuilder_connect K (FixedInDegreeBuilder_methods K fuel requires_proxies bld) w
  = (Ok tt, w') ->
  FixedInDegreeBuilder_connect_ K fuel requires_proxies (indegree_ bld) w = (Ok tt, w')
  /\ forall tid, tid < get_num_threads K -> ~ filled (exceptions_raised_ (builder w')) tid.
Proof.
  unfold ConnBuilder_connect. intros H.
  apply bind_Ok_inv in H. destruct H as [[] [w1 [Hdispatch Hcheck]]].
  unfold check_exceptions_raised in Hcheck.
  assert (Ew : w' = w1) by (inversion Hcheck; reflexivity). subst w1.
  assert (Hslots : rethrow_from (exceptions_raised_ (builder w')) 0 (get_num_threads K) = Ok tt)
    by (inversion Hcheck; reflexivity).
  split.
  - unfold ConnBuilder_connect_dispatch in Hdispatch.
    apply bind_Ok_inv in Hdispatch. destruct Hdispatch as [b [w0 [Hb H]]].
    apply get_builder_Ok_inv in Hb. destruct Hb as [-> ->].
    apply bind_Ok_inv in H. destruct H as [[] [w0 [Hreq H]]].
    apply lift_Ok_inv in Hreq. destruct Hreq as [_ ->].
    cbn [supports_symmetric FixedInDegreeBuilder_methods negb] in H.
    rewrite andb_true_r in H.
    destruct (make_symmetric_ (builder w)) eqn:Hms.
    { unfold bind, throw in H. discriminate H. }
    apply bind_Ok_inv in H. destruct H as [[] [w0 [Hret H]]].
    apply ret_Ok_inv in Hret. destruct Hret as [_ ->].
    destruct (use_structural_plasticity_ (builder w)).
    { cbn [andb] in H. unfold bind, ret, sp_connect_, FixedInDegreeBuilder_methods,
        sp_connect_default, throw in H. discriminate H. }
    apply bind_Ok_inv in H. destruct H as [[] [w2 [Hrun H]]].
    cbn [connect_ FixedInDegreeBuilder_methods] in Hrun.
    apply bind_Ok_inv in H. destruct H as [b2 [w3 [Hb2 H]]].
    apply get_builder_Ok_inv in Hb2. destruct Hb2 as [-> ->].
    assert (Hi : interface (builder w2) = interface (builder w)).
    { pose proof (respects_FixedInDegreeBuilder_connect_ K interface_frame fuel
                    requires_proxies (indegree_ bld) admits_capture_interface_frame
                    (fun _ => I) (fun _ _ => I) w) as R.
      rewrite Hrun in R. exact (proj1 R). }
    destruct (interface_fields _ _ Hi) as [_ [_ [Hms2 _]]].
    rewrite Hms2, Hms in H. cbn [andb] in H.
    apply ret_Ok_inv in H. destruct H as [_ ->]. exact Hrun.
  - intros tid Htid [e He].
    rewrite (rethrow_from_Ok_inv _ _ _ Hslots tid) in He by lia. discriminate.
Qed.

(** With no synapse model that requires symmetric connections, without
    symmetrisation and structural plasticity, [connect()] on the
    fixed-indegree rule returns when the rule's [connect_] does and no slot
    is filled. *)
Lemma FixedInDegreeBuilder_connect_returns (K : Kernel) fuel requires_proxies bld w w' :
  (forall id, requires_symmetric K id = false) ->
  make_symmetric_ (builder w) = false ->
  use_structural_plasticity_ (builder w) = false ->
  FixedInDegreeBuilder_connect_ K fuel requires_proxies (indegree_ bld) w = (Ok tt, w') ->
  configuration (builder w') = configuration (builder w) ->
  List.length (exceptions_raised_ (builder w)) = get_num_threads K ->
  none_raised (exceptions_raised_ (builder w)) ->
  ConnBuilder_connect K (FixedInDegreeBuilder_methods K fuel requires_proxies bld) w
  = (Ok tt, w').
Proof.
  intros Hreq Hms Hsp Hrun Hconf Hlen Hnone.
  assert (Hslots : exceptions_raised_ (builder w') = exceptions_raised_ (builder w))
    by exact (f_equal (fun c => snd (fst (fst c))) Hconf).
  destruct (interface_fields _ _ (configuration_interface _ _ Hconf)) as [_ [_ [Hms' _]]].
  unfold ConnBuilder_connect, ConnBuilder_connect_dispatch.
  unfold bind at 1. unfold bind at 1. unfold get_builder at 1.
  unfold bind at 1. unfold lift at 1.
  rewrite (check_requires_symmetric_none K _ _ _ (fun id _ => Hreq id)).
  rewrite Hms, Hsp. cbn [andb].
  unfold bind at 1. unfold ret at 1.
  unfold bind at 1. cbn [connect_ FixedInDegreeBuilder_methods]. rewrite Hrun.
  unfold bind at 1. unfold get_builder at 1.
  rewrite Hms'. rewrite Hms. cbn [andb]. unfold ret at 1.
  apply check_exceptions_raised_none; rewrite Hslots; assumption.
Qed.

(** Claim C6, as amended.  For the fixed-indegree rule with multapses and
    autapses disallowed and a scalar indegree equal to the number of sources,
    the constructor logs the warning and returns without raising; the builder
    is constructed, with the constant indegree.  The subsequent [connect()]
    is not aborted.  A call of [inner_connect_] for a target of the thread
    that returns has connected every source to the target, and none of the
    sources is the target.  A call of [connect()] that returns has connected
    every source to every target that a thread of the process hosts, and no
    such target is among the sources.  [connect()] does return when the
    synapse specifications are scalar, nothing asks for symmetric
    connections or structural plasticity, the storage accepts every
    connection, no target is among the sources, and from every position of
    the stream of each thread every source index comes up within the fuel. *)
Theorem fixed_indegree_warning_does_not_abort (K : Kernel)
    (sources targets : NodeCollection) (conn_spec : Dictionary)
    (syn_specs : list Dictionary) (b : ConnBuilder) (value : Z) :
  ConnBuilder_ctor K sources targets conn_spec syn_specs = Ok b ->
  flag_of conn_spec names.allow_multapses true = false ->
  flag_of conn_spec names.allow_autapses true = false ->
  dict_find conn_spec names.indegree = Some (IntegerDatum value) ->
  value = nc_size sources ->
  node_ids sources <> [] ->
  fits_long sources ->
  let bld := mkFixedInDegreeBuilder b (ConstantParameter (inject_Z value)) in
  FixedInDegreeBuilder_ctor K sources targets conn_spec syn_specs
  = (Ok bld, [indegree_warning_infinite_loop])
  /\ (forall rng w,
         NestParameter_value K (indegree_ bld) rng w = (Ok (inject_Z value), w))
  /\ std_round (inject_Z value) = nc_size sources
  /\ (forall fuel requires_proxies tid rng target tnode_id skip w w',
         get_thread target = tid ->
         synapse_params_ (builder w) <> [] ->
         FixedInDegreeBuilder_inner_connect_ K fuel requires_proxies b tid rng target
           tnode_id skip value w = (Ok tt, w') ->
         forall s,
           In s (node_ids sources) ->
           In (s, get_node_id target) (edges w') /\ s <> tnode_id)
  /\ (forall fuel requires_proxies w w',
         builder w = b ->
         Kernel_consistent K ->
         ConnBuilder_connect K (FixedInDegreeBuilder_methods K fuel requires_proxies bld) w
         = (Ok tt, w') ->
         forall t tid,
           In t (node_ids targets) ->
           hosted_by K t tid ->
           forall s, In s (node_ids sources) -> In (s, t) (edges w') /\ s <> t)
  /\ (forall fuel requires_proxies w,
         builder w = b ->
         (forall spec, In spec syn_specs -> scalar_valued spec) ->
         (forall id, scalar_valued (get_connector_defaults K id)) ->
         flag_of conn_spec names.make_symmetric false = false ->
         use_structural_plasticity_ b = false ->
         (forall id, requires_symmetric K id = false) ->
         storage_accepts K ->
         targets_connectable K requires_proxies ->
         (forall t, In t (node_ids targets) -> ~ In t (node_ids sources)) ->
         (forall tid,
             tid < get_num_threads K ->
             stream_covers K (get_vp_specific_rng tid) (nc_size sources) fuel) ->
         exists w',
           ConnBuilder_connect K (FixedInDegreeBuilder_methods K fuel requires_proxies bld) w
           = (Ok tt, w')).
Proof.
  intros Hb Hm Ha Hv Hvalue Hne Hfit bld.
  destruct (ConnBuilder_ctor_fields _ _ _ _ _ _ Hb) as [Hs [Ht [Haa [Ham [Hms _]]]]].
  destruct (ConnBuilder_ctor_constructed K _ _ _ _ _ Hb)
    as (Hpos & Hsized & _ & _ & _ & Hex & _ & _).
  assert (Hsyn : synapse_params_ b <> []).
  { destruct Hsized as (_ & _ & _ & _ & _ & _ & L7 & _).
    intros E. rewrite E in L7. simpl in L7. lia. }
  rewrite Hm in Ham. rewrite Ha in Haa.
  split; [apply FixedInDegreeBuilder_ctor_warns; assumption |].
  split; [intros rng w; reflexivity |].
  split; [rewrite std_round_inject_Z; exact Hvalue |].
  split; [| split].
  - intros fuel requires_proxies tid rng target tnode_id skip w w' Hthread Hsynw Hrun s Hin.
    rewrite Hvalue, <- Hs in Hrun. rewrite <- Hs in Hin.
    destruct (FixedInDegreeBuilder_inner_connect__exhausts K fuel requires_proxies b tid rng
                target tnode_id skip w w' Ham Hthread Hsynw Hrun s Hin) as [Hedge Hneq].
    split; [exact Hedge | exact (Hneq Haa)].
  - intros fuel requires_proxies w w' Hw Hcons Hrun t tid Hin Hhosted s Hsrc.
    apply FixedInDegreeBuilder_connect_returned in Hrun. destruct Hrun as [Hrun Hnone].
    cbn [indegree_ bld] in Hrun. subst b.
    rewrite Hvalue, <- Hs in Hrun. rewrite <- Ht in Hin. rewrite <- Hs in Hsrc.
    destruct (FixedInDegreeBuilder_connect__complete K Hcons fuel requires_proxies w w' t tid
                Ham Hsyn Hin Hhosted Hrun (Hnone tid (proj1 Hhosted)) s Hsrc)
      as [Hedge Hneq].
    split; [exact Hedge | exact (Hneq Haa)].
  - intros fuel requires_proxies w Hw Hspecs Hdefaults Hsym Hsp Hreq Haccepts Hconn
      Hdisjoint Hcovers.
    pose proof (ConnBuilder_ctor_steady K _ _ _ _ _ Hb Hspecs Hdefaults) as HS.
    subst b.
    destruct (FixedInDegreeBuilder_connect__steady K Haccepts fuel requires_proxies w)
      as [w' [Hrun Hstep]].
    + rewrite Hs. exact Hfit.
    + rewrite Hs. exact Hcovers.
    + rewrite Hs, Ht. exact Hdisjoint.
    + exact Hconn.
    + exact HS.
    + exists w'.
      apply FixedInDegreeBuilder_connect_returns.
      * exact Hreq.
      * rewrite Hms. exact Hsym.
      * exact Hsp.
      * cbn [indegree_ bld]. rewrite Hvalue, <- Hs. exact Hrun.
      * exact (proj1 (proj2 Hstep)).
      * rewrite Hex. apply repeat_length.
      * rewrite Hex. apply Forall_forall. intros slot Hslot.
        apply repeat_spec in Hslot. exact Hslot.
Qed.

Lemma scenario_stream_covers nthreads n_nodes rng n fuel :
  (0 < n)%Z -> Z.to_nat n <= fuel ->
  stream_covers (scenario_kernel nthreads n_nodes) rng n fuel.
Proof.
  intros Hn Hfuel pos i Hi.
  pose proof (Z.mod_pos_bound (i - Z.of_nat pos) n Hn) as Hbound.
  exists (Z.to_nat ((i - Z.of_nat pos) mod n)). split; [lia |].
  cbn [rng_stream scenario_kernel].
  rewrite Nat2Z.inj_add, Z2Nat.id by lia.
  rewrite Zplus_mod_idemp_r.
  replace (Z.of_nat pos + (i - Z.of_nat pos))%Z with i by lia.
  apply Z.mod_small. exact Hi.
Qed.

Lemma fixed_indegree_warning_does_not_abort_witness :
  let K := scenario_kernel 2 4 in
  let spec := [ ("allow_autapses"%string, BoolDatum false);
                ("allow_multapses"%string, BoolDatum false);
                ("indegree"%string, IntegerDatum 2) ] in
  match ConnBuilder_ctor K (node_range 1 2) (node_range 3 2) spec [static_synapse_spec] with
  | Ok b =>
      let bld := mkFixedInDegreeBuilder b (ConstantParameter (inject_Z 2)) in
      FixedInDegreeBuilder_ctor K (node_range 1 2) (node_range 3 2) spec [static_synapse_spec]
      = (Ok bld, [indegree_warning_infinite_loop])
      /\ exists w',
           ConnBuilder_connect K (FixedInDegreeBuilder_methods K 2 true bld) (initial_world b)
           = (Ok tt, w')
           /\ In (1, 3)%Z (edges w') /\ In (2, 3)%Z (edges w')
           /\ In (1, 4)%Z (edges w') /\ In (2, 4)%Z (edges w')
  | _ => False
  end.
Proof.
  intros K spec.
  destruct (ConnBuilder_ctor K (node_range 1 2) (node_range 3 2) spec [static_synapse_spec])
    as [b | e | why |] eqn:Hb; try (vm_compute in Hb; discriminate).
  destruct (fixed_indegree_warning_does_not_abort K (node_range 1 2) (node_range 3 2) spec
              [static_synapse_spec] b 2 Hb)
    as [Hctor [_ [_ [_ [Hcomplete Hreturns]]]]].
  - vm_compute. reflexivity.
  - vm_compute. reflexivity.
  - vm_compute. reflexivity.
  - vm_compute. reflexivity.
  - vm_compute. discriminate.
  - vm_compute. reflexivity.
  - intros bld. split; [exact Hctor |].
    destruct (Hreturns 2 true (initial_world b) eq_refl) as [w' Hrun].
    + intros s [<- | []]. repeat constructor.
    + intros id. repeat constructor.
    + vm_compute. reflexivity.
    + vm_compute in Hb. inversion Hb. reflexivity.
    + intros id. reflexivity.
    + intros snode_id target syn_id. reflexivity.
    + split; [intros; reflexivity |].
      intros tid n Hn.
      destruct (local_nodes_are_hosted K (scenario_kernel_consistent 2 4) tid n Hn) as [E _].
      rewrite E. reflexivity.
    + intros t Ht Hs. vm_compute in Ht, Hs.
      destruct Ht as [<- | [<- | []]]; destruct Hs as [Hs | [Hs | []]]; discriminate Hs.
    + intros tid _. apply scenario_stream_covers; [vm_compute; reflexivity | vm_compute; lia].
    + exists w'. split; [exact Hrun |].
      assert (Hedge : forall t tid s,
                 In t (node_ids (node_range 3 2)) -> hosted_by K t tid ->
                 In s (node_ids (node_range 1 2)) -> In (s, t) (edges w')).
      { intros t tid s Ht Hhosted Hs.
        exact (proj1 (Hcomplete 2 true (initial_world b) w' eq_refl
                        (scenario_kernel_consistent 2 4) Hrun t tid Ht Hhosted s Hs)). }
      assert (H3 : hosted_by K 3 1).
      { split; [vm_compute; lia |]. split; vm_compute; reflexivity. }
      assert (H4 : hosted_by K 4 0).
      { split; [vm_compute; lia |]. split; vm_compute; reflexivity. }
      split; [apply (Hedge 3%Z 1 1%Z); [vm_compute; auto | exact H3 | vm_compute; auto] |].
      split; [apply (Hedge 3%Z 1 2%Z); [vm_compute; auto | exact H3 | vm_compute; auto] |].
      split; [apply (Hedge 4%Z 0 1%Z); [vm_compute; auto | exact H4 | vm_compute; auto] |].
      apply (Hedge 4%Z 0 2%Z); [vm_compute; auto | exact H4 | vm_compute; auto].
Defined.

(** Claim C6, counterexample.  Sources [{1}], targets [{2}], multapses and
    autapses disallowed, indegree 1: the constructor logs the warning and
    returns a builder, and the subsequent [connect()] returns normally and
    has emitted the edge [(1, 2)]; the graph is not empty. *)
Lemma fixed_indegree_connect_after_warning_emits :
  let K := scenario_kernel 1 2 in
  let spec := [ ("allow_autapses"%string, BoolDatum false);
                ("allow_multapses"%string, BoolDatum false);
                ("indegree"%string, IntegerDatum 1) ] in
  let built :=
    FixedInDegreeBuilder_ctor K (node_range 1 1) (node_range 2 1) spec
      [static_synapse_spec] in
  exists bld,
    built = (Ok bld, [indegree_warning_infinite_loop])
    /\ let result :=
         ConnBuilder_connect K (FixedInDegreeBuilder_methods K 10 true bld)
           (initial_world (fixed_indegree_base bld)) in
       fst result = Ok tt
       /\ edges (snd result) = [(1, 2)]%Z
       /\ edges (snd result) <> [].
Proof.
  intros K spec built.
  destruct built as [[bld | | |] logged] eqn:E; try (vm_compute in E; discriminate).
  exists bld. split.
  - f_equal. vm_compute in E. inversion E. reflexivity.
  - vm_compute in E. inversion E; subst bld.
    vm_compute. repeat split. discriminate.
Qed.

(** * Further properties *)

(** ** The constructed builder *)

(** Property X1.  A builder that the base constructor has constructed was
    given at least one synapse specification; its per-synapse vectors all
    have one entry per specification, every synapse type has one parameter
    dictionary per thread, there is one empty exception slot per thread, and
    both collections are valid. *)
Theorem constructed_builder_vectors_are_sized (K : Kernel)
    (sources targets : NodeCollection) (conn_spec : Dictionary)
    (syn_specs : list Dictionary) (b : ConnBuilder) :
  ConnBuilder_ctor K sources targets conn_spec syn_specs = Ok b ->
  syn_specs <> []
  /\ vectors_sized (List.length syn_specs) b
  /\ Forall (fun ds => List.length ds = get_num_threads K) (param_dicts_ b)
  /\ List.length (exceptions_raised_ b) = get_num_threads K
  /\ none_raised (exceptions_raised_ b)
  /\ valid sources = true
  /\ valid targets = true.
Proof.
  intros Hctor.
  destruct (ConnBuilder_ctor_constructed K _ _ _ _ _ Hctor)
    as (Hpos & Hsized & Hspecs & _ & _ & Hex & Hvalid & _).
  split; [intros ->; simpl in Hpos; lia |].
  split; [exact Hsized |].
  split.
  { apply Forall_forall. intros ds Hin.
    apply In_nth_error in Hin. destruct Hin as [j Hj].
    destruct Hsized as (_ & _ & _ & _ & _ & _ & _ & Ldicts).
    assert (Hjn : j < List.length syn_specs).
    { rewrite <- Ldicts. apply nth_error_Some. rewrite Hj. discriminate. }
    destruct (nth_error syn_specs j) as [spec |] eqn:Hspec;
      [| apply nth_error_None in Hspec; lia].
    destruct (Hspecs j spec Hspec) as (_ & _ & _ & _ & _ & [ds' [Hds' Hlen]] & _).
    rewrite Hj in Hds'. inversion Hds'; subst ds'. exact Hlen. }
  split; [rewrite Hex; apply repeat_length |].
  split.
  { rewrite Hex. apply Forall_forall. intros slot Hin. apply repeat_spec in Hin. exact Hin. }
  apply andb_true_iff. exact Hvalid.
Qed.

Lemma constructed_builder_vectors_are_sized_witness :
  let K := scenario_kernel 2 4 in
  let specs := [ static_synapse_spec;
                 [ ("synapse_model"%string, StringDatum "static_synapse");
                   ("weight"%string, DoubleDatum (5 # 2)) ] ] in
  match ConnBuilder_ctor K (node_range 1 2) (node_range 3 2) [] specs with
  | Ok b =>
      vectors_sized 2 b
      /\ Forall (fun ds => List.length ds = 2) (param_dicts_ b)
      /\ none_raised (exceptions_raised_ b)
  | _ => False
  end.
Proof.
  intros K specs.
  destruct (ConnBuilder_ctor K (node_range 1 2) (node_range 3 2) [] specs)
    as [b | e | why |] eqn:Hb; try (vm_compute in Hb; discriminate).
  destruct (constructed_builder_vectors_are_sized K _ _ _ _ _ Hb)
    as (_ & Hsized & Hdicts & _ & Hnone & _).
  split; [exact Hsized |]. split; [exact Hdicts | exact Hnone].
Defined.

(** Property X2.  When no synapse specification and no default of a synapse
    model holds a vector, the constructed builder is steady: every weight,
    delay and synapse parameter is a scalar or a parameter object, the
    parameter names of a synapse type are distinct, a synapse type that does
    not use the default weight and delay has both parameters, and all vectors
    are sized alike; no parameter is registered as requiring skipping. *)
Theorem constructed_builder_is_steady (K : Kernel)
    (sources targets : NodeCollection) (conn_spec : Dictionary)
    (syn_specs : list Dictionary) (b : ConnBuilder) :
  ConnBuilder_ctor K sources targets conn_spec syn_specs = Ok b ->
  (forall spec, In spec syn_specs -> scalar_valued spec) ->
  (forall id, scalar_valued (get_connector_defaults K id)) ->
  Steady K b /\ parameters_requiring_skipping_ b = [].
Proof.
  intros Hctor Hspecs Hdefaults.
  split; [exact (ConnBuilder_ctor_steady K _ _ _ _ _ Hctor Hspecs Hdefaults) |].
  destruct (ConnBuilder_ctor_constructed K _ _ _ _ _ Hctor)
    as (_ & _ & _ & _ & _ & _ & _ & Hplain).
  exact (proj2 (Hplain Hspecs Hdefaults)).
Qed.

Lemma constructed_builder_is_steady_witness :
  let K := scenario_kernel 2 4 in
  let specs := [ [ ("synapse_model"%string, StringDatum "static_synapse");
                   ("weight"%string, DoubleDatum (5 # 2));
                   ("receptor_type"%string, IntegerDatum 1) ] ] in
  match ConnBuilder_ctor K (node_range 1 2) (node_range 3 2) [] specs with
  | Ok b => Steady K b /\ parameters_requiring_skipping_ b = []
  | _ => False
  end.
Proof.
  intros K specs.
  destruct (ConnBuilder_ctor K (node_range 1 2) (node_range 3 2) [] specs)
    as [b | e | why |] eqn:Hb; try (vm_compute in Hb; discriminate).
  apply (constructed_builder_is_steady K _ _ _ _ _ Hb).
  - intros spec [<- | []]. repeat constructor.
  - intros id. repeat constructor.
Defined.

(** Property X3.  For every synapse specification the constructed builder
    records which of weight and delay the specification gives:
    [default_weight_] and [default_delay_] are set exactly for the one that
    is absent, [default_weight_and_delay_] when both are absent; a delay
    parameter exists in every case, a weight parameter exactly when one of
    the two is given; the model id is the one registered for the model name
    of the specification. *)
Theorem constructed_builder_records_weight_and_delay (K : Kernel)
    (sources targets : NodeCollection) (conn_spec : Dictionary)
    (syn_specs : list Dictionary) (b : ConnBuilder) :
  ConnBuilder_ctor K sources targets conn_spec syn_specs = Ok b ->
  forall j spec, nth_error syn_specs j = Some spec -> spec_handled K spec j b.
Proof.
  intros Hctor.
  destruct (ConnBuilder_ctor_constructed K _ _ _ _ _ Hctor) as (_ & _ & Hhandled & _).
  exact Hhandled.
Qed.

Lemma constructed_builder_records_weight_and_delay_witness :
  let K := scenario_kernel 2 4 in
  let given := [ ("synapse_model"%string, StringDatum "static_synapse");
                 ("delay"%string, DoubleDatum (3 # 2)) ] in
  match ConnBuilder_ctor K (node_range 1 2) (node_range 3 2) [] [static_synapse_spec; given]
  with
  | Ok b =>
      spec_handled K static_synapse_spec 0 b
      /\ spec_handled K given 1 b
      /\ default_weight_ b = [true; true]
      /\ default_delay_ b = [true; false]
      /\ default_weight_and_delay_ b = [true; false]
  | _ => False
  end.
Proof.
  intros K given.
  destruct (ConnBuilder_ctor K (node_range 1 2) (node_range 3 2) [] [static_synapse_spec; given])
    as [b | e | why |] eqn:Hb; try (vm_compute in Hb; discriminate).
  pose proof (constructed_builder_records_weight_and_delay K _ _ _ _ _ Hb) as Hall.
  split; [exact (Hall 0 static_synapse_spec eq_refl) |].
  split; [exact (Hall 1 given eq_refl) |].
  vm_compute in Hb. inversion Hb. repeat split; reflexivity.
Defined.

(** Property X4.  In a constructed builder the names of the synapse
    parameters of a synapse type are distinct, and every parameter
    dictionary holds an entry for each of them whose datum has the type
    [update_param_dict_] later casts it to: an integer for a parameter that
    provides a long, a double otherwise. *)
Theorem constructed_builder_dicts_are_typed (K : Kernel)
    (sources targets : NodeCollection) (conn_spec : Dictionary)
    (syn_specs : list Dictionary) (b : ConnBuilder) :
  ConnBuilder_ctor K sources targets conn_spec syn_specs = Ok b ->
  params_named_once b /\ dicts_typed b.
Proof.
  intros Hctor.
  destruct (ConnBuilder_ctor_constructed K _ _ _ _ _ Hctor) as (_ & _ & _ & Hnamed & Htyped & _).
  split; assumption.
Qed.

Lemma constructed_builder_dicts_are_typed_witness :
  let K := scenario_kernel 2 4 in
  let specs := [ [ ("synapse_model"%string, StringDatum "static_synapse");
                   ("receptor_type"%string, IntegerDatum 1) ] ] in
  match ConnBuilder_ctor K (node_range 1 2) (node_range 3 2) [] specs with
  | Ok b =>
      dicts_typed b
      /\ synapse_params_ b = [ [ ("receptor_type"%string, ScalarIntegerParameter 1) ] ]
      /\ param_dicts_ b = [ [ [ ("receptor_type"%string, IntegerDatum 0) ];
                              [ ("receptor_type"%string, IntegerDatum 0) ] ] ]
  | _ => False
  end.
Proof.
  intros K specs.
  destruct (ConnBuilder_ctor K (node_range 1 2) (node_range 3 2) [] specs)
    as [b | e | why |] eqn:Hb; try (vm_compute in Hb; discriminate).
  split; [exact (proj2 (constructed_builder_dicts_are_typed K _ _ _ _ _ Hb)) |].
  vm_compute in Hb. inversion Hb. split; reflexivity.
Defined.

(** ** Errors of the first synapse specification *)

Lemma holds_bool_getValue t : holds_bool t = true -> exists v, getValue_bool t = Ok v.
Proof. destruct t; simpl; intros H; try discriminate. eexists. reflexivity. Qed.

(** With well-typed flags and a registered [static_synapse] model the
    constructor reaches the loop over the synapse specifications. *)
Lemma ConnBuilder_ctor_reaches_specs (K : Kernel) sources targets conn_spec spec rest
    static_id :
  flags_typed conn_spec = true ->
  get_synapse_model_id K "static_synapse" = Some static_id ->
  exists b0,
    forall e,
      set_synapse_model_ K spec 0 b0 = Throw e ->
      ConnBuilder_ctor K sources targets conn_spec (spec :: rest) = Throw e.
Proof.
  intros Hflags Hstatic. unfold flags_typed in Hflags.
  apply andb_true_iff in Hflags. destruct Hflags as [Hflags Hms].
  apply andb_true_iff in Hflags. destruct Hflags as [Haa Ham].
  unfold ConnBuilder_ctor.
  destruct (updateValue_typed getValue_bool holds_bool conn_spec names.allow_autapses
              (allow_autapses_ (ConnBuilder_init K sources targets))
              holds_bool_getValue Haa) as [aa [ga [Eaa _]]].
  rewrite Eaa. cbn [bind_outcome].
  match goal with
  | |- context [updateValue getValue_bool conn_spec names.allow_multapses ?x] =>
      destruct (updateValue_typed getValue_bool holds_bool conn_spec names.allow_multapses x
                  holds_bool_getValue Ham) as [am [gm [Eam _]]]
  end.
  rewrite Eam. cbn [bind_outcome].
  match goal with
  | |- context [updateValue getValue_bool conn_spec names.make_symmetric ?x] =>
      destruct (updateValue_typed getValue_bool holds_bool conn_spec names.make_symmetric x
                  holds_bool_getValue Hms) as [ms [gs [Ems _]]]
  end.
  rewrite Ems. cbn [bind_outcome].
  unfold synapse_model_id_of. rewrite Hstatic.
  cbn [bind_outcome List.length set_synapse_specs].
  eexists. intros e He. rewrite He. reflexivity.
Qed.

(** Property X5.  With well-typed flags and a registered [static_synapse]
    model, the errors of the first synapse specification surface from the
    constructor unchanged, before anything else is checked: a specification
    without [synapse_model] raises [BadProperty], an unknown model name
    raises [UnknownSynapseType] with that name, and a parameter check that
    the synapse model refuses raises the exception of the model. *)
Theorem first_synapse_specification_errors_surface (K : Kernel)
    (sources targets : NodeCollection) (conn_spec spec : Dictionary)
    (rest : list Dictionary) (static_id : nat) :
  flags_typed conn_spec = true ->
  get_synapse_model_id K "static_synapse" = Some static_id ->
  let built := ConnBuilder_ctor K sources targets conn_spec (spec :: rest) in
  (known spec names.synapse_model = false ->
   built = Throw (BadProperty "Synapse spec must contain synapse model."))
  /\ (forall name,
        dict_find spec names.synapse_model = Some (StringDatum name) ->
        get_synapse_model_id K name = None ->
        built = Throw (UnknownSynapseType name))
  /\ (forall name id e,
        dict_find spec names.synapse_model = Some (StringDatum name) ->
        get_synapse_model_id K name = Some id ->
        check_synapse_params K id spec = Some e ->
        built = Throw e).
Proof.
  intros Hflags Hstatic built.
  destruct (ConnBuilder_ctor_reaches_specs K sources targets conn_spec spec rest static_id
              Hflags Hstatic) as [b0 E].
  unfold built.
  split; [| split].
  - intros Hknown. apply E. unfold set_synapse_model_. rewrite Hknown. reflexivity.
  - intros name Hname Hnone. apply E.
    unfold set_synapse_model_, known, dict_get, synapse_model_id_of.
    rewrite Hname. simpl. rewrite Hnone. reflexivity.
  - intros name id e Hname Hid Hcheck. apply E.
    unfold set_synapse_model_, known, dict_get, synapse_model_id_of.
    rewrite Hname. simpl. rewrite Hid. simpl. rewrite Hcheck. reflexivity.
Qed.

Lemma first_synapse_specification_errors_surface_witness :
  let K := scenario_kernel 2 4 in
  let invalid := {| node_ids := [1%Z]; is_range := true; valid := false |} in
  ConnBuilder_ctor K invalid invalid [] [ [ ("weight"%string, DoubleDatum 1) ] ]
  = Throw (BadProperty "Synapse spec must contain synapse model.")
  /\ ConnBuilder_ctor K invalid invalid []
       [ [ ("synapse_model"%string, StringDatum "stdp_synapse") ] ]
     = Throw (UnknownSynapseType "stdp_synapse").
Proof.
  intros K invalid. split.
  - apply (first_synapse_specification_errors_surface K invalid invalid []
             [ ("weight"%string, DoubleDatum 1) ] [] 0); reflexivity.
  - apply (first_synapse_specification_errors_surface K invalid invalid []
             [ ("synapse_model"%string, StringDatum "stdp_synapse") ] [] 0);
      reflexivity.
Defined.

(** ** Structural plasticity parameters *)

Lemma set_synapse_specs_plasticity (K : Kernel) rest :
  forall i b b',
    set_synapse_specs K rest i b = Ok b' ->
    use_structural_plasticity_ b' = use_structural_plasticity_ b
    /\ pre_synaptic_element_name_ b' = pre_synaptic_element_name_ b
    /\ post_synaptic_element_name_ b' = post_synaptic_element_name_ b.
Proof.
  induction rest as [| spec rest IH]; intros i b b' H; simpl in H.
  - inversion H. repeat split; reflexivity.
  - apply bind_outcome_Ok in H. destruct H as [b1 [H1 H]].
    apply bind_outcome_Ok in H. destruct H as [b2 [H2 H]].
    apply bind_outcome_Ok in H. destruct H as [id [Hid H]].
    apply bind_outcome_Ok in H. destruct H as [b3 [H3 H]].
    apply IH in H. destruct H as (E1 & E2 & E3).
    apply set_synapse_model__step in H1. destruct H1 as [name [mid [_ [_ [_ Hb1]]]]].
    apply set_default_weight_or_delay__step in H2. cbv zeta in H2.
    destruct H2 as [id2 [d (_ & _ & _ & _ & _ & _ & _ & _ & _ & _ & _ & Eu & Epre & Epost & _)]].
    apply set_synapse_params_step in H3.
    destruct H3 as [m0 [m' [ds (_ & _ & _ & _ & _ & _ & _ & _ & _ & _ & _ & _ & _
                                & Eu3 & Epre3 & Epost3 & _)]]].
    rewrite E1, E2, E3, Eu3, Epre3, Epost3, Eu, Epre, Epost.
    subst b1. destruct b. repeat split; reflexivity.
Qed.

Lemma ConnBuilder_ctor_plasticity (K : Kernel) sources targets conn_spec syn_specs b :
  ConnBuilder_ctor K sources targets conn_spec syn_specs = Ok b ->
  (use_structural_plasticity_ b = false
   /\ Forall (fun spec => known spec names.pre_synaptic_element = false
                          /\ known spec names.post_synaptic_element = false) syn_specs)
  \/ exists spec pre post,
       syn_specs = [spec]
       /\ dict_find spec names.pre_synaptic_element = Some (StringDatum pre)
       /\ dict_find spec names.post_synaptic_element = Some (StringDatum post)
       /\ use_structural_plasticity_ b = true
       /\ pre_synaptic_element_name_ b = pre
       /\ post_synaptic_element_name_ b = post.
Proof.
  intros Hctor. unfold ConnBuilder_ctor in Hctor.
  apply bind_outcome_Ok in Hctor. destruct Hctor as [[aa ga] [_ H]].
  apply bind_outcome_Ok in H. destruct H as [[am gm] [_ H]].
  apply bind_outcome_Ok in H. destruct H as [[ms gs] [_ H]].
  apply bind_outcome_Ok in H. destruct H as [static_id [_ H]].
  apply bind_outcome_Ok in H. destruct H as [b0 [Hb0 H]].
  apply bind_outcome_Ok in H. destruct H as [b1 [Hb1 H]].
  apply bind_outcome_Ok in H. destruct H as [b2 [Hb2 H]].
  apply bind_outcome_Ok in H. destruct H as [b3 [Hb3 H]].
  destruct (negb (valid (sources_ b3) && valid (targets_ b3))); [discriminate |].
  inversion H; subst b3; clear H.
  destruct (List.length syn_specs); [discriminate |].
  injection Hb0 as Hb0. subst b0.
  apply set_synapse_specs_plasticity in Hb1. destruct Hb1 as (U1 & _ & _).
  cbn in U1.
  assert (Hreset : use_structural_plasticity_ b = use_structural_plasticity_ b2
                   /\ pre_synaptic_element_name_ b = pre_synaptic_element_name_ b2
                   /\ post_synaptic_element_name_ b = post_synaptic_element_name_ b2).
  { destruct (make_symmetric_ b2).
    - destruct (reset_all_parameters_keeps K _ _ Hb3) as (_ & _ & _ & _ & _ & _ & R1 & R2 & R3 & _).
      repeat split; assumption.
    - inversion Hb3. repeat split; reflexivity. }
  destruct Hreset as (R1 & R2 & R3). rewrite R1, R2, R3.
  apply set_structural_plasticity_parameters_step in Hb2.
  destruct Hb2 as [[-> Hnone] | [spec [pre [post [-> [Hpre [Hpost ->]]]]]]].
  - left. split; [exact U1 | exact Hnone].
  - right. exists spec, pre, post.
    split; [reflexivity |]. split; [exact Hpre |]. split; [exact Hpost |].
    destruct b1. repeat split; reflexivity.
Qed.

(** Property X6.  A constructed builder uses structural plasticity exactly
    when its single synapse specification names both a pre- and a
    postsynaptic element, and then it records those names; otherwise no
    specification names either element.  [SPBuilder] is constructed in the
    first case and raises [BadProperty] in the second. *)
Theorem structural_plasticity_needs_both_elements (K : Kernel)
    (sources targets : NodeCollection) (conn_spec : Dictionary)
    (syn_specs : list Dictionary) (b : ConnBuilder) :
  ConnBuilder_ctor K sources targets conn_spec syn_specs = Ok b ->
  (use_structural_plasticity_ b = false
   /\ Forall (fun spec => known spec names.pre_synaptic_element = false
                          /\ known spec names.post_synaptic_element = false) syn_specs
   /\ SPBuilder_ctor K sources targets conn_spec syn_specs
      = Throw (BadProperty "pre_synaptic_element and/or post_synaptic_elements is missing."))
  \/ (exists spec pre post,
        syn_specs = [spec]
        /\ dict_find spec names.pre_synaptic_element = Some (StringDatum pre)
        /\ dict_find spec names.post_synaptic_element = Some (StringDatum post)
        /\ use_structural_plasticity_ b = true
        /\ pre_synaptic_element_name_ b = pre
        /\ post_synaptic_element_name_ b = post
        /\ SPBuilder_ctor K sources targets conn_spec syn_specs = Ok (mkSPBuilder b)).
Proof.
  intros Hctor.
  destruct (ConnBuilder_ctor_plasticity K _ _ _ _ _ Hctor)
    as [[Hu Hnone] | [spec [pre [post (Hs & Hpre & Hpost & Hu & Epre & Epost)]]]].
  - left. split; [exact Hu |]. split; [exact Hnone |].
    unfold SPBuilder_ctor. rewrite Hctor. simpl. rewrite Hu. reflexivity.
  - right. exists spec, pre, post.
    repeat (split; [assumption |]).
    unfold SPBuilder_ctor. rewrite Hctor. simpl. rewrite Hu. reflexivity.
Qed.

Lemma structural_plasticity_needs_both_elements_witness :
  let K := scenario_kernel 2 4 in
  let plastic := [ ("synapse_model"%string, StringDatum "static_synapse");
                   ("pre_synaptic_element"%string, StringDatum "Axon");
                   ("post_synaptic_element"%string, StringDatum "Den") ] in
  is_Ok (SPBuilder_ctor K (node_range 1 2) (node_range 3 2) [] [plastic]) = true
  /\ is_BadProperty (SPBuilder_ctor K (node_range 1 2) (node_range 3 2) []
                       [static_synapse_spec]) = true.
Proof.
  intros K plastic. split.
  - destruct (ConnBuilder_ctor K (node_range 1 2) (node_range 3 2) [] [plastic])
      as [b | e | why |] eqn:Hb; try (vm_compute in Hb; discriminate).
    destruct (structural_plasticity_needs_both_elements K _ _ _ _ _ Hb)
      as [[_ [Hnone _]] | [spec [pre [post (_ & _ & _ & _ & _ & _ & Hsp)]]]].
    + inversion Hnone as [| ? ? [Hpre _] _]. vm_compute in Hpre. discriminate.
    + rewrite Hsp. reflexivity.
  - destruct (ConnBuilder_ctor K (node_range 1 2) (node_range 3 2) [] [static_synapse_spec])
      as [b | e | why |] eqn:Hb; try (vm_compute in Hb; discriminate).
    destruct (structural_plasticity_needs_both_elements K _ _ _ _ _ Hb)
      as [[_ [_ Hsp]] | [spec [pre [post (Hs & Hpre & _)]]]].
    + rewrite Hsp. reflexivity.
    + inversion Hs; subst spec. vm_compute in Hpre. discriminate.
Defined.

(** ** The constructors of the rules, continued *)

(** Property X7.  Once the base class is constructed, [OneToOneBuilder] is
    constructed exactly when the two collections have the same size, and
    raises [DimensionMismatch] otherwise. *)
Theorem one_to_one_needs_equal_sizes (K : Kernel)
    (sources targets : NodeCollection) (conn_spec : Dictionary)
    (syn_specs : list Dictionary) (b : ConnBuilder) :
  ConnBuilder_ctor K sources targets conn_spec syn_specs = Ok b ->
  (List.length (node_ids sources) = List.length (node_ids targets) ->
   OneToOneBuilder_ctor K sources targets conn_spec syn_specs = Ok (mkOneToOneBuilder b))
  /\ (List.length (node_ids sources) <> List.length (node_ids targets) ->
      OneToOneBuilder_ctor K sources targets conn_spec syn_specs
      = Throw (DimensionMismatch "Source and Target population must be of the same size.")).
Proof.
  intros Hb.
  destruct (ConnBuilder_ctor_fields K _ _ _ _ _ Hb) as [Hs [Ht _]].
  unfold OneToOneBuilder_ctor. rewrite Hb. simpl. rewrite Hs, Ht. unfold nc_size.
  split; intros Hlen.
  - rewrite Hlen, Z.eqb_refl. reflexivity.
  - destruct (Z.eqb_spec (Z.of_nat (List.length (node_ids sources)))
                (Z.of_nat (List.length (node_ids targets)))) as [E | _]; [| reflexivity].
    apply Nat2Z.inj in E. contradiction.
Qed.

Lemma one_to_one_needs_equal_sizes_witness :
  let K := scenario_kernel 2 4 in
  OneToOneBuilder_ctor K (node_range 1 3) (node_range 3 2) [] [static_synapse_spec]
  = Throw (DimensionMismatch "Source and Target population must be of the same size.").
Proof.
  intros K.
  destruct (ConnBuilder_ctor K (node_range 1 3) (node_range 3 2) [] [static_synapse_spec])
    as [b | e | why |] eqn:Hb; try (vm_compute in Hb; discriminate).
  apply (one_to_one_needs_equal_sizes K _ _ _ _ _ Hb). vm_compute. discriminate.
Defined.

Lemma nine_tenths_lt n value :
  Qltb ((9 # 10) * inject_Z n) (inject_Z value) = true <-> (9 * n < 10 * value)%Z.
Proof.
  rewrite Qltb_true_iff. unfold Qlt, Qmult, inject_Z.
  cbn [Qnum Qden Pos.mul]. lia.
Qed.

(** Property X8.  For a scalar [outdegree], a non-empty target collection and
    a constructed base class, [FixedOutDegreeBuilder] is constructed exactly
    when the outdegree is not negative and, with multapses disallowed, not
    larger than the number of targets; otherwise it raises [BadProperty].
    The infinite-loop warning is logged exactly when multapses and autapses
    are disallowed and the outdegree equals the number of targets; the
    long-connecting-times warning exactly when multapses are disallowed, the
    outdegree is accepted, exceeds nine tenths of the number of targets and
    the first warning does not apply. *)
Theorem fixed_outdegree_is_accepted_iff (K : Kernel)
    (sources targets : NodeCollection) (conn_spec : Dictionary)
    (syn_specs : list Dictionary) (b : ConnBuilder) (value : Z) :
  ConnBuilder_ctor K sources targets conn_spec syn_specs = Ok b ->
  node_ids targets <> [] ->
  fits_long targets ->
  dict_find conn_spec names.outdegree = Some (IntegerDatum value) ->
  let built := FixedOutDegreeBuilder_ctor K sources targets conn_spec syn_specs in
  let multapses := flag_of conn_spec names.allow_multapses true in
  let autapses := flag_of conn_spec names.allow_autapses true in
  let n := nc_size targets in
  ((0 <= value)%Z /\ (multapses = true \/ (value <= n)%Z) ->
   fst built = Ok (mkFixedOutDegreeBuilder b (ConstantParameter (inject_Z value))))
  /\ ((value < 0)%Z \/ (multapses = false /\ (n < value)%Z) ->
      is_BadProperty (fst built) = true)
  /\ (In outdegree_warning_infinite_loop (snd built) <->
      multapses = false /\ autapses = false /\ value = n)
  /\ (In outdegree_warning_long_times (snd built) <->
      multapses = false /\ (9 * n < 10 * value)%Z /\ (value <= n)%Z
      /\ ~ (autapses = false /\ value = n)).
Proof.
  intros Hb Hne Hfit Hv built multapses autapses n.
  destruct (ConnBuilder_ctor_fields K _ _ _ _ _ Hb) as [_ [Ht [Haa [Ham _]]]].
  assert (Hn : (0 < n)%Z).
  { unfold n. pose proof (nc_size_nonneg targets).
    assert (nc_size targets <> 0%Z) by (rewrite nc_size_zero_iff; exact Hne). lia. }
  assert (E : built =
    if negb multapses then
      if (value >? n)%Z
      then (Throw (BadProperty "Outdegree cannot be larger than population size."), [])
      else if (value =? n)%Z && negb autapses
      then (Ok (mkFixedOutDegreeBuilder b (ConstantParameter (inject_Z value))),
            [outdegree_warning_infinite_loop])
      else
        let logged :=
          if Qltb ((9 # 10) * inject_Z n) (inject_Z value)
          then [outdegree_warning_long_times] else [] in
        if (value <? 0)%Z
        then (Throw (BadProperty "Outdegree cannot be less than zero."), logged)
        else (Ok (mkFixedOutDegreeBuilder b (ConstantParameter (inject_Z value))), logged)
    else
      if (value <? 0)%Z
      then (Throw (BadProperty "Outdegree cannot be less than zero."), [])
      else (Ok (mkFixedOutDegreeBuilder b (ConstantParameter (inject_Z value))), [])).
  { unfold built, FixedOutDegreeBuilder_ctor. rewrite Hb, Ht, (to_long_nc_size _ Hfit).
    fold n. destruct (Z.eqb_spec n 0); [lia |].
    rewrite (dict_get_found _ _ _ Hv). cbn [getValue_long].
    rewrite Ham, Haa. reflexivity. }
  rewrite E. clear E.
  assert (Hwarn : outdegree_warning_infinite_loop <> outdegree_warning_long_times)
    by discriminate.
  destruct multapses; cbn [negb].
  - (* multapses allowed *)
    destruct (Z.ltb_spec value 0); cbn [fst snd].
    + split; [intros [? _]; lia |]. split; [reflexivity |].
      split; (split; [intros [] | intros [Hm _]; discriminate]).
    + split; [reflexivity |]. split; [intros [? | [? _]]; [lia | discriminate] |].
      split; (split; [intros [] | intros [Hm _]; discriminate]).
  - destruct (Z.gtb_spec value n); cbn [fst snd].
    + split; [intros [_ [? | ?]]; [discriminate | lia] |]. split; [reflexivity |].
      split; (split; [intros [] | intros ?; lia]).
    + destruct (Z.eqb_spec value n) as [Hvn | Hvn]; destruct autapses; cbn [negb andb fst snd].
      * (* value = n, autapses allowed *)
        destruct (Z.ltb_spec value 0); [lia |]. cbn [fst snd].
        split; [reflexivity |]. split; [intros [? | [_ ?]]; lia |].
        destruct (Qltb ((9 # 10) * inject_Z n) (inject_Z value)) eqn:Hq.
        -- apply nine_tenths_lt in Hq.
           split; [split; [intros [Hc | []]; exfalso; apply Hwarn; symmetry; exact Hc
                          | intros (_ & Hc & _); discriminate] |].
           split; [intros _ | intros _; left; reflexivity].
           split; [reflexivity |]. split; [exact Hq |]. split; [lia |].
           intros [Hc _]. discriminate.
        -- split; [split; [intros [] | intros (_ & Hc & _); discriminate] |].
           split; [intros [] |].
           intros (_ & Hc & _). apply nine_tenths_lt in Hc. congruence.
      * (* value = n, autapses disallowed: the constructor returns early *)
        split; [reflexivity |]. split; [intros [? | [_ ?]]; lia |].
        split; [split; [intros _; repeat split; assumption || reflexivity
                       | intros _; left; reflexivity] |].
        split; [intros [Hc | []]; exfalso; apply Hwarn; exact Hc |].
        intros (_ & _ & _ & Hc). exfalso. apply Hc. split; [reflexivity | exact Hvn].
      * destruct (Z.ltb_spec value 0); cbn [fst snd].
        -- split; [intros [? _]; lia |]. split; [reflexivity |].
           destruct (Qltb ((9 # 10) * inject_Z n) (inject_Z value)) eqn:Hq;
             [apply nine_tenths_lt in Hq; lia |].
           split; [split; [intros [] | intros (_ & _ & ?); contradiction] |].
           split; [intros [] | intros (_ & ? & _); lia].
        -- split; [reflexivity |]. split; [intros [? | [_ ?]]; lia |].
           destruct (Qltb ((9 # 10) * inject_Z n) (inject_Z value)) eqn:Hq.
           ++ apply nine_tenths_lt in Hq.
              split; [split; [intros [Hc | []]; exfalso; apply Hwarn; symmetry; exact Hc
                             | intros (_ & _ & ?); contradiction] |].
              split; [intros _ | intros _; left; reflexivity].
              split; [reflexivity |]. split; [exact Hq |]. split; [lia |].
              intros [_ ?]. contradiction.
           ++ split; [split; [intros [] | intros (_ & _ & ?); contradiction] |].
              split; [intros [] |].
              intros (_ & Hc & _). apply nine_tenths_lt in Hc. congruence.
      * destruct (Z.ltb_spec value 0); cbn [fst snd].
        -- split; [intros [? _]; lia |]. split; [reflexivity |].
           destruct (Qltb ((9 # 10) * inject_Z n) (inject_Z value)) eqn:Hq;
             [apply nine_tenths_lt in Hq; lia |].
           split; [split; [intros [] | intros (_ & _ & ?); contradiction] |].
           split; [intros [] | intros (_ & ? & _); lia].
        -- split; [reflexivity |]. split; [intros [? | [_ ?]]; lia |].
           destruct (Qltb ((9 # 10) * inject_Z n) (inject_Z value)) eqn:Hq.
           ++ apply nine_tenths_lt in Hq.
              split; [split; [intros [Hc | []]; exfalso; apply Hwarn; symmetry; exact Hc
                             | intros (_ & _ & ?); contradiction] |].
              split; [intros _ | intros _; left; reflexivity].
              split; [reflexivity |]. split; [exact Hq |]. split; [lia |].
              intros [_ ?]. contradiction.
           ++ split; [split; [intros [] | intros (_ & _ & ?); contradiction] |].
              split; [intros [] |].
              intros (_ & Hc & _). apply nine_tenths_lt in Hc. congruence.
Qed.

Lemma fixed_outdegree_is_accepted_iff_witness :
  let K := scenario_kernel 1 10 in
  let spec := [ ("allow_multapses"%string, BoolDatum false);
                ("outdegree"%string, IntegerDatum 10) ] in
  let built := FixedOutDegreeBuilder_ctor K (node_range 1 10) (node_range 1 10) spec
                 [static_synapse_spec] in
  is_Ok (fst built) = true /\ In outdegree_warning_long_times (snd built).
Proof.
  intros K spec built.
  destruct (ConnBuilder_ctor K (node_range 1 10) (node_range 1 10) spec [static_synapse_spec])
    as [b | e | why |] eqn:Hb; try (vm_compute in Hb; discriminate).
  assert (Hne : node_ids (node_range 1 10) <> []) by (vm_compute; discriminate).
  assert (Hfit : fits_long (node_range 1 10)) by reflexivity.
  destruct (fixed_outdegree_is_accepted_iff K (node_range 1 10) (node_range 1 10) spec
              [static_synapse_spec] b 10 Hb Hne Hfit eq_refl) as (Hok & _ & _ & Hlong).
  split.
  - unfold built. rewrite Hok; [reflexivity |].
    split; [lia | right; vm_compute; discriminate].
  - apply Hlong.
    split; [reflexivity |]. split; [vm_compute; reflexivity |].
    split; [vm_compute; discriminate |]. intros [Hc _]. discriminate.
Defined.

(** Property X9.  For a scalar [indegree], a non-empty source collection and
    a constructed base class, [FixedInDegreeBuilder] is constructed exactly
    when the indegree is not negative and, with multapses disallowed, not
    larger than the number of sources; otherwise it raises [BadProperty].
    The infinite-loop warning is logged exactly when multapses and autapses
    are disallowed and the indegree equals the number of sources; the
    long-connecting-times warning exactly when multapses are disallowed, the
    indegree is accepted, exceeds nine tenths of the number of sources and
    the first warning does not apply. *)
Theorem fixed_indegree_is_accepted_iff (K : Kernel)
    (sources targets : NodeCollection) (conn_spec : Dictionary)
    (syn_specs : list Dictionary) (b : ConnBuilder) (value : Z) :
  ConnBuilder_ctor K sources targets conn_spec syn_specs = Ok b ->
  node_ids sources <> [] ->
  fits_long sources ->
  dict_find conn_spec names.indegree = Some (IntegerDatum value) ->
  let built := FixedInDegreeBuilder_ctor K sources targets conn_spec syn_specs in
  let multapses := flag_of conn_spec names.allow_multapses true in
  let autapses := flag_of conn_spec names.allow_autapses true in
  let n := nc_size sources in
  ((0 <= value)%Z /\ (multapses = true \/ (value <= n)%Z) ->
   fst built = Ok (mkFixedInDegreeBuilder b (ConstantParameter (inject_Z value))))
  /\ ((value < 0)%Z \/ (multapses = false /\ (n < value)%Z) ->
      is_BadProperty (fst built) = true)
  /\ (In indegree_warning_infinite_loop (snd built) <->
      multapses = false /\ autapses = false /\ value = n)
  /\ (In indegree_warning_long_times (snd built) <->
      multapses = false /\ (9 * n < 10 * value)%Z /\ (value <= n)%Z
      /\ ~ (autapses = false /\ value = n)).
Proof.
  intros Hb Hne Hfit Hv built multapses autapses n.
  destruct (ConnBuilder_ctor_fields K _ _ _ _ _ Hb) as [Ht [_ [Haa [Ham _]]]].
  assert (Hn : (0 < n)%Z).
  { unfold n. pose proof (nc_size_nonneg sources).
    assert (nc_size sources <> 0%Z) by (rewrite nc_size_zero_iff; exact Hne). lia. }
  assert (E : built =
    if negb multapses then
      if (value >? n)%Z
      then (Throw (BadProperty "Indegree cannot be larger than population size."), [])
      else if (value =? n)%Z && negb autapses
      then (Ok (mkFixedInDegreeBuilder b (ConstantParameter (inject_Z value))),
            [indegree_warning_infinite_loop])
      else
        let logged :=
          if Qltb ((9 # 10) * inject_Z n) (inject_Z value)
          then [indegree_warning_long_times] else [] in
        if (value <? 0)%Z
        then (Throw (BadProperty "Indegree cannot be less than zero."), logged)
        else (Ok (mkFixedInDegreeBuilder b (ConstantParameter (inject_Z value))), logged)
    else
      if (value <? 0)%Z
      then (Throw (BadProperty "Indegree cannot be less than zero."), [])
      else (Ok (mkFixedInDegreeBuilder b (ConstantParameter (inject_Z value))), [])).
  { unfold built, FixedInDegreeBuilder_ctor. rewrite Hb, Ht, (to_long_nc_size _ Hfit).
    fold n. destruct (Z.eqb_spec n 0); [lia |].
    rewrite (dict_get_found _ _ _ Hv). cbn [getValue_long].
    rewrite Ham, Haa. reflexivity. }
  rewrite E. clear E.
  assert (Hwarn : indegree_warning_infinite_loop <> indegree_warning_long_times)
    by discriminate.
  destruct multapses; cbn [negb].
  - (* multapses allowed *)
    destruct (Z.ltb_spec value 0); cbn [fst snd].
    + split; [intros [? _]; lia |]. split; [reflexivity |].
      split; (split; [intros [] | intros [Hm _]; discriminate]).
    + split; [reflexivity |]. split; [intros [? | [? _]]; [lia | discriminate] |].
      split; (split; [intros [] | intros [Hm _]; discriminate]).
  - destruct (Z.gtb_spec value n); cbn [fst snd].
    + split; [intros [_ [? | ?]]; [discriminate | lia] |]. split; [reflexivity |].
      split; (split; [intros [] | intros ?; lia]).
    + destruct (Z.eqb_spec value n) as [Hvn | Hvn]; destruct autapses; cbn [negb andb fst snd].
      * (* value = n, autapses allowed *)
        destruct (Z.ltb_spec value 0); [lia |]. cbn [fst snd].
        split; [reflexivity |]. split; [intros [? | [_ ?]]; lia |].
        destruct (Qltb ((9 # 10) * inject_Z n) (inject_Z value)) eqn:Hq.
        -- apply nine_tenths_lt in Hq.
           split; [split; [intros [Hc | []]; exfalso; apply Hwarn; symmetry; exact Hc
                          | intros (_ & Hc & _); discriminate] |].
           split; [intros _ | intros _; left; reflexivity].
           split; [reflexivity |]. split; [exact Hq |]. split; [lia |].
           intros [Hc _]. discriminate.
        -- split; [split; [intros [] | intros (_ & Hc & _); discriminate] |].
           split; [intros [] |].
           intros (_ & Hc & _). apply nine_tenths_lt in Hc. congruence.
      * (* value = n, autapses disallowed: the constructor returns early *)
        split; [reflexivity |]. split; [intros [? | [_ ?]]; lia |].
        split; [split; [intros _; repeat split; assumption || reflexivity
                       | intros _; left; reflexivity] |].
        split; [intros [Hc | []]; exfalso; apply Hwarn; exact Hc |].
        intros (_ & _ & _ & Hc). exfalso. apply Hc. split; [reflexivity | exact Hvn].
      * destruct (Z.ltb_spec value 0); cbn [fst snd].
        -- split; [intros [? _]; lia |]. split; [reflexivity |].
           destruct (Qltb ((9 # 10) * inject_Z n) (inject_Z value)) eqn:Hq;
             [apply nine_tenths_lt in Hq; lia |].
           split; [split; [intros [] | intros (_ & _ & ?); contradiction] |].
           split; [intros [] | intros (_ & ? & _); lia].
        -- split; [reflexivity |]. split; [intros [? | [_ ?]]; lia |].
           destruct (Qltb ((9 # 10) * inject_Z n) (inject_Z value)) eqn:Hq.
           ++ apply nine_tenths_lt in Hq.
              split; [split; [intros [Hc | []]; exfalso; apply Hwarn; symmetry; exact Hc
                             | intros (_ & _ & ?); contradiction] |].
              split; [intros _ | intros _; left; reflexivity].
              split; [reflexivity |]. split; [exact Hq |]. split; [lia |].
              intros [_ ?]. contradiction.
           ++ split; [split; [intros [] | intros (_ & _ & ?); contradiction] |].
              split; [intros [] |].
              intros (_ & Hc & _). apply nine_tenths_lt in Hc. congruence.
      * destruct (Z.ltb_spec value 0); cbn [fst snd].
        -- split; [intros [? _]; lia |]. split; [reflexivity |].
           destruct (Qltb ((9 # 10) * inject_Z n) (inject_Z value)) eqn:Hq;
             [apply nine_tenths_lt in Hq; lia |].
           split; [split; [intros [] | intros (_ & _ & ?); contradiction] |].
           split; [intros [] | intros (_ & ? & _); lia].
        -- split; [reflexivity |]. split; [intros [? | [_ ?]]; lia |].
           destruct (Qltb ((9 # 10) * inject_Z n) (inject_Z value)) eqn:Hq.
           ++ apply nine_tenths_lt in Hq.
              split; [split; [intros [Hc | []]; exfalso; apply Hwarn; symmetry; exact Hc
                             | intros (_ & _ & ?); contradiction] |].
              split; [intros _ | intros _; left; reflexivity].
              split; [reflexivity |]. split; [exact Hq |]. split; [lia |].
              intros [_ ?]. contradiction.
           ++ split; [split; [intros [] | intros (_ & _ & ?); contradiction] |].
              split; [intros [] |].
              intros (_ & Hc & _). apply nine_tenths_lt in Hc. congruence.
Qed.

Lemma fixed_indegree_is_accepted_iff_witness :
  let K := scenario_kernel 1 10 in
  let spec := [ ("allow_multapses"%string, BoolDatum false);
                ("indegree"%string, IntegerDatum 10) ] in
  let built := FixedInDegreeBuilder_ctor K (node_range 1 10) (node_range 1 10) spec
                 [static_synapse_spec] in
  is_Ok (fst built) = true /\ In indegree_warning_long_times (snd built).
Proof.
  intros K spec built.
  destruct (ConnBuilder_ctor K (node_range 1 10) (node_range 1 10) spec [static_synapse_spec])
    as [b | e | why |] eqn:Hb; try (vm_compute in Hb; discriminate).
  assert (Hne : node_ids (node_range 1 10) <> []) by (vm_compute; discriminate).
  assert (Hfit : fits_long (node_range 1 10)) by reflexivity.
  destruct (fixed_indegree_is_accepted_iff K (node_range 1 10) (node_range 1 10) spec
              [static_synapse_spec] b 10 Hb Hne Hfit eq_refl) as (Hok & _ & _ & Hlong).
  split.
  - unfold built. rewrite Hok; [reflexivity |].
    split; [lia | right; vm_compute; discriminate].
  - apply Hlong.
    split; [reflexivity |]. split; [vm_compute; reflexivity |].
    split; [vm_compute; discriminate |]. intros [Hc _]. discriminate.
Defined.



(** ** The tests and the dispatch of [connect()] and [disconnect()] *)

Lemma check_requires_symmetric_rejects (K : Kernel) rule b ids id :
  In id ids ->
  requires_symmetric K id = true ->
  is_symmetric rule b = false ->
  make_symmetric_ b = false ->
  check_requires_symmetric K rule b ids = Throw (BadProperty requires_symmetric_message).
Proof.
  intros Hin Hreq Hsym Hms. induction ids as [| x ids IH]; [contradiction |].
  simpl. rewrite Hsym, Hms. simpl. rewrite andb_true_r.
  destruct (requires_symmetric K x) eqn:E; [reflexivity |].
  destruct Hin as [-> | Hin]; [congruence | exact (IH Hin)].
Qed.

(** Property X11.  [connect()] makes its tests before it runs the rule: a
    synapse model that requires symmetric connections, used with a rule
    that is not symmetric and without [make_symmetric], raises
    [BadProperty]; [make_symmetric] with a rule that does not support
    symmetric connections raises [NotImplemented]; [make_symmetric] together
    with structural plasticity raises [NotImplemented].  In each case
    nothing has been connected, drawn or changed. *)
Theorem connect_tests_before_it_runs_the_rule (K : Kernel) (rule : RuleMethods) (w : World) :
  (forall id,
      In id (synapse_model_id_ (builder w)) ->
      requires_symmetric K id = true ->
      is_symmetric rule (builder w) = false ->
      make_symmetric_ (builder w) = false ->
      ConnBuilder_connect K rule w = (Throw (BadProperty requires_symmetric_message), w))
  /\ (make_symmetric_ (builder w) = true ->
      supports_symmetric rule = false ->
      ConnBuilder_connect K rule w
      = (Throw (NotImplemented "This connection rule does not support symmetric connections."),
         w))
  /\ (make_symmetric_ (builder w) = true ->
      supports_symmetric rule = true ->
      use_structural_plasticity_ (builder w) = true ->
      ConnBuilder_connect K rule w
      = (Throw (NotImplemented
           "Symmetric connections are not supported in combination with structural plasticity."),
         w)).
Proof.
  split; [| split].
  - intros id Hin Hreq Hsym Hms.
    unfold ConnBuilder_connect, ConnBuilder_connect_dispatch, bind, get_builder, lift.
    rewrite (check_requires_symmetric_rejects K rule (builder w) _ id Hin Hreq Hsym Hms).
    reflexivity.
  - intros Hms Hsup.
    unfold ConnBuilder_connect, ConnBuilder_connect_dispatch, bind, get_builder, lift.
    rewrite (check_requires_symmetric_make_symmetric K rule (builder w) _ Hms).
    rewrite Hms, Hsup. reflexivity.
  - intros Hms Hsup Hsp.
    unfold ConnBuilder_connect, ConnBuilder_connect_dispatch, bind, get_builder, lift.
    rewrite (check_requires_symmetric_make_symmetric K rule (builder w) _ Hms).
    rewrite Hms, Hsup, Hsp. reflexivity.
Qed.

Lemma connect_tests_before_it_runs_the_rule_witness :
  let K := scenario_kernel 2 4 in
  let rule := FixedInDegreeBuilder_methods K 10 false
                (mkFixedInDegreeBuilder
                   (scenario_builder K (node_range 1 2) (node_range 3 2)
                      [("make_symmetric"%string, BoolDatum true)])
                   (ConstantParameter 1)) in
  let w := initial_world (scenario_builder K (node_range 1 2) (node_range 3 2)
                            [("make_symmetric"%string, BoolDatum true)]) in
  ConnBuilder_connect K rule w
  = (Throw (NotImplemented "This connection rule does not support symmetric connections."), w).
Proof.
  intros K rule w.
  apply (connect_tests_before_it_runs_the_rule K rule w); vm_compute; reflexivity.
Defined.

(** Property X12.  When the tests pass, [connect()] hands the work to exactly
    one member of the rule: with structural plasticity to [sp_connect_];
    otherwise to [connect_], and to [connect_] only once when no
    symmetrisation is requested or the rule creates the symmetric
    connections itself.  [disconnect()] chooses between [sp_disconnect_] and
    [disconnect_] in the same way. *)
Theorem connect_and_disconnect_dispatch (K : Kernel) (rule : RuleMethods) (w : World) :
  (forall id, In id (synapse_model_id_ (builder w)) ->
              requires_symmetric K id = true ->
              is_symmetric rule (builder w) || make_symmetric_ (builder w) = true) ->
  (make_symmetric_ (builder w) = true -> supports_symmetric rule = true) ->
  (use_structural_plasticity_ (builder w) = true ->
   make_symmetric_ (builder w) = false ->
   ConnBuilder_connect_dispatch K rule w = sp_connect_ rule w)
  /\ (use_structural_plasticity_ (builder w) = false ->
      keeps_interface (connect_ rule) ->
      make_symmetric_ (builder w) = false
      \/ creates_symmetric_connections_ (builder w) = true ->
      ConnBuilder_connect_dispatch K rule w = connect_ rule w)
  /\ (use_structural_plasticity_ (builder w) = true ->
      ConnBuilder_disconnect_dispatch rule w = sp_disconnect_ rule w)
  /\ (use_structural_plasticity_ (builder w) = false ->
      ConnBuilder_disconnect_dispatch rule w = disconnect_ rule w).
Proof.
  intros Hreq Hsup.
  assert (Hcheck : check_requires_symmetric K rule (builder w)
                     (synapse_model_id_ (builder w)) = Ok tt).
  { generalize (synapse_model_id_ (builder w)) Hreq. intros ids.
    induction ids as [| x ids IH]; intros Hids; [reflexivity |].
    simpl. destruct (requires_symmetric K x) eqn:E.
    - rewrite (Hids x (or_introl eq_refl) E). simpl.
      apply IH. intros id Hid. apply Hids. right. exact Hid.
    - simpl. apply IH. intros id Hid. apply Hids. right. exact Hid. }
  assert (Hsupports : make_symmetric_ (builder w) && negb (supports_symmetric rule) = false).
  { destruct (make_symmetric_ (builder w)) eqn:E; [| reflexivity].
    rewrite (Hsup eq_refl). reflexivity. }
  split; [| split; [| split]].
  - intros Hsp Hms.
    unfold ConnBuilder_connect_dispatch, bind, get_builder, lift.
    rewrite Hcheck, Hsupports, Hsp, Hms. unfold ret.
    destruct (sp_connect_ rule w) as [[[] | e | why |] w']; reflexivity.
  - intros Hsp Hkeeps Honce.
    unfold ConnBuilder_connect_dispatch, bind, get_builder, lift.
    rewrite Hcheck, Hsupports, Hsp. unfold ret.
    pose proof (Hkeeps w) as Hinterface.
    destruct (connect_ rule w) as [[[] | e | why |] w'] eqn:Hrun; try reflexivity.
    simpl in Hinterface.
    assert (Hflags : make_symmetric_ (builder w')
                     && negb (creates_symmetric_connections_ (builder w')) = false).
    { unfold interface in Hinterface. inversion Hinterface as [[Hs Ht Ha Hm Hms Hcs]].
      rewrite Hms, Hcs. destruct Honce as [-> | ->]; [reflexivity | apply andb_false_r]. }
    rewrite Hflags. reflexivity.
  - intros Hsp. unfold ConnBuilder_disconnect_dispatch, bind, get_builder. rewrite Hsp.
    reflexivity.
  - intros Hsp. unfold ConnBuilder_disconnect_dispatch, bind, get_builder. rewrite Hsp.
    reflexivity.
Qed.

Lemma SymmetricBernoulliBuilder_connect__keeps_interface (K : Kernel) fuel requires_proxies
    p :
  keeps_interface (SymmetricBernoulliBuilder_connect_ K fuel requires_proxies p).
Proof.
  intros w.
  assert (H : respects interface_frame
                (SymmetricBernoulliBuilder_connect_ K fuel requires_proxies p)).
  { unfold SymmetricBernoulliBuilder_connect_.
    apply respects_bind; [apply respects_get_builder |]. intros b.
    apply respects_omp_parallel. intros tid _.
    apply (respects_try_catch _ admits_capture_interface_frame).
    apply respects_for_each. intros tnode_id _.
    apply respects_bind.
    - apply respects_SymmetricBernoulliBuilder_draw_indegree. exact I.
    - intros indegree.
      apply respects_SymmetricBernoulliBuilder_choose_sources; [intros s t; exact I | exact I]. }
  exact (proj1 (H w)).
Qed.

Lemma connect_and_disconnect_dispatch_witness :
  let K := scenario_kernel 2 4 in
  let spec := [ ("p"%string, DoubleDatum (1 # 2));
                ("allow_autapses"%string, BoolDatum false);
                ("make_symmetric"%string, BoolDatum true) ] in
  match SymmetricBernoulliBuilder_ctor K (node_range 1 4) (node_range 1 4) spec
          [static_synapse_spec] with
  | Ok bld =>
      let rule := SymmetricBernoulliBuilder_methods K 100 false bld in
      let w := initial_world (symmetric_bernoulli_base bld) in
      make_symmetric_ (builder w) = true
      /\ ConnBuilder_connect_dispatch K rule w = connect_ rule w
  | _ => False
  end.
Proof.
  intros K spec.
  destruct (SymmetricBernoulliBuilder_ctor K (node_range 1 4) (node_range 1 4) spec
              [static_synapse_spec]) as [bld | e | why |] eqn:Hbld;
    try (vm_compute in Hbld; discriminate).
  intros rule w.
  assert (Hms : make_symmetric_ (builder w) = true).
  { vm_compute in Hbld. injection Hbld as E. unfold w. rewrite <- E. reflexivity. }
  assert (Hcreates : creates_symmetric_connections_ (builder w) = true).
  { vm_compute in Hbld. injection Hbld as E. unfold w. rewrite <- E. reflexivity. }
  assert (Hsp : use_structural_plasticity_ (builder w) = false).
  { vm_compute in Hbld. injection Hbld as E. unfold w. rewrite <- E. reflexivity. }
  split; [exact Hms |].
  destruct (connect_and_disconnect_dispatch K rule w) as (_ & Hconnect & _).
  - intros id _ Hreq. discriminate Hreq.
  - intros _. reflexivity.
  - apply Hconnect.
    + exact Hsp.
    + apply SymmetricBernoulliBuilder_connect__keeps_interface.
    + right. exact Hcreates.
Defined.

(** ** Exceptions stay inside the parallel region *)

Lemma try_catch_never_throws tid (body : M unit) : never_throws (try_catch tid body).
Proof.
  intros w e w'. unfold try_catch.
  destruct (body w) as [[[] | err | why |] w1]; try discriminate.
  destruct (nth_error (exceptions_raised_ (builder w1)) tid); discriminate.
Qed.

Lemma for_each_never_throws {A} (xs : list A) (body : A -> M unit) :
  (forall x, never_throws (body x)) -> never_throws (for_each xs body).
Proof.
  intros Hbody. induction xs as [| x xs IH]; intros w e w'; simpl.
  - discriminate.
  - unfold bind. destruct (body x w) as [[[] | err | why |] w1] eqn:E; try discriminate.
    + apply IH.
    + exfalso. exact (Hbody x w err w1 E).
Qed.

Ltac region_never_throws worker :=
  let w := fresh "w" in
  let e := fresh "e" in
  let w' := fresh "w'" in
  let tid := fresh "tid" in
  intros w e w'; unfold worker, omp_parallel; unfold bind at 1; unfold get_builder;
  apply for_each_never_throws; intros tid; apply try_catch_never_throws.

Lemma OneToOneBuilder_disconnect__never_throws (K : Kernel) :
  never_throws (OneToOneBuilder_disconnect_ K).
Proof. region_never_throws OneToOneBuilder_disconnect_. Qed.

Lemma OneToOneBuilder_sp_disconnect__never_throws (K : Kernel) :
  never_throws (OneToOneBuilder_sp_disconnect_ K).
Proof. region_never_throws OneToOneBuilder_sp_disconnect_. Qed.

Lemma rethrow_from_Throw_inv slots e :
  forall remaining tid0,
    rethrow_from slots tid0 remaining = Throw e ->
    (exists tid, tid0 <= tid < tid0 + remaining /\ nth_error slots tid = Some (Some e))
    \/ (e = out_of_range "vector::at" /\ List.length slots < tid0 + remaining).
Proof.
  induction remaining as [| remaining IH]; intros tid0 H; simpl in H; [discriminate |].
  destruct (nth_error slots tid0) as [[e' |] |] eqn:E.
  - inversion H; subst e'. left. exists tid0. split; [lia | exact E].
  - destruct (IH (S tid0) H) as [[tid [Htid Hat]] | [He Hlen]].
    + left. exists tid. split; [lia | exact Hat].
    + right. split; [exact He | lia].
  - inversion H. right. split; [reflexivity |].
    apply nth_error_None in E. lia.
Qed.

(** Property X13.  No exception leaves the parallel region of a worker: the
    four workers of the one-to-one rule and the [connect_] workers of the
    fixed-indegree and symmetric Bernoulli rules never throw, whatever the
    state they start from.  Hence an exception that [disconnect()] throws on
    the one-to-one rule is always the content of an exception slot of a
    thread, or the [std::out_of_range] of [exceptions_raised_.at( tid )]
    when the builder has fewer slots than the kernel has threads. *)
Theorem workers_never_throw (K : Kernel) (fuel : nat) (requires_proxies : bool)
    (indegree : NestParameter) (p : double) :
  never_throws (OneToOneBuilder_connect_ K requires_proxies)
  /\ never_throws (OneToOneBuilder_disconnect_ K)
  /\ never_throws (OneToOneBuilder_sp_connect_ K requires_proxies)
  /\ never_throws (OneToOneBuilder_sp_disconnect_ K)
  /\ never_throws (FixedInDegreeBuilder_connect_ K fuel requires_proxies indegree)
  /\ never_throws (SymmetricBernoulliBuilder_connect_ K fuel requires_proxies p)
  /\ (forall w e w',
         ConnBuilder_disconnect K (OneToOneBuilder_methods K requires_proxies) w
         = (Throw e, w') ->
         (exists tid,
             tid < get_num_threads K
             /\ nth_error (exceptions_raised_ (builder w')) tid = Some (Some e))
         \/ (e = out_of_range "vector::at"
             /\ List.length (exceptions_raised_ (builder w')) < get_num_threads K)).
Proof.
  split; [region_never_throws OneToOneBuilder_connect_ |].
  split; [apply OneToOneBuilder_disconnect__never_throws |].
  split; [region_never_throws OneToOneBuilder_sp_connect_ |].
  split; [apply OneToOneBuilder_sp_disconnect__never_throws |].
  split; [region_never_throws FixedInDegreeBuilder_connect_ |].
  split; [region_never_throws SymmetricBernoulliBuilder_connect_ |].
  intros w e w' H.
  unfold ConnBuilder_disconnect, bind in H.
  destruct (ConnBuilder_disconnect_dispatch (OneToOneBuilder_methods K requires_proxies) w)
    as [[[] | err | why |] w1] eqn:Hdispatch; try discriminate.
  - unfold check_exceptions_raised in H.
    assert (Ew : w' = w1) by (inversion H; reflexivity). subst w1.
    assert (Hslots : rethrow_from (exceptions_raised_ (builder w')) 0 (get_num_threads K)
                     = Throw e) by (inversion H; reflexivity).
    destruct (rethrow_from_Throw_inv _ _ _ _ Hslots) as [[tid [Htid Hat]] | [He Hlen]].
    + left. exists tid. split; [lia | exact Hat].
    + right. split; [exact He | lia].
  - exfalso. unfold ConnBuilder_disconnect_dispatch, bind, get_builder in Hdispatch.
    cbn [sp_disconnect_ disconnect_ OneToOneBuilder_methods] in Hdispatch.
    destruct (use_structural_plasticity_ (builder w)).
    + exact (OneToOneBuilder_sp_disconnect__never_throws K w err w1 Hdispatch).
    + exact (OneToOneBuilder_disconnect__never_throws K w err w1 Hdispatch).
Qed.

(** ** The edges of a fixed-indegree build *)

Section FixedInDegreeSound.

Variable K : Kernel.
Hypothesis consistent : Kernel_consistent K.

Lemma respects_FixedInDegreeBuilder_inner_loop_accepted (F : Frame) fuel requires_proxies b
    rng target tnode_id target_thread :
  rng_ok F rng ->
  (forall s,
      In s (node_ids (sources_ b)) ->
      (allow_autapses_ b = false -> s <> tnode_id) ->
      conn_ok F s (get_node_id target)) ->
  forall remaining ch_ids,
    respects F
      (FixedInDegreeBuilder_inner_loop K fuel requires_proxies b rng target tnode_id
         target_thread remaining ch_ids).
Proof.
  intros Hrng Hconn. induction remaining as [| remaining IH]; intros ch_ids; simpl.
  - apply respects_ret.
  - intros w. unfold bind at 1.
    pose proof (respects_FixedInDegreeBuilder_draw_source K F fuel b rng tnode_id Hrng
                  ch_ids w) as Hdrawn.
    destruct (FixedInDegreeBuilder_draw_source K fuel b rng tnode_id ch_ids w)
      as [[[s_id snode_id] | e | why |] w1] eqn:Hdraw; try exact Hdrawn.
    destruct (FixedInDegreeBuilder_draw_source_accepted K _ _ _ _ _ _ _ _ _ Hdraw)
      as [Hat [Hauto _]].
    eapply related_trans; [exact Hdrawn |].
    apply respects_bind.
    + apply respects_single_connect_; [exact Hrng |].
      apply Hconn; [eapply nc_at_In; exact Hat | exact Hauto].
    + intros _. apply IH.
Qed.

Lemma respects_FixedInDegreeBuilder_connect_thread_sound fuel requires_proxies indegree b tid :
  respects
    (emits_frame
       (fun s t =>
          In s (node_ids (sources_ b)) /\ In t (node_ids (targets_ b))
          /\ (allow_autapses_ b = false -> s <> t)))
    (FixedInDegreeBuilder_connect_thread K fuel requires_proxies indegree b tid).
Proof.
  set (P := fun s t : Z =>
              In s (node_ids (sources_ b)) /\ In t (node_ids (targets_ b))
              /\ (allow_autapses_ b = false -> s <> t)).
  assert (Hinner : forall target tnode_id skip indegree_value,
             get_node_id target = tnode_id ->
             In tnode_id (node_ids (targets_ b)) ->
             respects (emits_frame P)
               (FixedInDegreeBuilder_inner_connect_ K fuel requires_proxies b tid
                  (get_vp_specific_rng tid) target tnode_id skip indegree_value)).
  { intros target tnode_id skip indegree_value Hid Hin.
    unfold FixedInDegreeBuilder_inner_connect_.
    destruct (negb (Nat.eqb tid (get_thread target))).
    - destruct skip; [apply respects_skip_conn_parameter_ | apply respects_ret].
    - apply respects_FixedInDegreeBuilder_inner_loop_accepted; [exact I |].
      intros s Hs Hne. simpl. unfold P. rewrite Hid.
      split; [exact Hs |]. split; [exact Hin | exact Hne]. }
  unfold FixedInDegreeBuilder_connect_thread.
  destruct (loop_over_targets_ K b).
  - apply respects_for_each. intros t Ht.
    apply respects_bind; [apply respects_NestParameter_value; exact I |]. intros v.
    destruct (is_proxy (get_node_or_proxy K t tid)) eqn:Hproxy;
      [apply respects_skip_conn_parameter_ |].
    apply Hinner; [exact (node_id_of_local K consistent t tid Hproxy) | exact Ht].
  - apply respects_for_each. intros n _.
    destruct (get_lid (targets_ b) (get_node_id n) <? 0)%Z eqn:Hlid; [apply respects_ret |].
    apply respects_bind; [apply respects_NestParameter_value; exact I |]. intros v.
    apply Hinner; [reflexivity |].
    apply Z.ltb_ge in Hlid.
    destruct (find_lid_found (node_ids (targets_ b)) (get_node_id n) 0%Z (Z.le_refl 0) Hlid)
      as [i [_ Hi]].
    eapply nth_error_In. exact Hi.
Qed.

End FixedInDegreeSound.

(** Property X14.  On a consistent kernel, whatever a build of the
    fixed-indegree rule hands to the storage - also a build that fails or
    never ends - joins a node of the source collection to a node of the
    target collection; with autapses disallowed, never a node to itself.
    Connections that were stored before stay. *)
Theorem fixed_indegree_edges_are_sound (K : Kernel) (fuel : nat) (requires_proxies : bool)
    (indegree : NestParameter) (w : World) :
  Kernel_consistent K ->
  exists new,
    connections (snd (FixedInDegreeBuilder_connect_ K fuel requires_proxies indegree w))
    = new ++ connections w
    /\ Forall (fun c =>
                 In (conn_source c) (node_ids (sources_ (builder w)))
                 /\ In (conn_target c) (node_ids (targets_ (builder w)))
                 /\ (allow_autapses_ (builder w) = false -> conn_source c <> conn_target c))
         new.
Proof.
  intros Hcons.
  set (P := fun s t : Z =>
              In s (node_ids (sources_ (builder w)))
              /\ In t (node_ids (targets_ (builder w)))
              /\ (allow_autapses_ (builder w) = false -> s <> t)).
  assert (H : related (emits_frame P) w
                (snd (FixedInDegreeBuilder_connect_ K fuel requires_proxies indegree w))).
  { unfold FixedInDegreeBuilder_connect_, bind, get_builder. cbn [fst snd].
    apply (respects_omp_parallel K (emits_frame P)). intros tid _.
    apply (respects_try_catch _ (admits_capture_emits_frame P)).
    apply respects_FixedInDegreeBuilder_connect_thread_sound. exact Hcons. }
  exact H.
Qed.

Lemma fixed_indegree_edges_are_sound_witness :
  let K := scenario_kernel 2 4 in
  let spec := [ ("allow_autapses"%string, BoolDatum false);
                ("indegree"%string, IntegerDatum 2) ] in
  let w := initial_world (scenario_builder K (node_range 1 3) (node_range 2 3) spec) in
  let w' := snd (FixedInDegreeBuilder_connect_ K 20 false (ConstantParameter 2) w) in
  edges w' <> []
  /\ Forall (fun c => In (conn_source c) [1; 2; 3]%Z /\ In (conn_target c) [2; 3; 4]%Z
                      /\ conn_source c <> conn_target c) (connections w').
Proof.
  intros K spec w w'.
  split; [vm_compute; discriminate |].
  destruct (fixed_indegree_edges_are_sound K 20 false (ConstantParameter 2) w
              (scenario_kernel_consistent 2 4)) as [new [Enew Hnew]].
  fold w' in Enew. rewrite Enew.
  change (connections w) with (@nil Connection). rewrite app_nil_r.
  apply Forall_forall. intros c Hc. rewrite Forall_forall in Hnew.
  destruct (Hnew c Hc) as [Hs [Ht Hne]].
  split; [exact Hs |]. split; [exact Ht |]. apply Hne. vm_compute. reflexivity.
Defined.

(** ** Scalar parameters *)

Lemma fold_left_andb {A} (f : A -> bool) (l : list A) :
  forall acc, fold_left (fun acc x => acc && f x) l acc = acc && forallb f l.
Proof.
  induction l as [| x l IH]; intros acc; simpl.
  - rewrite andb_true_r. reflexivity.
  - rewrite IH, andb_assoc. reflexivity.
Qed.

Lemma fold_left_scalar_if_present (l : list (option ConnParameter)) :
  forall acc,
    fold_left (fun acc o => match o with Some p => acc && is_scalar p | None => acc end) l acc
    = acc && forallb scalar_if_present l.
Proof.
  induction l as [| o l IH]; intros acc; simpl.
  - rewrite andb_true_r. reflexivity.
  - rewrite IH. destruct o; simpl; [rewrite andb_assoc |]; reflexivity.
Qed.

Lemma fold_left_maps_scalar (ms : list ConnParameterMap) :
  forall acc,
    fold_left (fun acc params =>
                 fold_left (fun acc (np : string * ConnParameter) => acc && is_scalar (snd np))
                   params acc) ms acc
    = acc && forallb (forallb (fun np : string * ConnParameter => is_scalar (snd np))) ms.
Proof.
  induction ms as [| m ms IH]; intros acc; simpl.
  - rewrite andb_true_r. reflexivity.
  - rewrite IH, fold_left_andb, andb_assoc. reflexivity.
Qed.

(** Property X15.  [all_parameters_scalar_()] returns [true] exactly when
    every weight and every delay that is present and every synapse parameter
    of every synapse type is a scalar; absent weights and delays, and
    synapse types without parameters, do not count against it. *)
Theorem all_parameters_scalar_iff (b : ConnBuilder) :
  all_parameters_scalar_ b = true <->
  (forall p, In (Some p) (weights_ b) -> is_scalar p = true)
  /\ (forall p, In (Some p) (delays_ b) -> is_scalar p = true)
  /\ (forall m name p, In m (synapse_params_ b) -> In (name, p) m -> is_scalar p = true).
Proof.
  unfold all_parameters_scalar_.
  rewrite fold_left_maps_scalar, !fold_left_scalar_if_present.
  cbn [andb]. rewrite !andb_true_iff, !forallb_forall.
  split.
  - intros [[Hw Hd] Hm]. split; [| split].
    + intros p Hp. exact (Hw (Some p) Hp).
    + intros p Hp. exact (Hd (Some p) Hp).
    + intros m name p Hin Hnp. specialize (Hm m Hin). rewrite forallb_forall in Hm.
      exact (Hm (name, p) Hnp).
  - intros [Hw [Hd Hm]]. split; [split |].
    + intros [p |] Hp; [exact (Hw p Hp) | reflexivity].
    + intros [p |] Hp; [exact (Hd p Hp) | reflexivity].
    + intros m Hin. apply forallb_forall. intros [name p] Hnp. exact (Hm m name p Hin Hnp).
Qed.
